(* ===== verification/_CoqProject ===== *)
-Q . S2P
Prelude.v
Utils.v
Results.v
Clock.v
Counters.v
SharedCounters.v
Avl.v
AvlTrees.v
AvlOps.v
MapStore.v
Messages.v
Codec.v
Config.v
Connection.v
Server.v
SharedLocks.v
Queues.v
Service.v
Ring.v
RingProofs.v
Partitions.v
Files.v
Compaction.v
Segments.v
Oplog.v
Cluster.v
ClusterFacade.v
OperatorTypes.v
Operators.v
Dispatcher.v
Invariants.v
Paxos.v
OperatorFacts.v
CounterReplication.v
SyncReceiver.v
Membership.v
Setup.v
Start.v
MembershipFacts.v
Recovery.v
UnitTests.v
