(* ===== verification/Prelude.v ===== *)
(** * MemDB: a verification development

    MemDB is a replicated in-memory key-value store written in C++.  A node accepts framed
    requests over TCP, authenticates them, dispatches them to operators, stores keys in the
    hash map of a partition, appends writes to an operation log on disk, and replicates them
    to the other nodes of the partition.  This development models the server under
    [src/core/src] as Rocq functions and proves the properties that make its parts correct,
    together with the places where the code does not do what it is meant to.

    ** How the code is modelled

    Code that can fail returns an [outcome]: a value, an exception, undefined behaviour (a null
    or dangling dereference, an index out of range, a signed overflow), a lock that is never
    released, or an exhausted loop bound.  Stateful code is a function of type [stM S A], state
    passing over outcomes; a call that throws has no resulting state.  Machine integers are
    [Z] with their wrap-around written out ([u8] ... [i64]); bytes are [Z] in [0, 256);
    [SimpleString] keeps its buffer and its size field apart.  Objects that are shared by
    pointer (AVL nodes and values, ring entries, queue nodes) live in heaps indexed by location.
    Concurrent code (the clock, [SharedLock], the server with its connections and workers) is
    modelled over all interleavings of its steps; the other components run one call at a time, and
    what the scheduler decides (the order of the request pool, what a waiting thread sees) is a
    parameter.  An asynchronous write is recorded as started; what becomes of it is left open.

    What the code calls but does not define is a parameter with its documented laws:
    [Platform] (conversions the C++ standard leaves to the target), [Socket] (how many
    bytes a synchronous write takes), [Zlib]/[ZlibSpec], MD5, [std::rand], the wait-free queue of the log buffer.
    Components meet at interfaces: the server runs requests through a [Dispatcher] (an
    [Executor] where workers may interrupt each other inside it), the cluster
    reaches other nodes through a [Network], and membership changes reach a node through its
    [ChangeHandlers]; [Dispatcher.node_dispatcher], [Cluster.node_network] and
    [Membership.installed] implement them.  The class [Respects] states that a computation keeps
    a relation on its state; the invariants over everything a node serves are its instances.

    ** Files

    - [Prelude]: outcomes, the state monad, machine integers, big-endian bytes, tactics and
      shared lemmas.
    - [Utils]: [utils/Utils.h], [SimpleString], the ring digest.
    - [Results]: [utils/std/Result.h] and the helpers that catch exceptions and retry.
    - [Clock]: [utils/clock/LamportClock.cpp], sequentially and as a step relation.
    - [Counters]: [db/counters/], the replicated counter.
    - [SharedCounters]: the same counter with its raw pointers on a heap, and copies of it that
      share arrays; refined by [Counters].
    - [Avl], [AvlTrees], [AvlOps]: [db/AVLTree.h] on a heap, the trees it represents, and its
      operations refined to a map from hashes to values.
    - [MapStore]: [db/Map.h] and [db/MemDbStores.cpp].
    - [Messages], [Codec]: requests and responses, the wire formats and the log's format.
    - [Config]: configuration, program arguments, the authenticator.
    - [Connection], [Server]: packet framing and [TCPServer::onNewRequest].
    - [SharedLocks], [Queues]: the reader-writer lock, the blocking queue, workers, thread pool
      and latch.
    - [Service]: [TCPServer] at work: connections, arriving packets and the single steps of
      workers that run at the same time as events.
    - [Ring], [RingProofs], [Partitions]: the hash ring as a linked structure, and partitions.
    - [Files], [Compaction], [Segments], [Oplog]: file utilities, log compaction, the segment
      index with its binary search and repair, iterators, the logs themselves, hints on disk.
    - [Cluster]: node connections, responses of several nodes, [ClusterNodes], the
      configuration message.
    - [ClusterFacade]: [cluster/Cluster.cpp].
    - [OperatorTypes], [Operators]: descriptors, registry, the state of a node, and what each
      of the nineteen operators does to it ([operators/]).
    - [Dispatcher]: [operators/OperatorDispatcher.cpp].
    - [Invariants]: relations on nodes that everything the dispatcher does respects.
    - [Paxos], [OperatorFacts]: promises of compare-and-set acceptors over everything a node
      serves, and the messages operators exchange.
    - [CounterReplication]: the tasks and the callback of [UpdateCounterOperator::replicate], in
      any order, on the memory they share with the stored counter.
    - [SyncReceiver]: the receiving side of a log transfer.
    - [Membership]: [cluster/changehandler/] and
      [cluster/partitions/PartitionNeighborsNodesSetter.cpp], the handlers of joining and
      leaving nodes.
    - [Setup], [Start]: [cluster/setup/], [MemDbCreator.cpp] and [MemDb.cpp], from the
      configuration to a running node.
    - [MembershipFacts], [Recovery]: the nodes of every partition over the life of a node, the
      entries moved between nodes, and what a restart serves.
    - [UnitTests]: the tests of [core/tst], with their inputs and assertions, evaluated on the
      definitions above; a test that does not hold is stated as such.

    Every file's opening comment names the sources it models; definitions keep the names of
    the functions they translate, inside a module named after the class.

    ** What the theorems show

    - Storage: [AVLTree::addData] and [Map::putData] implement an update of a finite map on
      every branch; lookups are logarithmic; iteration is in hash order; a SET followed by a
      GET through the dispatcher returns the value.
    - Recovery: a node created and run on the files of an earlier run serves the newest logged
      write of every key; a write that was answered and flushed survives a crash.
    - Service: whatever the interleaving of connections, packets and workers, no packet is lost,
      run twice or answered twice, only authenticated ones reach the node, and the writes
      started on a connection are the answers to its packets; a request over the wire is a call
      of the dispatcher.  That requests executed at the same time have the effect of some order
      is not claimed; the example of two workers shows an update that is lost.
    - Time and counters: concurrent clock operations are linearizable and ticks unique;
      replicated counters converge and stay well-formed; the counter with its pointers refines
      the counter of values; whatever the order of the tasks of a replication, the stored
      counter gets the answers that arrive after the callback is registered, up to the first
      that makes the callback's copy grow; an exchange between two nodes joins the new total,
      answers the increments not seen, and compares the decrements with a misread argument.
    - Wire and disk: requests, responses, frames, log records, segments and the cluster's
      configuration are read back as written, within the sizes stated; compaction keeps the
      last operation of every key, sequentially and in parallel; the binary search ends.
    - Distribution: the ring places keys as consistent hashing does, log numbers are translated
      between nodes but for two exact cases, quorums intersect, and an acceptor keeps its
      promises; from creation on, over every request served, the nodes listed in a partition are
      nodes the cluster knows; the entries moved to another node arrive.
    - Control: only authenticated and authorised requests run, a refused request changes
      nothing, registered operators match their descriptors.
    - Concurrency: mutual exclusion of the shared lock, first-in first-out queues, draining.
    Theorems that are stated without a property number record defects (a lock that is leaked,
    a removal that loses entries, a search that does not end, arguments read at the wrong
    place, a second start that reads past a buffer and so on).

    ** Bounds and fuel

    Loops that recurse on data are structural.  Loops whose number of rounds depends on the
    world take fuel, and their theorems say how much is enough: the binary search needs the
    logarithm of the segments, tree walks the height, the serialiser's one-byte counter 257
    rounds, oplog iteration and the replay at start one round per segment.  Loops that wait for other nodes (retries
    until success, prepare rounds, random selection) have no bound in the code; [NoFuel] is
    not an outcome of the code, and no theorem takes it for a result.

    ** Not modelled

    Whether and when the socket sends the buffers of asynchronous writes (the code passes local
    vectors that may be gone by then).  Data races of operators inside the dispatcher: they run
    one call at a time in every file but [Service], which does not say where they can be
    interrupted.  The log line of PREPARE, which reads an empty optional, and the lock of the
    segment writer, which an exception leaves locked.  What a synchronisation task that throws
    leaves of a node is a parameter of [Start].  Unlocking a [std::mutex] of another thread is a
    release, and freed nodes of a tree stay readable.
    The tasks of a counter's replication are atomic steps: the races of two tasks on the vector
    of arguments they share, inside one step, are not modelled.
    [BufferOneConsumer] is a template that is never instantiated and whose [dequeue] names a
    field that does not exist.  Logging, printing ([Utils::printVector], [Request::toString]),
    name resolution and the signal handler only do input and output; sockets, threads and the
    asio loop appear as parameters and event lists, socket options have no effect in the model.
    Move and copy constructors copy values.  Of the tests, [OperatorDisptacherTest.cpp] is commented
    out and [SyncOplogOperatorTest] mocks an interface the code no longer has.  The Java client,
    the Go cluster manager and deployment files are other programs. *)
From Stdlib Require Export ZArith Lia.
From stdpp Require Export base gmap list strings fin_maps.

Declare Scope memdb_scope.
Delimit Scope memdb_scope with memdb.

(** ** Outcomes of a C++ computation *)

(** The standard exceptions the modelled code raises. *)
Inductive exn :=
| out_of_range
| runtime_error
| invalid_argument
| bad_alloc
| interrupted
| length_error
| bad_optional_access.

(** What running a C++ function can do: return a value, raise an exception, run
    into undefined behaviour (a null or dangling dereference, an unchecked index
    out of range, a signed overflow), block for ever on a lock nobody releases,
    or exhaust the fuel of a loop. *)
Inductive outcome (A : Type) :=
| Ret (a : A)
| Throw (e : exn)
| Undef
| Blocked
| NoFuel.
Arguments Ret {A} a.
Arguments Throw {A} e.
Arguments Undef {A}.
Arguments Blocked {A}.
Arguments NoFuel {A}.

Definition obind {A B} (c : outcome A) (k : A → outcome B) : outcome B :=
  match c with
  | Ret a => k a
  | Throw e => Throw e
  | Undef => Undef
  | Blocked => Blocked
  | NoFuel => NoFuel
  end.

Notation "'let!' x ':=' c 'in' k" := (obind c (λ x, k))
  (at level 10, x pattern, c at level 100, k at level 200) : memdb_scope.
Open Scope memdb_scope.

(** [nth] access that is undefined outside the range ([operator[]] on a vector). *)
Definition at_undef {A} (l : list A) (i : nat) : outcome A :=
  match l !! i with Some a => Ret a | None => Undef end.

(** [std::vector::at]. *)
Definition at_throw {A} (l : list A) (i : nat) : outcome A :=
  match l !! i with Some a => Ret a | None => Throw out_of_range end.

(** [std::optional::value] and [std::map::at]. *)
Definition of_option {A} (e : exn) (o : option A) : outcome A :=
  match o with Some a => Ret a | None => Throw e end.

(** The [size] elements from position [pos] on; undefined when the buffer is shorter. *)
Definition slice {A} (l : list A) (pos size : nat) : outcome (list A) :=
  if decide (pos + size ≤ length l)%nat then Ret (take size (drop pos l)) else Undef.

(** Left-to-right iteration of a fallible body over a vector. *)
Fixpoint ofoldl {A S} (f : S → A → outcome S) (s : S) (l : list A) : outcome S :=
  match l with
  | [] => Ret s
  | a :: l => let! s := f s a in ofoldl f s l
  end.

(** Stateful code: explicit state passing over outcomes, with stdpp's [x ← m; k]. *)
Definition stM (S A : Type) : Type := S → outcome (S * A).

#[export] Instance stM_ret S : MRet (stM S) := λ A a s, Ret (s, a).
#[export] Instance stM_bind S : MBind (stM S) := λ A B k m s, obind (m s) (λ '(s, a), k a s).

Definition get_st {S} : stM S S := λ s, Ret (s, s).
Definition modify {S} (f : S → S) : stM S () := λ s, Ret (f s, ()).
Definition lift {S A} (c : outcome A) : stM S A := λ s, obind c (λ a, Ret (s, a)).

(** ** Machine integers *)

Open Scope Z_scope.

Definition wrap (n : Z) (z : Z) : Z := z mod 2 ^ n.
Definition sext (n : Z) (z : Z) : Z := (z + 2 ^ (n - 1)) mod 2 ^ n - 2 ^ (n - 1).
Abbreviation u8 := (wrap 8).
Abbreviation u16 := (wrap 16).
Abbreviation u32 := (wrap 32).
Abbreviation u64 := (wrap 64).
Abbreviation i16 := (sext 16).
Abbreviation i32 := (sext 32).
Abbreviation i64 := (sext 64).

(** [z] is representable in [n] unsigned bits. *)
Definition ufits (n : Z) (z : Z) : Prop := 0 ≤ z < 2 ^ n.
(** [z] is representable in [n] signed bits. *)
Definition sfits (n : Z) (z : Z) : Prop := - 2 ^ (n - 1) ≤ z < 2 ^ (n - 1).

#[export] Instance ufits_dec n z : Decision (ufits n z).
Proof. unfold ufits. apply _. Defined.
#[export] Instance sfits_dec n z : Decision (sfits n z).
Proof. unfold sfits. apply _. Defined.

(** Signed 64-bit arithmetic, undefined on overflow. *)
Definition checked_i64 (z : Z) : outcome Z := if decide (sfits 64 z) then Ret z else Undef.

(** ** Bytes *)

Abbreviation bytes := (list Z).
Definition byte_ok (b : Z) : Prop := 0 ≤ b < 256.

(** Big-endian encoding of the low [n] bytes of [v], and its inverse. *)
Fixpoint be_bytes (n : nat) (v : Z) : bytes :=
  match n with
  | O => []
  | S n => u8 (Z.shiftr v (8 * Z.of_nat n)) :: be_bytes n v
  end.

Fixpoint be_value (l : bytes) : Z :=
  match l with
  | [] => 0
  | b :: l => Z.lor (Z.shiftl b (8 * Z.of_nat (length l))) (be_value l)
  end.

(** ** Tactics and hint databases *)

Create HintDb memdb.

(** Split an equation [obind c k = Ret r] into the runs of [c] and [k]. *)
Ltac inv_ret :=
  repeat match goal with
  | H : obind ?c _ = Ret _ |- _ =>
      let E := fresh "E" in destruct c eqn:E; simpl in H; try discriminate H
  | H : (let '(_, _) := ?p in _) = Ret _ |- _ => destruct p
  | H : Ret _ = Ret _ |- _ => injection H as H; subst
  | H : (_, _) = (_, _) |- _ => injection H as ?; subst
  end.

(** Evaluate a closed statement. *)
Ltac eval_closed := vm_compute; first [reflexivity | tauto | lia].

(** ** Generic lemmas *)

Lemma stM_bind_Ret {S A B} (m : stM S A) (k : A → stM S B) s s' a :
  m s = Ret (s', a) → (m ≫= k) s = k a s'.
Proof. intros E. unfold mbind, stM_bind. by rewrite E. Qed.

Lemma stM_bind_inv {S A B} (m : stM S A) (k : A → stM S B) s r :
  (m ≫= k) s = Ret r → ∃ s' a, m s = Ret (s', a) ∧ k a s' = Ret r.
Proof.
  unfold mbind, stM_bind. destruct (m s) as [[s' a]| | | |]; simpl; [|done..]. by exists s', a.
Qed.

Lemma wrap_small n z : ufits n z → wrap n z = z.
Proof. intros [H1 H2]. unfold wrap. by apply Z.mod_small. Qed.

Lemma wrap_ufits n z : 0 ≤ n → ufits n (wrap n z).
Proof. intros Hn. unfold ufits, wrap. apply Z.mod_pos_bound. lia. Qed.

Lemma wrap_wrap n z : 0 ≤ n → wrap n (wrap n z) = wrap n z.
Proof. intros Hn. by apply wrap_small, wrap_ufits. Qed.

Lemma sext_small n z : 0 < n → sfits n z → sext n z = z.
Proof.
  intros Hn [H1 H2]. unfold sext.
  assert (2 ^ n = 2 * 2 ^ (n - 1)) as E by (rewrite <- Z.pow_succ_r by lia; f_equal; lia).
  rewrite Z.mod_small by lia. lia.
Qed.

Lemma sext_sfits n z : 0 < n → sfits n (sext n z).
Proof.
  intros Hn. unfold sfits, sext.
  assert (2 ^ n = 2 * 2 ^ (n - 1)) as E by (rewrite <- Z.pow_succ_r by lia; f_equal; lia).
  assert (0 < 2 ^ n) by lia.
  pose proof (Z.mod_pos_bound (z + 2 ^ (n - 1)) (2 ^ n)). lia.
Qed.

Lemma checked_i64_ok z : sfits 64 z → checked_i64 z = Ret z.
Proof. intros H. unfold checked_i64. by rewrite decide_True. Qed.

Lemma ufits_mono n m z : n ≤ m → ufits n z → ufits m z.
Proof.
  intros Hnm [H1 H2]. split; [lia|].
  eapply Z.lt_le_trans; [done|]. by apply Z.pow_le_mono_r.
Qed.

(** Disjoint bits: the disjunction is the sum. *)
Lemma lor_shiftl_add b k r : 0 ≤ k → 0 ≤ r < 2 ^ k → Z.lor (Z.shiftl b k) r = b * 2 ^ k + r.
Proof.
  intros Hk Hr. rewrite <- Z.shiftl_mul_pow2 by lia.
  rewrite <- (Z.add_lor_land (Z.shiftl b k) r).
  assert (Z.land (Z.shiftl b k) r = 0) as ->; [|lia].
  apply Z.bits_inj'; intros i Hi. rewrite Z.land_spec, Z.bits_0.
  destruct (decide (i < k)).
  - rewrite Z.shiftl_spec_low by lia. done.
  - rewrite <- (Z.mod_small r (2 ^ k)) by lia.
    rewrite Z.mod_pow2_bits_high by lia. by rewrite andb_false_r.
Qed.

Lemma length_be_bytes n v : length (be_bytes n v) = n.
Proof. induction n as [|n IH]; simpl; [done|by rewrite IH]. Qed.

Lemma be_bytes_ok n v : Forall byte_ok (be_bytes n v).
Proof.
  induction n as [|n IH]; simpl; constructor; [|done].
  apply (wrap_ufits 8); lia.
Qed.

Lemma be_value_bound l : Forall byte_ok l → 0 ≤ be_value l < 2 ^ (8 * Z.of_nat (length l)).
Proof.
  induction 1 as [|b l [Hb1 Hb2] _ IH]; simpl be_value; simpl length; [done|].
  rewrite lor_shiftl_add by (try lia; done).
  replace (8 * Z.of_nat (S (length l))) with (8 + 8 * Z.of_nat (length l)) by lia.
  rewrite Z.pow_add_r by lia. change (2 ^ 8) with 256. nia.
Qed.

Lemma be_value_bytes n v : be_value (be_bytes n v) = wrap (8 * Z.of_nat n) v.
Proof.
  induction n as [|n IH]; simpl be_bytes; simpl be_value.
  - unfold wrap. by rewrite Z.mod_1_r.
  - rewrite length_be_bytes, IH.
    rewrite lor_shiftl_add by (try lia; apply wrap_ufits; lia).
    unfold wrap. rewrite Z.shiftr_div_pow2 by lia.
    replace (8 * Z.of_nat (S n)) with (8 * Z.of_nat n + 8) by lia.
    rewrite Z.pow_add_r by lia.
    rewrite (Z.rem_mul_r v (2 ^ (8 * Z.of_nat n)) (2 ^ 8)) by lia. lia.
Qed.

Lemma be_value_bytes_small n v : ufits (8 * Z.of_nat n) v → be_value (be_bytes n v) = v.
Proof. intros H. rewrite be_value_bytes. by apply wrap_small. Qed.

(** Reading the first [length l] elements of [l ++ rest]. *)
Lemma lookup_app_pos {A} (pre l post : list A) (i : nat) :
  (i < length l)%nat → (pre ++ l ++ post) !! (length pre + i)%nat = l !! i.
Proof.
  intros Hi. rewrite lookup_app_r by lia.
  replace (length pre + i - length pre)%nat with i by lia.
  by rewrite lookup_app_l.
Qed.

Lemma Ret_inj {A} (a b : A) : Ret a = Ret b → a = b.
Proof. by intros [= ->]. Qed.

Lemma of_option_Some {A} e (o : option A) a : o = Some a → of_option e o = Ret a.
Proof. by intros ->. Qed.

Lemma at_undef_Some {A} (l : list A) i a : l !! i = Some a → at_undef l i = Ret a.
Proof. unfold at_undef. by intros ->. Qed.

Lemma at_throw_Some {A} (l : list A) i a : l !! i = Some a → at_throw l i = Ret a.
Proof. unfold at_throw. by intros ->. Qed.

Lemma ofoldl_app {A S} (f : S → A → outcome S) s l1 l2 :
  ofoldl f s (l1 ++ l2) = obind (ofoldl f s l1) (λ s', ofoldl f s' l2).
Proof.
  revert s. induction l1 as [|a l1 IH]; intros s; simpl; [done|].
  destruct (f s a); simpl; [apply IH|done..].
Qed.

Lemma wrap_spec n z i : 0 ≤ n → 0 ≤ i → Z.testbit (wrap n z) i = (i <? n) && Z.testbit z i.
Proof.
  intros Hn Hi. unfold wrap. destruct (Z.ltb_spec i n).
  - by rewrite Z.mod_pow2_bits_low by lia.
  - by rewrite Z.mod_pow2_bits_high by lia.
Qed.

Lemma wrap_lor n a b : 0 ≤ n → wrap n (Z.lor a b) = Z.lor (wrap n a) (wrap n b).
Proof.
  intros Hn. apply Z.bits_inj'; intros i Hi.
  rewrite Z.lor_spec, !wrap_spec, Z.lor_spec by lia. by destruct (i <? n).
Qed.

Lemma wrap_sext n z : 0 < n → wrap n (sext n z) = wrap n z.
Proof.
  intros Hn. unfold wrap, sext. rewrite Zminus_mod_idemp_l. f_equal. lia.
Qed.

Lemma sext_wrap n z : 0 < n → sext n (wrap n z) = sext n z.
Proof. intros Hn. unfold wrap, sext. by rewrite Zplus_mod_idemp_l. Qed.

Lemma wrap_wrap_le n m z : 0 ≤ n ≤ m → wrap n (wrap m z) = wrap n z.
Proof.
  intros H. apply Z.bits_inj'; intros i Hi. rewrite !wrap_spec by lia.
  destruct (Z.ltb_spec i n), (Z.ltb_spec i m); simpl; try done; lia.
Qed.

(** A [size]-element read inside the buffer. *)
Lemma slice_app {A} (pre l post : list A) :
  slice (pre ++ l ++ post) (length pre) (length l) = Ret l.
Proof.
  unfold slice. rewrite decide_True by (rewrite !length_app; lia).
  by rewrite drop_app_length, take_app_length.
Qed.

Lemma be_value_app l1 l2 :
  be_value (l1 ++ l2) = Z.lor (Z.shiftl (be_value l1) (8 * Z.of_nat (length l2))) (be_value l2).
Proof.
  induction l1 as [|b l1 IH]; simpl.
  - by rewrite Z.shiftl_0_l.
  - rewrite IH, Z.shiftl_lor, Z.shiftl_shiftl, length_app by lia.
    rewrite Z.lor_assoc. do 3 f_equal. lia.
Qed.

Lemma be_value_snoc l b : be_value (l ++ [b]) = Z.lor (Z.shiftl (be_value l) 8) b.
Proof. rewrite be_value_app. simpl. by rewrite Z.shiftl_0_r, Z.lor_0_r. Qed.

#[export] Hint Resolve wrap_ufits wrap_small be_bytes_ok : memdb.

(** ** Concrete runs *)

(** The result of a run that is known to return. *)
Definition returned {A} (d : A) (c : outcome A) : A := match c with Ret a => a | _ => d end.
Definition returns {A} (c : outcome A) : bool := match c with Ret _ => true | _ => false end.

Lemma returned_eq {A} (d : A) (c : outcome A) : returns c = true → c = Ret (returned d c).
Proof. by destruct c. Qed.

Lemma returned_pair {A B} (d : A * B) (c : outcome (A * B)) b :
  returns c = true → (returned d c).2 = b → c = Ret ((returned d c).1, b).
Proof. intros H <-. rewrite (returned_eq d c H) at 1. by destruct (returned d c). Qed.

(** ** Computations and relations

    A computation respects a relation when every run of it relates the state it starts in to the
    state it ends in. *)

Section respects.
Context {S : Type} (R : relation S).

Class Respects {A} (m : stM S A) : Prop := respects : ∀ s s' a, m s = Ret (s', a) → R s s'.

Context `{!PreOrder R}.

#[global] Instance respects_ret {A} (a : A) : Respects (mret a).
Proof. intros s s' a' [= <- <-]. reflexivity. Qed.

#[global] Instance respects_bind {A B} (m : stM S A) (k : A → stM S B) :
  Respects m → (∀ a, Respects (k a)) → Respects (m ≫= k).
Proof.
  intros Hm Hk s s' b E. apply stM_bind_inv in E as (s1 & a & E1 & E2). transitivity s1; [by eapply Hm|by eapply Hk].
Qed.

#[global] Instance respects_lift {A} (c : outcome A) : Respects (lift c).
Proof. intros s s' a E. unfold lift in E. inv_ret. reflexivity. Qed.

#[global] Instance respects_get : Respects get_st.
Proof. intros s s' a [= <- <-]. reflexivity. Qed.

Lemma respects_modify (f : S → S) : (∀ s, R s (f s)) → Respects (modify f).
Proof. intros Hf s s' a [= <- <-]. apply Hf. Qed.

End respects.

(** A case distinction, wherever the search for an instance meets one. *)
#[export] Hint Extern 5 (Respects _ (match ?x with _ => _ end)) => destruct x : typeclass_instances.

(** Follow the structure of a computation. *)
Ltac respects :=
  intros;
  repeat first
    [ apply _
    | apply respects_bind; [apply _| |intros]
    | progress cbv beta zeta
    | match goal with
      | |- Respects _ (match ?x with _ => _ end) => destruct x
      end ].
