(* ===== verification/Utils.v ===== *)
(** * Shared utilities of the server

    Models [utils/Utils.h], [utils/Utils.cpp], [utils/strings/SimpleString.h] and
    [utils/crypto/HashCalculator.cpp]: integer (de)serialisation, the power-of-two
    helpers, the length-carrying string type and the ring-position digest.

    Two places of this code leave the C++ standard: [Utils::parseFromBuffer<uint64_t>]
    shifts a promoted [int] by 32 bits or more, and [Map::calculateHash] converts an
    out-of-range [double] to [uint32_t].  Both are parameters of the [Platform] class;
    its laws say only what every target does. *)

From S2P Require Import Prelude.

(** ** What the target machine decides *)

Class Platform := {
  (** [x << k] on a promoted [int] for [k >= 32]; the hardware masks the count. *)
  shl_wide : Z → Z → Z;
  shl_wide_zero : ∀ k, shl_wide 0 k = 0;
  (** [hashCode += byte * std::pow(31, i)] evaluated in [double] and converted back. *)
  dbl_hash_step : Z → Z → nat → Z;
  dbl_hash_step_range : ∀ acc b i, ufits 32 (dbl_hash_step acc b i);
  dbl_hash_step_exact : ∀ acc b i,
    ufits 32 acc → byte_ok b → acc + b * 31 ^ Z.of_nat i < 2 ^ 32 →
    dbl_hash_step acc b i = acc + b * 31 ^ Z.of_nat i;
}.

(** ** Integer conversion and power-of-two helpers *)

Module Utils.

(** The value of type [T] (of [n] bytes) an integer expression is stored as. *)
Definition to_T (n : nat) (signed : bool) (z : Z) : Z :=
  if signed then sext (8 * Z.of_nat n) z else wrap (8 * Z.of_nat n) z.

(** [Utils::parse<T>(const uint8_t * input)]. *)
Definition parse (n : nat) (signed : bool) (input : bytes) : outcome Z :=
  ofoldl (λ parsedValue i,
    let toMove := 8 * Z.of_nat (n - 1 - i) in
    let! value := at_undef input i in
    Ret (to_T n signed (Z.lor parsedValue (Z.shiftl value toMove))))
    0 (seq 0 n).

(** [b << k] where [b] is a byte promoted to [int]. *)
Definition shl_int `{Platform} (b k : Z) : Z :=
  if k <? 32 then i32 (Z.shiftl b k) else shl_wide b k.

(** [Utils::parseFromBuffer<T>(buffer, initialPosition)], [T] unsigned of [n] bytes. *)
Definition parseFromBuffer `{Platform} (n : nat) (buffer : bytes) (initialPosition : nat) : outcome Z :=
  ofoldl (λ result i,
    let toMove := 8 * Z.of_nat (n - 1 - i) in
    let! value := at_undef buffer (i + initialPosition) in
    Ret (wrap (8 * Z.of_nat n) (Z.lor result (shl_int value toMove))))
    0 (rev (seq 0 n)).

(** [Utils::appendToBuffer(const T& toParse, vectorOut)], [T] of [n] bytes. *)
Definition appendToBuffer (n : nat) (toParse : Z) (vectorOut : bytes) : bytes :=
  foldl (λ out i,
    let toMove := 8 * Z.of_nat (n - 1 - i) in
    out ++ [u8 (Z.shiftr toParse toMove)]) vectorOut (seq 0 n).

(** [Utils::appendBeginningToBuffer(const T& toParse, vectorOut)]. *)
Definition appendBeginningToBuffer (n : nat) (toParse : Z) (vectorOut : bytes) : bytes :=
  foldl (λ out i,
    let toMove := 8 * Z.of_nat (n - 1 - i) in
    take i out ++ [u8 (Z.shiftr toParse toMove)] ++ drop i out) vectorOut (seq 0 n).

(** [Utils::appendToBuffer(const uint8_t * toAppendPtr, totalToAppend, vectorOut)]. *)
Definition appendPtrToBuffer (ptr : bytes) (totalToAppend : nat) (vectorOut : bytes) : outcome bytes :=
  ofoldl (λ out i, let! b := at_undef ptr i in Ret (out ++ [b])) vectorOut (seq 0 totalToAppend).

(** [Utils::copyFromBuffer(buffer, initialPosition, endPosition)], both ends inclusive,
    on [uint64_t] positions. *)
Definition copyFromBuffer (buffer : bytes) (initialPosition endPosition : Z) : outcome bytes :=
  let endIterator := u64 (endPosition + 1) in
  if endIterator <? initialPosition then Undef
  else slice buffer (Z.to_nat initialPosition) (Z.to_nat (endIterator - initialPosition)).

(** [Utils::optimizedModulePowerOfTwo]. *)
Definition optimizedModulePowerOfTwo (w : Z) (powerOfTwo num : Z) : Z :=
  Z.land (wrap w (powerOfTwo - 1)) num.

(** [Utils::roundUpPowerOfTwo] at an unsigned type of [w] bits. *)
Definition roundUpPowerOfTwo (w : Z) (initial : Z) : Z :=
  if initial <=? 1 then 1
  else
    let initial := wrap w (initial - 1) in
    let initial := Z.lor initial (Z.shiftr initial 1) in
    let initial := Z.lor initial (Z.shiftr initial 2) in
    let initial := Z.lor initial (Z.shiftr initial 4) in
    let initial := Z.lor initial (Z.shiftr initial 8) in
    let initial := Z.lor initial (Z.shiftr initial 16) in
    wrap w (initial + 1).

(** [Utils::concat]. *)
Definition concat {A} (a b : list A) : list A :=
  match a, b with
  | [], [] => []
  | [], _ => b
  | _, [] => a
  | _, _ => a ++ b
  end.

(** [Utils::unionMaps]: the entries of [first], overwritten by those of [second]. *)
Definition unionMaps {V} (first second : gmap string V) : gmap string V :=
  map_fold (λ k v acc, <[k:=v]> acc) (map_fold (λ k v acc, <[k:=v]> acc) ∅ first) second.

(** [Utils::retryNTimesAndGet]: [toRetry i] is the result of the [i]-th attempt
    ([None] when it throws, [Some None] when it returns an error). *)
Fixpoint retryNTimesAndGet {A} (numberAttempts : nat) (i : nat)
    (toRetry : nat → option (option A)) : option A :=
  match numberAttempts with
  | O => None
  | S numberAttempts =>
      match toRetry i with
      | Some (Some a) => Some a
      | _ => retryNTimesAndGet numberAttempts (S i) toRetry
      end
  end.

End Utils.

(** ** [SimpleString<memDbDataLength_t>] *)

Module SimpleString.

(** The buffer the shared pointer owns, and the [size] field. *)
Record t := mk { data : bytes; size : Z }.

#[global] Instance eq_dec : EqDecision t.
Proof. solve_decision. Defined.

(** A string whose [size] is the length of its buffer. *)
Definition ok (s : t) : Prop := size s = Z.of_nat (length (data s)) ∧ Forall byte_ok (data s).

Definition of_bytes (l : bytes) : t := mk l (u32 (Z.of_nat (length l))).

(** [SimpleString::empty()]: a null buffer of size 0. *)
Definition empty : t := mk [] 0.

(** [SimpleString::fromNumber<T>], [T] of [n] bytes. *)
Definition fromNumber (n : nat) (from : Z) : t :=
  mk (map (λ i, u8 (Z.shiftr from (8 * Z.of_nat (n - 1 - i)))) (seq 0 n)) (u32 (Z.of_nat n)).

(** [SimpleString::fromPointer(ptr, size)]; [ptr] is the memory from the pointer on. *)
Definition fromPointer (ptr : bytes) (size : nat) : outcome t :=
  let! result := Utils.appendPtrToBuffer ptr size [] in
  Ret (mk result (u32 (Z.of_nat size))).

(** [SimpleString::fromString]. *)
Definition fromString (s : bytes) : t := of_bytes s.

(** [SimpleString::fromVector]: the empty vector becomes a one-byte buffer of size 0. *)
Definition fromVector (values : bytes) : t :=
  match values with
  | [] => mk [0] 0
  | _ => of_bytes values
  end.

(** [SimpleString::toVector]. *)
Definition toVector (s : t) : outcome bytes :=
  if 0 <? size s then slice (data s) 0 (Z.to_nat (size s)) else Ret [].

(** [SimpleString::toString]. *)
Definition toString (s : t) : outcome bytes := slice (data s) 0 (Z.to_nat (size s)).

(** [SimpleString::to<T>]. *)
Definition to (n : nat) (signed : bool) (s : t) : outcome Z := Utils.parse n signed (data s).

(** [SimpleString::fromSimpleStrings]. *)
Definition fromSimpleStrings (values : list t) : outcome t :=
  let totalSize := foldl (λ acc v, u32 (acc + size v)) 0 values in
  let! result := ofoldl (λ out v,
    Utils.appendPtrToBuffer (data v) (Z.to_nat (size v)) out) [] values in
  Ret (mk result totalSize).

(** [SimpleString::fromChar]. *)
Definition fromChar (c : Z) : t := mk [c] 1.

(** [operator==], byte by byte up to [size]. *)
Definition eqb (a b : t) : outcome bool :=
  if negb (size a =? size b) then Ret false
  else ofoldl (λ (same : bool) i,
         if same then
           let! x := at_undef (data a) i in
           let! y := at_undef (data b) i in
           Ret (x =? y)
         else Ret false) true (seq 0 (Z.to_nat (size a))).

(** [SimpleStringHash::operator()], on a 64-bit [size_t]. *)
Definition hash (s : t) : outcome Z :=
  ofoldl (λ seed i,
    let! b := at_undef (data s) i in
    Ret (Z.lxor seed (u64 (b + 0x9e3779b9 + Z.shiftl seed 6 + Z.shiftr seed 2))))
    0 (seq 0 (Z.to_nat (size s))).

End SimpleString.

(** ** [HashCalculator] *)

Module HashCalculator.

(** Byte [i] of a 32-bit word in the little-endian host's memory. *)
Definition host_byte (w : Z) (i : Z) : Z := u8 (Z.shiftr w (8 * i)).

(** [HashCalculator::htonl]. *)
Definition htonl (hostlong : Z) : Z :=
  let netlong := Z.lor 0 (Z.shiftl (host_byte hostlong 0) 24) in
  let netlong := Z.lor netlong (Z.shiftl (host_byte hostlong 1) 16) in
  let netlong := Z.lor netlong (Z.shiftl (host_byte hostlong 2) 8) in
  Z.lor netlong (host_byte hostlong 3).

(** [HashCalculator::toBigEndian]. *)
Definition toBigEndian (value : Z) : Z :=
  let high_part := htonl (u32 (Z.shiftr value 32)) in
  let low_part := htonl (u32 (Z.land value 0xFFFFFFFF)) in
  Z.lor (u64 (Z.shiftl low_part 32)) high_part.

(** The [memcpy] of the first eight digest bytes into a [uint64_t] of the
    little-endian host. *)
Definition host_load64 (md : bytes) : Z := be_value (rev (take 8 md)).

(** [HashCalculator::calculateMD5]; [MD5] is OpenSSL's digest function. *)
Definition calculateMD5 (MD5 : bytes → bytes) (input : bytes) : Z :=
  toBigEndian (host_load64 (MD5 input)).

End HashCalculator.

(** ** Lemmas on the integer conversions *)

Section integer_lemmas.

Lemma to_T_lor_to_T n signed x y :
  (0 < n)%nat →
  Utils.to_T n signed (Z.lor (Utils.to_T n signed x) y) = Utils.to_T n signed (Z.lor x y).
Proof.
  intros Hn. unfold Utils.to_T. destruct signed.
  - rewrite <- sext_wrap, wrap_lor, wrap_sext, <- wrap_lor, sext_wrap by lia. done.
  - rewrite !wrap_lor, wrap_wrap by lia. done.
Qed.

Lemma parse_fold n signed input k :
  (0 < n)%nat → (k ≤ n)%nat → (n ≤ length input)%nat →
  ofoldl (λ parsedValue i,
    let toMove := 8 * Z.of_nat (n - 1 - i) in
    let! value := at_undef input i in
    Ret (Utils.to_T n signed (Z.lor parsedValue (Z.shiftl value toMove))))
    (Utils.to_T n signed 0) (seq 0 k)
  = Ret (Utils.to_T n signed (Z.shiftl (be_value (take k input)) (8 * Z.of_nat (n - k)))).
Proof.
  intros Hn. induction k as [|k IH]; intros Hk Hlen.
  - simpl. by rewrite Z.shiftl_0_l.
  - rewrite seq_S, ofoldl_app, IH by lia. simpl.
    destruct (lookup_lt_is_Some_2 input k) as [b Hb]; [lia|].
    rewrite (at_undef_Some _ _ _ Hb). simpl. rewrite to_T_lor_to_T by done.
    rewrite (take_S_r _ _ _ Hb), be_value_snoc, Z.shiftl_lor, Z.shiftl_shiftl by lia.
    do 2 f_equal. f_equal; f_equal; lia.
Qed.

(** [Utils::parse] reads the big-endian value of the first [n] bytes. *)
Lemma parse_be_value n signed input :
  (0 < n)%nat → (n ≤ length input)%nat →
  Utils.parse n signed input = Ret (Utils.to_T n signed (be_value (take n input))).
Proof.
  intros Hn Hlen. unfold Utils.parse.
  assert (0 = Utils.to_T n signed 0) as E.
  { unfold Utils.to_T. destruct signed; [rewrite sext_small|rewrite wrap_small]; try lia; try done.
    split; [|]; pose proof (Z.pow_pos_nonneg 2 (8 * Z.of_nat n - 1)); lia.
    split; [lia|]. apply Z.pow_pos_nonneg; lia. }
  rewrite E at 1. rewrite parse_fold by lia.
  by rewrite Nat.sub_diag, Z.shiftl_0_r.
Qed.

Lemma parse_be_bytes n signed v rest :
  (0 < n)%nat →
  Utils.parse n signed (be_bytes n v ++ rest) = Ret (Utils.to_T n signed v).
Proof.
  intros Hn. rewrite parse_be_value by (rewrite ?length_app, ?length_be_bytes; lia).
  rewrite take_app_length' by (by rewrite length_be_bytes).
  rewrite be_value_bytes. unfold Utils.to_T.
  destruct signed; [rewrite sext_wrap|rewrite wrap_wrap]; done || lia.
Qed.

(** The writers append or prepend the big-endian bytes. *)
Lemma be_bytes_map n v :
  be_bytes n v = map (λ i, u8 (Z.shiftr v (8 * Z.of_nat (n - 1 - i)))) (seq 0 n).
Proof.
  induction n as [|n IH]; [done|].
  cbn [be_bytes seq map]. f_equal.
  - do 3 f_equal. lia.
  - rewrite IH, <- seq_shift, map_map. apply map_ext_in. intros i Hi%in_seq.
    do 3 f_equal. lia.
Qed.

Lemma appendToBuffer_be n v out : Utils.appendToBuffer n v out = out ++ be_bytes n v.
Proof.
  rewrite be_bytes_map. unfold Utils.appendToBuffer.
  generalize (seq 0 n). intros l. revert out.
  induction l as [|i l IH]; intros out; simpl; [by rewrite app_nil_r|].
  by rewrite IH, <- app_assoc.
Qed.

Lemma fromNumber_be n v : SimpleString.data (SimpleString.fromNumber n v) = be_bytes n v.
Proof. by rewrite be_bytes_map. Qed.

Lemma appendBeginningToBuffer_be n v out :
  Utils.appendBeginningToBuffer n v out = be_bytes n v ++ out.
Proof.
  rewrite be_bytes_map. unfold Utils.appendBeginningToBuffer.
  assert (∀ k, (k ≤ n)%nat →
    foldl (λ out i, take i out ++ [u8 (Z.shiftr v (8 * Z.of_nat (n - 1 - i)))] ++ drop i out)
      out (seq 0 k) = map (λ i, u8 (Z.shiftr v (8 * Z.of_nat (n - 1 - i)))) (seq 0 k) ++ out) as H.
  { induction k as [|k IH]; intros Hk; [done|].
    rewrite seq_S, foldl_app, IH by lia. simpl. rewrite map_app. simpl.
    rewrite take_app_length', drop_app_length' by (rewrite length_map, length_seq; done).
    by rewrite <- app_assoc. }
  by apply H.
Qed.

Lemma appendPtrToBuffer_app l rest out :
  Utils.appendPtrToBuffer (l ++ rest) (length l) out = Ret (out ++ l).
Proof.
  unfold Utils.appendPtrToBuffer.
  assert (∀ k, (k ≤ length l)%nat →
    ofoldl (λ out i, let! b := at_undef (l ++ rest) i in Ret (out ++ [b])) out (seq 0 k)
    = Ret (out ++ take k l)) as H.
  { induction k as [|k IH]; intros Hk; [simpl; by rewrite app_nil_r|].
    rewrite seq_S, ofoldl_app, IH by lia. simpl.
    destruct (lookup_lt_is_Some_2 l k) as [b Hb]; [lia|].
    rewrite (at_undef_Some _ _ b) by (by rewrite lookup_app_l). simpl.
    by rewrite <- app_assoc, <- (take_S_r _ _ _ Hb). }
  rewrite H by done. by rewrite firstn_all.
Qed.

End integer_lemmas.

(** ** Lemmas on [parseFromBuffer] *)

Section parseFromBuffer_lemmas.
Context `{Platform}.

Lemma parseFromBuffer_fold n pre l k :
  length l = n → (k ≤ n)%nat →
  (∀ i b, l !! i = Some b →
     wrap (8 * Z.of_nat n) (Utils.shl_int b (8 * Z.of_nat (n - 1 - i)))
     = wrap (8 * Z.of_nat n) (Z.shiftl b (8 * Z.of_nat (n - 1 - i)))) →
  ∀ post,
  ofoldl (λ result i,
    let toMove := 8 * Z.of_nat (n - 1 - i) in
    let! value := at_undef (pre ++ l ++ post) (i + length pre) in
    Ret (wrap (8 * Z.of_nat n) (Z.lor result (Utils.shl_int value toMove))))
    0 (rev (seq (n - k) k))
  = Ret (wrap (8 * Z.of_nat n) (be_value (drop (n - k) l))).
Proof.
  intros Hl Hk Hshl post. revert Hk. induction k as [|k IH]; intros Hk.
  - simpl. by rewrite Nat.sub_0_r, drop_ge by lia.
  - assert (seq (n - S k) (S k) = [n - S k]%nat ++ seq (n - k) k) as ->.
    { simpl. do 2 f_equal. lia. }
    rewrite rev_app_distr, ofoldl_app, IH by lia. simpl.
    destruct (lookup_lt_is_Some_2 l (n - S k)) as [b Hb]; [lia|].
    rewrite (at_undef_Some _ _ b)
      by (rewrite Nat.add_comm, lookup_app_pos by lia; done).
    simpl. rewrite wrap_lor, Hshl, wrap_wrap, <- wrap_lor by (done || lia).
    rewrite (drop_S _ _ _ Hb). simpl. replace (S (n - S k)) with (n - k)%nat by lia.
    rewrite length_drop, Hl. do 2 f_equal. rewrite Z.lor_comm. do 3 f_equal. lia.
Qed.

Lemma shl_int_narrow n b k :
  (n ≤ 4)%nat → (k < n)%nat →
  wrap (8 * Z.of_nat n) (Utils.shl_int b (8 * Z.of_nat k))
  = wrap (8 * Z.of_nat n) (Z.shiftl b (8 * Z.of_nat k)).
Proof.
  intros Hn Hk. unfold Utils.shl_int. destruct (Z.ltb_spec (8 * Z.of_nat k) 32); [|lia].
  rewrite <- (wrap_wrap_le _ 32 (i32 _)), wrap_sext, wrap_wrap_le by lia. done.
Qed.

(** Types of at most four bytes are read back exactly. *)
Lemma parseFromBuffer_narrow n pre v post :
  (n ≤ 4)%nat → ufits (8 * Z.of_nat n) v →
  Utils.parseFromBuffer n (pre ++ be_bytes n v ++ post) (length pre) = Ret v.
Proof.
  intros Hn Hv. unfold Utils.parseFromBuffer.
  pose proof (parseFromBuffer_fold n pre (be_bytes n v) n) as E.
  rewrite Nat.sub_diag in E. rewrite E.
  - by rewrite drop_0, be_value_bytes, wrap_wrap, wrap_small by (done || lia).
  - apply length_be_bytes.
  - done.
  - intros i b Hb. apply shl_int_narrow; [done|].
    apply lookup_lt_Some in Hb. rewrite length_be_bytes in Hb. lia.
Qed.

Lemma be_bytes_lookup n v i :
  (i < n)%nat → be_bytes n v !! i = Some (u8 (Z.shiftr v (8 * Z.of_nat (n - 1 - i)))).
Proof.
  intros Hi. rewrite be_bytes_map, list_lookup_fmap.
  rewrite (lookup_seq_lt _ _ _ Hi). done.
Qed.

(** Eight-byte values below [2 ^ 31] are read back exactly. *)
Lemma parseFromBuffer_8 pre v post :
  0 ≤ v < 2 ^ 31 →
  Utils.parseFromBuffer 8 (pre ++ be_bytes 8 v ++ post) (length pre) = Ret v.
Proof.
  intros Hv. unfold Utils.parseFromBuffer.
  pose proof (parseFromBuffer_fold 8 pre (be_bytes 8 v) 8) as E.
  rewrite Nat.sub_diag in E. rewrite E; clear E.
  - rewrite drop_0, be_value_bytes, wrap_wrap by lia.
    rewrite wrap_small; [done|]. split; simpl Z.of_nat; [lia|].
    change (8 * 8) with 64. lia.
  - done.
  - lia.
  - intros i b Hb. pose proof (lookup_lt_Some _ _ _ Hb) as Hi. rewrite length_be_bytes in Hi.
    rewrite be_bytes_lookup in Hb by done. apply Some_inj in Hb as <-.
    unfold Utils.shl_int. set (k := 8 * Z.of_nat (8 - 1 - i)).
    destruct (Z.ltb_spec k 32) as [Hk|Hk].
    + rewrite sext_small; [done|lia|]. unfold sfits.
      rewrite Z.shiftl_mul_pow2, Z.shiftr_div_pow2 by lia.
      assert (0 ≤ u8 (v / 2 ^ k)) by (apply wrap_ufits; lia).
      assert (0 < 2 ^ k) by (apply Z.pow_pos_nonneg; lia).
      assert (u8 (v / 2 ^ k) * 2 ^ k ≤ v); [|change (32 - 1) with 31; nia].
      assert (u8 (v / 2 ^ k) ≤ v / 2 ^ k) by (apply Z.mod_le; [apply Z.div_pos; lia|lia]).
      pose proof (Z.mul_div_le v (2 ^ k)). nia.
    + assert (u8 (Z.shiftr v k) = 0) as ->; [|by rewrite shl_wide_zero, Z.shiftl_0_l].
      rewrite Z.shiftr_div_pow2, Z.div_small; [done| |lia].
      split; [lia|]. pose proof (Z.pow_le_mono_r 2 31 k). lia.
Qed.

End parseFromBuffer_lemmas.

(** ** Power-of-two helpers *)

Section power_of_two.

Lemma optimizedModule_mod w k num :
  0 ≤ k < w → Utils.optimizedModulePowerOfTwo w (2 ^ k) num = num mod 2 ^ k.
Proof.
  intros Hk. unfold Utils.optimizedModulePowerOfTwo.
  rewrite wrap_small.
  - rewrite Z.land_comm, Z.sub_1_r, <- Z.ones_equiv. by rewrite Z.land_ones by lia.
  - pose proof (Z.pow_pos_nonneg 2 k). pose proof (Z.pow_lt_mono_r 2 k w).
    unfold ufits. lia.
Qed.

(** [y] has its top bit at [L] and its [j] highest bits set. *)
Definition smeared (L j y : Z) : Prop :=
  ∀ i, 0 ≤ i → (L - j < i ≤ L → Z.testbit y i = true) ∧ (L < i → Z.testbit y i = false).

Lemma smeared_step L j y :
  0 < j → smeared L j y → smeared L (2 * j) (Z.lor y (Z.shiftr y j)).
Proof.
  intros Hj Hy i Hi. rewrite Z.lor_spec, Z.shiftr_spec by lia. split; intros H.
  - destruct (decide (L - j < i)).
    + by rewrite (proj1 (Hy i Hi)) by lia.
    + rewrite (proj1 (Hy (i + j) ltac:(lia))) by lia. by rewrite orb_true_r.
  - by rewrite (proj2 (Hy i Hi)), (proj2 (Hy (i + j) ltac:(lia))) by lia.
Qed.

Lemma smeared_init y : 0 < y → smeared (Z.log2 y) 1 y.
Proof.
  intros Hy i Hi. split; intros H.
  - replace i with (Z.log2 y) by lia. by apply Z.bit_log2.
  - by apply Z.bits_above_log2; lia.
Qed.

Lemma smeared_full L j y : 0 ≤ L < j → smeared L j y → y = 2 ^ (L + 1) - 1.
Proof.
  intros HL Hy. rewrite Z.sub_1_r, <- Z.ones_equiv. apply Z.bits_inj'; intros i Hi.
  destruct (decide (i ≤ L)).
  - rewrite (proj1 (Hy i Hi)), Z.ones_spec_low by lia. done.
  - rewrite (proj2 (Hy i Hi)), Z.ones_spec_high by lia. done.
Qed.

(** The value computed for [x >= 2]. *)
Lemma roundUpPowerOfTwo_log2 w x :
  1 < x → ufits w x → x ≤ 2 ^ 32 →
  Utils.roundUpPowerOfTwo w x = wrap w (2 ^ (Z.log2 (x - 1) + 1)).
Proof.
  intros H1 [_ Hx] Hw. unfold Utils.roundUpPowerOfTwo.
  destruct (Z.leb_spec x 1); [lia|]. rewrite (wrap_small w (x - 1)) by (split; lia).
  assert (0 ≤ Z.log2 (x - 1) < 32).
  { split; [apply Z.log2_nonneg|]. apply Z.log2_lt_pow2; lia. }
  pose proof (smeared_init (x - 1) ltac:(lia)) as S.
  do 5 (apply smeared_step in S; [|lia];
        match type of S with smeared _ ?j _ => let v := eval vm_compute in j in change j with v in S end).
  apply smeared_full in S; [|lia].
  cbv zeta. rewrite S. f_equal. lia.
Qed.

Lemma roundUpPowerOfTwo_pow2 w x :
  1 ≤ x ≤ 2 ^ (w - 1) → 1 ≤ w → x ≤ 2 ^ 31 →
  ∃ k, 0 ≤ k < w ∧ Utils.roundUpPowerOfTwo w x = 2 ^ k ∧ x ≤ 2 ^ k < 2 * x.
Proof.
  intros Hx Hw Hx32. destruct (decide (x = 1)) as [->|].
  { exists 0. repeat split; try lia. }
  assert (2 ^ w = 2 * 2 ^ (w - 1)) as Ew by (rewrite <- Z.pow_succ_r by lia; f_equal; lia).
  pose proof (Z.log2_spec (x - 1) ltac:(lia)) as [Hl Hu].
  pose proof (Z.log2_nonneg (x - 1)).
  rewrite Z.pow_succ_r in Hu by lia.
  assert (Z.log2 (x - 1) < w - 1) by (apply Z.log2_lt_pow2; lia).
  exists (Z.log2 (x - 1) + 1). split; [lia|].
  rewrite roundUpPowerOfTwo_log2 by (unfold ufits; lia).
  rewrite wrap_small.
  - rewrite Z.pow_add_r by lia. lia.
  - split; [lia|]. apply Z.pow_lt_mono_r; lia.
Qed.

End power_of_two.

(** ** Digests *)

Section digest.

Lemma be_value_shiftr l1 l2 :
  Forall byte_ok l2 → Z.shiftr (be_value (l1 ++ l2)) (8 * Z.of_nat (length l2)) = be_value l1.
Proof.
  intros Hl2%be_value_bound. rewrite be_value_app, lor_shiftl_add by lia.
  rewrite Z.shiftr_div_pow2, Z.div_add_l, Z.div_small by lia. lia.
Qed.

Lemma be_value_wrap l1 l2 :
  Forall byte_ok l2 → wrap (8 * Z.of_nat (length l2)) (be_value (l1 ++ l2)) = be_value l2.
Proof.
  intros Hl2%be_value_bound. rewrite be_value_app, lor_shiftl_add by lia.
  unfold wrap. rewrite Z.add_comm, Z.mod_add, Z.mod_small by lia. done.
Qed.

Lemma host_byte_value l1 b l2 :
  Forall byte_ok (b :: l2) →
  HashCalculator.host_byte (be_value (l1 ++ b :: l2)) (Z.of_nat (length l2)) = b.
Proof.
  intros H. apply Forall_cons in H as [Hb Hl2]. unfold HashCalculator.host_byte.
  rewrite cons_middle, app_assoc, (be_value_shiftr (l1 ++ [b])) by done.
  change 8 with (8 * Z.of_nat (length [b])). rewrite be_value_wrap by (by constructor).
  simpl. by rewrite Z.shiftl_0_r, Z.lor_0_r.
Qed.

(** [htonl] reverses the four bytes of a word. *)
Lemma htonl_be_value b0 b1 b2 b3 :
  Forall byte_ok [b0; b1; b2; b3] →
  HashCalculator.htonl (be_value [b3; b2; b1; b0]) = be_value [b0; b1; b2; b3].
Proof.
  intros H. assert (Forall byte_ok [b3; b2; b1; b0]) as H'.
  { exact (Forall_rev H). }
  unfold HashCalculator.htonl.
  pose proof (host_byte_value [] b3 [b2; b1; b0] H') as E3. apply Forall_cons in H' as [_ H'].
  pose proof (host_byte_value [b3] b2 [b1; b0] H') as E2. apply Forall_cons in H' as [_ H'].
  pose proof (host_byte_value [b3; b2] b1 [b0] H') as E1. apply Forall_cons in H' as [_ H'].
  pose proof (host_byte_value [b3; b2; b1] b0 [] H') as E0. simpl app in *.
  cbv [length Z.of_nat Pos.of_succ_nat Pos.succ] in E0, E1, E2, E3.
  rewrite E0, E1, E2, E3. simpl.
  rewrite Z.shiftl_0_r, Z.lor_0_r. by rewrite !Z.lor_assoc.
Qed.

(** The digest is read as a big-endian number whatever the host's byte order. *)
Lemma toBigEndian_load md :
  (8 ≤ length md)%nat → Forall byte_ok md →
  HashCalculator.toBigEndian (HashCalculator.host_load64 md) = be_value (take 8 md).
Proof.
  intros Hlen Hok. apply (Forall_take _ 8) in Hok.
  unfold HashCalculator.host_load64, HashCalculator.toBigEndian.
  pose proof (length_take_le md 8%nat ltac:(lia)) as E.
  destruct (take 8 md) as [|b0 [|b1 [|b2 [|b3 [|b4 [|b5 [|b6 [|b7 [|]]]]]]]]]; try discriminate E.
  change (rev [b0; b1; b2; b3; b4; b5; b6; b7])
    with ([b7; b6; b5; b4] ++ [b3; b2; b1; b0]).
  change [b0; b1; b2; b3; b4; b5; b6; b7] with ([b0; b1; b2; b3] ++ [b4; b5; b6; b7]) in *.
  apply Forall_app in Hok as [Hlo Hhi].
  assert (Forall byte_ok [b3; b2; b1; b0]) as Hlo' by exact (Forall_rev Hlo).
  assert (Forall byte_ok [b7; b6; b5; b4]) as Hhi' by exact (Forall_rev Hhi).
  pose proof (be_value_shiftr [b7; b6; b5; b4] _ Hlo') as E1.
  pose proof (be_value_wrap [b7; b6; b5; b4] _ Hlo') as E2.
  unfold wrap at 1 in E2. change (8 * Z.of_nat (length [b3; b2; b1; b0])) with 32 in E1, E2.
  change 0xFFFFFFFF with (Z.ones 32). rewrite Z.land_ones, E1, E2 by lia.
  rewrite !(wrap_small 32) by (apply be_value_bound in Hlo', Hhi'; done).
  rewrite !htonl_be_value by done.
  rewrite (be_value_app [b0; b1; b2; b3]). f_equal.
  apply wrap_small. apply be_value_bound in Hlo. simpl length in *. simpl Z.of_nat in *.
  rewrite Z.shiftl_mul_pow2 by lia. unfold ufits. lia.
Qed.

End digest.

(** ** A concrete target *)

(** A target that masks shift counts to five bits and truncates to 32 bits. *)
#[export] Instance masking_target : Platform.
Proof.
  refine {| shl_wide b k := i32 (Z.shiftl b (k mod 32));
            dbl_hash_step acc b i := u32 (acc + b * 31 ^ Z.of_nat i) |}.
  - intros k. by rewrite Z.shiftl_0_l.
  - intros acc b i. by apply wrap_ufits.
  - intros acc b i [Ha _] [Hb _] Hlt. apply wrap_small. split; [|done].
    pose proof (Z.pow_nonneg 31 (Z.of_nat i)). nia.
Defined.

(** ** Properties *)

(** What [Utils::appendToBuffer], [Utils::appendBeginningToBuffer] and
    [SimpleString::fromNumber] write for a value of [n] bytes, [Utils::parse] reads back:
    every unsigned value and every signed value of the type survives the trip, whatever
    bytes precede or follow it. *)
Theorem append_parse_roundtrip (n : nat) (v : Z) (out rest : bytes) :
  (0 < n)%nat →
  (ufits (8 * Z.of_nat n) v →
     Utils.parse n false (drop (length out) (Utils.appendToBuffer n v out ++ rest)) = Ret v ∧
     Utils.parse n false (Utils.appendBeginningToBuffer n v rest) = Ret v) ∧
  (sfits (8 * Z.of_nat n) v → SimpleString.to n true (SimpleString.fromNumber n v) = Ret v).
Proof.
  intros Hn. split.
  - intros Hv. rewrite appendToBuffer_be, appendBeginningToBuffer_be, <- app_assoc, drop_app_length.
    rewrite !parse_be_bytes by done. unfold Utils.to_T. by rewrite wrap_small.
  - intros Hv. unfold SimpleString.to. rewrite fromNumber_be.
    rewrite <- (app_nil_r (be_bytes n v)), parse_be_bytes by done.
    unfold Utils.to_T. rewrite sext_small by (done || lia). done.
Qed.

Lemma append_parse_roundtrip_witness :
  Utils.parse 4 false (drop 1 (Utils.appendToBuffer 4 0xDEADBEEF [7] ++ [9])) = Ret 0xDEADBEEF ∧
  SimpleString.to 8 true (SimpleString.fromNumber 8 (-2)) = Ret (-2).
Proof.
  split.
  - apply (append_parse_roundtrip 4 0xDEADBEEF [7] [9]); [lia|split; lia].
  - apply (append_parse_roundtrip 8 (-2) [] []); [lia|split; lia].
Defined.

(** [Utils::parseFromBuffer] reads back what was written for types of at most four
    bytes, and for eight-byte values below [2 ^ 31]; from [2 ^ 31] on the promotion to
    [int] sign-extends, so the bytes of [2 ^ 31] are read as [2 ^ 64 - 2 ^ 31]. *)
Theorem parseFromBuffer_range `{Platform} (pre post : bytes) (n : nat) (v : Z) :
  ((n ≤ 4)%nat → ufits (8 * Z.of_nat n) v →
     Utils.parseFromBuffer n (pre ++ be_bytes n v ++ post) (length pre) = Ret v) ∧
  (0 ≤ v < 2 ^ 31 →
     Utils.parseFromBuffer 8 (pre ++ be_bytes 8 v ++ post) (length pre) = Ret v) ∧
  Utils.parseFromBuffer 8 (be_bytes 8 (2 ^ 31)) 0 = Ret (2 ^ 64 - 2 ^ 31).
Proof.
  split; [|split].
  - apply parseFromBuffer_narrow.
  - apply parseFromBuffer_8.
  - unfold Utils.parseFromBuffer.
    change (be_bytes 8 (2 ^ 31)) with [0; 0; 0; 0; 128; 0; 0; 0].
    cbn [rev app seq ofoldl]. unfold at_undef, Utils.shl_int. simpl.
    rewrite !shl_wide_zero. reflexivity.
Qed.

Lemma parseFromBuffer_range_witness :
  Utils.parseFromBuffer (H := masking_target) 8 ([1] ++ be_bytes 8 77 ++ [2]) 1 = Ret 77.
Proof. apply (parseFromBuffer_range (H := masking_target) [1] [2] 8 77). lia. Defined.

(** C34: [Utils::roundUpPowerOfTwo] on [uint32_t] returns the least power of two not below
    its argument for arguments up to [2 ^ 31], and 0 beyond; modulo such a number,
    [Utils::optimizedModulePowerOfTwo] is the remainder. *)
Theorem roundUpPowerOfTwo_least (x num : Z) :
  (1 ≤ x ≤ 2 ^ 31 → ∃ k, 0 ≤ k < 32 ∧
     Utils.roundUpPowerOfTwo 32 x = 2 ^ k ∧ x ≤ 2 ^ k < 2 * x ∧
     Utils.optimizedModulePowerOfTwo 32 (Utils.roundUpPowerOfTwo 32 x) num = num mod 2 ^ k) ∧
  (2 ^ 31 < x < 2 ^ 32 → Utils.roundUpPowerOfTwo 32 x = 0).
Proof.
  split; intros Hx.
  - destruct (roundUpPowerOfTwo_pow2 32 x) as (k & Hk & E & Hb); [lia..|].
    exists k. rewrite E, optimizedModule_mod by done. done.
  - rewrite roundUpPowerOfTwo_log2 by (unfold ufits; lia).
    assert (Z.log2 (x - 1) = 31) as -> by (apply Z.log2_unique; lia). done.
Qed.

Lemma roundUpPowerOfTwo_least_witness :
  (∃ k, 0 ≤ k < 32 ∧ Utils.roundUpPowerOfTwo 32 100 = 2 ^ k ∧ 100 ≤ 2 ^ k < 2 * 100 ∧
    Utils.optimizedModulePowerOfTwo 32 (Utils.roundUpPowerOfTwo 32 100) 300 = 300 mod 2 ^ k) ∧
  Utils.roundUpPowerOfTwo 32 (2 ^ 31 + 1) = 0.
Proof. split; apply (roundUpPowerOfTwo_least _ 300); lia. Defined.

(** With a digest function that returns at least eight bytes,
    [HashCalculator::calculateMD5] is the big-endian number of the digest's first eight
    bytes, although the code reads them into a little-endian word. *)
Theorem calculateMD5_big_endian (MD5 : bytes → bytes) (input : bytes) :
  (8 ≤ length (MD5 input))%nat → Forall byte_ok (MD5 input) →
  HashCalculator.calculateMD5 MD5 input = be_value (take 8 (MD5 input)).
Proof. intros. by apply toBigEndian_load. Qed.

Lemma calculateMD5_big_endian_witness :
  HashCalculator.calculateMD5 (λ _, [1; 2; 3; 4; 5; 6; 7; 8]) [] = 0x0102030405060708.
Proof.
  rewrite (calculateMD5_big_endian (λ _, [1; 2; 3; 4; 5; 6; 7; 8]) []);
    [reflexivity | simpl; lia | repeat constructor; lia].
Defined.
