(* ===== verification/Results.v ===== *)
(** * Results and retries

    Models [utils/std/Result.h] and the helpers of [utils/Utils.h] that run a function given to
    them: a call that throws, retries, and the values they fall back to.  A function passed to a
    helper is a step on a state that returns an outcome; the state it leaves when it throws is
    kept.  Waiting between attempts has no effect on the state. *)

From S2P Require Import Prelude.
From S2P Require Import Utils.

(** ** [std::result] *)

Module Result.

(** A field the constructor leaves without a value is [None].  Reading it is undefined when its
    type is a number; the model takes it to be so for every type. *)
Record t (V E : Type) := mk { _value : option V; _error : option E; _success : bool }.
Arguments mk {V E}.
Arguments _value {V E}.
Arguments _error {V E}.
Arguments _success {V E}.

(** [std::ok] and [std::error], by the number of their template arguments; [e0] and [v0] are the
    values [E{}] and [V{}]. *)
Definition ok {V} (value : V) : t V V := mk (Some value) (Some value) true.
Definition ok_with {V E} (e0 : E) (value : V) : t V E := mk (Some value) (Some e0) true.
Definition error {E} (e : E) : t E E := mk (Some e) (Some e) false.
Definition error_with {V E} (v0 : V) (e : E) : t V E := mk (Some v0) (Some e) false.
Definition no_value {V} : t V V := mk None None false.

(** Reading a field. *)
Definition field {A} (o : option A) : outcome A := match o with Some a => Ret a | None => Undef end.

Definition get_or_else {V E} (r : t V E) (alternative : V) : outcome V :=
  if _success r then field (_value r) else Ret alternative.

(** [result::get_or_throw]; [e] is the exception class of its template argument. *)
Definition get_or_throw {V E} (r : t V E) (e : exn) : outcome V :=
  if _success r then field (_value r) else Throw e.

(** [result::get_or_throw_with]: the message is made from the error, which is read. *)
Definition get_or_throw_with {V E} (r : t V E) (e : exn) : outcome V :=
  if _success r then field (_value r) else let! _ := field (_error r) in Throw e.

Definition get {V E} (r : t V E) : outcome V := field (_value r).
Definition get_error {V E} (r : t V E) : outcome E := field (_error r).
Definition is_success {V E} (r : t V E) : bool := _success r.
Definition has_error {V E} (r : t V E) : bool := negb (_success r).

End Result.

(** ** Functions passed to helpers *)

Module Attempts.
Section attempts.
Context {St : Type}.

(** What a call leaves: the state and how it ended. *)
Definition callable (A : Type) : Type := St → St * outcome A.

(** A helper's own computation, on the state. *)
Definition helper (A : Type) : Type := St → outcome (St * A).

(** Handling the two ways a call can end that the helpers tell apart. *)
Definition catching {A B} (f : callable A) (returned : St → A → outcome (St * B)) (thrown : St → outcome (St * B)) : helper B :=
  λ s,
    match f s with
    | (s, Ret a) => returned s a
    | (s, Throw _) => thrown s
    | (_, Undef) => Undef
    | (_, Blocked) => Blocked
    | (_, NoFuel) => NoFuel
    end.

(** [Utils::tryOnce]. *)
Definition tryOnce (toTry : callable ()) : helper bool :=
  catching toTry (λ s _, Ret (s, true)) (λ s, Ret (s, false)).

(** [Utils::tryOnceAndGet]. *)
Definition tryOnceAndGet {A} (toTry : callable A) (defaultOnException : A) : helper A :=
  catching toTry (λ s a, Ret (s, a)) (λ s, Ret (s, defaultOnException)).

(** [Utils::tryOnceAndGetOptional]. *)
Definition tryOnceAndGetOptional {A} (toRetry : callable (option A)) : helper (option A) :=
  catching toRetry (λ s a, Ret (s, a)) (λ s, Ret (s, None)).

(** [Utils::retryUntil]; [numberAttempts] is an [int]. *)
Fixpoint retryUntil (numberAttempts : nat) (toRetry : callable ()) : helper bool :=
  match numberAttempts with
  | O => λ s, Ret (s, false)
  | S n => catching toRetry (λ s _, Ret (s, true)) (retryUntil n toRetry)
  end.

(** [Utils::retryNTimesAndGet] on [std::result]. *)
Fixpoint retryNTimesAndGet {A} (numberAttempts : nat) (toRetry : callable (Result.t A A)) : helper (Result.t A A) :=
  match numberAttempts with
  | O => λ s, Ret (s, Result.no_value)
  | S n =>
      catching toRetry
        (λ s r, if Result.is_success r then Ret (s, r) else retryNTimesAndGet n toRetry s)
        (retryNTimesAndGet n toRetry)
  end.

(** [Utils::retryUntilSuccessAndGet]: the loop has no bound, [fuel] counts its rounds. *)
Fixpoint retryUntilSuccessAndGet {A} (fuel : nat) (toRetry : callable (Result.t A A)) : helper A :=
  match fuel with
  | O => λ _, NoFuel
  | S n =>
      catching toRetry
        (λ s r, if Result.is_success r then let! a := Result.get r in Ret (s, a) else retryUntilSuccessAndGet n toRetry s)
        (retryUntilSuccessAndGet n toRetry)
  end.

End attempts.
Arguments callable : clear implicits.
Arguments helper : clear implicits.

(** [Utils::getOptionalOrThrow]. *)
Definition getOptionalOrThrow {A} (optional : option A) : outcome A := of_option runtime_error optional.

(** [Utils::filter] and [Utils::collectValuesInto]; a map is listed in the order of its keys. *)
Definition filter {A} (initial : list A) (predicate : A → bool) : list A :=
  foldl (λ result item, if predicate item then result ++ [item] else result) [] initial.
Definition collectValuesInto {K V} (map : list (K * V)) (vector : list V) : list V :=
  foldl (λ vector entry, vector ++ [entry.2]) vector map.

(** [Utils::toBuffer]: each argument with its width in bytes. *)
Fixpoint toBufferRecursive (buffer : bytes) (arg : nat * Z) (args : list (nat * Z)) : bytes :=
  let buffer := Utils.appendToBuffer arg.1 arg.2 buffer in
  match args with [] => buffer | arg :: args => toBufferRecursive buffer arg args end.
Definition toBuffer (arg : nat * Z) (args : list (nat * Z)) : bytes := toBufferRecursive [] arg args.

End Attempts.

Import Attempts.

(** ** Facts *)

Section facts.
Context {St A : Type}.

(** How many calls a retry loop has made, and with what result, is decided by the first call
    that is not a failure. *)
Inductive fails (failure : St → St → Prop) : nat → St → St → Prop :=
| fails_O s : fails failure 0 s s
| fails_S n s s1 s' : failure s s1 → fails failure n s1 s' → fails failure (S n) s s'.

Definition throws {B} (f : callable St B) (s s' : St) : Prop := ∃ e, f s = (s', Throw e).
Definition refuses (f : callable St (Result.t A A)) (s s' : St) : Prop :=
  throws f s s' ∨ ∃ r, f s = (s', Ret r) ∧ Result.is_success r = false.

Lemma catching_Ret {B C} (f : callable St B) (k : St → B → outcome (St * C)) h s s' b :
  f s = (s', Ret b) → catching f k h s = k s' b.
Proof. intros E. unfold catching. by rewrite E. Qed.

Lemma catching_Throw {B C} (f : callable St B) (k : St → B → outcome (St * C)) h s s' e :
  f s = (s', Throw e) → catching f k h s = h s'.
Proof. intros E. unfold catching. by rewrite E. Qed.

(** [Utils::retryUntil] with at least one attempt left after [k] that threw. *)
Theorem retryUntil_spec (f : callable St ()) n k s s1 :
  fails (throws f) k s s1 →
  ((k < n)%nat → ∀ s2, f s1 = (s2, Ret ()) → retryUntil n f s = Ret (s2, true)) ∧
  (k = n → retryUntil n f s = Ret (s1, false)).
Proof.
  intros H. revert n. induction H as [s|k s s1 s' [e E] _ IH]; intros n.
  - split; [|by intros <-]. intros Hn s2 E. destruct n; [lia|]. simpl. by erewrite catching_Ret.
  - destruct (IH (pred n)) as [IH1 IH2]. split.
    + intros Hn s2 E2. destruct n; [lia|]. simpl. erewrite catching_Throw by exact E. apply IH1; [simpl; lia|done].
    + intros <-. simpl. erewrite catching_Throw by exact E. by apply IH2.
Qed.

(** [Utils::retryNTimesAndGet]: the first success among the attempts, or no value after all of
    them; exceptions and errors use up an attempt alike. *)
Theorem retryNTimesAndGet_spec (f : callable St (Result.t A A)) n k s s1 :
  fails (refuses f) k s s1 →
  ((k < n)%nat → ∀ s2 r, f s1 = (s2, Ret r) → Result.is_success r = true → retryNTimesAndGet n f s = Ret (s2, r)) ∧
  (k = n → retryNTimesAndGet n f s = Ret (s1, Result.no_value)).
Proof.
  intros H. revert n. induction H as [s|k s s1 s' Hf _ IH]; intros n.
  - split; [|by intros <-]. intros Hn s2 r E Hr. destruct n; [lia|]. simpl. erewrite catching_Ret by exact E. by rewrite Hr.
  - destruct (IH (pred n)) as [IH1 IH2].
    assert (∀ m, retryNTimesAndGet (S m) f s = retryNTimesAndGet m f s1) as Hs.
    { intros m. simpl. destruct Hf as [[e E] |(r & E & Hr)].
      - by erewrite catching_Throw by exact E.
      - erewrite catching_Ret by exact E. by rewrite Hr. }
    split.
    + intros Hn s2 r E2 Hr. destruct n; [lia|]. rewrite Hs. simpl in IH1. apply IH1; [lia|done|done].
    + intros <-. rewrite Hs. by apply IH2.
Qed.

(** [Utils::retryUntilSuccessAndGet] ends as soon as the function succeeds, after any number of
    failures. *)
Theorem retryUntilSuccessAndGet_spec (f : callable St (Result.t A A)) k s s1 s2 a :
  fails (refuses f) k s s1 → f s1 = (s2, Ret (Result.ok a)) →
  retryUntilSuccessAndGet (S k) f s = Ret (s2, a).
Proof.
  intros H. revert s2 a. induction H as [s|k s s1 s' Hf _ IH]; intros s2 a E.
  - simpl. by erewrite catching_Ret by exact E.
  - rewrite <- (IH s2 a E). destruct Hf as [[e E1] |(r & E1 & Hr)].
    + change (retryUntilSuccessAndGet (S (S k)) f s) with
        (catching f (λ s r, if Result.is_success r then let! a := Result.get r in Ret (s, a)
           else retryUntilSuccessAndGet (S k) f s) (retryUntilSuccessAndGet (S k) f) s).
      by erewrite catching_Throw by exact E1.
    + change (retryUntilSuccessAndGet (S (S k)) f s) with
        (catching f (λ s r, if Result.is_success r then let! a := Result.get r in Ret (s, a)
           else retryUntilSuccessAndGet (S k) f s) (retryUntilSuccessAndGet (S k) f) s).
      erewrite catching_Ret by exact E1. by rewrite Hr.
Qed.

(** Errors keep what they were made from; a missing value is only ever read through [get]. *)
Theorem result_laws {E} (v alternative : A) (e : E) (x : exn) :
  Result.get_or_else (Result.ok_with e v) alternative = Ret v ∧
  Result.get_or_else (Result.no_value) alternative = Ret alternative ∧
  Result.get_or_throw (Result.ok v) x = Ret v ∧ Result.get_or_throw (Result.error v) x = Throw x ∧
  Result.get_or_throw_with (Result.error_with v e) x = Throw x ∧
  Result.get_error (Result.error_with v e) = Ret e ∧ Result.get (V := A) Result.no_value = Undef.
Proof. done. Qed.
End facts.

Lemma foldl_filter {A} (p : A → bool) l out :
  foldl (λ result item, if p item then result ++ [item] else result) out l = out ++ List.filter p l.
Proof.
  revert out. induction l as [|a l IH]; intros out; simpl; [by rewrite app_nil_r|].
  rewrite IH. destruct (p a); [by rewrite <- app_assoc|done].
Qed.

Lemma filter_keeps {A} (p : A → bool) l : Attempts.filter l p = List.filter p l.
Proof. apply (foldl_filter p l []). Qed.

Lemma collectValuesInto_spec {K V} (m : list (K * V)) out : collectValuesInto m out = out ++ m.*2.
Proof.
  unfold collectValuesInto. revert out. induction m as [|[k v] m IH]; intros out; simpl; [by rewrite app_nil_r|].
  by rewrite IH, <- app_assoc.
Qed.

(** [Utils::toBuffer] is the concatenation of the big-endian fields. *)
Lemma toBuffer_spec arg args : toBuffer arg args = concat ((λ a, be_bytes a.1 a.2) <$> arg :: args).
Proof.
  unfold toBuffer.
  assert (∀ out, toBufferRecursive out arg args = out ++ concat ((λ a, be_bytes a.1 a.2) <$> arg :: args)) as G; [|apply G].
  revert arg. induction args as [|b args IH]; intros arg out; simpl; rewrite appendToBuffer_be; [by rewrite app_nil_r|].
  rewrite IH. simpl. by rewrite <- !app_assoc.
Qed.
