(* ===== verification/Clock.v ===== *)
(** * The Lamport clock

    Models [utils/clock/LamportClock.cpp].  [LamportClock] holds the sequential meaning
    of the operations and the comparison operators; [ClockConcurrency] models the
    compare-and-swap loops of [tick] and [setMax] run by any number of threads on the one
    atomic counter, as a step relation in which a weak exchange may fail spuriously. *)

From S2P Require Import Prelude.

(** ** The clock and its comparison operators *)

Module LamportClock.

Record t := mk { counter : Z; nodeId : Z }.

Inductive UpdateClockStrategy := NONE | SET_MAX | TICK.

(** [LamportClock::LamportClock(nodeId)]. *)
Definition init (nodeId : Z) : t := mk 0 nodeId.

(** [LamportClock::tick]: the counter after an undisturbed call, and the value returned. *)
Definition tick (other : Z) (c : Z) : Z * Z :=
  let newCounter := u64 (Z.max c other + 1) in (newCounter, newCounter).

(** [LamportClock::setMax]. *)
Definition setMax (newCounter : Z) (actual : Z) : Z * Z :=
  (if actual <? newCounter then newCounter else actual, Z.max newCounter actual).

(** [LamportClock::update]. *)
Definition update (strategy : UpdateClockStrategy) (otherCounter : Z) (c : Z) : Z * Z :=
  match strategy with
  | NONE => (c, c)
  | SET_MAX => setMax otherCounter c
  | TICK => tick otherCounter c
  end.

(** [LamportClock::compare]. *)
Definition compare (this : t) (otherCount otherNodeId : Z) : bool :=
  (otherCount <? counter this) || ((counter this =? otherCount) && (otherNodeId <? nodeId this)).

(** [operator<]. *)
Definition op_lt (this other : t) : bool :=
  (counter this <? counter other)
  || ((counter this =? counter other) && (nodeId this <? nodeId other)).

(** [operator<=]; [&&] binds tighter than [||]. *)
Definition op_le (this other : t) : bool :=
  (((counter other =? counter this) && (nodeId other =? nodeId this))
   && (counter this <? counter other))
  || ((counter this =? counter other) && (nodeId this <? nodeId other)).

(** [operator>]. *)
Definition op_gt (this other : t) : bool :=
  (counter other <? counter this)
  || ((counter this =? counter other) && (nodeId other <? nodeId this)).

(** [operator>=]. *)
Definition op_ge (this other : t) : bool :=
  (((counter other =? counter this) && (nodeId other =? nodeId this))
   && (counter other <? counter this))
  || ((counter this =? counter other) && (nodeId other <? nodeId this)).

(** [operator==]. *)
Definition op_eq (this other : t) : bool :=
  (counter this =? counter other) && (nodeId other =? nodeId this).

End LamportClock.

(** ** The timer between rounds *)

Module ExponentialRandomizedTimer.

Record t := mk { startMs : Z; maxTimeoutMs : Z; nextSleepingMs : Z }.

(** [ExponentialRandomizedTimer::ExponentialRandomizedTimer]. *)
Definition make (startMs maxTimeoutMs : Z) : t := mk startMs maxTimeoutMs startMs.

(** [ExponentialRandomizedTimer::sleep]: the milliseconds slept; [randomize] multiplies by a
    random factor between 0.75 and 1.25. *)
Definition sleep (randomize : Z → Z) (x : t) : t * Z :=
  (mk (startMs x) (maxTimeoutMs x) (Z.min (u64 (Z.shiftl (nextSleepingMs x) 2)) (maxTimeoutMs x)),
   randomize (nextSleepingMs x)).

(** [ExponentialRandomizedTimer::reset]. *)
Definition reset (x : t) : t := mk (startMs x) (maxTimeoutMs x) (startMs x).

End ExponentialRandomizedTimer.

(** The pauses grow fourfold up to the maximum. *)
Fixpoint sleeps (randomize : Z → Z) (k : nat) (x : ExponentialRandomizedTimer.t) : ExponentialRandomizedTimer.t :=
  match k with O => x | S k => (ExponentialRandomizedTimer.sleep randomize (sleeps randomize k x)).1 end.

Lemma sleeping_grows r k start max :
  0 ≤ start ≤ max → max < 2 ^ 62 →
  sleeps r k (ExponentialRandomizedTimer.make start max)
  = ExponentialRandomizedTimer.mk start max (Z.min (start * 4 ^ Z.of_nat k) max).
Proof.
  intros Hs Hm. induction k as [|k IH].
  { cbn [sleeps]. unfold ExponentialRandomizedTimer.make. f_equal. change (4 ^ Z.of_nat 0) with 1. lia. }
  cbn [sleeps]. rewrite IH.
  unfold ExponentialRandomizedTimer.sleep. cbn [fst ExponentialRandomizedTimer.nextSleepingMs
    ExponentialRandomizedTimer.startMs ExponentialRandomizedTimer.maxTimeoutMs]. f_equal.
  pose proof (Z.pow_pos_nonneg 4 (Z.of_nat k)). rewrite Z.shiftl_mul_pow2 by lia.
  rewrite wrap_small by (unfold ufits; lia). rewrite Nat2Z.inj_succ, Z.pow_succ_r by lia.
  destruct (Z.min_spec (start * 4 ^ Z.of_nat k) max) as [[? ->]|[? ->]]; lia.
Qed.

(** ** Threads sharing the counter *)

Module ClockConcurrency.

(** The two operations that write the counter. *)
Inductive op := Tick (other : Z) | SetMax (newCounter : Z).

Definition run_op (o : op) (c : Z) : Z * Z :=
  match o with
  | Tick other => LamportClock.tick other c
  | SetMax n => LamportClock.setMax n c
  end.

(** Where a thread is in its call: about to load, about to exchange with the values it
    computed, or returned.  The first load of [tick] is dead: the loop loads again. *)
Inductive pc :=
| Ready (o : op)
| TickCas (other actual newCounter : Z)
| SetMaxCas (newCounter actual : Z)
| Done (o : op) (result : Z).

Inductive tstep : Z → pc → Z → pc → Prop :=
| tick_load c other :
    tstep c (Ready (Tick other)) c (TickCas other c (u64 (Z.max c other + 1)))
| tick_cas_ok c other newCounter :
    tstep c (TickCas other c newCounter) newCounter (Done (Tick other) newCounter)
| tick_cas_fail c other actual newCounter :
    tstep c (TickCas other actual newCounter) c (Ready (Tick other))
| setMax_load_less c newCounter :
    c < newCounter → tstep c (Ready (SetMax newCounter)) c (SetMaxCas newCounter c)
| setMax_load_done c newCounter :
    newCounter ≤ c →
    tstep c (Ready (SetMax newCounter)) c (Done (SetMax newCounter) (Z.max newCounter c))
| setMax_cas_ok c newCounter :
    tstep c (SetMaxCas newCounter c) newCounter (Done (SetMax newCounter) (Z.max newCounter c))
| setMax_cas_fail c newCounter actual :
    tstep c (SetMaxCas newCounter actual) c (Ready (SetMax newCounter)).

(** The counter and the program counters of the threads. *)
Definition config := (Z * list pc)%type.

Inductive step : config → config → Prop :=
| step_thread c ts i p c' p' :
    ts !! i = Some p → tstep c p c' p' → step (c, ts) (c', <[i:=p']> ts).

(** Every thread about to make one call. *)
Definition initial (c : Z) (ops : list op) : config := (c, Ready <$> ops).

(** Running the calls of the threads [order] one after the other. *)
Fixpoint replay (ops : list op) (order : list nat) (c : Z) : option (Z * list (nat * Z)) :=
  match order with
  | [] => Some (c, [])
  | i :: order =>
      o ← ops !! i;
      let '(c', r) := run_op o c in
      '(c'', results) ← replay ops order c';
      Some (c'', (i, r) :: results)
  end.

End ClockConcurrency.

(** ** Invariant of the interleavings *)

Import ClockConcurrency.

(** The call a thread is in. *)
Definition op_of (p : pc) : op :=
  match p with
  | Ready o | Done o _ => o
  | TickCas other _ _ => Tick other
  | SetMaxCas n _ => SetMax n
  end.

(** What a thread about to exchange has computed. *)
Definition pc_ok (p : pc) : Prop :=
  match p with
  | TickCas other actual n => n = u64 (Z.max actual other + 1)
  | SetMaxCas n actual => actual < n
  | _ => True
  end.

Lemma replay_snoc ops order i o c c' rs :
  replay ops order c = Some (c', rs) → ops !! i = Some o →
  replay ops (order ++ [i]) c = Some ((run_op o c').1, rs ++ [(i, (run_op o c').2)]).
Proof.
  revert c rs. induction order as [|j order IH]; intros c rs; simpl.
  - intros [= -> <-] ->. simpl. by destruct (run_op o c').
  - intros H Ho. destruct (ops !! j) as [o'|]; [simpl in *|done].
    destruct (run_op o' c) as [c1 r].
    destruct (replay ops order c1) as [[c2 rs']|] eqn:E; simpl in H; [|done].
    injection H as -> <-. by rewrite (IH _ _ E Ho).
Qed.

(** A step is either silent or performs the whole sequential operation. *)
Lemma tstep_silent_or_linearizes c p c' p' :
  pc_ok p → tstep c p c' p' →
  pc_ok p' ∧ op_of p' = op_of p ∧
  ((c' = c ∧ (∀ o r, p' ≠ Done o r) ∧ (∀ o r, p ≠ Done o r)) ∨
   (c' = (run_op (op_of p) c).1 ∧ p' = Done (op_of p) (run_op (op_of p) c).2 ∧
    ∀ o r, p ≠ Done o r)).
Proof.
  intros Hok Hs. destruct Hs; simpl in *; (split; [done|split; [done|]]).
  - left; done.
  - right; subst; done.
  - left; done.
  - left; done.
  - right. destruct (Z.ltb_spec c newCounter); [lia|done].
  - right. destruct (Z.ltb_spec c newCounter); [done|lia].
  - left; done.
Qed.

Definition linearized (ops : list op) (c0 : Z) (cf : config) : Prop :=
  op_of <$> cf.2 = ops ∧ Forall pc_ok cf.2 ∧
  ∃ order results,
    NoDup order ∧ replay ops order c0 = Some (cf.1, results) ∧
    (∀ i, i ∈ order ↔ ∃ o r, cf.2 !! i = Some (Done o r)) ∧
    (∀ i o r, cf.2 !! i = Some (Done o r) → (i, r) ∈ results).

Lemma linearized_initial ops c0 : linearized ops c0 (initial c0 ops).
Proof.
  assert (∀ i o r, (Ready <$> ops) !! i ≠ Some (Done o r)) as Hnd.
  { intros i o r. rewrite list_lookup_fmap. destruct (ops !! i); simpl; congruence. }
  split; [|split].
  - simpl. rewrite <- list_fmap_compose. apply list_fmap_id.
  - apply Forall_fmap, Forall_true. done.
  - exists [], []. split; [constructor|]. split; [done|]. split.
    + intros i. split; [by intros ?%elem_of_nil|]. intros (o & r & E). by apply Hnd in E.
    + intros i o r E. by apply Hnd in E.
Qed.

Lemma op_of_insert (ts : list pc) i p p' :
  ts !! i = Some p → op_of p' = op_of p → op_of <$> <[i:=p']> ts = op_of <$> ts.
Proof.
  intros Hp E. rewrite list_fmap_insert. apply list_insert_id.
  by rewrite list_lookup_fmap, Hp, E.
Qed.

Lemma linearized_step ops c0 cf cf' : linearized ops c0 cf → step cf cf' → linearized ops c0 cf'.
Proof.
  intros HL Hstep. destruct Hstep as [c ts i p c' p' Hp Hs].
  destruct HL as (Hops & Hok & order & rs & Hnd & Hrep & Hin & Hres); simpl in *.
  pose proof (Forall_lookup_1 _ _ _ _ Hok Hp) as Hpok.
  destruct (tstep_silent_or_linearizes _ _ _ _ Hpok Hs) as (Hpok' & Hop & Hcase).
  pose proof (lookup_lt_Some _ _ _ Hp) as Hlt.
  split; [simpl; by rewrite (op_of_insert _ _ _ _ Hp Hop)|].
  split; [by apply Forall_insert|].
  destruct Hcase as [(-> & Hnd' & Hnp)|(-> & -> & Hnp)].
  - exists order, rs. split; [done|]. split; [done|]. split.
    + intros j. rewrite Hin. simpl. destruct (decide (j = i)) as [->|].
      * rewrite Hp, list_lookup_insert_eq by done. naive_solver.
      * by rewrite list_lookup_insert_ne.
    + simpl. intros j o r. destruct (decide (j = i)) as [->|].
      * rewrite list_lookup_insert_eq by done. naive_solver.
      * rewrite list_lookup_insert_ne by done. apply Hres.
  - assert (ops !! i = Some (op_of p)) as Ho by (by rewrite <- Hops, list_lookup_fmap, Hp).
    exists (order ++ [i]), (rs ++ [(i, (run_op (op_of p) c).2)]). split; [|split; [|split]].
    + apply NoDup_app. split; [done|]. split; [|apply NoDup_singleton].
      intros j Hj ->%list_elem_of_singleton. apply Hin in Hj as (o & r & E). naive_solver.
    + by apply replay_snoc.
    + intros j. rewrite elem_of_app, list_elem_of_singleton, Hin. simpl.
      destruct (decide (j = i)) as [->|].
      * rewrite list_lookup_insert_eq by done. naive_solver.
      * rewrite list_lookup_insert_ne by done. naive_solver.
    + simpl. intros j o r. rewrite elem_of_app. destruct (decide (j = i)) as [->|].
      * rewrite list_lookup_insert_eq by done. intros [= <- <-]. right. by apply list_elem_of_singleton.
      * rewrite list_lookup_insert_ne by done. intros E. left. by eapply Hres.
Qed.

Lemma linearized_reachable ops c0 cf :
  rtc step (initial c0 ops) cf → linearized ops c0 cf.
Proof.
  revert cf. apply rtc_ind_r.
  - apply linearized_initial.
  - intros x y _ Hs IH. by eapply linearized_step.
Qed.


(** ** Distinct ticks *)

(** The number of threads whose call of [tick] has returned. *)
Definition tick_done (p : pc) : bool := match p with Done (Tick _) _ => true | _ => false end.

Fixpoint ticks_done (ts : list pc) : Z :=
  match ts with
  | [] => 0
  | p :: ts => (if tick_done p then 1 else 0) + ticks_done ts
  end.

Lemma ticks_done_insert ts i p p' :
  ts !! i = Some p →
  ticks_done (<[i:=p']> ts)
  = ticks_done ts - (if tick_done p then 1 else 0) + (if tick_done p' then 1 else 0).
Proof.
  revert i. induction ts as [|q ts IH]; intros [|i]; simpl; intros [= E]; [subst; lia|].
  rewrite (IH i) by done. lia.
Qed.

Lemma ticks_done_bound ts : 0 ≤ ticks_done ts ≤ Z.of_nat (length ts).
Proof. induction ts as [|p ts IH]; simpl; [lia|]. destruct (tick_done p); lia. Qed.

(** No argument and no starting value above [M]; the counter never wraps. *)
Definition op_below (M : Z) (o : op) : Prop :=
  match o with Tick x | SetMax x => 0 ≤ x ≤ M end.

Definition ticks_fresh (c0 M : Z) (cf : config) : Prop :=
  c0 ≤ cf.1 ≤ M + ticks_done cf.2 ∧ Forall pc_ok cf.2 ∧ Forall (op_below M ∘ op_of) cf.2 ∧
  (∀ i other r, cf.2 !! i = Some (Done (Tick other) r) → c0 < r ∧ other < r ≤ cf.1) ∧
  (∀ i j o1 o2 r1 r2, i ≠ j → cf.2 !! i = Some (Done (Tick o1) r1) →
     cf.2 !! j = Some (Done (Tick o2) r2) → r1 ≠ r2).

(** A step moves the counter forward; a returning [tick] gets a value above it. *)
Lemma tstep_fresh c0 M n c p c' p' :
  0 ≤ c0 ≤ c → c ≤ M + n → 0 ≤ n → M + n + 1 < 2 ^ 64 → pc_ok p → op_below M (op_of p) →
  tstep c p c' p' →
  tick_done p = false ∧ c ≤ c' ∧ c' ≤ M + n + (if tick_done p' then 1 else 0) ∧
  (∀ other r, p' = Done (Tick other) r → c < r ∧ other < r ∧ c' = r).
Proof.
  intros Hc0 Hc Hn HM Hok Hb Hs. destruct Hs; simpl in *; subst; try (repeat split; lia || congruence).
  rewrite wrap_small by (split; lia).
  split; [done|]. split; [lia|]. split; [lia|]. intros ? ? [= <- <-]. lia.
Qed.

Lemma ticks_fresh_step c0 M cf cf' :
  0 ≤ c0 → M + Z.of_nat (length cf.2) + 1 < 2 ^ 64 →
  ticks_fresh c0 M cf → step cf cf' → ticks_fresh c0 M cf'.
Proof.
  intros Hc0 HM HF Hstep. destruct Hstep as [c ts i p c' p' Hp Hs].
  destruct HF as (Hc & Hok & Hb & Hr & Hd); simpl in *.
  pose proof (Forall_lookup_1 _ _ _ _ Hok Hp) as Hpok.
  pose proof (Forall_lookup_1 _ _ _ _ Hb Hp) as Hpb.
  pose proof (ticks_done_bound ts) as Hn. pose proof (lookup_lt_Some _ _ _ Hp) as Hlt.
  destruct (tstep_fresh c0 M (ticks_done ts) c p c' p') as (Hnd & Hle & Hle' & Hnew);
    [lia..|done|done|done|].
  destruct (tstep_silent_or_linearizes _ _ _ _ Hpok Hs) as (Hpok' & Hop & _).
  assert (∀ j o r, <[i:=p']> ts !! j = Some (Done (Tick o) r) →
    (j = i ∧ p' = Done (Tick o) r) ∨ (j ≠ i ∧ ts !! j = Some (Done (Tick o) r))) as Hcase.
  { intros j o r. destruct (decide (j = i)) as [->|].
    - rewrite list_lookup_insert_eq by done. naive_solver.
    - rewrite list_lookup_insert_ne by done. naive_solver. }
  split; [|split; [|split; [|split]]]; simpl.
  - rewrite (ticks_done_insert _ _ _ _ Hp), Hnd. lia.
  - by apply Forall_insert.
  - apply Forall_insert; [done|]. simpl. by rewrite Hop.
  - intros j o r [[-> ->]|[_ E]]%Hcase; [destruct (Hnew o r) as (?&?&?); [done|lia]|].
    apply Hr in E. lia.
  - intros j k o1 o2 r1 r2 Hjk H1 H2.
    apply Hcase in H1 as [[-> E1]|[? E1]]; apply Hcase in H2 as [[-> E2]|[? E2]].
    + done.
    + destruct (Hnew _ _ E1) as (?&?&?). apply Hr in E2. lia.
    + destruct (Hnew _ _ E2) as (?&?&?). apply Hr in E1. lia.
    + by eapply (Hd j k).
Qed.

Lemma step_length cf cf' : step cf cf' → length cf'.2 = length cf.2.
Proof. intros []. simpl. by rewrite length_insert. Qed.

Lemma ticks_fresh_reachable c0 M ops cf :
  0 ≤ c0 ≤ M → Forall (op_below M) ops → M + Z.of_nat (length ops) + 1 < 2 ^ 64 →
  rtc step (initial c0 ops) cf → ticks_fresh c0 M cf.
Proof.
  intros Hc0 Hops HM H.
  assert (ticks_fresh c0 M cf ∧ length cf.2 = length ops) as [? _]; [|done].
  revert cf H. apply rtc_ind_r.
  - split; [|simpl; by rewrite length_fmap].
    assert (∀ i o r, (Ready <$> ops) !! i ≠ Some (Done o r)) as Hnd.
    { intros i o r. rewrite list_lookup_fmap. destruct (ops !! i); simpl; congruence. }
    split; [|split; [|split; [|split]]]; simpl.
    + pose proof (ticks_done_bound (Ready <$> ops)). lia.
    + apply Forall_fmap, Forall_true. done.
    + by apply Forall_fmap.
    + by intros ? ? ? ?%Hnd.
    + by intros ? ? ? ? ? ? _ ?%Hnd.
  - intros x y _ Hs [IH Hl]. split; [|by rewrite (step_length _ _ Hs)].
    eapply ticks_fresh_step; [lia| |done|done]. rewrite Hl. lia.
Qed.

(** ** Properties *)

(** C12: the compare-and-swap loops of [tick] and [setMax] are linearizable.  However the
    loads, successful exchanges and (also spurious) failures of the threads interleave, the
    calls that have returned can be put in an order in which running them one after the
    other yields the shared counter and every result returned. *)
Theorem clock_linearizable (c0 : Z) (ops : list op) (c : Z) (ts : list pc) :
  rtc step (initial c0 ops) (c, ts) →
  ∃ order results,
    NoDup order ∧ replay ops order c0 = Some (c, results) ∧
    (∀ i, i ∈ order ↔ ∃ o r, ts !! i = Some (Done o r)) ∧
    (∀ i o r, ts !! i = Some (Done o r) → ops !! i = Some o ∧ (i, r) ∈ results).
Proof.
  intros (Hops & _ & order & rs & Hnd & Hrep & Hin & Hres)%linearized_reachable; simpl in *.
  exists order, rs. split; [done|]. split; [done|]. split; [done|]. intros i o r E.
  split; [|by eapply Hres]. subst ops. simpl. by rewrite list_lookup_fmap, E.
Qed.

(** Two threads load 5; the first exchange makes the second one fail and retry. *)
Lemma clock_linearizable_witness :
  ∃ order results, NoDup order ∧
    replay [Tick 5; SetMax 9] order 5 = Some (10, results) ∧
    (∀ i, i ∈ order ↔ ∃ o r, [Done (Tick 5) 10; Done (SetMax 9) 9] !! i = Some (Done o r)) ∧
    (∀ i o r, [Done (Tick 5) 10; Done (SetMax 9) 9] !! i = Some (Done o r) →
       [Tick 5; SetMax 9] !! i = Some o ∧ (i, r) ∈ results).
Proof.
  apply (clock_linearizable 5 [Tick 5; SetMax 9]).
  eapply rtc_l; [eapply (step_thread _ _ 0); [done|apply tick_load]|].
  eapply rtc_l; [eapply (step_thread _ _ 1); [done|apply setMax_load_less; lia]|].
  eapply rtc_l; [eapply (step_thread _ _ 1); [done|apply setMax_cas_ok]|].
  eapply rtc_l; [eapply (step_thread _ _ 0); [done|apply tick_cas_fail]|].
  eapply rtc_l; [eapply (step_thread _ _ 0); [done|apply tick_load]|].
  eapply rtc_l; [eapply (step_thread _ _ 0); [done|apply tick_cas_ok]|].
  apply rtc_refl.
Defined.

(** C33: as long as the counter does not reach [2 ^ 64], timestamps handed out by
    concurrent calls of [tick] are unique, larger than the counter at the start and larger
    than the timestamp each call was given, and the counter never goes back. *)
Theorem ticks_unique (c0 M : Z) (ops : list op) (c : Z) (ts : list pc) :
  0 ≤ c0 ≤ M → Forall (op_below M) ops → M + Z.of_nat (length ops) + 1 < 2 ^ 64 →
  rtc step (initial c0 ops) (c, ts) →
  c0 ≤ c ∧
  (∀ i other r, ts !! i = Some (Done (Tick other) r) → c0 < r ∧ other < r ≤ c) ∧
  (∀ i j o1 o2 r1 r2, i ≠ j → ts !! i = Some (Done (Tick o1) r1) →
     ts !! j = Some (Done (Tick o2) r2) → r1 ≠ r2).
Proof.
  intros Hc0 Hops HM H.
  destruct (ticks_fresh_reachable _ _ _ _ Hc0 Hops HM H) as (? & _ & _ & ? & ?); simpl in *.
  split; [lia|done].
Qed.

Lemma ticks_unique_witness :
  4 ≤ 6 ∧
  (∀ i other r, [Done (Tick 3) 6; Done (Tick 1) 5] !! i = Some (Done (Tick other) r) →
     4 < r ∧ other < r ≤ 6) ∧
  (∀ i j o1 o2 r1 r2, i ≠ j → [Done (Tick 3) 6; Done (Tick 1) 5] !! i = Some (Done (Tick o1) r1) →
     [Done (Tick 3) 6; Done (Tick 1) 5] !! j = Some (Done (Tick o2) r2) → r1 ≠ r2).
Proof.
  apply (ticks_unique 4 4 [Tick 3; Tick 1]); [lia|repeat constructor; lia|simpl; lia|].
  eapply rtc_l; [eapply (step_thread _ _ 1); [done|apply tick_load]|].
  eapply rtc_l; [eapply (step_thread _ _ 1); [done|apply tick_cas_ok]|].
  eapply rtc_l; [eapply (step_thread _ _ 0); [done|apply tick_load]|].
  eapply rtc_l; [eapply (step_thread _ _ 0); [done|apply tick_cas_ok]|].
  apply rtc_refl.
Defined.

(** On clocks, [operator>] (and [compare], which is the same test) is a strict total
    order on (counter, node id) pairs with [operator<] as its converse and [operator==] as
    equality, so any two conflicting writes have one winner.  [operator<=] and
    [operator>=] are not its reflexive closure: they are false whenever the counters
    differ and on equal clocks. *)
Theorem clock_order (a b c : LamportClock.t) :
  LamportClock.op_gt a b = LamportClock.op_lt b a ∧
  LamportClock.op_gt a b = LamportClock.compare a (LamportClock.counter b) (LamportClock.nodeId b) ∧
  LamportClock.op_gt a a = false ∧
  (LamportClock.op_gt a b = true → LamportClock.op_gt b c = true → LamportClock.op_gt a c = true) ∧
  (LamportClock.op_gt a b = true ∨ LamportClock.op_eq a b = true ∨ LamportClock.op_gt b a = true) ∧
  (LamportClock.op_eq a b = true ↔ a = b) ∧
  (LamportClock.counter a ≠ LamportClock.counter b ∨ a = b →
     LamportClock.op_le a b = false ∧ LamportClock.op_ge a b = false).
Proof.
  destruct a as [ac an], b as [bc bn], c as [cc cn].
  unfold LamportClock.op_gt, LamportClock.op_lt, LamportClock.compare, LamportClock.op_eq,
    LamportClock.op_le, LamportClock.op_ge; simpl.
  split; [lia|]. split; [lia|]. split; [lia|]. split; [lia|]. split; [lia|].
  split; [split; [intros; f_equal; lia|intros [= <- <-]; lia]|].
  intros [H|[= <- <-]]; split; lia.
Qed.

Lemma clock_order_witness :
  LamportClock.op_gt (LamportClock.mk 3 1) (LamportClock.mk 2 9) = true ∧
  LamportClock.op_gt (LamportClock.mk 3 1) (LamportClock.mk 2 1) = true ∧
  LamportClock.op_le (LamportClock.mk 2 1) (LamportClock.mk 3 1) = false.
Proof.
  split; [reflexivity|]. split.
  - apply (clock_order (LamportClock.mk 3 1) (LamportClock.mk 2 9) (LamportClock.mk 2 1)); reflexivity.
  - apply (clock_order (LamportClock.mk 2 1) (LamportClock.mk 3 1) (LamportClock.mk 3 1)).
    left; discriminate.
Defined.
