(* ===== verification/Counters.v ===== *)
(** * Replicated counters

    Models [db/counters/Counter.cpp] and [db/counters/CounterArrayIndexMapper.cpp]: a
    positive/negative counter with one slot per node of the cluster.  Slots are found
    through an index mapper that hands out array positions in order of first use, and an
    access outside the two arrays is undefined behaviour.  The abstract counter is the
    pair of totals each node has contributed ([inc], [dec]); replication is a join on it. *)

From S2P Require Import Prelude.

(** ** [CounterArrayIndexMapper] *)

Module CounterArrayIndexMapper.

Record t := mk { indexByNodeId : gmap Z Z; lastIndexAssigned : Z }.

Definition init : t := mk ∅ (-1).

(** [CounterArrayIndexMapper::getIndex]: the index of the node, assigning the next one
    to a node seen for the first time. *)
Definition getIndex (m : t) (nodeId : Z) : t * Z :=
  match indexByNodeId m !! nodeId with
  | Some i => (m, i)
  | None =>
      let newIndex := lastIndexAssigned m + 1 in
      (mk (<[nodeId:=newIndex]> (indexByNodeId m)) newIndex, newIndex)
  end.

End CounterArrayIndexMapper.

(** ** [Counter] *)

Module Counter.

Record t := mk {
  nNodes : Z;
  nIncrements : list Z;
  nDecrements : list Z;
  selfNodeId : Z;
  arrayNodeIndexMapper : CounterArrayIndexMapper.t;
}.

Record ReplicateCounterRequest := mk_request {
  otherNodeId : Z;
  isIncrement : bool;
  newValue : Z;
  lastSeenSelfIncrement : Z;
  lastSeenSelfDecrement : Z;
}.

Record ReplicateCounterResponse := mk_response {
  needsIncrementSync : bool;
  needsDecrementSync : bool;
  nIncrementToSync : Z;
  nDecrementToSync : Z;
}.

(** [Counter::Counter(selfNodeId, nNodes)]. *)
Definition make (selfNodeId nNodes : Z) : t :=
  mk nNodes (replicate (Z.to_nat nNodes) 0) (replicate (Z.to_nat nNodes) 0) selfNodeId
     CounterArrayIndexMapper.init.

(** [*(array + index)] and [*(array + index) = v]. *)
Definition load (array : list Z) (index : Z) : outcome Z :=
  if index <? 0 then Undef else at_undef array (Z.to_nat index).
Definition store (array : list Z) (index v : Z) : outcome (list Z) :=
  let! _ := load array index in Ret (<[Z.to_nat index:=v]> array).

Definition with_arrays (c : t) (incs decs : list Z) : t :=
  mk (nNodes c) incs decs (selfNodeId c) (arrayNodeIndexMapper c).

(** [Counter::getIndexByNode]. *)
Definition getIndexByNode (c : t) (nodeId : Z) : t * Z :=
  let '(m, i) := CounterArrayIndexMapper.getIndex (arrayNodeIndexMapper c) nodeId in
  (mk (nNodes c) (nIncrements c) (nDecrements c) (selfNodeId c) m, i).

(** [Counter::increment]. *)
Definition increment (c : t) : outcome (t * Z) :=
  let '(c, i) := getIndexByNode c (selfNodeId c) in
  let! old := load (nIncrements c) i in
  let! v := checked_i64 (old + 1) in
  let! incs := store (nIncrements c) i v in
  Ret (with_arrays c incs (nDecrements c), v).

(** [Counter::decrement]. *)
Definition decrement (c : t) : outcome (t * Z) :=
  let '(c, i) := getIndexByNode c (selfNodeId c) in
  let! old := load (nDecrements c) i in
  let! v := checked_i64 (old + 1) in
  let! decs := store (nDecrements c) i v in
  Ret (with_arrays c (nIncrements c) decs, v).

(** [Counter::maybeResizeCounters]; the parameter is a [memdbNodeId_t]. *)
Definition maybeResizeCounters (c : t) (index : Z) : t :=
  let otherNodeId := u16 index in
  if nNodes c <=? otherNodeId then
    let grow array :=
      take (Z.to_nat (nNodes c)) array
      ++ replicate (Z.to_nat (otherNodeId + 1) - Z.to_nat (nNodes c)) 0 in
    mk (otherNodeId + 1) (grow (nIncrements c)) (grow (nDecrements c)) (selfNodeId c)
       (arrayNodeIndexMapper c)
  else c.

(** Overwrite a slot when the new value is larger. *)
Definition raise (array : list Z) (index v : Z) : outcome (list Z) :=
  let! old := load array index in
  if old <? v then store array index v else Ret array.

(** [Counter::syncIncrement]. *)
Definition syncIncrement (c : t) (valueToSync otherNodeId : Z) : outcome t :=
  let '(c, i) := getIndexByNode c otherNodeId in
  let c := maybeResizeCounters c i in
  let! incs := raise (nIncrements c) i valueToSync in
  Ret (with_arrays c incs (nDecrements c)).

(** [Counter::syncDecrement]. *)
Definition syncDecrement (c : t) (valueToSync otherNodeId : Z) : outcome t :=
  let '(c, i) := getIndexByNode c otherNodeId in
  let c := maybeResizeCounters c i in
  let! decs := raise (nDecrements c) i valueToSync in
  Ret (with_arrays c (nIncrements c) decs).

(** [Counter::count]. *)
Definition count (c : t) : outcome Z :=
  let indices := map Z.of_nat (seq 0 (Z.to_nat (nNodes c))) in
  let! v := ofoldl (λ acc i, let! x := load (nIncrements c) i in checked_i64 (acc + x)) 0 indices in
  ofoldl (λ acc i, let! x := load (nDecrements c) i in checked_i64 (acc - x)) v indices.

(** [Counter::updateCounterFromReplication]. *)
Definition updateCounterFromReplication (c : t) (request : ReplicateCounterRequest) : outcome t :=
  let '(c, i) := getIndexByNode c (otherNodeId request) in
  if isIncrement request then
    let! incs := raise (nIncrements c) i (newValue request) in
    Ret (with_arrays c incs (nDecrements c))
  else
    let! decs := raise (nDecrements c) i (newValue request) in
    Ret (with_arrays c (nIncrements c) decs).

(** [Counter::onReplicationCounter]. *)
Definition onReplicationCounter (c : t) (request : ReplicateCounterRequest) :
    outcome (t * ReplicateCounterResponse) :=
  let '(c, i) := getIndexByNode c (otherNodeId request) in
  let c := maybeResizeCounters c i in
  let! c := updateCounterFromReplication c request in
  let '(c, self) := getIndexByNode c (selfNodeId c) in
  let! selfInc := load (nIncrements c) self in
  let! selfDec := load (nDecrements c) self in
  let needsInc := lastSeenSelfIncrement request <? selfInc in
  let needsDec := lastSeenSelfDecrement request <? selfDec in
  Ret (c, mk_response needsInc needsDec (if needsInc then selfInc else 0)
                      (if needsDec then selfDec else 0)).

(** [Counter::getLastSeen]; the guard compares the node id, not its index. *)
Definition getLastSeen (c : t) (nodeId : Z) : outcome (t * (Z * Z)) :=
  if nNodes c <=? nodeId then Ret (c, (0, 0))
  else
    let '(c, i) := getIndexByNode c nodeId in
    let! inc := load (nIncrements c) i in
    let! dec := load (nDecrements c) i in
    Ret (c, (inc, dec)).

End Counter.

Import Counter.

(** ** The abstract counter *)

Abbreviation index_of c := (CounterArrayIndexMapper.indexByNodeId (arrayNodeIndexMapper c)).
Abbreviation last_index c := (CounterArrayIndexMapper.lastIndexAssigned (arrayNodeIndexMapper c)).

Definition slot (m : gmap Z Z) (array : list Z) (n : Z) : Z :=
  match m !! n with Some i => default 0 (array !! Z.to_nat i) | None => 0 end.

(** What node [n] is known to have added and subtracted. *)
Definition inc (c : t) (n : Z) : Z := slot (index_of c) (nIncrements c) n.
Definition dec (c : t) (n : Z) : Z := slot (index_of c) (nDecrements c) n.

(** Well-formed counters: the arrays have [nNodes] slots, the mapper is a bijection from
    the nodes seen onto [0 .. lastIndexAssigned], and unassigned slots are zero. *)
Record wf (c : t) : Prop := {
  wf_len : 0 ≤ nNodes c ∧ length (nIncrements c) = Z.to_nat (nNodes c) ∧
           length (nDecrements c) = Z.to_nat (nNodes c);
  wf_last : last_index c + 1 = Z.of_nat (size (index_of c));
  wf_keys : map_Forall (λ n i, ufits 16 n ∧ 0 ≤ i ≤ last_index c) (index_of c);
  wf_inj : ∀ n n' i, index_of c !! n = Some i → index_of c !! n' = Some i → n = n';
  wf_zero : ∀ j, last_index c < Z.of_nat j →
    default 0 (nIncrements c !! j) = 0 ∧ default 0 (nDecrements c !! j) = 0;
  wf_self : ufits 16 (selfNodeId c);
  wf_nonneg : Forall (Z.le 0) (nIncrements c) ∧ Forall (Z.le 0) (nDecrements c);
}.

(** The node's own slot has been assigned inside the arrays. *)
Definition self_ready (c : t) : Prop :=
  ∃ i, index_of c !! selfNodeId c = Some i ∧ i < nNodes c.

(** Node [n]'s slot is inside the arrays. *)
Definition has_slot (c : t) (n : Z) : Prop :=
  ∃ i, index_of c !! n = Some i ∧ 0 ≤ i < nNodes c.

(** ** Array accesses *)

Lemma load_ok array i : 0 ≤ i < Z.of_nat (length array) →
  load array i = Ret (default 0 (array !! Z.to_nat i)).
Proof.
  intros Hi. unfold load. destruct (Z.ltb_spec i 0); [lia|].
  destruct (lookup_lt_is_Some_2 array (Z.to_nat i)) as [x Hx]; [lia|].
  by rewrite (at_undef_Some _ _ _ Hx), Hx.
Qed.

Lemma load_out array i : Z.of_nat (length array) ≤ i → load array i = Undef.
Proof.
  intros Hi. unfold load. destruct (Z.ltb_spec i 0); [done|].
  unfold at_undef. by rewrite lookup_ge_None_2 by lia.
Qed.

Lemma store_ok array i v : 0 ≤ i < Z.of_nat (length array) →
  store array i v = Ret (<[Z.to_nat i:=v]> array).
Proof. intros Hi. unfold store. by rewrite load_ok. Qed.

(** [raise] stores the maximum. *)
Lemma raise_ok array i v : 0 ≤ i < Z.of_nat (length array) →
  raise array i v = Ret (<[Z.to_nat i:=Z.max (default 0 (array !! Z.to_nat i)) v]> array).
Proof.
  intros Hi. unfold raise. rewrite load_ok by done. simpl.
  destruct (lookup_lt_is_Some_2 array (Z.to_nat i)) as [x Hx]; [lia|].
  rewrite Hx. simpl. destruct (Z.ltb_spec x v).
  - rewrite store_ok by done. do 2 f_equal. lia.
  - rewrite Z.max_l by lia. by rewrite list_insert_id.
Qed.

Lemma slot_insert m (array : list Z) n i v n' :
  m !! n = Some i → 0 ≤ i < Z.of_nat (length array) →
  (∀ i', m !! n' = Some i' → 0 ≤ i' ∧ (i = i' → n = n')) →
  slot m (<[Z.to_nat i:=v]> array) n' = if decide (n' = n) then v else slot m array n'.
Proof.
  intros Hn Hi Hinj. unfold slot. destruct (m !! n') as [i'|] eqn:E.
  - destruct (Hinj _ eq_refl) as [Hi' Hnn]. destruct (decide (n' = n)) as [->|Hne].
    + simplify_eq. by rewrite list_lookup_insert_eq by lia.
    + rewrite list_lookup_insert_ne; [done|]. intros ?%Z2Nat.inj; [naive_solver|lia..].
  - destruct (decide (n' = n)); naive_solver.
Qed.

(** ** Operations preserve well-formedness *)

(** [c'] has the abstract value of [c] and at least its slots. *)
Record same_view (c c' : t) : Prop := {
  sv_self : selfNodeId c' = selfNodeId c;
  sv_inc : ∀ n, inc c' n = inc c n;
  sv_dec : ∀ n, dec c' n = dec c n;
  sv_slot : ∀ n, has_slot c n → has_slot c' n;
}.

#[export] Instance same_view_preorder : PreOrder same_view.
Proof.
  split.
  - intros c. by split.
  - intros c1 c2 c3 [? H1 H2 H3] [? H4 H5 H6]. split; [congruence| | |auto].
    + intros n. by rewrite H4.
    + intros n. by rewrite H5.
Qed.

Lemma mapper_size_bound (m : gmap Z Z) :
  (∀ n i, m !! n = Some i → ufits 16 n) → (size m ≤ Z.to_nat (2 ^ 16))%nat.
Proof.
  intros H. rewrite <- (size_dom (D:=gset Z) m).
  rewrite <- (length_seqZ 0 (2 ^ 16)), <- (size_list_to_set (C:=gset Z)) by apply NoDup_seqZ.
  apply subseteq_size. intros n [i Hi]%elem_of_dom. apply elem_of_list_to_set, elem_of_seqZ.
  apply H in Hi. unfold ufits in Hi. lia.
Qed.

Lemma getIndexByNode_spec c n c' i :
  wf c → ufits 16 n → getIndexByNode c n = (c', i) →
  wf c' ∧ same_view c c' ∧ index_of c' !! n = Some i ∧ 0 ≤ i < 2 ^ 16 ∧ nNodes c' = nNodes c.
Proof.
  intros W Hn. unfold getIndexByNode, CounterArrayIndexMapper.getIndex.
  pose proof (mapper_size_bound (index_of c) (λ n i H, proj1 (wf_keys c W n i H))) as Hsz.
  pose proof (wf_last c W) as Hl.
  destruct (index_of c !! n) as [i0|] eqn:E; intros [= <- <-].
  { destruct (wf_keys c W n i0 E) as [_ ?]. destruct c as [? ? ? ? []].
    simpl in *. split; [exact W|]. split; [by split|]. split; [done|]. split; [lia|done]. }
  assert (slot_new : ∀ array n', (∀ j, last_index c < Z.of_nat j → default 0 (array !! j) = 0) →
    slot (<[n:=last_index c + 1]> (index_of c)) array n' = slot (index_of c) array n').
  { intros array n' Hz. unfold slot. destruct (decide (n' = n)) as [->|].
    - rewrite lookup_insert_eq, E. apply Hz. lia.
    - by rewrite lookup_insert_ne. }
  assert (Hsz' : (size (<[n:=(last_index c + 1)%Z]> (index_of c)) ≤ Z.to_nat (2 ^ 16))%nat).
  { apply mapper_size_bound. intros n' i' [[<- _]|[_ H']]%lookup_insert_Some; [done|].
    by apply (wf_keys c W n' i' H'). }
  rewrite map_size_insert_None in Hsz' by done.
  split; [|split; [|split; [|split]]].
  - split; simpl; try apply W.
    + rewrite map_size_insert_None by done. lia.
    + apply map_Forall_insert_2; [split; [done|lia]|].
      intros n' i' H'. destruct (wf_keys c W n' i' H'). split; [done|lia].
    + intros n1 n2 j [[<- <-]|[? H1]]%lookup_insert_Some [[<- ?]|[? H2]]%lookup_insert_Some; try done.
      * destruct (wf_keys c W n2 _ H2). lia.
      * subst. destruct (wf_keys c W n1 _ H1). lia.
      * by eapply (wf_inj c W).
    + intros j Hj. apply (wf_zero c W). lia.
  - split; [done| | |].
    + intros n'. apply slot_new. intros j Hj. by apply (wf_zero c W).
    + intros n'. apply slot_new. intros j Hj. by apply (wf_zero c W).
    + intros n' (j & Hj & ?). exists j. simpl. rewrite lookup_insert_ne by congruence. done.
  - simpl. by rewrite lookup_insert_eq.
  - lia.
  - done.
Qed.

Lemma slot_grow m array extra k n :
  k = length array → slot m (take k array ++ replicate extra 0) n = slot m array n.
Proof.
  intros ->. rewrite firstn_all. unfold slot. destruct (m !! n) as [i|]; [|done].
  destruct (decide (Z.to_nat i < length array)%nat).
  - by rewrite lookup_app_l.
  - rewrite lookup_app_r by lia. rewrite (lookup_ge_None_2 array) by lia. simpl.
    destruct (replicate extra 0 !! _) eqn:E; [|done]. apply lookup_replicate in E as [-> _]. done.
Qed.

Lemma maybeResizeCounters_spec c n i :
  wf c → index_of c !! n = Some i → 0 ≤ i < 2 ^ 16 →
  wf (maybeResizeCounters c i) ∧ same_view c (maybeResizeCounters c i) ∧
  index_of (maybeResizeCounters c i) = index_of c ∧ 0 ≤ i < nNodes (maybeResizeCounters c i).
Proof.
  intros W Hi Hb. unfold maybeResizeCounters. rewrite (wrap_small 16 i) by done.
  destruct (wf_len c W) as (Hlen & Hl1 & Hl2).
  destruct (Z.leb_spec (nNodes c) i); [|split; [done|]; split; [by split|]; split; [done|lia]].
  split; [|split; [|split; simpl; [done|lia]]].
  - split; simpl; try apply W.
    + rewrite !length_app, !length_take, !length_replicate. lia.
    + intros j Hj. pose proof (wf_zero c W j Hj) as [Hz1 Hz2].
      assert (∀ array extra, length array = Z.to_nat (nNodes c) → default 0 (array !! j) = 0 →
        default 0 ((take (Z.to_nat (nNodes c)) array ++ replicate extra 0) !! j) = 0) as G.
      { intros array extra El Hz. rewrite <- El, firstn_all.
        destruct (decide (j < length array)%nat); [by rewrite lookup_app_l|].
        rewrite lookup_app_r by lia. destruct (replicate extra 0 !! _) eqn:E; [|done].
        apply lookup_replicate in E as [-> _]. done. }
      split; by apply G.
    + destruct (wf_nonneg c W) as [N1 N2].
      split; (apply Forall_app; split; [by apply Forall_take|by apply Forall_replicate]).
  - split; simpl; try done.
    + intros n'. by apply slot_grow.
    + intros n'. by apply slot_grow.
    + intros n' (j & Hj & ?). exists j. simpl. split; [done|lia].
Qed.

(** Storing [v] in [n]'s slot of the increments (of the decrements). *)
Definition set_inc (c : t) (i v : Z) : t := with_arrays c (<[Z.to_nat i:=v]> (nIncrements c)) (nDecrements c).
Definition set_dec (c : t) (i v : Z) : t := with_arrays c (nIncrements c) (<[Z.to_nat i:=v]> (nDecrements c)).

Lemma wf_set c n i v :
  wf c → index_of c !! n = Some i → 0 ≤ v → wf (set_inc c i v) ∧ wf (set_dec c i v).
Proof.
  intros W Hi Hv. destruct (wf_nonneg c W) as [N1 N2]. destruct (wf_keys c W n i Hi) as [_ Hil]. destruct (wf_len c W) as (?&?&?).
  assert (∀ (array : list Z) j, last_index c < Z.of_nat j →
    default 0 (array !! j) = 0 → default 0 (<[Z.to_nat i:=v]> array !! j) = 0) as Hz.
  { intros array j Hj Hz0. rewrite list_lookup_insert_ne; [done|lia]. }
  split; (split; simpl; [|apply W|apply W|apply W| |apply W|]; [by rewrite !length_insert| |];
    [intros j Hj; destruct (wf_zero c W j Hj); auto|]);
    (split; [done || by apply Forall_insert|done || by apply Forall_insert]).
Qed.

Lemma view_set c n i v n' :
  wf c → index_of c !! n = Some i → 0 ≤ i < nNodes c →
  inc (set_inc c i v) n' = (if decide (n' = n) then v else inc c n') ∧
  dec (set_dec c i v) n' = (if decide (n' = n) then v else dec c n').
Proof.
  intros W Hi Hb. destruct (wf_len c W) as (?&?&?).
  split; (apply slot_insert; [done|simpl; lia|]; intros i' E;
    destruct (wf_keys c W n' i' E); split; [lia|]; intros ->; by eapply (wf_inj c W)).
Qed.

(** ** Specifications of the operations *)

Lemma slot_nonneg m array n : Forall (Z.le 0) array → 0 ≤ slot m array n.
Proof.
  intros H. unfold slot. destruct (m !! n) as [i|]; [|done].
  destruct (array !! Z.to_nat i) eqn:E; [|done]. by apply (Forall_lookup_1 _ _ _ _ H E).
Qed.

Lemma view_nonneg c n : wf c → 0 ≤ inc c n ∧ 0 ≤ dec c n.
Proof. intros W. destruct (wf_nonneg c W). split; by apply slot_nonneg. Qed.

(** Reading the slot of a node. *)
Lemma load_slot c n i :
  wf c → index_of c !! n = Some i → 0 ≤ i < nNodes c →
  load (nIncrements c) i = Ret (inc c n) ∧ load (nDecrements c) i = Ret (dec c n).
Proof.
  intros W Hi Hb. destruct (wf_len c W) as (?&?&?). unfold inc, dec, slot. rewrite Hi.
  split; apply load_ok; lia.
Qed.

Lemma raise_slot c n i v :
  wf c → index_of c !! n = Some i → 0 ≤ i < nNodes c →
  raise (nIncrements c) i v = Ret (nIncrements (set_inc c i (Z.max (inc c n) v))) ∧
  raise (nDecrements c) i v = Ret (nDecrements (set_dec c i (Z.max (dec c n) v))).
Proof.
  intros W Hi Hb. destruct (wf_len c W) as (?&?&?). unfold inc, dec, slot. rewrite Hi.
  split; apply raise_ok; lia.
Qed.

(** The effect of an operation that joins [v] into node [n]'s increments
    ([b = true]) or decrements. *)
Record joined (b : bool) (n v : Z) (c c' : t) : Prop := {
  jn_wf : wf c';
  jn_self : selfNodeId c' = selfNodeId c;
  jn_slot : ∀ n', has_slot c n' → has_slot c' n';
  jn_slot_n : has_slot c' n;
  jn_inc : ∀ n', inc c' n' = if b then (if decide (n' = n) then Z.max (inc c n) v else inc c n') else inc c n';
  jn_dec : ∀ n', dec c' n' = if b then dec c n' else (if decide (n' = n) then Z.max (dec c n) v else dec c n');
}.

Lemma joined_set b n v c0 c i :
  wf c → same_view c0 c → index_of c !! n = Some i → 0 ≤ i < nNodes c →
  joined b n v c0 (if b then set_inc c i (Z.max (inc c n) v) else set_dec c i (Z.max (dec c n) v)).
Proof.
  intros W V Hi Hb.
  pose proof (view_nonneg c n W).
  destruct (wf_set c n i (if b then Z.max (inc c n) v else Z.max (dec c n) v) W Hi) as [W1 W2];
    [destruct b; lia|].
  destruct b; (split; [done|apply V|apply V|by exists i| | ]).
  - intros n'. rewrite (proj1 (view_set c n i _ n' W Hi Hb)), !(sv_inc _ _ V). done.
  - intros n'. apply V.
  - intros n'. apply V.
  - intros n'. rewrite (proj2 (view_set c n i _ n' W Hi Hb)), !(sv_dec _ _ V). done.
Qed.

Lemma syncIncrement_spec c v n :
  wf c → ufits 16 n → ∃ c', syncIncrement c v n = Ret c' ∧ joined true n v c c'.
Proof.
  intros W Hn. unfold syncIncrement. destruct (getIndexByNode c n) as [c1 i] eqn:E.
  destruct (getIndexByNode_spec _ _ _ _ W Hn E) as (W1 & V1 & Hi & Hb & _).
  destruct (maybeResizeCounters_spec c1 n i W1 Hi Hb) as (W2 & V2 & Ei & Hb').
  rewrite <- Ei in Hi. set (c2 := maybeResizeCounters c1 i) in *.
  rewrite (proj1 (raise_slot c2 n i v W2 Hi Hb')). simpl.
  eexists; split; [done|]. apply (joined_set true); [done|by trans c1|done|done].
Qed.

Lemma syncDecrement_spec c v n :
  wf c → ufits 16 n → ∃ c', syncDecrement c v n = Ret c' ∧ joined false n v c c'.
Proof.
  intros W Hn. unfold syncDecrement. destruct (getIndexByNode c n) as [c1 i] eqn:E.
  destruct (getIndexByNode_spec _ _ _ _ W Hn E) as (W1 & V1 & Hi & Hb & _).
  destruct (maybeResizeCounters_spec c1 n i W1 Hi Hb) as (W2 & V2 & Ei & Hb').
  rewrite <- Ei in Hi. set (c2 := maybeResizeCounters c1 i) in *.
  rewrite (proj2 (raise_slot c2 n i v W2 Hi Hb')). simpl.
  eexists; split; [done|]. apply (joined_set false); [done|by trans c1|done|done].
Qed.

(** A registered node keeps its index. *)
Lemma getIndexByNode_has_slot c n :
  has_slot c n → ∃ i, getIndexByNode c n = (c, i) ∧ index_of c !! n = Some i ∧ 0 ≤ i < nNodes c.
Proof.
  intros (i & Hi & Hb). exists i. split; [|done]. unfold getIndexByNode, CounterArrayIndexMapper.getIndex.
  rewrite Hi. by destruct c.
Qed.

Lemma updateCounterFromReplication_spec c0 c r :
  wf c → same_view c0 c → has_slot c (otherNodeId r) →
  ∃ c', updateCounterFromReplication c r = Ret c' ∧
        joined (isIncrement r) (otherNodeId r) (newValue r) c0 c'.
Proof.
  intros W V Hs. destruct (getIndexByNode_has_slot _ _ Hs) as (i & E & Hi & Hb).
  unfold updateCounterFromReplication. rewrite E.
  pose proof (raise_slot c (otherNodeId r) i (newValue r) W Hi Hb) as [R1 R2].
  pose proof (joined_set (isIncrement r) (otherNodeId r) (newValue r) c0 c i W V Hi Hb) as J.
  destruct (isIncrement r); [rewrite R1|rewrite R2]; simpl; by eexists.
Qed.

(** The answer to a replication request: the node's own totals where the sender lags. *)
Definition replication_response (c : t) (r : ReplicateCounterRequest) : ReplicateCounterResponse :=
  let n := selfNodeId c in
  mk_response (lastSeenSelfIncrement r <? inc c n) (lastSeenSelfDecrement r <? dec c n)
    (if lastSeenSelfIncrement r <? inc c n then inc c n else 0)
    (if lastSeenSelfDecrement r <? dec c n then dec c n else 0).

Lemma onReplicationCounter_spec c r :
  wf c → has_slot c (selfNodeId c) → ufits 16 (otherNodeId r) →
  ∃ c', onReplicationCounter c r = Ret (c', replication_response c' r) ∧
        joined (isIncrement r) (otherNodeId r) (newValue r) c c'.
Proof.
  intros W Hs Hn. unfold onReplicationCounter.
  destruct (getIndexByNode c (otherNodeId r)) as [c1 i] eqn:E.
  destruct (getIndexByNode_spec _ _ _ _ W Hn E) as (W1 & V1 & Hi & Hb & _).
  destruct (maybeResizeCounters_spec c1 _ i W1 Hi Hb) as (W2 & V2 & Ei & Hb').
  set (c2 := maybeResizeCounters c1 i) in *.
  destruct (updateCounterFromReplication_spec c c2 r W2) as (c3 & E3 & J);
    [by trans c1|exists i; by rewrite Ei|].
  rewrite E3. simpl.
  assert (has_slot c3 (selfNodeId c3)) as Hs3 by (rewrite (jn_self _ _ _ _ _ J); by apply J).
  destruct (getIndexByNode_has_slot _ _ Hs3) as (j & Ej & Hj & Hbj). rewrite Ej.
  destruct (load_slot c3 _ j (jn_wf _ _ _ _ _ J) Hj Hbj) as [L1 L2]. rewrite L1. simpl.
  rewrite L2. simpl. by exists c3.
Qed.

(** A slot for the node itself is there, or is the next one to be assigned. *)
Definition own_slot (c : t) : Prop :=
  has_slot c (selfNodeId c) ∨ (index_of c !! selfNodeId c = None ∧ last_index c + 1 < nNodes c).

Lemma getIndexByNode_own c :
  wf c → own_slot c →
  ∃ c1 i, getIndexByNode c (selfNodeId c) = (c1, i) ∧ wf c1 ∧ same_view c c1 ∧
          index_of c1 !! selfNodeId c = Some i ∧ 0 ≤ i < nNodes c1.
Proof.
  intros W Hown. destruct (getIndexByNode c (selfNodeId c)) as [c1 i] eqn:E.
  destruct (getIndexByNode_spec _ _ _ _ W (wf_self c W) E) as (W1 & V1 & Hi & Hb & Hn).
  exists c1, i. do 4 (split; [done|]). destruct Hown as [Hs|[Hnone Hlt]].
  - destruct (getIndexByNode_has_slot _ _ Hs) as (j & Ej & Hj & Hjb). rewrite Ej in E.
    by simplify_eq.
  - unfold getIndexByNode, CounterArrayIndexMapper.getIndex in E. rewrite Hnone in E.
    injection E as <- <-. simpl. lia.
Qed.

Lemma increment_spec c :
  wf c → own_slot c → inc c (selfNodeId c) + 1 < 2 ^ 63 →
  ∃ c', increment c = Ret (c', inc c (selfNodeId c) + 1) ∧
        joined true (selfNodeId c) (inc c (selfNodeId c) + 1) c c'.
Proof.
  intros W Hown Hlt. destruct (getIndexByNode_own c W Hown) as (c1 & i & E & W1 & V1 & Hi & Hb).
  pose proof (view_nonneg c (selfNodeId c) W). unfold increment. rewrite E.
  rewrite (proj1 (load_slot c1 _ i W1 Hi Hb)). simpl. rewrite (sv_inc _ _ V1).
  rewrite checked_i64_ok by (unfold sfits; simpl; lia). simpl.
  destruct (wf_len c1 W1) as (?&?&?). rewrite store_ok by lia. simpl. eexists; split; [done|].
  pose proof (joined_set true _ (inc c (selfNodeId c) + 1) c c1 i W1 V1 Hi Hb) as J; simpl in J.
  rewrite (sv_inc _ _ V1), Z.max_r in J by lia. done.
Qed.

Lemma decrement_spec c :
  wf c → own_slot c → dec c (selfNodeId c) + 1 < 2 ^ 63 →
  ∃ c', decrement c = Ret (c', dec c (selfNodeId c) + 1) ∧
        joined false (selfNodeId c) (dec c (selfNodeId c) + 1) c c'.
Proof.
  intros W Hown Hlt. destruct (getIndexByNode_own c W Hown) as (c1 & i & E & W1 & V1 & Hi & Hb).
  pose proof (view_nonneg c (selfNodeId c) W). unfold decrement. rewrite E.
  rewrite (proj2 (load_slot c1 _ i W1 Hi Hb)). simpl. rewrite (sv_dec _ _ V1).
  rewrite checked_i64_ok by (unfold sfits; simpl; lia). simpl.
  destruct (wf_len c1 W1) as (?&?&?). rewrite store_ok by lia. simpl. eexists; split; [done|].
  pose proof (joined_set false _ (dec c (selfNodeId c) + 1) c c1 i W1 V1 Hi Hb) as J; simpl in J.
  rewrite (sv_dec _ _ V1), Z.max_r in J by lia. done.
Qed.

(** ** [count] is the sum over the nodes *)

Definition zsum (l : list Z) : Z := foldr Z.add 0 l.

(** Over every node id. *)
Definition total (f : Z → Z) : Z := zsum (f <$> seqZ 0 (2 ^ 16)).

Lemma zsum_cons x l : zsum (x :: l) = x + zsum l.
Proof. done. Qed.

Lemma zsum_app l1 l2 : zsum (l1 ++ l2) = zsum l1 + zsum l2.
Proof. unfold zsum. induction l1; simpl; lia. Qed.

#[export] Instance zsum_perm : Proper ((≡ₚ) ==> eq) zsum.
Proof. intros l l' H. unfold zsum. induction H; simpl; lia. Qed.

Lemma zsum_zero l : Forall (eq 0) l → zsum l = 0.
Proof. unfold zsum. induction 1; simpl; lia. Qed.

Lemma zsum_nonneg l : Forall (Z.le 0) l → 0 ≤ zsum l.
Proof. unfold zsum. induction 1; simpl; lia. Qed.

Lemma zsum_indices (array : list Z) k :
  (∀ j, (k ≤ j)%nat → default 0 (array !! j) = 0) →
  zsum ((λ i, default 0 (array !! i)) <$> seq 0 k) = zsum array.
Proof.
  revert k. induction array as [|x array IH]; intros k Hz.
  - apply zsum_zero, Forall_fmap, Forall_true. done.
  - destruct k as [|k].
    + symmetry. apply zsum_zero, Forall_lookup_2. intros i y Hy.
      specialize (Hz i ltac:(lia)). by rewrite Hy in Hz.
    + simpl. f_equal. rewrite <- fmap_S_seq, <- list_fmap_compose. apply (IH k).
      intros j Hj. apply (Hz (S j)). lia.
Qed.

(** Only the elements where [f] is not zero contribute. *)
Lemma zsum_superset (f : Z → Z) l u :
  NoDup l → l ⊆+ u → NoDup u → (∀ x, x ∉ l → f x = 0) → zsum (f <$> u) = zsum (f <$> l).
Proof.
  intros Hl (rest & Hp)%submseteq_Permutation Hu Hz. rewrite Hp, fmap_app, zsum_app.
  rewrite (zsum_zero (f <$> rest)); [lia|]. apply Forall_fmap, Forall_forall. intros x Hx.
  rewrite Hp in Hu. apply NoDup_app in Hu as (_ & Hd & _). symmetry. apply Hz. naive_solver.
Qed.

Lemma indices_perm c : wf c → (map_to_list (index_of c)).*2 ≡ₚ Z.of_nat <$> seq 0 (size (index_of c)).
Proof.
  intros W. apply submseteq_length_Permutation.
  - apply NoDup_submseteq.
    + apply NoDup_fmap_2_strong; [|apply NoDup_map_to_list].
      intros [n i] [n' i'] H1%elem_of_map_to_list H2%elem_of_map_to_list E. simpl in *. subst.
      f_equal. by eapply (wf_inj c W).
    + intros i ([n i'] & -> & H)%list_elem_of_fmap. apply elem_of_map_to_list in H.
      destruct (wf_keys c W n i' H) as [_ Hi]. pose proof (wf_last c W). simpl.
      apply list_elem_of_fmap. exists (Z.to_nat i'). split; [lia|]. apply elem_of_seq. lia.
  - rewrite !length_fmap, length_seq, length_map_to_list. done.
Qed.

Lemma total_slot c array :
  wf c → (∀ j, last_index c < Z.of_nat j → default 0 (array !! j) = 0) →
  total (slot (index_of c) array) = zsum array.
Proof.
  intros W Hz. unfold total.
  rewrite (zsum_superset _ (map_to_list (index_of c)).*1).
  - rewrite <- list_fmap_compose.
    rewrite (list_fmap_ext _ ((λ i, default 0 (array !! Z.to_nat i)) ∘ snd)).
    + rewrite list_fmap_compose, (indices_perm c W), <- list_fmap_compose.
      rewrite <- (zsum_indices array (size (index_of c))).
      * f_equal. apply list_fmap_ext. intros _ i _. simpl. by rewrite Nat2Z.id.
      * intros j Hj. apply Hz. pose proof (wf_last c W). lia.
    + intros k [n i] E%list_elem_of_lookup_2%elem_of_map_to_list. simpl. unfold slot. by rewrite E.
  - apply NoDup_fst_map_to_list.
  - apply NoDup_submseteq; [apply NoDup_fst_map_to_list|].
    intros n ([n' i] & -> & H)%list_elem_of_fmap. apply elem_of_map_to_list in H.
    destruct (wf_keys c W n' i H) as [? _]. apply elem_of_seqZ. unfold ufits in *. simpl. lia.
  - apply NoDup_seqZ.
  - intros n Hn. unfold slot. destruct (index_of c !! n) as [i|] eqn:E; [|done].
    exfalso. apply Hn, list_elem_of_fmap. exists (n, i). split; [done|]. by apply elem_of_map_to_list.
Qed.

Lemma total_inc c : wf c → total (inc c) = zsum (nIncrements c).
Proof. intros W. apply total_slot; [done|]. intros j Hj. by apply (wf_zero c W). Qed.

Lemma total_dec c : wf c → total (dec c) = zsum (nDecrements c).
Proof. intros W. apply total_slot; [done|]. intros j Hj. by apply (wf_zero c W). Qed.

Lemma zsum_take_bound l k : Forall (Z.le 0) l → 0 ≤ zsum (take k l) ≤ zsum l.
Proof.
  intros H. rewrite <- (take_drop k l) at 3. rewrite zsum_app.
  pose proof (zsum_nonneg _ (Forall_take _ k _ H)). pose proof (zsum_nonneg _ (Forall_drop _ k _ H)). lia.
Qed.

(** Adding ([s = 1]) or subtracting ([s = -1]) the slots one by one. *)
Lemma accumulate_fold (s : Z) array acc k :
  s = 1 ∨ s = -1 → Forall (Z.le 0) array → (k ≤ length array)%nat →
  (∀ j, (j ≤ length array)%nat → sfits 64 (acc + s * zsum (take j array))) →
  ofoldl (λ acc i, let! x := load array i in checked_i64 (acc + s * x)) acc
    (map Z.of_nat (seq 0 k)) = Ret (acc + s * zsum (take k array)).
Proof.
  intros Hs Hnn. induction k as [|k IH]; intros Hk Hfit; [simpl; f_equal; lia|].
  rewrite seq_S, map_app, ofoldl_app, IH by (done || lia). simpl.
  rewrite load_ok by lia. simpl. rewrite Nat2Z.id.
  destruct (lookup_lt_is_Some_2 array k) as [x Hx]; [lia|].
  specialize (Hfit (S k) ltac:(lia)). rewrite (take_S_r _ _ _ Hx), zsum_app in *. rewrite Hx. simpl in *.
  rewrite checked_i64_ok; simpl; [f_equal; lia|].
  replace (acc + s * zsum (take k array) + s * x) with (acc + s * (zsum (take k array) + (x + 0))) by lia.
  done.
Qed.

Lemma count_spec c :
  wf c → total (inc c) < 2 ^ 63 → total (dec c) ≤ 2 ^ 63 →
  count c = Ret (total (inc c) - total (dec c)).
Proof.
  intros W Hi Hd. destruct (wf_len c W) as (Hn & L1 & L2). destruct (wf_nonneg c W) as [N1 N2].
  rewrite total_inc, total_dec in * by done. unfold count.
  pose proof (zsum_nonneg _ N1) as Z1. pose proof (zsum_nonneg _ N2) as Z2.
  assert (∀ A (f g : Z → A → outcome Z) s l, (∀ a x, f a x = g a x) → ofoldl f s l = ofoldl g s l) as Hext.
  { intros A f g s l H. revert s. induction l as [|a l IH]; intros s; simpl; [done|].
    rewrite H. destruct (g s a); simpl; auto. }
  rewrite (Hext _ _ (λ acc i, let! x := load (nIncrements c) i in checked_i64 (acc + 1 * x))).
  2:{ intros a x. destruct (load _ _); simpl; [|done..]. do 2 f_equal. lia. }
  rewrite accumulate_fold; [|by left|done|lia|].
  2:{ intros j Hj. pose proof (zsum_take_bound _ j N1). unfold sfits. simpl. lia. }
  simpl. rewrite (take_ge (nIncrements c)) by lia.
  rewrite (Hext _ _ (λ acc i, let! x := load (nDecrements c) i in checked_i64 (acc + (-1) * x))).
  2:{ intros a x. by destruct (load _ _). }
  rewrite accumulate_fold; [|by right|done|lia|].
  2:{ intros j Hj. pose proof (zsum_take_bound _ j N2). unfold sfits. simpl. lia. }
  rewrite (take_ge (nDecrements c)) by lia. f_equal. lia.
Qed.

(** ** Replication as a join *)

(** Applying the replication requests that arrive, in order. *)
Definition replicate_all (c : t) (requests : list ReplicateCounterRequest) : outcome t :=
  ofoldl (λ c r, let! (c, _) := onReplicationCounter c r in Ret c) c requests.

(** The largest of [base] and the values reported for node [n]. *)
Definition join (b : bool) (n base : Z) (requests : list ReplicateCounterRequest) : Z :=
  foldr Z.max base
    (newValue <$> filter (λ r, otherNodeId r = n ∧ isIncrement r = b) requests).

Lemma join_cons b n base r requests :
  join b n base (r :: requests)
  = if decide (otherNodeId r = n ∧ isIncrement r = b)
    then Z.max (newValue r) (join b n base requests) else join b n base requests.
Proof. unfold join. rewrite filter_cons. by destruct (decide _). Qed.

Lemma foldr_max_base (l : list Z) base v : foldr Z.max (Z.max base v) l = Z.max v (foldr Z.max base l).
Proof. induction l; simpl; lia. Qed.

(** The join only depends on which requests arrived. *)
Lemma foldr_max_iff (l : list Z) base x :
  foldr Z.max base l = x ↔ base ≤ x ∧ (∀ y, y ∈ l → y ≤ x) ∧ (x = base ∨ x ∈ l).
Proof.
  split.
  - intros <-. induction l as [|y l (H1 & H2 & H3)]; simpl.
    + split; [lia|]. split; [by intros ? ?%elem_of_nil|by left].
    + split; [lia|]. split.
      * intros z [->|Hz]%elem_of_cons; [lia|]. specialize (H2 z Hz). lia.
      * rewrite elem_of_cons. destruct (Z.max_spec y (foldr Z.max base l)) as [[? ->]|[? ->]]; naive_solver.
  - intros (H1 & H2 & H3). revert x H1 H2 H3. induction l as [|y l IH]; simpl; intros x H1 H2 H3.
    + destruct H3 as [->|?%elem_of_nil]; done.
    + assert (foldr Z.max base l ≤ x) as Hle.
      { clear IH H3. induction l as [|z l IH]; simpl; [done|].
        assert (z ≤ x) by (apply H2; set_solver). assert (foldr Z.max base l ≤ x); [|lia].
        apply IH. intros w Hw. apply H2. set_solver. }
      assert (y ≤ x) by (apply H2; set_solver).
      destruct (decide (y = x)) as [->|]; [lia|].
      assert (foldr Z.max base l = x) as ->; [|lia]. apply IH; set_solver.
Qed.

Lemma join_same_elements b n base rs rs' :
  (∀ r, r ∈ rs ↔ r ∈ rs') → join b n base rs = join b n base rs'.
Proof.
  intros H. unfold join. apply foldr_max_iff.
  destruct (proj1 (foldr_max_iff (newValue <$> filter (λ r, otherNodeId r = n ∧ isIncrement r = b) rs')
    base _) eq_refl) as (H1 & H2 & H3).
  assert (∀ y, y ∈ newValue <$> filter (λ r, otherNodeId r = n ∧ isIncrement r = b) rs ↔
    y ∈ newValue <$> filter (λ r, otherNodeId r = n ∧ isIncrement r = b) rs') as E.
  { intros y. rewrite !list_elem_of_fmap. setoid_rewrite list_elem_of_filter. by setoid_rewrite H. }
  split; [done|]. split; [intros y Hy%E; auto|]. destruct H3 as [?|?%E]; auto.
Qed.

Lemma replicate_all_spec c rs :
  wf c → has_slot c (selfNodeId c) → Forall (λ r, ufits 16 (otherNodeId r)) rs →
  ∃ c', replicate_all c rs = Ret c' ∧ wf c' ∧ selfNodeId c' = selfNodeId c ∧
    (∀ n, inc c' n = join true n (inc c n) rs) ∧ (∀ n, dec c' n = join false n (dec c n) rs).
Proof.
  intros W Hs Hrs. revert c W Hs. induction Hrs as [|r rs Hr _ IH]; intros c W Hs.
  - by exists c.
  - destruct (onReplicationCounter_spec c r W Hs Hr) as (c1 & E & J).
    unfold replicate_all. simpl. rewrite E. simpl.
    destruct (IH c1 (jn_wf _ _ _ _ _ J)) as (c' & E' & W' & Hself & Hi & Hd).
    { rewrite (jn_self _ _ _ _ _ J). by apply J. }
    exists c'. split; [done|]. split; [done|]. split; [by rewrite Hself, (jn_self _ _ _ _ _ J)|].
    split; intros n; rewrite ?Hi, ?Hd, ?(jn_inc _ _ _ _ _ J), ?(jn_dec _ _ _ _ _ J), join_cons;
      destruct (isIncrement r), (decide (n = otherNodeId r)) as [->|];
      rewrite ?decide_True, ?decide_False by naive_solver; try done;
      unfold join; by rewrite foldr_max_base.
Qed.

(** ** Histories of a counter *)

(** One call on the counter. *)
Inductive call :=
| Increment
| Decrement
| SyncIncrement (valueToSync otherNodeId : Z)
| SyncDecrement (valueToSync otherNodeId : Z)
| Replicate (request : ReplicateCounterRequest)
| LastSeen (nodeId : Z).

Definition run_call (c : t) (k : call) : outcome t :=
  match k with
  | Increment => let! (c, _) := increment c in Ret c
  | Decrement => let! (c, _) := decrement c in Ret c
  | SyncIncrement v n => syncIncrement c v n
  | SyncDecrement v n => syncDecrement c v n
  | Replicate r => let! (c, _) := onReplicationCounter c r in Ret c
  | LastSeen n => let! (c, _) := getLastSeen c n in Ret c
  end.

(** The node id a call names is a [memdbNodeId_t]. *)
Definition call_ok (k : call) : Prop :=
  match k with
  | Increment | Decrement => True
  | SyncIncrement _ n | SyncDecrement _ n | LastSeen n => ufits 16 n
  | Replicate r => ufits 16 (otherNodeId r)
  end.

Lemma load_inv array i x :
  load array i = Ret x → 0 ≤ i < Z.of_nat (length array) ∧ x = default 0 (array !! Z.to_nat i).
Proof.
  unfold load, at_undef. destruct (Z.ltb_spec i 0); [done|].
  destruct (array !! Z.to_nat i) as [y|] eqn:E; [|done]. intros [= <-].
  apply lookup_lt_Some in E. split; [lia|done].
Qed.

Lemma wf_make self n : ufits 16 self → 0 ≤ n → wf (make self n).
Proof.
  intros Hself Hn. split; simpl.
  - by rewrite !length_replicate.
  - done.
  - apply map_Forall_empty.
  - intros ? ? ? E. by rewrite lookup_empty in E.
  - intros j _. assert (default 0 (replicate (Z.to_nat n) 0 !! j) = 0) as ->; [|done].
    destruct (replicate _ 0 !! j) eqn:E; [|done]. by apply lookup_replicate in E as [-> _].
  - done.
  - split; by apply Forall_replicate.
Qed.

Lemma bump_wf c n c1 i old :
  wf c → ufits 16 n → getIndexByNode c n = (c1, i) →
  (load (nIncrements c1) i = Ret old → 0 ≤ old → wf (set_inc c1 i (old + 1))) ∧
  (load (nDecrements c1) i = Ret old → 0 ≤ old → wf (set_dec c1 i (old + 1))).
Proof.
  intros W Hn E. destruct (getIndexByNode_spec _ _ _ _ W Hn E) as (W1 & _ & Hi & _).
  split; intros _ Ho; apply (wf_set c1 n i (old + 1) W1 Hi); lia.
Qed.

Lemma load_nonneg array i old : Forall (Z.le 0) array → load array i = Ret old → 0 ≤ old.
Proof.
  intros H (Hb & ->)%load_inv. destruct (array !! Z.to_nat i) eqn:E; [|done]. simpl.
  apply (Forall_lookup_1 _ _ _ _ H E).
Qed.

Lemma store_inv array i v array' : store array i v = Ret array' → array' = <[Z.to_nat i:=v]> array.
Proof. unfold store. intros H. inv_ret. done. Qed.

Lemma checked_i64_inv z v : checked_i64 z = Ret v → v = z.
Proof. unfold checked_i64. destruct (decide _); [|done]. congruence. Qed.

Lemma increment_wf c c' v : wf c → increment c = Ret (c', v) → wf c'.
Proof.
  intros W H. unfold increment in H. destruct (getIndexByNode c (selfNodeId c)) as [c1 i] eqn:E.
  destruct (getIndexByNode_spec _ _ _ _ W (wf_self c W) E) as (W1 & _).
  inv_ret. apply store_inv in E2 as ->. apply checked_i64_inv in E1 as ->.
  apply (bump_wf c (selfNodeId c) c1 i a W (wf_self c W) E); [done|].
  by apply (load_nonneg _ _ _ (proj1 (wf_nonneg c1 W1)) E0).
Qed.

Lemma decrement_wf c c' v : wf c → decrement c = Ret (c', v) → wf c'.
Proof.
  intros W H. unfold decrement in H. destruct (getIndexByNode c (selfNodeId c)) as [c1 i] eqn:E.
  destruct (getIndexByNode_spec _ _ _ _ W (wf_self c W) E) as (W1 & _).
  inv_ret. apply store_inv in E2 as ->. apply checked_i64_inv in E1 as ->.
  apply (bump_wf c (selfNodeId c) c1 i a W (wf_self c W) E); [done|].
  by apply (load_nonneg _ _ _ (proj2 (wf_nonneg c1 W1)) E0).
Qed.

Lemma onReplicationCounter_wf c r c' resp :
  wf c → ufits 16 (otherNodeId r) → onReplicationCounter c r = Ret (c', resp) → wf c'.
Proof.
  intros W Hn H. unfold onReplicationCounter in H.
  destruct (getIndexByNode c (otherNodeId r)) as [c1 i] eqn:E.
  destruct (getIndexByNode_spec _ _ _ _ W Hn E) as (W1 & V1 & Hi & Hb & _).
  destruct (maybeResizeCounters_spec c1 _ i W1 Hi Hb) as (W2 & V2 & Ei & Hb').
  set (c2 := maybeResizeCounters c1 i) in *.
  destruct (updateCounterFromReplication_spec c c2 r W2) as (c3 & E3 & J);
    [by trans c1|exists i; by rewrite Ei|].
  rewrite E3 in H. simpl in H. destruct (getIndexByNode c3 (selfNodeId c3)) as [c4 j] eqn:E4.
  destruct (getIndexByNode_spec _ _ _ _ (jn_wf _ _ _ _ _ J) (wf_self _ (jn_wf _ _ _ _ _ J)) E4) as (W4 & _).
  inv_ret. done.
Qed.

Lemma run_call_wf c k c' : wf c → call_ok k → run_call c k = Ret c' → wf c'.
Proof.
  intros W Hk H. destruct k; simpl in *.
  - inv_ret. by eapply increment_wf.
  - inv_ret. by eapply decrement_wf.
  - destruct (syncIncrement_spec c valueToSync otherNodeId0 W Hk) as (c1 & E & J). rewrite E in H.
    inv_ret. apply J.
  - destruct (syncDecrement_spec c valueToSync otherNodeId0 W Hk) as (c1 & E & J). rewrite E in H.
    inv_ret. apply J.
  - inv_ret. by eapply onReplicationCounter_wf.
  - unfold getLastSeen in H. destruct (nNodes c <=? nodeId); simpl in H; [by inv_ret|].
    destruct (getIndexByNode c nodeId) as [c1 i] eqn:E.
    destruct (getIndexByNode_spec _ _ _ _ W Hk E) as (W1 & _). inv_ret. done.
Qed.

Lemma total_update f n v : ufits 16 n → total (λ n', if decide (n' = n) then v else f n') = total f - f n + v.
Proof.
  intros Hn. unfold total.
  assert (n ∈ seqZ 0 (2 ^ 16)) as Hin by (apply elem_of_seqZ; unfold ufits in Hn; lia).
  pose proof (NoDup_seqZ 0 (2 ^ 16)) as Hnd. revert Hin Hnd. generalize (seqZ 0 (2 ^ 16)) as l.
  induction l as [|x l IH]; intros Hin Hnd; [by apply elem_of_nil in Hin|].
  apply NoDup_cons in Hnd as [Hx Hnd]. rewrite !fmap_cons, !zsum_cons.
  destruct (decide (x = n)) as [->|Hne].
  - rewrite (list_fmap_ext (λ n', if decide (n' = n) then v else f n') f).
    + lia.
    + intros i y Hy. rewrite decide_False; [done|]. intros ->. by apply list_elem_of_lookup_2 in Hy.
  - apply elem_of_cons in Hin as [?|Hin]; [done|]. specialize (IH Hin Hnd). lia.
Qed.

Lemma total_ext f g : (∀ n, f n = g n) → total f = total g.
Proof. intros H. unfold total. f_equal. apply list_fmap_ext. auto. Qed.

Lemma reached_wf (self n : Z) (calls : list call) (c : t) :
  ufits 16 self → 0 ≤ n → Forall call_ok calls →
  ofoldl run_call (make self n) calls = Ret c → wf c.
Proof.
  intros Hself Hn Hok. pose proof (wf_make self n Hself Hn) as W. revert W.
  generalize (make self n). induction Hok as [|k calls Hk _ IH]; intros c0 W H; simpl in H.
  - by inv_ret.
  - inv_ret. eapply IH; [|done]. by eapply run_call_wf.
Qed.

(** ** Properties *)

(** C25: every counter built by the constructor and driven by any sequence of calls stays
    well-formed: the two arrays have one slot per node, the index mapper is a bijection
    between the nodes seen and the positions handed out, unassigned slots are zero and no
    total is negative. *)
Theorem counter_wf_invariant (self n : Z) (calls : list call) (c : t) :
  ufits 16 self → 0 ≤ n → Forall call_ok calls →
  ofoldl run_call (make self n) calls = Ret c → wf c.
Proof. apply reached_wf. Qed.

Lemma counter_wf_invariant_witness :
  wf (mk 3 [2; 7; 0] [0; 0; 4] 1 (CounterArrayIndexMapper.mk {[1 := 0; 2 := 1; 9 := 2]} 2)).
Proof.
  apply (counter_wf_invariant 1 1
    [Increment; SyncIncrement 7 2; Increment; Replicate (mk_request 9 false 4 0 0)]).
  - split; lia.
  - lia.
  - repeat constructor; simpl; lia.
  - vm_compute. reflexivity.
Defined.

(** C6: replicas converge.  Two copies of a counter that received the same replication
    requests, in any order and any number of times each, know the same totals for every
    node, each of them the maximum of what it started from and what was reported; hence
    they also return the same [count]. *)
Theorem replication_converges (c : t) (rs rs' : list ReplicateCounterRequest) :
  wf c → has_slot c (selfNodeId c) → Forall (λ r, ufits 16 (otherNodeId r)) rs →
  (∀ r, r ∈ rs ↔ r ∈ rs') →
  ∃ c1 c2, replicate_all c rs = Ret c1 ∧ replicate_all c rs' = Ret c2 ∧
    (∀ n, inc c1 n = inc c2 n ∧ dec c1 n = dec c2 n) ∧
    (∀ n, inc c1 n = join true n (inc c n) rs ∧ dec c1 n = join false n (dec c n) rs) ∧
    (total (inc c1) < 2 ^ 63 → total (dec c1) ≤ 2 ^ 63 →
       count c1 = Ret (total (inc c1) - total (dec c1)) ∧ count c2 = count c1).
Proof.
  intros W Hs Hrs Heq.
  assert (Forall (λ r, ufits 16 (otherNodeId r)) rs') as Hrs'.
  { apply Forall_forall. intros r Hr%Heq. by apply (proj1 (Forall_forall _ _) Hrs). }
  destruct (replicate_all_spec c rs W Hs Hrs) as (c1 & E1 & W1 & _ & I1 & D1).
  destruct (replicate_all_spec c rs' W Hs Hrs') as (c2 & E2 & W2 & _ & I2 & D2).
  assert (∀ n, inc c1 n = inc c2 n ∧ dec c1 n = dec c2 n) as Hv.
  { intros n. rewrite I1, I2, D1, D2. split; by apply join_same_elements. }
  exists c1, c2. do 3 (split; [done|]). split; [done|]. intros Hi Hd.
  rewrite (count_spec c1 W1 Hi Hd). split; [done|].
  rewrite (total_ext (inc c1) (inc c2)), (total_ext (dec c1) (dec c2)) in * by (intros; apply Hv).
  by apply count_spec.
Qed.

Lemma replication_converges_witness :
  let c := mk 1 [5] [0] 1 (CounterArrayIndexMapper.mk {[1 := 0]} 0) in
  let a := mk_request 2 true 3 0 0 in
  let b := mk_request 3 false 4 0 0 in
  ∃ c1 c2, replicate_all c [a; b] = Ret c1 ∧ replicate_all c [b; a; b] = Ret c2 ∧
    (∀ n, inc c1 n = inc c2 n ∧ dec c1 n = dec c2 n) ∧
    (∀ n, inc c1 n = join true n (inc c n) [a; b] ∧ dec c1 n = join false n (dec c n) [a; b]) ∧
    (total (inc c1) < 2 ^ 63 → total (dec c1) ≤ 2 ^ 63 →
       count c1 = Ret (total (inc c1) - total (dec c1)) ∧ count c2 = count c1).
Proof.
  intros c a b. apply (replication_converges c [a; b] [b; a; b]).
  - apply (run_call_wf (mk 1 [4] [0] 1 (CounterArrayIndexMapper.mk {[1 := 0]} 0)) Increment);
      [|done|reflexivity].
    apply (run_call_wf (make 1 1) (SyncIncrement 4 1)); [|simpl; split; lia|reflexivity].
    apply wf_make; [split; lia|lia].
  - exists 0. split; [reflexivity|simpl; lia].
  - repeat constructor; simpl; lia.
  - intros r. rewrite !elem_of_cons. tauto.
Defined.

(** On a counter whose own slot exists (or is the next to be assigned inside the
    arrays) [increment] returns the node's new total of increments and raises [count] by
    exactly one, [decrement] likewise lowers it by one, and no other node's totals move. *)
Theorem increment_decrement_count (c : t) :
  wf c → own_slot c →
  total (inc c) + 1 < 2 ^ 63 → total (dec c) + 1 ≤ 2 ^ 63 →
  inc c (selfNodeId c) + 1 < 2 ^ 63 → dec c (selfNodeId c) + 1 < 2 ^ 63 →
  ∃ v ci cd, count c = Ret v ∧
    increment c = Ret (ci, inc c (selfNodeId c) + 1) ∧ count ci = Ret (v + 1) ∧
    decrement c = Ret (cd, dec c (selfNodeId c) + 1) ∧ count cd = Ret (v - 1) ∧
    (∀ n, n ≠ selfNodeId c → inc ci n = inc c n ∧ dec cd n = dec c n).
Proof.
  intros W Hown Hti Htd Hi Hd. pose proof (wf_self c W) as Hself.
  destruct (increment_spec c W Hown Hi) as (ci & Ei & Ji).
  destruct (decrement_spec c W Hown Hd) as (cd & Ed & Jd).
  exists (total (inc c) - total (dec c)), ci, cd.
  assert (total (inc ci) = total (inc c) + 1) as Tii.
  { rewrite (total_ext _ _ (jn_inc _ _ _ _ _ Ji)), (total_update (inc c)) by done. lia. }
  assert (total (dec ci) = total (dec c)) as Tid by apply (total_ext _ _ (jn_dec _ _ _ _ _ Ji)).
  assert (total (dec cd) = total (dec c) + 1) as Tdd.
  { rewrite (total_ext _ _ (jn_dec _ _ _ _ _ Jd)), (total_update (dec c)) by done. lia. }
  assert (total (inc cd) = total (inc c)) as Tdi by apply (total_ext _ _ (jn_inc _ _ _ _ _ Jd)).
  rewrite (count_spec c), (count_spec ci), (count_spec cd)
    by (apply W || apply Ji || apply Jd || lia).
  rewrite Tii, Tid, Tdi, Tdd. split; [done|]. split; [done|]. split; [f_equal; lia|].
  split; [done|]. split; [f_equal; lia|]. intros n Hn.
  rewrite (jn_inc _ _ _ _ _ Ji), (jn_dec _ _ _ _ _ Jd). by rewrite !decide_False.
Qed.

Lemma increment_decrement_count_witness :
  ∃ v ci cd, count (make 7 2) = Ret v ∧
    increment (make 7 2) = Ret (ci, 1) ∧ count ci = Ret (v + 1) ∧
    decrement (make 7 2) = Ret (cd, 1) ∧ count cd = Ret (v - 1) ∧
    (∀ n, n ≠ 7 → inc ci n = inc (make 7 2) n ∧ dec cd n = dec (make 7 2) n).
Proof.
  apply (increment_decrement_count (make 7 2)).
  - apply wf_make; [split; lia|lia].
  - right. split; [reflexivity|simpl; lia].
  - rewrite total_inc by (apply wf_make; [split; lia|lia]). simpl. lia.
  - rewrite total_dec by (apply wf_make; [split; lia|lia]). simpl. lia.
  - vm_compute. reflexivity.
  - vm_compute. reflexivity.
Defined.

(** On a fresh counter sized for a one-node cluster, a replication request from another
    node takes slot 0 and the answer then reads the node's own totals one past the end of
    both arrays, whatever the request says: the resize only accounts for the sender. *)
Theorem replication_before_first_use_undefined (self : Z) (r : ReplicateCounterRequest) :
  otherNodeId r ≠ self → onReplicationCounter (make self 1) r = Undef.
Proof.
  intros Hne. set (m := CounterArrayIndexMapper.mk (<[otherNodeId r:=0]> ∅) 0).
  assert (getIndexByNode (make self 1) (otherNodeId r) = (mk 1 [0] [0] self m, 0)) as E1.
  { unfold getIndexByNode, CounterArrayIndexMapper.getIndex. simpl. by rewrite lookup_empty. }
  assert (∀ incs decs, getIndexByNode (mk 1 incs decs self m) (otherNodeId r)
    = (mk 1 incs decs self m, 0)) as E2.
  { intros. unfold getIndexByNode, CounterArrayIndexMapper.getIndex. simpl. by rewrite lookup_insert_eq. }
  assert (∀ incs decs, (getIndexByNode (mk 1 incs decs self m) self).2 = 1 ∧
    nIncrements (getIndexByNode (mk 1 incs decs self m) self).1 = incs) as E3.
  { intros. unfold getIndexByNode, CounterArrayIndexMapper.getIndex. simpl.
    by rewrite lookup_insert_ne, lookup_empty by done. }
  unfold onReplicationCounter. rewrite E1. change (maybeResizeCounters _ 0) with (mk 1 [0] [0] self m).
  unfold updateCounterFromReplication. rewrite E2. unfold raise, load, store, with_arrays. simpl.
  destruct (isIncrement r), (0 <? newValue r); simpl;
    match goal with |- context [getIndexByNode ?c self] =>
      destruct (E3 (nIncrements c) (nDecrements c)) as [H1 H2]; simpl in H1, H2;
      destruct (getIndexByNode c self) as [c' j] end;
    simpl in H1, H2; subst j; rewrite H2; reflexivity.
Qed.

Lemma replication_before_first_use_undefined_witness :
  onReplicationCounter (make 1 1) (mk_request 2 true 5 0 0) = Undef.
Proof. apply replication_before_first_use_undefined. discriminate. Defined.
