(* ===== verification/SharedCounters.v ===== *)
(** * Counters behind pointers

    Models [db/counters/Counter.cpp] with the memory it uses: a [Counter] holds raw pointers to
    its two arrays and a shared pointer to its index mapper, so copying the object (as the
    closures of [UpdateCounterOperator::replicate] do) copies the pointers.  The operations of
    this file run on a heap of arrays and mappers; [points] says which value of the type of the
    file Counters an object stands for.  The operations refine those on values, and the theorems
    on copies say which updates made through a copy reach the object it was copied from. *)

From S2P Require Import Prelude.
From S2P Require Import Counters.

(** ** The heap *)

Module CounterHeap.

(** The arrays made with [new int64_t[]] (none is ever deleted) and the mappers. *)
Record t := mk {
  arrays : gmap positive (list Z);
  mappers : gmap positive CounterArrayIndexMapper.t;
}.

Definition set_array (a : positive) (l : list Z) (h : t) : t := mk (<[a:=l]> (arrays h)) (mappers h).
Definition set_mapper (p : positive) (m : CounterArrayIndexMapper.t) (h : t) : t :=
  mk (arrays h) (<[p:=m]> (mappers h)).

(** [new int64_t[n]] with its first contents, and [std::make_shared] of a mapper. *)
Definition alloc_array (l : list Z) : stM t positive := λ h,
  let a := fresh (dom (arrays h)) in Ret (set_array a l h, a).
Definition alloc_mapper (m : CounterArrayIndexMapper.t) : stM t positive := λ h,
  let p := fresh (dom (mappers h)) in Ret (set_mapper p m h, p).

Definition array_at (a : positive) (h : t) : outcome (list Z) :=
  match arrays h !! a with Some l => Ret l | None => Undef end.

(** [*(a + i)] and [*(a + i) = v]. *)
Definition read (a : positive) (i : Z) : stM t Z := λ h,
  let! l := array_at a h in let! v := Counter.load l i in Ret (h, v).
Definition write (a : positive) (i v : Z) : stM t () := λ h,
  let! l := array_at a h in let! l := Counter.store l i v in Ret (set_array a l h, ()).

End CounterHeap.

Abbreviation cheap := CounterHeap.t.

(** ** The object *)

Module SharedCounter.

Record t := mk {
  nNodes : Z;
  nIncrements : positive;
  nDecrements : positive;
  selfNodeId : Z;
  arrayNodeIndexMapper : positive;
}.

(** [Counter::Counter(selfNodeId, nNodes)]. *)
Definition make (selfNodeId nNodes : Z) : stM cheap t :=
  incs ← CounterHeap.alloc_array (replicate (Z.to_nat nNodes) 0);
  decs ← CounterHeap.alloc_array (replicate (Z.to_nat nNodes) 0);
  mapper ← CounterHeap.alloc_mapper CounterArrayIndexMapper.init;
  mret (mk nNodes incs decs selfNodeId mapper).

(** [Counter::getIndexByNode]: the copies of a counter share the mapper. *)
Definition getIndexByNode (o : t) (nodeId : Z) : stM cheap Z := λ h,
  match CounterHeap.mappers h !! arrayNodeIndexMapper o with
  | Some m =>
      let '(m, i) := CounterArrayIndexMapper.getIndex m nodeId in
      Ret (CounterHeap.set_mapper (arrayNodeIndexMapper o) m h, i)
  | None => Undef
  end.

(** [++array[i]]. *)
Definition bump (a : positive) (i : Z) : stM cheap Z :=
  old ← CounterHeap.read a i;
  v ← lift (checked_i64 (old + 1));
  _ ← CounterHeap.write a i v;
  mret v.

(** [Counter::increment]. *)
Definition increment (o : t) : stM cheap Z := i ← getIndexByNode o (selfNodeId o); bump (nIncrements o) i.

(** [Counter::decrement]. *)
Definition decrement (o : t) : stM cheap Z := i ← getIndexByNode o (selfNodeId o); bump (nDecrements o) i.

(** A larger zeroed array with the first [n] slots copied from [a]. *)
Definition grown (a : positive) (n size : Z) : stM cheap positive :=
  l ← (λ h, let! l := CounterHeap.array_at a h in Ret (h, l));
  CounterHeap.alloc_array (take (Z.to_nat n) l ++ replicate (Z.to_nat size - Z.to_nat n) 0).

(** [Counter::maybeResizeCounters]: only this object gets the new arrays. *)
Definition maybeResizeCounters (o : t) (index : Z) : stM cheap t :=
  let otherNodeId := u16 index in
  if nNodes o <=? otherNodeId then
    incs ← grown (nIncrements o) (nNodes o) (otherNodeId + 1);
    decs ← grown (nDecrements o) (nNodes o) (otherNodeId + 1);
    mret (mk (otherNodeId + 1) incs decs (selfNodeId o) (arrayNodeIndexMapper o))
  else mret o.

(** Overwrite a slot when the new value is larger. *)
Definition raise (a : positive) (i v : Z) : stM cheap () :=
  old ← CounterHeap.read a i;
  if old <? v then CounterHeap.write a i v else mret ().

(** [Counter::syncIncrement]. *)
Definition syncIncrement (o : t) (valueToSync otherNodeId : Z) : stM cheap t :=
  i ← getIndexByNode o otherNodeId;
  o ← maybeResizeCounters o i;
  _ ← raise (nIncrements o) i valueToSync;
  mret o.

(** [Counter::syncDecrement]. *)
Definition syncDecrement (o : t) (valueToSync otherNodeId : Z) : stM cheap t :=
  i ← getIndexByNode o otherNodeId;
  o ← maybeResizeCounters o i;
  _ ← raise (nDecrements o) i valueToSync;
  mret o.

(** [Counter::updateCounterFromReplication]. *)
Definition updateCounterFromReplication (o : t) (request : Counter.ReplicateCounterRequest) : stM cheap () :=
  i ← getIndexByNode o (Counter.otherNodeId request);
  raise (if Counter.isIncrement request then nIncrements o else nDecrements o) i (Counter.newValue request).

(** [Counter::onReplicationCounter]. *)
Definition onReplicationCounter (o : t) (request : Counter.ReplicateCounterRequest) :
    stM cheap (t * Counter.ReplicateCounterResponse) :=
  i ← getIndexByNode o (Counter.otherNodeId request);
  o ← maybeResizeCounters o i;
  _ ← updateCounterFromReplication o request;
  self ← getIndexByNode o (selfNodeId o);
  selfInc ← CounterHeap.read (nIncrements o) self;
  selfDec ← CounterHeap.read (nDecrements o) self;
  let needsInc := Counter.lastSeenSelfIncrement request <? selfInc in
  let needsDec := Counter.lastSeenSelfDecrement request <? selfDec in
  mret (o, Counter.mk_response needsInc needsDec (if needsInc then selfInc else 0)
                               (if needsDec then selfDec else 0)).

(** [Counter::getLastSeen]. *)
Definition getLastSeen (o : t) (nodeId : Z) : stM cheap (Z * Z) :=
  if nNodes o <=? nodeId then mret (0, 0)
  else
    i ← getIndexByNode o nodeId;
    inc ← CounterHeap.read (nIncrements o) i;
    dec ← CounterHeap.read (nDecrements o) i;
    mret (inc, dec).

(** [Counter::count]. *)
Definition count (o : t) : stM cheap Z := λ h,
  let indices := map Z.of_nat (seq 0 (Z.to_nat (nNodes o))) in
  let! v := ofoldl (λ acc i, let! (_, x) := CounterHeap.read (nIncrements o) i h in checked_i64 (acc + x)) 0 indices in
  let! v := ofoldl (λ acc i, let! (_, x) := CounterHeap.read (nDecrements o) i h in checked_i64 (acc - x)) v indices in
  Ret (h, v).

(** A call on an object ([Counters.run_call] is the one on values). *)
Definition run_call (k : call) (o : t) : stM cheap t :=
  match k with
  | Increment => _ ← increment o; mret o
  | Decrement => _ ← decrement o; mret o
  | SyncIncrement v n => syncIncrement o v n
  | SyncDecrement v n => syncDecrement o v n
  | Replicate r => p ← onReplicationCounter o r; mret p.1
  | LastSeen n => _ ← getLastSeen o n; mret o
  end.

Fixpoint run_calls (l : list call) (o : t) : stM cheap t :=
  match l with [] => mret o | k :: l => o ← run_call k o; run_calls l o end.

End SharedCounter.

(** ** The value an object stands for *)

(** The object [o] is the counter [c]. *)
Record points (h : cheap) (o : SharedCounter.t) (c : Counter.t) : Prop := {
  pt_nodes : Counter.nNodes c = SharedCounter.nNodes o;
  pt_inc : CounterHeap.arrays h !! SharedCounter.nIncrements o = Some (Counter.nIncrements c);
  pt_dec : CounterHeap.arrays h !! SharedCounter.nDecrements o = Some (Counter.nDecrements c);
  pt_self : Counter.selfNodeId c = SharedCounter.selfNodeId o;
  pt_map : CounterHeap.mappers h !! SharedCounter.arrayNodeIndexMapper o = Some (Counter.arrayNodeIndexMapper c);
  pt_apart : SharedCounter.nIncrements o ≠ SharedCounter.nDecrements o;
}.

(** The answer of a method that leaves the object's own fields alone. *)
Definition on_object {A} (o : SharedCounter.t) (m : stM cheap A) : stM cheap (SharedCounter.t * A) := a ← m; mret (o, a).
(** The answers of methods that return nothing. *)
Definition no_object (m : stM cheap SharedCounter.t) : stM cheap (SharedCounter.t * ()) := o ← m; mret (o, ()).
Definition no_answer {A} (c : outcome A) : outcome (A * ()) := let! a := c in Ret (a, ()).

(** A run on objects gives the result of the run on values: the same error, or the same answer
    with objects that stand for the new counter. *)
Definition agrees {A} (run : outcome (cheap * (SharedCounter.t * A))) (spec : outcome (Counter.t * A)) : Prop :=
  match spec with
  | Ret (c, a) => ∃ h o, run = Ret (h, (o, a)) ∧ points h o c
  | Undef => run = Undef
  | Throw e => run = Throw e
  | Blocked => run = Blocked
  | NoFuel => run = NoFuel
  end.

(** ** The operations refine those on values *)

(** The increments ([b = true]) or the decrements. *)
Definition side (b : bool) (o : SharedCounter.t) : positive :=
  if b then SharedCounter.nIncrements o else SharedCounter.nDecrements o.
Definition slots (b : bool) (c : Counter.t) : list Z := if b then Counter.nIncrements c else Counter.nDecrements c.
Definition with_slots (b : bool) (c : Counter.t) (l : list Z) : Counter.t :=
  if b then Counter.with_arrays c l (Counter.nDecrements c) else Counter.with_arrays c (Counter.nIncrements c) l.

Lemma points_array h o c b : points h o c → CounterHeap.array_at (side b o) h = Ret (slots b c).
Proof. intros P. unfold CounterHeap.array_at. destruct b; simpl; [by rewrite (pt_inc _ _ _ P)|by rewrite (pt_dec _ _ _ P)]. Qed.

Lemma read_points h o c b i :
  points h o c → CounterHeap.read (side b o) i h = let! v := Counter.load (slots b c) i in Ret (h, v).
Proof. intros P. unfold CounterHeap.read. by rewrite (points_array _ _ _ b P). Qed.

Lemma read_sides h o c i :
  points h o c →
  CounterHeap.read (SharedCounter.nIncrements o) i h = (let! v := Counter.load (Counter.nIncrements c) i in Ret (h, v)) ∧
  CounterHeap.read (SharedCounter.nDecrements o) i h = (let! v := Counter.load (Counter.nDecrements c) i in Ret (h, v)).
Proof. intros P. split; [apply (read_points _ _ _ true i P)|apply (read_points _ _ _ false i P)]. Qed.

Lemma write_points h o c b i v l :
  points h o c → Counter.store (slots b c) i v = Ret l →
  CounterHeap.write (side b o) i v h = Ret (CounterHeap.set_array (side b o) l h, ()) ∧
  points (CounterHeap.set_array (side b o) l h) o (with_slots b c l).
Proof.
  intros P E. unfold CounterHeap.write. rewrite (points_array _ _ _ b P). simpl. rewrite E. split; [done|].
  destruct P. destruct b; split; simpl; try done.
  - by rewrite lookup_insert_eq.
  - by rewrite lookup_insert_ne.
  - by rewrite lookup_insert_ne.
  - by rewrite lookup_insert_eq.
Qed.

Lemma getIndexByNode_points h o c n c' i :
  points h o c → Counter.getIndexByNode c n = (c', i) →
  SharedCounter.getIndexByNode o n h =
    Ret (CounterHeap.set_mapper (SharedCounter.arrayNodeIndexMapper o) (Counter.arrayNodeIndexMapper c') h, i) ∧
  points (CounterHeap.set_mapper (SharedCounter.arrayNodeIndexMapper o) (Counter.arrayNodeIndexMapper c') h) o c'.
Proof.
  intros P E. unfold SharedCounter.getIndexByNode. rewrite (pt_map _ _ _ P). unfold Counter.getIndexByNode in E.
  destruct (CounterArrayIndexMapper.getIndex _ n) as [m j] eqn:Ej. injection E as <- <-. split; [done|].
  destruct P. split; simpl; try done. by rewrite lookup_insert_eq.
Qed.

(** Memory that is not written keeps its contents. *)
Definition kept (h h' : cheap) : Prop :=
  CounterHeap.mappers h' = CounterHeap.mappers h ∧
  ∀ a l, CounterHeap.arrays h !! a = Some l → CounterHeap.arrays h' !! a = Some l.

#[export] Instance kept_preorder : PreOrder kept.
Proof. split; [by intros h|]. intros h1 h2 h3 [E1 H1] [E2 H2]. split; [congruence|auto]. Qed.

Lemma alloc_array_spec l h :
  ∃ h' a, CounterHeap.alloc_array l h = Ret (h', a) ∧ CounterHeap.arrays h' !! a = Some l ∧
          CounterHeap.arrays h !! a = None ∧ kept h h'.
Proof.
  pose proof (is_fresh (dom (CounterHeap.arrays h))) as Hf. apply not_elem_of_dom in Hf.
  eexists _, _. split; [done|]. simpl. rewrite lookup_insert_eq. split; [done|]. split; [done|].
  split; [done|]. intros a l' Ha. simpl. rewrite lookup_insert_ne; [done|]. intros Heq.
  rewrite <- Heq in Ha. congruence.
Qed.

Lemma grown_spec a n size l h :
  CounterHeap.arrays h !! a = Some l →
  ∃ h' a', SharedCounter.grown a n size h = Ret (h', a') ∧
    CounterHeap.arrays h' !! a' = Some (take (Z.to_nat n) l ++ replicate (Z.to_nat size - Z.to_nat n) 0) ∧
    CounterHeap.arrays h !! a' = None ∧ kept h h'.
Proof.
  intros Ha. destruct (alloc_array_spec (take (Z.to_nat n) l ++ replicate (Z.to_nat size - Z.to_nat n) 0) h)
    as (h' & a' & E & H'). exists h', a'. split; [|done].
  unfold SharedCounter.grown, mbind, stM_bind, CounterHeap.array_at. rewrite Ha. simpl. exact E.
Qed.

(** Resizing allocates and leaves the old arrays alone. *)
Lemma maybeResizeCounters_points h o c i :
  points h o c →
  ∃ h' o', SharedCounter.maybeResizeCounters o i h = Ret (h', o') ∧
    points h' o' (Counter.maybeResizeCounters c i) ∧ kept h h' ∧
    (u16 i < SharedCounter.nNodes o → o' = o ∧ h' = h) ∧
    (SharedCounter.nNodes o ≤ u16 i →
      (∀ b, CounterHeap.arrays h !! side b o' = None) ∧ SharedCounter.arrayNodeIndexMapper o' = SharedCounter.arrayNodeIndexMapper o).
Proof.
  intros P. unfold SharedCounter.maybeResizeCounters, Counter.maybeResizeCounters. rewrite (pt_nodes _ _ _ P).
  destruct (Z.leb_spec (SharedCounter.nNodes o) (u16 i)) as [Hle|Hlt].
  2:{ exists h, o. do 2 (split; [done|]). split; [done|]. split; [done|lia]. }
  destruct (grown_spec _ (SharedCounter.nNodes o) (u16 i + 1) _ h (pt_inc _ _ _ P)) as (h1 & a1 & E1 & A1 & F1 & K1).
  destruct (grown_spec _ (SharedCounter.nNodes o) (u16 i + 1) _ h1 (proj2 K1 _ _ (pt_dec _ _ _ P)))
    as (h2 & a2 & E2 & A2 & F2 & K2).
  assert (a1 ≠ a2) as Hne by congruence.
  exists h2, (SharedCounter.mk (u16 i + 1) a1 a2 (SharedCounter.selfNodeId o) (SharedCounter.arrayNodeIndexMapper o)).
  erewrite stM_bind_Ret by exact E1. cbn beta. erewrite stM_bind_Ret by exact E2. split; [done|].
  split; [|split; [by trans h1|split; [lia|]]].
  - destruct P. split; simpl; try done; [by apply K2|].
    rewrite (proj1 K2), (proj1 K1). done.
  - intros _. split; [|done]. intros [|]; simpl; [done|].
    destruct (CounterHeap.arrays h !! a2) as [l|] eqn:E; [|done]. apply (proj2 K1) in E. congruence.
Qed.

Lemma raise_points h o c b i v l :
  points h o c → Counter.raise (slots b c) i v = Ret l →
  ∃ h', SharedCounter.raise (side b o) i v h = Ret (h', ()) ∧ points h' o (with_slots b c l) ∧
    CounterHeap.mappers h' = CounterHeap.mappers h ∧
    (∀ a, a ≠ side b o → CounterHeap.arrays h' !! a = CounterHeap.arrays h !! a).
Proof.
  intros P. unfold Counter.raise, SharedCounter.raise. intros E.
  destruct (Counter.load (slots b c) i) as [old| | | |] eqn:El; try discriminate. simpl in E.
  erewrite stM_bind_Ret by (rewrite (read_points _ _ _ b i P), El; reflexivity). cbn beta.
  destruct (old <? v).
  - destruct (write_points _ _ _ b i v l P E) as [Ew Pw]. eexists. split; [exact Ew|]. split; [done|].
    split; [done|]. intros a Ha. simpl. by rewrite lookup_insert_ne.
  - injection E as <-. exists h. split; [done|]. split; [|done].
    destruct b, c; exact P.
Qed.

Lemma raise_points_Undef h o c b i v :
  points h o c → Counter.raise (slots b c) i v = Undef → SharedCounter.raise (side b o) i v h = Undef.
Proof.
  intros P. unfold Counter.raise, SharedCounter.raise, mbind, stM_bind.
  rewrite (read_points _ _ _ b i P). destruct (Counter.load (slots b c) i) as [old| | | |] eqn:El; try done. simpl.
  destruct (old <? v); [|done]. unfold Counter.store. by rewrite El.
Qed.

Lemma load_cases l i : (∃ v, Counter.load l i = Ret v) ∨ Counter.load l i = Undef.
Proof. unfold Counter.load, at_undef. destruct (i <? 0); [by right|]. destruct (l !! _); eauto. Qed.

Lemma raise_cases l i v : (∃ l', Counter.raise l i v = Ret l') ∨ Counter.raise l i v = Undef.
Proof.
  unfold Counter.raise, Counter.store. destruct (load_cases l i) as [[x ->] | ->]; [|by right]. simpl.
  destruct (x <? v); eauto.
Qed.

(** Adding one to a node's own slot. *)
Lemma bump_agrees h o c b i :
  points h o c →
  agrees (on_object o (SharedCounter.bump (side b o) i) h)
    (let! old := Counter.load (slots b c) i in
     let! v := checked_i64 (old + 1) in
     let! l := Counter.store (slots b c) i v in Ret (with_slots b c l, v)).
Proof.
  intros P. unfold on_object, SharedCounter.bump, mbind, stM_bind. rewrite (read_points _ _ _ b i P).
  destruct (load_cases (slots b c) i) as [[old El] |El]; rewrite El; [|done]. simpl. unfold lift, checked_i64.
  destruct (decide (sfits 64 (old + 1))); [|done]. simpl.
  assert (∃ l, Counter.store (slots b c) i (old + 1) = Ret l) as [l Es] by (unfold Counter.store; rewrite El; eauto).
  destruct (write_points _ _ _ b i (old + 1) l P Es) as [-> Pw]. rewrite Es. simpl. eauto.
Qed.

(** Joining a value into a node's slot, the arrays made large enough first. *)
Lemma sync_agrees h o c (b : bool) v n :
  points h o c →
  agrees (no_object (if b then SharedCounter.syncIncrement o v n else SharedCounter.syncDecrement o v n) h)
    (no_answer (if b then Counter.syncIncrement c v n else Counter.syncDecrement c v n)).
Proof.
  intros P. destruct (Counter.getIndexByNode c n) as [c1 i] eqn:Ei.
  destruct (getIndexByNode_points _ _ _ _ _ _ P Ei) as [E1 P1].
  destruct (maybeResizeCounters_points _ _ _ i P1) as (h2 & o2 & E2 & P2 & _).
  set (c2 := Counter.maybeResizeCounters c1 i) in *.
  unfold no_object, no_answer, mbind, stM_bind.
  destruct (raise_cases (slots b c2) i v) as [[l El] |El];
    [destruct (raise_points _ _ _ b i v l P2 El) as (h3 & E3 & P3 & _)
    |pose proof (raise_points_Undef _ _ _ b i v P2 El) as E3].
  all: destruct b; unfold SharedCounter.syncIncrement, SharedCounter.syncDecrement, Counter.syncIncrement,
    Counter.syncDecrement, mbind, stM_bind; rewrite Ei, E1; simpl in *; rewrite E2; simpl; fold c2; rewrite El, E3;
    simpl; eauto.
Qed.

Lemma update_own_agrees h o c (b : bool) :
  points h o c →
  agrees (on_object o (if b then SharedCounter.increment o else SharedCounter.decrement o) h)
    (if b then Counter.increment c else Counter.decrement c).
Proof.
  intros P. destruct (Counter.getIndexByNode c (Counter.selfNodeId c)) as [c1 i] eqn:Ei.
  destruct (getIndexByNode_points _ _ _ _ _ _ P Ei) as [E1 P1]. rewrite (pt_self _ _ _ P) in E1.
  pose proof (bump_agrees _ _ _ b i P1) as G. unfold on_object, mbind, stM_bind in *.
  destruct b; unfold SharedCounter.increment, SharedCounter.decrement, Counter.increment, Counter.decrement, mbind, stM_bind;
    rewrite Ei, E1; exact G.
Qed.

Lemma getLastSeen_agrees h o c n :
  points h o c → agrees (on_object o (SharedCounter.getLastSeen o n) h) (Counter.getLastSeen c n).
Proof.
  intros P. unfold SharedCounter.getLastSeen, Counter.getLastSeen, on_object. rewrite (pt_nodes _ _ _ P).
  destruct (SharedCounter.nNodes o <=? n); [simpl; by exists h, o|].
  destruct (Counter.getIndexByNode c n) as [c1 i] eqn:Ei.
  destruct (getIndexByNode_points _ _ _ _ _ _ P Ei) as [E1 P1]. unfold mbind, stM_bind. rewrite E1. simpl.
  destruct (read_sides _ _ _ i P1) as [R1 R2]. rewrite R1.
  destruct (load_cases (Counter.nIncrements c1) i) as [[x ->] | ->]; [|done]. simpl. rewrite R2.
  destruct (load_cases (Counter.nDecrements c1) i) as [[y ->] | ->]; [|done]. simpl. eauto.
Qed.

Lemma updateCounterFromReplication_agrees h o c r :
  points h o c →
  agrees (on_object o (SharedCounter.updateCounterFromReplication o r) h)
    (no_answer (Counter.updateCounterFromReplication c r)).
Proof.
  intros P. unfold SharedCounter.updateCounterFromReplication, Counter.updateCounterFromReplication, on_object, no_answer.
  destruct (Counter.getIndexByNode c (Counter.otherNodeId r)) as [c1 i] eqn:Ei.
  destruct (getIndexByNode_points _ _ _ _ _ _ P Ei) as [E1 P1]. unfold mbind, stM_bind. rewrite E1. simpl.
  change (if Counter.isIncrement r then SharedCounter.nIncrements o else SharedCounter.nDecrements o)
    with (side (Counter.isIncrement r) o).
  destruct (raise_cases (slots (Counter.isIncrement r) c1) i (Counter.newValue r)) as [[l El] |El].
  - destruct (raise_points _ _ _ _ i _ l P1 El) as (h2 & -> & P2 & _).
    destruct (Counter.isIncrement r); simpl in *; rewrite El; simpl; eauto.
  - rewrite (raise_points_Undef _ _ _ _ i _ P1 El).
    by destruct (Counter.isIncrement r); simpl in *; rewrite El.
Qed.

Lemma updateCounterFromReplication_cases c r :
  (∃ c', Counter.updateCounterFromReplication c r = Ret c') ∨ Counter.updateCounterFromReplication c r = Undef.
Proof.
  unfold Counter.updateCounterFromReplication. destruct (Counter.getIndexByNode c _) as [c1 i].
  destruct (Counter.isIncrement r).
  - destruct (raise_cases (Counter.nIncrements c1) i (Counter.newValue r)) as [[l ->] | ->]; simpl; eauto.
  - destruct (raise_cases (Counter.nDecrements c1) i (Counter.newValue r)) as [[l ->] | ->]; simpl; eauto.
Qed.

Lemma onReplicationCounter_agrees h o c r :
  points h o c → agrees (SharedCounter.onReplicationCounter o r h) (Counter.onReplicationCounter c r).
Proof.
  intros P. unfold SharedCounter.onReplicationCounter, Counter.onReplicationCounter.
  destruct (Counter.getIndexByNode c (Counter.otherNodeId r)) as [c1 i] eqn:Ei.
  destruct (getIndexByNode_points _ _ _ _ _ _ P Ei) as [E1 P1]. erewrite stM_bind_Ret by exact E1. cbn beta.
  destruct (maybeResizeCounters_points _ _ _ i P1) as (h2 & o2 & E2 & P2 & _). erewrite stM_bind_Ret by exact E2. cbn beta.
  pose proof (updateCounterFromReplication_agrees _ _ _ r P2) as G. unfold on_object, no_answer, mbind, stM_bind in G.
  destruct (updateCounterFromReplication_cases (Counter.maybeResizeCounters c1 i) r) as [[c3 E3] |E3]; rewrite E3 in *; simpl in G.
  2:{ unfold mbind, stM_bind. destruct (SharedCounter.updateCounterFromReplication o2 r h2) as [[? []]| | | |]; done. }
  destruct G as (h3 & o3 & G & P3).
  destruct (SharedCounter.updateCounterFromReplication o2 r h2) as [[h3' []]| | | |] eqn:Eu; simpl in G; try done.
  apply Ret_inj in G. simplify_eq.
  erewrite stM_bind_Ret by exact Eu. cbn beta. rewrite <- (pt_self _ _ _ P3). cbn [obind].
  destruct (Counter.getIndexByNode c3 (Counter.selfNodeId c3)) as [c4 j] eqn:Ej.
  destruct (getIndexByNode_points _ _ _ _ _ _ P3 Ej) as [E4 P4]. erewrite stM_bind_Ret by exact E4. cbn beta.
  destruct (read_sides _ _ _ j P4) as [R1 R2]. unfold mbind, stM_bind. rewrite R1.
  destruct (load_cases (Counter.nIncrements c4) j) as [[x ->] | ->]; [|done]. cbn [obind]. rewrite R2.
  destruct (load_cases (Counter.nDecrements c4) j) as [[y ->] | ->]; [|done]. simpl. eauto.
Qed.

Lemma count_agrees h o c :
  points h o c → SharedCounter.count o h = let! v := Counter.count c in Ret (h, v).
Proof.
  intros P. unfold SharedCounter.count, Counter.count. rewrite (pt_nodes _ _ _ P).
  assert (∀ (f g : Z → Z → outcome Z) s l, (∀ a x, f a x = g a x) → ofoldl f s l = ofoldl g s l) as Hext.
  { intros f g s l H. revert s. induction l as [|a l IH]; intros s; simpl; [done|]. rewrite H. destruct (g s a); simpl; auto. }
  rewrite (Hext _ (λ acc i, let! x := Counter.load (Counter.nIncrements c) i in checked_i64 (acc + x))).
  2:{ intros a x. rewrite (proj1 (read_sides _ _ _ x P)). by destruct (Counter.load _ x). }
  destruct (ofoldl _ 0 _) as [v| | | |]; simpl; [|done..].
  by rewrite (Hext _ (λ acc i, let! x := Counter.load (Counter.nDecrements c) i in checked_i64 (acc - x)))
    by (intros a x; rewrite (proj2 (read_sides _ _ _ x P)); by destruct (Counter.load _ x)).
Qed.

(** A new object is the new counter. *)
Lemma make_points self n h :
  ∃ h' o, SharedCounter.make self n h = Ret (h', o) ∧ points h' o (Counter.make self n).
Proof.
  unfold SharedCounter.make.
  destruct (alloc_array_spec (replicate (Z.to_nat n) 0) h) as (h1 & a1 & E1 & A1 & _ & K1).
  destruct (alloc_array_spec (replicate (Z.to_nat n) 0) h1) as (h2 & a2 & E2 & A2 & F2 & K2).
  erewrite stM_bind_Ret by exact E1. cbn beta. erewrite stM_bind_Ret by exact E2. cbn beta.
  erewrite stM_bind_Ret by reflexivity. eexists _, _. split; [done|]. split; simpl; try done.
  - by apply K2.
  - by rewrite lookup_insert_eq.
  - congruence.
Qed.

(** Forgetting the answer. *)
Lemma agrees_forget {A} (r : outcome (cheap * (SharedCounter.t * A))) spec :
  agrees r spec →
  agrees (let! (h, p) := r in Ret (h, (p.1, ()))) (no_answer (let! (c, _) := spec in Ret c)).
Proof.
  unfold agrees, no_answer. destruct spec as [[c a]| | | |]; simpl; [|by intros ->..].
  intros (h & o & -> & P). simpl. eauto.
Qed.

(** One call, its answer forgotten. *)
Lemma run_call_agrees h o c k :
  points h o c → agrees (no_object (SharedCounter.run_call k o) h) (no_answer (run_call c k)).
Proof.
  intros P. destruct k as [| |v n|v n|r|n]; simpl.
  - pose proof (agrees_forget _ _ (update_own_agrees h o c true P)) as G.
    unfold no_object, on_object, mbind, stM_bind in *. by destruct (SharedCounter.increment o h) as [[]| | | |].
  - pose proof (agrees_forget _ _ (update_own_agrees h o c false P)) as G.
    unfold no_object, on_object, mbind, stM_bind in *. by destruct (SharedCounter.decrement o h) as [[]| | | |].
  - apply (sync_agrees h o c true v n P).
  - apply (sync_agrees h o c false v n P).
  - pose proof (agrees_forget _ _ (onReplicationCounter_agrees h o c r P)) as G.
    unfold no_object, mbind, stM_bind in *. by destruct (SharedCounter.onReplicationCounter o r h) as [[]| | | |].
  - pose proof (agrees_forget _ _ (getLastSeen_agrees h o c n P)) as G.
    unfold no_object, on_object, mbind, stM_bind in *. by destruct (SharedCounter.getLastSeen o n h) as [[]| | | |].
Qed.

(** ** Histories *)

Lemma run_calls_agrees calls h o c :
  points h o c →
  agrees (no_object (SharedCounter.run_calls calls o) h) (no_answer (ofoldl run_call c calls)).
Proof.
  revert h o c. induction calls as [|k calls IH]; intros h o c P; simpl; [by exists h, o|].
  pose proof (run_call_agrees h o c k P) as G. unfold no_object, no_answer, mbind, stM_bind, mret, stM_ret in *.
  destruct (run_call c k) as [c1| | | |]; simpl in *;
    destruct (SharedCounter.run_call k o h) as [[h1 o1]| | | |]; simpl in *; try done; try by destruct G as (? & ? & ? & _).
  destruct G as (h2 & o2 & G & P2). apply Ret_inj in G. simplify_eq. by apply IH.
Qed.

(** C26: a counter built with [new], driven by any sequence of calls and then counted does what
    the counter of values does: the same undefined behaviour, or the same count with an object
    that stands for the same counter.  The other theorems about counters hold of the code with
    its pointers through this one. *)
Theorem counter_object_refines (self n : Z) (calls : list call) (h : cheap) :
  agrees ((o ← SharedCounter.make self n; o ← SharedCounter.run_calls calls o; v ← SharedCounter.count o; mret (o, v)) h)
    (let! c := ofoldl run_call (Counter.make self n) calls in let! v := Counter.count c in Ret (c, v)).
Proof.
  destruct (make_points self n h) as (h1 & o1 & E1 & P1). erewrite stM_bind_Ret by exact E1. cbn beta.
  pose proof (run_calls_agrees calls h1 o1 _ P1) as G.
  unfold no_object, no_answer, mbind, stM_bind, mret, stM_ret in *.
  destruct (ofoldl run_call (Counter.make self n) calls) as [c2| | | |]; simpl in *;
    destruct (SharedCounter.run_calls calls o1 h1) as [[h2 o2]| | | |]; simpl in *; try done;
    try by destruct G as (? & ? & ? & _).
  2: by simplify_eq.
  destruct G as (h3 & o3 & G & P3). apply Ret_inj in G. simplify_eq. rewrite (count_agrees _ _ _ P3).
  destruct (Counter.count c2) as [v| | | |]; simpl; [by exists h3, o3|done..].
Qed.

(** ** Updates through a copy *)

(** Joining [v] into a node's increments ([b = true]) or decrements. *)
Definition sync (b : bool) (c : Counter.t) (v n : Z) : outcome Counter.t :=
  if b then Counter.syncIncrement c v n else Counter.syncDecrement c v n.
Definition shared_sync (b : bool) (o : SharedCounter.t) (v n : Z) : stM cheap SharedCounter.t :=
  if b then SharedCounter.syncIncrement o v n else SharedCounter.syncDecrement o v n.

(** What the copies of a counter do to it while it is replicated: ask for the index of a node,
    and join a total. *)
Inductive action :=
| Look (n : Z)
| Join (b : bool) (v n : Z).

(** The actions made through one copy, which keeps what they change in it. *)
Fixpoint shared_actions (l : list action) (k : SharedCounter.t) : stM cheap SharedCounter.t :=
  match l with
  | [] => mret k
  | Look n :: l => _ ← SharedCounter.getIndexByNode k n; shared_actions l k
  | Join b v n :: l => k ← shared_sync b k v n; shared_actions l k
  end.

(** What reaches the object copied: the joins before the first one that has to resize. *)
Fixpoint reaching (c : Counter.t) (l : list action) : outcome Counter.t :=
  match l with
  | [] => Ret c
  | Look n :: l => reaching (Counter.getIndexByNode c n).1 l
  | Join b v n :: l =>
      if (Counter.getIndexByNode c n).2 <? Counter.nNodes c
      then let! c := sync b c v n in reaching c l else Ret c
  end.

(** The copy uses other arrays than the object. *)
Definition detached (k o : SharedCounter.t) : Prop :=
  (∀ b b', side b k ≠ side b' o) ∧ SharedCounter.arrayNodeIndexMapper k = SharedCounter.arrayNodeIndexMapper o.

Lemma sync_joined b c v n : wf c → ufits 16 n → ∃ c', sync b c v n = Ret c' ∧ joined b n v c c'.
Proof. intros W Hn. destruct b; [by apply syncIncrement_spec|by apply syncDecrement_spec]. Qed.

(** A sync in full: the mapper, then the arrays, old or new, then the slot. *)
Lemma shared_sync_steps b h k c v n c1 i :
  points h k c → wf c → ufits 16 n → Counter.getIndexByNode c n = (c1, i) →
  let h1 := CounterHeap.set_mapper (SharedCounter.arrayNodeIndexMapper k) (Counter.arrayNodeIndexMapper c1) h in
  ∃ h2 k' h' c', SharedCounter.maybeResizeCounters k i h1 = Ret (h2, k') ∧ kept h1 h2 ∧
    shared_sync b k v n h = Ret (h', k') ∧ sync b c v n = Ret c' ∧ points h' k' c' ∧
    CounterHeap.mappers h' = CounterHeap.mappers h1 ∧
    (∀ a, a ≠ side b k' → CounterHeap.arrays h' !! a = CounterHeap.arrays h2 !! a) ∧
    (i < SharedCounter.nNodes k → k' = k) ∧
    (SharedCounter.nNodes k ≤ i → (∀ b, CounterHeap.arrays h !! side b k' = None) ∧
      SharedCounter.arrayNodeIndexMapper k' = SharedCounter.arrayNodeIndexMapper k).
Proof.
  intros P W Hn Ei h1. destruct (getIndexByNode_spec _ _ _ _ W Hn Ei) as (W1 & _ & Hi & Hb & _).
  destruct (getIndexByNode_points _ _ _ _ _ _ P Ei) as [E1 P1]. fold h1 in E1, P1.
  destruct (maybeResizeCounters_points _ _ _ i P1) as (h2 & k' & E2 & P2 & K & Hin & Hout).
  rewrite (wrap_small 16 i) in Hin, Hout by done.
  destruct (sync_joined b c v n W Hn) as (c' & Es & _).
  assert (∃ l, Counter.raise (slots b (Counter.maybeResizeCounters c1 i)) i v = Ret l ∧
    c' = with_slots b (Counter.maybeResizeCounters c1 i) l) as (l & El & ->).
  { revert Es. unfold sync, Counter.syncIncrement, Counter.syncDecrement. rewrite Ei. destruct b; simpl; intros Es; inv_ret; eauto. }
  destruct (raise_points _ _ _ b i v l P2 El) as (h' & E3 & P3 & M3 & F3).
  exists h2, k', h', (with_slots b (Counter.maybeResizeCounters c1 i) l).
  split; [done|]. split; [done|]. split.
  { unfold shared_sync, SharedCounter.syncIncrement, SharedCounter.syncDecrement, mbind, stM_bind.
    destruct b; rewrite E1; simpl; rewrite E2; simpl in *; by rewrite E3. }
  split; [done|]. split; [done|]. split; [rewrite M3; apply K|]. split; [done|].
  split; [intros ?; by apply Hin|]. intros Ho. destruct (Hout Ho) as [Hf Hm]. split; [|done].
  intros b'. exact (Hf b').
Qed.

(** The object after a sync through a copy that does not write its arrays: the mapper may know
    one more node. *)
Lemma other_arrays_kept h h' o c n c1 i :
  points h o c → Counter.getIndexByNode c n = (c1, i) →
  (∀ b, CounterHeap.arrays h' !! side b o = CounterHeap.arrays h !! side b o) →
  CounterHeap.mappers h' !! SharedCounter.arrayNodeIndexMapper o = Some (Counter.arrayNodeIndexMapper c1) →
  points h' o c1.
Proof.
  intros P Ei Ha Hm. unfold Counter.getIndexByNode in Ei.
  destruct (CounterArrayIndexMapper.getIndex _ n) as [m j]. injection Ei as <- <-. destruct P. split; simpl; try done.
  - pose proof (Ha true) as E. simpl in E. by rewrite E.
  - pose proof (Ha false) as E. simpl in E. by rewrite E.
Qed.

Lemma getIndex_same_mapper c ck n :
  Counter.arrayNodeIndexMapper c = Counter.arrayNodeIndexMapper ck →
  Counter.arrayNodeIndexMapper (Counter.getIndexByNode c n).1 = Counter.arrayNodeIndexMapper (Counter.getIndexByNode ck n).1.
Proof. intros E. unfold Counter.getIndexByNode. rewrite E. by destruct (CounterArrayIndexMapper.getIndex _ n). Qed.

(** A sync through a copy of [o] that has other arrays, or that gets other arrays first. *)
Lemma sync_away b h k ck o c v n :
  points h k ck → points h o c → wf ck → wf c → ufits 16 n →
  SharedCounter.arrayNodeIndexMapper k = SharedCounter.arrayNodeIndexMapper o →
  (∀ b b', side b k ≠ side b' o) ∨ SharedCounter.nNodes k ≤ (Counter.getIndexByNode ck n).2 →
  ∃ h' k' ck' c', shared_sync b k v n h = Ret (h', k') ∧ detached k' o ∧
    points h' k' ck' ∧ wf ck' ∧ points h' o c' ∧ wf c' ∧ same_view c c'.
Proof.
  intros Pk Po Wk Wo Hn Em Haway. destruct (Counter.getIndexByNode ck n) as [c1 i] eqn:Ei.
  destruct (Counter.getIndexByNode c n) as [c' j] eqn:Ej.
  destruct (shared_sync_steps b h k ck v n c1 i Pk Wk Hn Ei) as (h2 & k' & h' & ck' & E2 & K & Es & Ec & Pk' & Mh & Fh & Hin & Hout).
  destruct (getIndexByNode_spec _ _ _ _ Wo Hn Ej) as (W' & V' & _).
  destruct (sync_joined b ck v n Wk Hn) as (ck2 & Ec2 & J). rewrite Ec in Ec2. injection Ec2 as <-.
  assert (∀ b', ∃ l, CounterHeap.arrays h !! side b' o = Some l) as Ho
    by (intros [|]; [exists (Counter.nIncrements c); apply Po|exists (Counter.nDecrements c); apply Po]).
  assert (detached k' o) as D.
  { destruct (Z.lt_ge_cases i (SharedCounter.nNodes k)) as [Hi|Hi].
    - rewrite (Hin Hi). split; [|done]. destruct Haway as [H|H]; [done|simpl in H; lia].
    - destruct (Hout Hi) as [Hf Hm]. split; [|congruence]. intros b1 b2 E. destruct (Ho b2) as [l Hl].
      rewrite <- E, (Hf b1) in Hl. done. }
  exists h', k', ck', c'. split; [done|]. split; [done|]. split; [done|]. split; [by eapply jn_wf|].
  split; [|done]. eapply other_arrays_kept; [exact Po|exact Ej| |].
  - intros b'. destruct (Ho b') as [l Hl]. rewrite Fh by (intros E; by apply (proj1 D b b')). rewrite Hl. by apply K.
  - rewrite Mh. simpl. rewrite Em, lookup_insert_eq. f_equal.
    pose proof (getIndex_same_mapper ck c n) as G. rewrite Ei, Ej in G. apply G.
    pose proof (pt_map _ _ _ Pk) as M1. rewrite Em, (pt_map _ _ _ Po) in M1. congruence.
Qed.

Definition action_ok (a : action) : Prop :=
  match a with Look n => ufits 16 n | Join _ _ n => ufits 16 n end.

(** Looking a node up through any copy. *)
Lemma look_points h k ck o c n :
  points h k ck → points h o c → wf c → ufits 16 n →
  SharedCounter.arrayNodeIndexMapper k = SharedCounter.arrayNodeIndexMapper o →
  ∃ h' i, SharedCounter.getIndexByNode k n h = Ret (h', i) ∧ points h' k (Counter.getIndexByNode ck n).1 ∧
    points h' o (Counter.getIndexByNode c n).1 ∧ wf (Counter.getIndexByNode c n).1 ∧
    same_view c (Counter.getIndexByNode c n).1.
Proof.
  intros Pk Po W Hn Em. destruct (Counter.getIndexByNode ck n) as [c1 i] eqn:Ei.
  destruct (Counter.getIndexByNode c n) as [c2 j] eqn:Ej.
  destruct (getIndexByNode_points _ _ _ _ _ _ Pk Ei) as [E1 P1].
  destruct (getIndexByNode_spec _ _ _ _ W Hn Ej) as (W2 & V2 & _). eexists _, _. split; [exact E1|].
  split; [done|]. split; [|done]. eapply other_arrays_kept; [exact Po|exact Ej|done|]. simpl.
  rewrite Em, lookup_insert_eq. f_equal.
  pose proof (getIndex_same_mapper ck c n) as G. rewrite Ei, Ej in G. apply G.
  pose proof (pt_map _ _ _ Pk) as M1. rewrite Em, (pt_map _ _ _ Po) in M1. congruence.
Qed.

(** Once the copy has arrays of its own nothing it is given reaches the object. *)
Lemma detached_actions l h k ck o c :
  points h k ck → points h o c → wf ck → wf c → detached k o → Forall action_ok l →
  ∃ h' k' c', shared_actions l k h = Ret (h', k') ∧ points h' o c' ∧ wf c' ∧ same_view c c'.
Proof.
  intros Pk Po Wk Wo D Hl. revert h k ck c Pk Po Wk Wo D.
  induction Hl as [|[n|b v n] l Hn _ IH]; intros h k ck c Pk Po Wk Wo D; simpl; [by exists h, k, c| |].
  - destruct (look_points h k ck k ck n Pk Pk Wk Hn eq_refl) as (h1 & i & E & Pk1 & _ & Wk1 & _).
    destruct (look_points h k ck o c n Pk Po Wo Hn (proj2 D)) as (h1' & i' & E' & _ & Po1 & Wo1 & V1).
    rewrite E in E'. simplify_eq. erewrite stM_bind_Ret by exact E.
    destruct (IH _ _ _ _ Pk1 Po1 Wk1 Wo1 D) as (h' & k' & c' & E' & P' & W' & V').
    exists h', k', c'. do 3 (split; [done|]). by trans (Counter.getIndexByNode c n).1.
  - destruct (sync_away b h k ck o c v n Pk Po Wk Wo Hn (proj2 D) (or_introl (proj1 D)))
      as (h1 & k1 & ck1 & c1 & E & D1 & Pk1 & Wk1 & Po1 & Wo1 & V1).
    erewrite stM_bind_Ret by exact E. destruct (IH _ _ _ _ Pk1 Po1 Wk1 Wo1 D1) as (h' & k' & c' & E' & P' & W' & V').
    exists h', k', c'. do 3 (split; [done|]). by trans c1.
Qed.

(** A copy of a counter shares the original's arrays only until it has to grow them: of the
    joins made through the copy the original sees exactly those before the first one for a node
    whose index lies beyond the arrays.  That one and every later one changes the copy alone,
    although the totals that arrive for known nodes would have fitted the original. *)
Theorem copy_actions_reach_prefix (h : cheap) (o : SharedCounter.t) (c : Counter.t) (l : list action) :
  points h o c → wf c → Forall action_ok l →
  ∃ h' k' c' cr, shared_actions l o h = Ret (h', k') ∧ reaching c l = Ret cr ∧ wf c' ∧
    points h' o c' ∧ same_view cr c'.
Proof.
  intros P W Hl. revert h c P W. induction Hl as [|[n|b v n] l Hn Hl IH]; intros h c P W; simpl.
  - by exists h, o, c, c.
  - destruct (look_points h o c o c n P P W Hn eq_refl) as (h1 & i & E & P1 & _ & W1 & _).
    erewrite stM_bind_Ret by exact E. by apply IH.
  - destruct (Z.ltb_spec (Counter.getIndexByNode c n).2 (Counter.nNodes c)) as [Hlt|Hge];
      rewrite (pt_nodes _ _ _ P) in *.
    + destruct (Counter.getIndexByNode c n) as [c1 i] eqn:Ei. simpl in Hlt.
      destruct (shared_sync_steps b h o c v n c1 i P W Hn Ei) as (h2 & k' & h1 & c2 & _ & _ & Es & Ec & P2 & _ & _ & Hin & _).
      rewrite (Hin Hlt) in *. destruct (sync_joined b c v n W Hn) as (c2' & Ec2 & J). rewrite Ec in Ec2. injection Ec2 as <-.
      erewrite stM_bind_Ret by exact Es. rewrite Ec. simpl. apply IH; [done|by eapply jn_wf].
    + destruct (sync_away b h o c o c v n P P W W Hn eq_refl (or_intror Hge))
        as (h1 & k1 & ck1 & c1 & E & D1 & Pk1 & Wk1 & Po1 & Wo1 & V1).
      erewrite stM_bind_Ret by exact E.
      destruct (detached_actions l _ _ _ _ _ Pk1 Po1 Wk1 Wo1 D1 Hl) as (h' & k' & c' & E' & P' & W' & V').
      exists h', k', c', c. do 4 (split; [done|]). by trans c1.
Qed.
