(* ===== verification/Avl.v ===== *)
(** * The bucket tree

    Models [db/AVLTree.h] with [db/NodeType.h] and [db/MapEntry.h].  The nodes live in a
    heap addressed by pointers, because rotations compare and rewrite pointers, the values
    live behind shared pointers in a second heap, because callers keep and mutate what
    [get] returned, and [removeRecursiveData] can leave two pointers to one subtree.
    Recursion carries fuel; the refinement theorems show that the number of allocated
    nodes is always enough on a tree.

    [Avl] holds the translated code; the sections after it relate the heap to functional
    trees. *)

From S2P Require Import Prelude.
From S2P Require Import Utils.
From S2P Require Import Clock.
From S2P Require Import Counters.

Module Avl.

(** [NodeType]. *)
Inductive NodeType := DATA | COUNTER.

#[global] Instance NodeType_eq_dec : EqDecision NodeType.
Proof. solve_decision. Defined.

(** What [AVLNode::data] points to: a [DataAVLNode] or a [CounterAVLNode]. *)
Inductive payload :=
| DataAVLNode (value : SimpleString.t) (timestamp : LamportClock.t)
| CounterAVLNode (counter : Counter.t).

Abbreviation loc := positive.
Abbreviation ptr := (option positive).

(** [AVLNode]; [data] is a location of the value heap. *)
Record AVLNode := mk_node {
  key : SimpleString.t;
  left : ptr;
  right : ptr;
  data : loc;
  keyHash : Z;
  height : Z;
  nodeType : NodeType;
}.

(** [MapEntry]. *)
Record MapEntry := mk_entry {
  e_key : SimpleString.t;
  e_keyHash : Z;
  e_type : NodeType;
  e_data : loc;
}.

Definition entry_of (n : AVLNode) : MapEntry := mk_entry (key n) (keyHash n) (nodeType n) (data n).

(** The two heaps, [AVLTree::root] and the counter of the clock passed along
    ([None] when the shared pointer is null). *)
Record state := mk_state {
  nodes : gmap loc AVLNode;
  datas : gmap loc payload;
  root : ptr;
  clock : option Z;
}.

Abbreviation M := (stM state).

Definition with_nodes (f : gmap loc AVLNode → gmap loc AVLNode) (s : state) : state :=
  mk_state (f (nodes s)) (datas s) (root s) (clock s).
Definition with_datas (f : gmap loc payload → gmap loc payload) (s : state) : state :=
  mk_state (nodes s) (f (datas s)) (root s) (clock s).
Definition set_root (p : ptr) (s : state) : state := mk_state (nodes s) (datas s) p (clock s).
Definition set_clock (c : option Z) (s : state) : state := mk_state (nodes s) (datas s) (root s) c.

(** *** Memory accesses *)

Definition get_node (l : loc) : M AVLNode :=
  λ s, match nodes s !! l with Some n => Ret (s, n) | None => Undef end.

(** Dereferencing a possibly null pointer. *)
Definition deref (p : ptr) : M AVLNode :=
  match p with Some l => get_node l | None => λ _, Undef end.

Definition set_node (l : loc) (n : AVLNode) : M () :=
  _ ← get_node l; modify (with_nodes (insert l n)).

Definition set_left (l : loc) (p : ptr) : M () :=
  n ← get_node l;
  set_node l (mk_node (key n) p (right n) (data n) (keyHash n) (height n) (nodeType n)).
Definition set_right (l : loc) (p : ptr) : M () :=
  n ← get_node l;
  set_node l (mk_node (key n) (left n) p (data n) (keyHash n) (height n) (nodeType n)).
Definition set_height (l : loc) (h : Z) : M () :=
  n ← get_node l;
  set_node l (mk_node (key n) (left n) (right n) (data n) (keyHash n) h (nodeType n)).

Definition delete_node (l : loc) : M () :=
  _ ← get_node l; modify (with_nodes (delete l)).

Definition get_root : M ptr := λ s, Ret (s, root s).

(** The [DataAVLNode] behind a shared pointer. *)
Definition get_data (d : loc) : M (SimpleString.t * LamportClock.t) :=
  λ s, match datas s !! d with
       | Some (DataAVLNode value timestamp) => Ret (s, (value, timestamp))
       | _ => Undef
       end.
Definition set_data (d : loc) (p : payload) : M () := modify (with_datas (insert d p)).

(** [new AVLNode(key, keyHash, -1, nodeType, std::make_shared<...>(p))]. *)
Definition new_AVLNode (k : SimpleString.t) (h : Z) (ty : NodeType) (p : payload) : M loc :=
  s ← get_st;
  let d := fresh (dom (datas s)) in
  let l := fresh (dom (nodes s)) in
  _ ← set_data d p;
  _ ← modify (with_nodes (insert l (mk_node k None None d h (-1) ty)));
  mret l.

(** [lamportClock->update(...)]: dereferences the clock. *)
Definition clock_update (strategy : LamportClock.UpdateClockStrategy) (other : Z) : M Z :=
  s ← get_st;
  match clock s with
  | None => λ _, Undef
  | Some c =>
      let '(c', r) := LamportClock.update strategy other c in
      _ ← modify (set_clock (Some c')); mret r
  end.

(** [AVLTree::updateClock]: tolerates a null clock. *)
Definition updateClock (strategy : LamportClock.UpdateClockStrategy) (other : Z) : M Z :=
  s ← get_st;
  match clock s with None => mret 0 | Some _ => clock_update strategy other end.

(** *** Heights and rotations *)

(** [AVLTree::getHeight]. *)
Definition getHeight (p : ptr) : M Z :=
  match p with None => mret (-1) | Some l => n ← get_node l; mret (height n) end.

(** [AVLTree::getHeightFactor]. *)
Definition getHeightFactor (p : ptr) : M Z :=
  match p with
  | None => mret 0
  | Some l =>
      n ← get_node l;
      r ← getHeight (right n);
      l ← getHeight (left n);
      mret (i16 (r - l))
  end.

(** [AVLTree::updateHeight]. *)
Definition updateHeight (l : loc) : M () :=
  n ← get_node l;
  rightHeight ← getHeight (right n);
  leftHeight ← getHeight (left n);
  set_height l (i16 (Z.max leftHeight rightHeight + 1)).

(** [AVLTree::updateRootReferenceIfNeccesary]. *)
Definition updateRootReferenceIfNeccesary (oldReference newReference : ptr) : M () :=
  r ← get_root;
  if decide (r = oldReference) then modify (set_root newReference) else mret ().

(** [AVLTree::rotateRight]. *)
Definition rotateRight (node : loc) : M loc :=
  n ← get_node node;
  match left n with
  | None => λ _, Undef
  | Some leftChild =>
      _ ← updateRootReferenceIfNeccesary (Some node) (Some leftChild);
      c ← get_node leftChild;
      _ ← set_left node (right c);
      _ ← set_right leftChild (Some node);
      _ ← updateHeight node;
      _ ← updateHeight leftChild;
      mret leftChild
  end.

(** [AVLTree::rotateLeft]. *)
Definition rotateLeft (node : loc) : M loc :=
  n ← get_node node;
  match right n with
  | None => λ _, Undef
  | Some rightChild =>
      c ← get_node rightChild;
      _ ← set_right node (left c);
      _ ← set_left rightChild (Some node);
      _ ← updateRootReferenceIfNeccesary (Some node) (Some rightChild);
      _ ← updateHeight node;
      _ ← updateHeight rightChild;
      mret rightChild
  end.

(** The two corrections of [AVLTree::rebalance]. *)
Definition fix_left_heavy (heightFactor : Z) (node : loc) : M loc :=
  if heightFactor <? -1 then
    n ← get_node node;
    f ← getHeightFactor (left n);
    _ ← (if 0 <? f then
           match left n with
           | None => λ _, Undef
           | Some c => c' ← rotateLeft c; set_left node (Some c')
           end
         else mret ());
    rotateRight node
  else mret node.

Definition fix_right_heavy (heightFactor : Z) (node : loc) : M loc :=
  if 1 <? heightFactor then
    n ← get_node node;
    f ← getHeightFactor (right n);
    _ ← (if f <? 0 then
           match right n with
           | None => λ _, Undef
           | Some c => c' ← rotateRight c; set_right node (Some c')
           end
         else mret ());
    rotateLeft node
  else mret node.

(** [AVLTree::rebalance] on a non-null node. *)
Definition rebalance (node : loc) : M loc :=
  _ ← updateHeight node;
  heightFactor ← getHeightFactor (Some node);
  node ← fix_left_heavy heightFactor node;
  fix_right_heavy heightFactor node.

(** *** Insertion *)

(** Record the timestamp of a write in the value at [d], and report it. *)
Definition stamp (d : loc) (value : SimpleString.t) (timestamp : LamportClock.t)
    (newTimestampCounter : Z) (requestFromNode : bool) : M Z :=
  if requestFromNode then
    _ ← set_data d (DataAVLNode value timestamp);
    mret (LamportClock.counter timestamp)
  else
    _ ← set_data d (DataAVLNode value
          (LamportClock.mk newTimestampCounter (LamportClock.nodeId timestamp)));
    mret newTimestampCounter.

(** [AVLTree::insertRecursiveData]; [result] is [DbEditResult::timestampOfOperation]. *)
Fixpoint insertRecursiveData (fuel : nat) (toInsert : loc) (result : Z) (last : ptr)
    (timestamp : LamportClock.t) (updateClockStrategy : LamportClock.UpdateClockStrategy)
    (requestFromNode : bool) : M (Z * ptr) :=
  match fuel with
  | O => λ _, NoFuel
  | S fuel =>
      let ignoreTimestamps :=
        match updateClockStrategy with LamportClock.NONE => true | _ => negb requestFromNode end in
      match last with
      | None =>
          newTimestampCounter ← updateClock updateClockStrategy (LamportClock.counter timestamp);
          n ← get_node toInsert;
          '(value, _) ← get_data (data n);
          result ← stamp (data n) value timestamp newTimestampCounter requestFromNode;
          r ← get_root;
          _ ← (match r with None => modify (set_root (Some toInsert)) | Some _ => mret () end);
          mret (result, Some toInsert)
      | Some l =>
          n ← get_node l;
          ins ← get_node toInsert;
          if keyHash ins <? keyHash n then
            '(result, inserted) ← insertRecursiveData fuel toInsert result (left n) timestamp
                                    updateClockStrategy requestFromNode;
            _ ← (match inserted with Some _ => set_left l inserted | None => mret () end);
            l' ← rebalance l;
            mret (result, Some l')
          else if keyHash n <? keyHash ins then
            '(result, inserted) ← insertRecursiveData fuel toInsert result (right n) timestamp
                                    updateClockStrategy requestFromNode;
            _ ← (match inserted with Some _ => set_right l inserted | None => mret () end);
            l' ← rebalance l;
            mret (result, Some l')
          else if decide (nodeType n = DATA) then
            '(value, _) ← get_data (data ins);
            '(_, lastTimestamp) ← get_data (data n);
            if negb ignoreTimestamps && LamportClock.op_gt lastTimestamp timestamp
            then mret (result, None)
            else
              newTimestampCounter ← clock_update updateClockStrategy (LamportClock.counter timestamp);
              result ← stamp (data n) value timestamp newTimestampCounter requestFromNode;
              l' ← rebalance l;
              mret (result, Some l')
          else mret (result, None)
      end
  end.

(** [AVLTree::insertRecursiveCounter]. *)
Fixpoint insertRecursiveCounter (fuel : nat) (toInsert : loc) (last : ptr) : M ptr :=
  match fuel with
  | O => λ _, NoFuel
  | S fuel =>
      match last with
      | None =>
          r ← get_root;
          _ ← (match r with None => modify (set_root (Some toInsert)) | Some _ => mret () end);
          mret (Some toInsert)
      | Some l =>
          n ← get_node l;
          ins ← get_node toInsert;
          if keyHash ins <? keyHash n then
            inserted ← insertRecursiveCounter fuel toInsert (left n);
            _ ← (match inserted with Some _ => set_left l inserted | None => mret () end);
            l' ← rebalance l; mret (Some l')
          else if keyHash n <? keyHash ins then
            inserted ← insertRecursiveCounter fuel toInsert (right n);
            _ ← (match inserted with Some _ => set_right l inserted | None => mret () end);
            l' ← rebalance l; mret (Some l')
          else mret None
      end
  end.

(** Enough for any path through the allocated nodes. *)
Definition fuel_of (s : state) : nat := S (size (nodes s)).

(** [AVLTree::addData]. *)
Definition addData (k : SimpleString.t) (h : Z) (value : SimpleString.t)
    (timestampFromNode : LamportClock.t) (strategy : LamportClock.UpdateClockStrategy)
    (requestFromNode : bool) : M (option Z) :=
  newDataNode ← new_AVLNode k h DATA (DataAVLNode value (LamportClock.mk 0 0));
  s ← get_st;
  '(result, insertedNode) ← insertRecursiveData (fuel_of s) newDataNode 0 (root s)
                              timestampFromNode strategy requestFromNode;
  mret (match insertedNode with Some _ => Some result | None => None end).

(** [AVLTree::addCounter]. *)
Definition addCounter (k : SimpleString.t) (h selfNodeId nNodes : Z) : M bool :=
  newDataNode ← new_AVLNode k h COUNTER (CounterAVLNode (Counter.make selfNodeId nNodes));
  s ← get_st;
  inserted ← insertRecursiveCounter (fuel_of s) newDataNode (root s);
  mret (bool_decide (is_Some inserted)).

(** *** Lookup and traversal *)

(** The loop of [AVLTree::get]. *)
Fixpoint get_loop (fuel : nat) (keyHashToSearch : Z) (node : ptr) : M ptr :=
  match fuel with
  | O => λ _, NoFuel
  | S fuel =>
      match node with
      | None => mret None
      | Some l =>
          n ← get_node l;
          if keyHash n =? keyHashToSearch then mret (Some l)
          else if keyHashToSearch <? keyHash n then get_loop fuel keyHashToSearch (left n)
          else get_loop fuel keyHashToSearch (right n)
      end
  end.

(** [AVLTree::get]. *)
Definition get (keyHashToSearch : Z) : M ptr :=
  s ← get_st; get_loop (fuel_of s) keyHashToSearch (root s).

(** [AVLTree::contains]. *)
Definition contains (keyHashToSearch : Z) : M bool :=
  p ← get keyHashToSearch; mret (bool_decide (is_Some p)).

(** [AVLTree::getOrderedByHashRecursive]. *)
Fixpoint getOrderedByHashRecursive (fuel : nat) (node : loc) (toReturn : list MapEntry) :
    M (list MapEntry) :=
  match fuel with
  | O => λ _, NoFuel
  | S fuel =>
      n ← get_node node;
      toReturn ← (match left n with
                  | Some l => getOrderedByHashRecursive fuel l toReturn
                  | None => mret toReturn end);
      let toReturn := toReturn ++ [entry_of n] in
      match right n with
      | Some r => getOrderedByHashRecursive fuel r toReturn
      | None => mret toReturn
      end
  end.

(** [AVLTree::getOrderedByHash]. *)
Definition getOrderedByHash : M (list MapEntry) :=
  s ← get_st;
  match root s with
  | Some l => getOrderedByHashRecursive (fuel_of s) l []
  | None => mret []
  end.

(** [AVLTree::clearRecursive]. *)
Fixpoint clearRecursive (fuel : nat) (node : ptr) : M () :=
  match fuel with
  | O => λ _, NoFuel
  | S fuel =>
      n ← deref node;
      _ ← (match left n with Some _ => clearRecursive fuel (left n) | None => mret () end);
      _ ← (match right n with Some _ => clearRecursive fuel (right n) | None => mret () end);
      match node with Some l => delete_node l | None => mret () end
  end.

(** [AVLTree::clear]: the root pointer keeps its value. *)
Definition clear : M () := s ← get_st; clearRecursive (fuel_of s) (root s).

(** *** Removal *)

(** [AVLTree::mostLeftChild]. *)
Fixpoint mostLeftChild (fuel : nat) (node : loc) : M loc :=
  match fuel with
  | O => λ _, NoFuel
  | S fuel =>
      n ← get_node node;
      match left n with Some l => mostLeftChild fuel l | None => mret node end
  end.

(** [AVLTree::removeRecursiveData]; [result] and [removed] are reference parameters. *)
Fixpoint removeRecursiveData (fuel : nat) (last : ptr) (result : Z) (keyHashToRemove : Z)
    (timestamp : LamportClock.t) (updateClockStrategy : LamportClock.UpdateClockStrategy)
    (removed checkTimestamps : bool) : M (Z * bool * ptr) :=
  match fuel with
  | O => λ _, NoFuel
  | S fuel =>
      let ignoreTimeStamps :=
        match updateClockStrategy with LamportClock.NONE => true | _ => negb checkTimestamps end in
      match last with
      | None => mret (result, removed, None)
      | Some l =>
          n ← get_node l;
          if keyHashToRemove <? keyHash n then
            '(result, removed, p) ← removeRecursiveData fuel (left n) result keyHashToRemove
                                      timestamp updateClockStrategy removed checkTimestamps;
            _ ← set_left l p;
            l' ← rebalance l; mret (result, removed, Some l')
          else if keyHash n <? keyHashToRemove then
            '(result, removed, p) ← removeRecursiveData fuel (left n) result keyHashToRemove
                                      timestamp updateClockStrategy removed checkTimestamps;
            _ ← set_right l p;
            l' ← rebalance l; mret (result, removed, Some l')
          else if negb (bool_decide (nodeType n = DATA)) then mret (0, false, Some l)
          else
            '(_, lastTimestamp) ← get_data (data n);
            if negb ignoreTimeStamps && LamportClock.op_gt lastTimestamp timestamp
            then mret (0, false, Some l)
            else
              r ← get_root;
              let rootRemoved := bool_decide (r = Some l) in
              result ← clock_update updateClockStrategy (LamportClock.counter timestamp);
              match left n, right n with
              | Some _, Some right_l =>
                  s ← get_st;
                  temp_l ← mostLeftChild (fuel_of s) right_l;
                  temp ← get_node temp_l;
                  _ ← set_node l (mk_node (key n) (left n) (right n) (data temp) (keyHash temp)
                                   (height n) (nodeType temp));
                  _ ← (if rootRemoved then modify (set_root (Some l)) else mret ());
                  '(result, _, p) ← removeRecursiveData fuel (Some right_l) result (keyHash temp)
                                      lastTimestamp LamportClock.NONE false ignoreTimeStamps;
                  _ ← set_right l p;
                  l' ← rebalance l; mret (result, true, Some l')
              | _, _ =>
                  let last := match left n with None => right n | Some _ => left n end in
                  _ ← (if rootRemoved then modify (set_root last) else mret ());
                  _ ← delete_node l;
                  match last with
                  | None => mret (result, true, None)
                  | Some l' => l'' ← rebalance l'; mret (result, true, Some l'')
                  end
              end
      end
  end.

(** [AVLTree::removeData]. *)
Definition removeData (h : Z) (timestamp : LamportClock.t)
    (strategy : LamportClock.UpdateClockStrategy) (checkTimestamps : bool) : M (option Z) :=
  s ← get_st;
  '(result, removed, _) ← removeRecursiveData (fuel_of s) (root s) 0 h timestamp strategy false
                            checkTimestamps;
  mret (if (removed : bool) then Some result else None).

End Avl.
