(* ===== verification/AvlTrees.v ===== *)
(** * Functional trees behind the bucket tree

    A functional tree [tree] carries the heap location of each node; [rep] says that the
    node heap stores it.  The rotations, [rebalance] and the insertion path of [Avl] are
    given functional counterparts and the heap code is proved to implement them, with a
    frame condition and with [AVLTree::root] kept on the top node.  The rest of the file is
    about functional trees: search order, heights and balance. *)

From Stdlib Require Import Sorting.Sorted.
From S2P Require Import Prelude.
From S2P Require Import Utils.
From S2P Require Import Clock.
From S2P Require Import Counters.
From S2P Require Import Avl.
Import Avl.

(** ** Functional trees *)

Record info := mk_info {
  i_key : SimpleString.t;
  i_data : loc;
  i_hash : Z;
  i_height : Z;
  i_type : NodeType;
}.

Inductive tree := E | T (l : loc) (lt : tree) (x : info) (rt : tree).

Definition ptr_of (t : tree) : ptr := match t with E => None | T l _ _ _ => Some l end.
Definition ht (t : tree) : Z := match t with E => -1 | T _ _ x _ => i_height x end.
Definition with_height (x : info) (h : Z) : info := mk_info (i_key x) (i_data x) (i_hash x) h (i_type x).

Fixpoint locs (t : tree) : list loc :=
  match t with E => [] | T l lt _ rt => locs lt ++ l :: locs rt end.

Definition node_of (x : info) (p q : ptr) : AVLNode :=
  mk_node (i_key x) p q (i_data x) (i_hash x) (i_height x) (i_type x).

(** The heap stores the tree. *)
Fixpoint rep (h : gmap loc AVLNode) (t : tree) : Prop :=
  match t with
  | E => True
  | T l lt x rt => h !! l = Some (node_of x (ptr_of lt) (ptr_of rt)) ∧ rep h lt ∧ rep h rt
  end.

(** [updateHeight], the rotations and [rebalance] on functional trees. *)
Definition upd (l : loc) (lt : tree) (x : info) (rt : tree) : tree :=
  T l lt (with_height x (i16 (Z.max (ht lt) (ht rt) + 1))) rt.

Definition rotR (t : tree) : tree :=
  match t with T l (T c a y b) x d => upd c a y (upd l b x d) | _ => t end.
Definition rotL (t : tree) : tree :=
  match t with T l a x (T c b y d) => upd c (upd l a x b) y d | _ => t end.

Definition factor (t : tree) : Z := match t with E => 0 | T _ lt _ rt => i16 (ht rt - ht lt) end.

Definition reb (l : loc) (lt : tree) (x : info) (rt : tree) : tree :=
  let f := i16 (ht rt - ht lt) in
  if f <? -1 then rotR (T l (if 0 <? factor lt then rotL lt else lt) x rt)
  else if 1 <? f then rotL (T l lt x (if factor rt <? 0 then rotR rt else rt))
  else upd l lt x rt.

(** The insertion path: [leaf] is put at the free place for hash [h]; a node that already
    has hash [h] is kept, and rebalanced when the update is accepted. *)
Fixpoint tins (leaf : tree) (accept : bool) (h : Z) (t : tree) : tree :=
  match t with
  | E => leaf
  | T l lt x rt =>
      if h <? i_hash x then reb l (tins leaf accept h lt) x rt
      else if i_hash x <? h then reb l lt x (tins leaf accept h rt)
      else if accept then reb l lt x rt else t
  end.

(** ** Memory *)

Lemma get_node_ok s l n : nodes s !! l = Some n → get_node l s = Ret (s, n).
Proof. unfold get_node. by intros ->. Qed.

Lemma set_node_ok s l n n' :
  nodes s !! l = Some n → set_node l n' s = Ret (with_nodes (insert l n') s, ()).
Proof. intros H. unfold set_node. by erewrite stM_bind_Ret by (by apply get_node_ok). Qed.

Lemma set_left_ok s l x p q p' :
  nodes s !! l = Some (node_of x p q) →
  set_left l p' s = Ret (with_nodes (insert l (node_of x p' q)) s, ()).
Proof.
  intros H. unfold set_left. erewrite stM_bind_Ret by (by apply get_node_ok).
  by erewrite set_node_ok.
Qed.

Lemma set_right_ok s l x p q q' :
  nodes s !! l = Some (node_of x p q) →
  set_right l q' s = Ret (with_nodes (insert l (node_of x p q')) s, ()).
Proof.
  intros H. unfold set_right. erewrite stM_bind_Ret by (by apply get_node_ok).
  by erewrite set_node_ok.
Qed.

Lemma set_height_ok s l x p q h :
  nodes s !! l = Some (node_of x p q) →
  set_height l h s = Ret (with_nodes (insert l (node_of (with_height x h) p q)) s, ()).
Proof.
  intros H. unfold set_height. erewrite stM_bind_Ret by (by apply get_node_ok).
  by erewrite set_node_ok.
Qed.

Lemma rep_frame h h' t : (∀ l, l ∈ locs t → h' !! l = h !! l) → rep h t → rep h' t.
Proof.
  induction t as [|l lt IHl x rt IHr]; simpl; [done|]. intros Hf (H & Hl & Hr).
  rewrite Hf by set_solver. split; [done|]. split; [apply IHl|apply IHr]; set_solver.
Qed.

Lemma rep_insert_ne h l n t : l ∉ locs t → rep h t → rep (<[l:=n]> h) t.
Proof. intros Hl. apply rep_frame. intros l' ?. apply lookup_insert_ne. set_solver. Qed.

Lemma getHeight_ok s t : rep (nodes s) t → getHeight (ptr_of t) s = Ret (s, ht t).
Proof.
  destruct t as [|l lt x rt]; simpl; [done|]. intros (H & _).
  by erewrite stM_bind_Ret by (by apply get_node_ok).
Qed.

Lemma getHeightFactor_ok s t : rep (nodes s) t → getHeightFactor (ptr_of t) s = Ret (s, factor t).
Proof.
  destruct t as [|l lt x rt]; simpl; [done|]. intros (H & Hl & Hr).
  erewrite stM_bind_Ret by (by apply get_node_ok). simpl.
  erewrite stM_bind_Ret by (by apply getHeight_ok).
  by erewrite stM_bind_Ret by (by apply getHeight_ok).
Qed.

Lemma updateHeight_ok s l lt x rt :
  nodes s !! l = Some (node_of x (ptr_of lt) (ptr_of rt)) → rep (nodes s) lt → rep (nodes s) rt →
  updateHeight l s
  = Ret (with_nodes (insert l (node_of (with_height x (i16 (Z.max (ht lt) (ht rt) + 1)))
           (ptr_of lt) (ptr_of rt))) s, ()).
Proof.
  intros H Hl Hr. unfold updateHeight.
  erewrite stM_bind_Ret by (by apply get_node_ok). simpl.
  erewrite stM_bind_Ret by (by apply getHeight_ok).
  erewrite stM_bind_Ret by (by apply getHeight_ok).
  by apply set_height_ok.
Qed.

Lemma updateRoot_ok s old new :
  updateRootReferenceIfNeccesary old new s
  = Ret (set_root (if decide (root s = old) then new else root s) s, ()).
Proof.
  unfold updateRootReferenceIfNeccesary. erewrite stM_bind_Ret by done.
  destruct s. simpl. destruct (decide _); done.
Qed.

(** ** Transformations of one subtree *)

(** From [s] to [s'] the subtree [t] became [t'], which may also use the locations [new];
    no other node changed, and the root pointer follows the top of the subtree. *)
Record becomes (new : list loc) (s s' : state) (t t' : tree) : Prop := {
  bc_rep : rep (nodes s') t';
  bc_locs : locs t' ≡ₚ new ++ locs t;
  bc_frame : ∀ l, l ∉ locs t → l ∉ new → nodes s' !! l = nodes s !! l;
  bc_root : root s' = if decide (root s = ptr_of t) then ptr_of t' else root s;
}.

(** Only the node heap and the root pointer changed. *)
Definition same_data (s s' : state) : Prop := datas s' = datas s ∧ clock s' = clock s.

(** [ptr_of t] is the only location of [t] the root pointer may have. *)
Definition root_top (s : state) (t : tree) : Prop :=
  ∀ l, root s = Some l → l ∈ locs t → ptr_of t = Some l.

Ltac rep_ins := repeat (apply rep_insert_ne; [done|]); done.

Lemma NoDup_locs_T l lt x rt :
  NoDup (locs (T l lt x rt)) ↔
  l ∉ (locs lt) ∧ l ∉ (locs rt) ∧ NoDup (locs lt) ∧ NoDup (locs rt) ∧
  (∀ l', l' ∈ (locs lt) → l' ∉ (locs rt)).
Proof.
  simpl. rewrite NoDup_app, NoDup_cons. setoid_rewrite not_elem_of_cons. split.
  - intros (H1 & H2 & H3 & H4). split; [naive_solver|]. naive_solver.
  - intros (H1 & H2 & H3 & H4 & H5). split; [done|]. split; [|done].
    intros l' Hl'. split; [|by apply H5]. by intros ->.
Qed.

Lemma elem_of_locs_T l' l lt x rt :
  l' ∈ locs (T l lt x rt) ↔ l' ∈ locs lt ∨ l' = l ∨ l' ∈ locs rt.
Proof. simpl. by rewrite elem_of_app, elem_of_cons. Qed.

Ltac locs_solver :=
  repeat match goal with
  | H : context [NoDup (locs (T _ _ _ _))] |- _ => rewrite NoDup_locs_T in H
  | H : context [_ ∈ locs (T _ _ _ _)] |- _ => setoid_rewrite elem_of_locs_T in H
  end; naive_solver.

Lemma rotateRight_ok s l c a y b x d :
  rep (nodes s) (T l (T c a y b) x d) → NoDup (locs (T l (T c a y b) x d)) →
  ∃ s', rotateRight l s = Ret (s', c) ∧
        same_data s s' ∧ becomes [] s s' (T l (T c a y b) x d) (rotR (T l (T c a y b) x d)).
Proof.
  intros (Hl & (Hc & Ha & Hb) & Hd) Hnd.
  assert (l ≠ c ∧ l ∉ (locs a) ∧ l ∉ (locs b) ∧ l ∉ (locs d) ∧ c ∉ (locs a) ∧ c ∉ (locs b) ∧ c ∉ (locs d))
    as (Hlc & Hla & Hlb & Hld & Hca & Hcb & Hcd) by locs_solver.
  unfold rotateRight. erewrite stM_bind_Ret by (by apply get_node_ok). simpl.
  erewrite stM_bind_Ret by apply updateRoot_ok.
  erewrite stM_bind_Ret by (apply get_node_ok; simpl; exact Hc). simpl.
  erewrite stM_bind_Ret by (eapply set_left_ok; simpl; exact Hl).
  erewrite stM_bind_Ret by (eapply set_right_ok; simpl; rewrite lookup_insert_ne by done; exact Hc).
  erewrite stM_bind_Ret; cycle 1.
  { apply (updateHeight_ok _ l b x d); simpl.
    - by rewrite lookup_insert_ne, lookup_insert_eq by done.
    - rep_ins.
    - rep_ins. }
  erewrite stM_bind_Ret; cycle 1.
  { apply (updateHeight_ok _ c a y (upd l b x d)); simpl.
    - by rewrite lookup_insert_ne, lookup_insert_eq by done.
    - rep_ins.
    - rewrite lookup_insert_eq. split; [done|]. split; rep_ins. }
  eexists; split; [done|]. split; [done|]. split; simpl.
  - rewrite lookup_insert_eq. split; [done|]. split; [rep_ins|].
    rewrite lookup_insert_ne, lookup_insert_eq by done. split; [done|].
    split; rep_ins.
  - by rewrite <- !app_assoc.
  - intros l' Hl' _. assert (l ≠ l' ∧ c ≠ l') as [??] by (simpl in Hl'; set_solver).
    by rewrite !lookup_insert_ne by done.
  - done.
Qed.

Lemma rotateLeft_ok s l a x c b y d :
  rep (nodes s) (T l a x (T c b y d)) → NoDup (locs (T l a x (T c b y d))) →
  ∃ s', rotateLeft l s = Ret (s', c) ∧
        same_data s s' ∧ becomes [] s s' (T l a x (T c b y d)) (rotL (T l a x (T c b y d))).
Proof.
  intros (Hl & Ha & (Hc & Hb & Hd)) Hnd.
  assert (l ≠ c ∧ l ∉ (locs a) ∧ l ∉ (locs b) ∧ l ∉ (locs d) ∧ c ∉ (locs a) ∧ c ∉ (locs b) ∧ c ∉ (locs d))
    as (Hlc & Hla & Hlb & Hld & Hca & Hcb & Hcd) by locs_solver.
  unfold rotateLeft. erewrite stM_bind_Ret by (by apply get_node_ok). simpl.
  erewrite stM_bind_Ret by (apply get_node_ok; simpl; exact Hc). simpl.
  erewrite stM_bind_Ret by (eapply set_right_ok; simpl; exact Hl).
  erewrite stM_bind_Ret by (eapply set_left_ok; simpl; rewrite lookup_insert_ne by done; exact Hc).
  erewrite stM_bind_Ret by apply updateRoot_ok.
  erewrite stM_bind_Ret; cycle 1.
  { apply (updateHeight_ok _ l a x b); simpl.
    - by rewrite lookup_insert_ne, lookup_insert_eq by done.
    - rep_ins.
    - rep_ins. }
  erewrite stM_bind_Ret; cycle 1.
  { apply (updateHeight_ok _ c (upd l a x b) y d); simpl.
    - by rewrite lookup_insert_ne, lookup_insert_eq by done.
    - rewrite lookup_insert_eq. split; [done|]. split; rep_ins.
    - rep_ins. }
  eexists; split; [done|]. split; [done|]. split; simpl.
  - rewrite lookup_insert_eq. split; [done|]. split; [|rep_ins].
    rewrite lookup_insert_ne, lookup_insert_eq by done. split; [done|].
    split; rep_ins.
  - by rewrite <- !app_assoc.
  - intros l' Hl' _. assert (l ≠ l' ∧ c ≠ l') as [??] by (simpl in Hl'; set_solver).
    by rewrite !lookup_insert_ne by done.
  - done.
Qed.

Lemma root_top_left s l lt x rt :
  NoDup (locs (T l lt x rt)) → root_top s (T l lt x rt) → root s ≠ ptr_of lt ∨ root s = None.
Proof.
  intros Hnd Ht. destruct lt as [|c a y b]; simpl; [|left; intros Hr].
  - destruct (root s); [by left|by right].
  - assert (Some l = Some c) as [= ->] by (apply (Ht c Hr); rewrite !elem_of_locs_T; tauto).
    locs_solver.
Qed.

Lemma with_height_twice x h h' : with_height (with_height x h) h' = with_height x h'.
Proof. done. Qed.

Lemma becomes_trans new s s1 s2 t t1 t2 :
  root_top s t → (t = E → t1 = E → root s = ptr_of t) → (t1 = E → t = E) →
  (∀ l, root s = Some l → l ∉ new) →
  becomes new s s1 t t1 → becomes [] s1 s2 t1 t2 → becomes new s s2 t t2.
Proof.
  intros Hrt HE HE' Hnew [R1 L1 F1 T1] [R2 L2 F2 T2]. simpl in *. split; [done| | |].
  - by rewrite L2.
  - intros l Hl Hn. rewrite F2, F1; [done|done|done| |apply not_elem_of_nil].
    rewrite L1. set_solver.
  - rewrite T2, T1. destruct (decide (root s = ptr_of t)) as [Hr|Hr].
    + by rewrite decide_True.
    + rewrite decide_False; [done|]. intros Hr'. destruct t1 as [|c a y b].
      * apply Hr, HE; [by apply HE'|done].
      * apply Hr. rewrite Hr'. symmetry. apply Hrt; [done|].
        assert (c ∈ locs (T c a y b)) as Hc by (apply elem_of_locs_T; tauto).
        rewrite L1 in Hc. apply elem_of_app in Hc as [Hc|Hc]; [|done]. by apply (Hnew c) in Hc.
Qed.

Lemma becomes_trans_nil s s1 s2 l lt x rt l' lt' x' rt' t2 :
  root_top s (T l lt x rt) → becomes [] s s1 (T l lt x rt) (T l' lt' x' rt') →
  becomes [] s1 s2 (T l' lt' x' rt') t2 → becomes [] s s2 (T l lt x rt) t2.
Proof. intros. by eapply becomes_trans; [| | | |done..]; [|done|done|set_solver]. Qed.

(** [updateHeight] on a node. *)
Lemma updateHeight_becomes s l lt x rt :
  rep (nodes s) (T l lt x rt) → NoDup (locs (T l lt x rt)) →
  ∃ s', updateHeight l s = Ret (s', ()) ∧ same_data s s' ∧ root s' = root s ∧
        becomes [] s s' (T l lt x rt) (upd l lt x rt).
Proof.
  intros (Hl & Hlt & Hrt) Hnd. apply NoDup_locs_T in Hnd as (N1 & N2 & _).
  rewrite (updateHeight_ok s l lt x rt) by done. eexists; split; [done|]. split; [done|]. split; [done|].
  split; simpl.
  - rewrite lookup_insert_eq. split; [done|]. split; rep_ins.
  - done.
  - intros l' Hl' _. rewrite lookup_insert_ne; [done|]. set_solver.
  - case_decide; congruence.
Qed.

(** Changing the left (right) child of a node after transforming it. *)
Lemma set_left_becomes new s s1 l lt lt' x rt :
  rep (nodes s) (T l lt x rt) → NoDup (locs (T l lt x rt)) → root_top s (T l lt x rt) →
  root s ≠ None → (∀ l', l' ∈ new → l' ∉ (locs (T l lt x rt))) →
  becomes new s s1 lt lt' →
  ∃ s2, set_left l (ptr_of lt') s1 = Ret (s2, ()) ∧ same_data s1 s2 ∧ root s2 = root s ∧
        becomes new s s2 (T l lt x rt) (T l lt' x rt).
Proof.
  intros (Hl & Hlt & Hrt) Hnd Htop Hne Hnew [R1 L1 F1 T1].
  pose proof Hnd as (N1 & N2 & N3 & N4 & N5)%NoDup_locs_T.
  assert (root s1 = root s) as Hroot.
  { rewrite T1. rewrite decide_False; [done|]. by destruct (root_top_left _ _ _ _ _ Hnd Htop). }
  assert (Hnl : l ∉ new) by (intros ?%Hnew; rewrite elem_of_locs_T in *; tauto).
  assert (l ∉ (locs lt')) by (rewrite L1; set_solver).
  erewrite set_left_ok by (rewrite F1 by done; exact Hl).
  eexists; split; [done|]. split; [done|]. split; [done|]. split; simpl.
  - rewrite lookup_insert_eq. split; [done|]. split; [by apply rep_insert_ne|].
    apply rep_insert_ne; [done|]. eapply rep_frame; [|exact Hrt].
    intros l' Hl'. apply F1; [naive_solver|]. intros ?%Hnew. rewrite elem_of_locs_T in *. tauto.
  - by rewrite L1, <- app_assoc.
  - intros l' Hl' Hn'. rewrite lookup_insert_ne by set_solver. apply F1; [set_solver|done].
  - rewrite Hroot. by destruct (decide (root s = Some l)) as [->|].
Qed.

Lemma root_top_right s l lt x rt :
  NoDup (locs (T l lt x rt)) → root_top s (T l lt x rt) → root s ≠ ptr_of rt ∨ root s = None.
Proof.
  intros Hnd Ht. destruct rt as [|c a y b]; simpl; [|left; intros Hr].
  - destruct (root s); [by left|by right].
  - assert (Some l = Some c) as [= ->] by (apply (Ht c Hr); rewrite !elem_of_locs_T; tauto).
    locs_solver.
Qed.

Lemma set_right_becomes new s s1 l lt x rt rt' :
  rep (nodes s) (T l lt x rt) → NoDup (locs (T l lt x rt)) → root_top s (T l lt x rt) →
  root s ≠ None → (∀ l', l' ∈ new → l' ∉ (locs (T l lt x rt))) →
  becomes new s s1 rt rt' →
  ∃ s2, set_right l (ptr_of rt') s1 = Ret (s2, ()) ∧ same_data s1 s2 ∧ root s2 = root s ∧
        becomes new s s2 (T l lt x rt) (T l lt x rt').
Proof.
  intros (Hl & Hlt & Hrt) Hnd Htop Hne Hnew [R1 L1 F1 T1].
  pose proof Hnd as (N1 & N2 & N3 & N4 & N5)%NoDup_locs_T.
  assert (root s1 = root s) as Hroot.
  { rewrite T1. rewrite decide_False; [done|]. by destruct (root_top_right _ _ _ _ _ Hnd Htop). }
  assert (Hnl : l ∉ new) by (intros ?%Hnew; rewrite elem_of_locs_T in *; tauto).
  assert (l ∉ (locs rt')) by (rewrite L1; set_solver).
  erewrite set_right_ok by (rewrite F1 by done; exact Hl).
  eexists; split; [done|]. split; [done|]. split; [done|]. split; simpl.
  - rewrite lookup_insert_eq. split; [done|]. split; [|by apply rep_insert_ne].
    apply rep_insert_ne; [done|]. eapply rep_frame; [|exact Hlt].
    intros l' Hl'. apply F1; [naive_solver|]. intros ?%Hnew. rewrite elem_of_locs_T in *. tauto.
  - rewrite L1, !(cons_middle l), !app_assoc. apply Permutation_app_tail.
    by rewrite (Permutation_app_comm _ new), <- !app_assoc.
  - intros l' Hl' Hn'. rewrite lookup_insert_ne by set_solver. apply F1; [set_solver|done].
  - rewrite Hroot. by destruct (decide (root s = Some l)) as [->|].
Qed.

(** ** Heights and balance *)

(** Stored heights.  A node inserted and not yet revisited has height -1, like no node;
    every other node is one higher than its higher child, and siblings differ by at most
    one. *)
Fixpoint balanced (t : tree) : Prop :=
  match t with
  | E => True
  | T _ lt x rt =>
      balanced lt ∧ balanced rt ∧ -1 ≤ ht rt - ht lt ≤ 1 ∧
      (i_height x = Z.max (ht lt) (ht rt) + 1 ∨ (lt = E ∧ rt = E ∧ i_height x = -1))
  end.

(** Far from the limits of [int16_t]. *)
Definition low (t : tree) : Prop := ht t ≤ 1000.

Lemma balanced_ht t : balanced t → -1 ≤ ht t.
Proof. induction t as [|l lt IHl x rt IHr]; simpl; [lia|]. intros (?%IHl & ?%IHr & ? & ?). lia. Qed.

Lemma i16_small z : - 2 ^ 15 ≤ z < 2 ^ 15 → i16 z = z.
Proof. intros H. apply sext_small; [lia|done]. Qed.

(** A subtree of height at least one has a node whose height was computed. *)
Lemma balanced_high t :
  balanced t → 1 ≤ ht t →
  ∃ l lt x rt, t = T l lt x rt ∧ balanced lt ∧ balanced rt ∧ -1 ≤ ht rt - ht lt ≤ 1 ∧
    ht t = Z.max (ht lt) (ht rt) + 1.
Proof.
  destruct t as [|l lt x rt]; simpl; [lia|]. intros (? & ? & ? & [?|(->&->&?)]) ?; [|lia].
  by exists l, lt, x, rt.
Qed.

Lemma balanced_nonneg t :
  balanced t → 0 ≤ ht t →
  ∃ l lt x rt, t = T l lt x rt ∧ balanced lt ∧ balanced rt ∧ -1 ≤ ht rt - ht lt ≤ 1 ∧
    ht t = Z.max (ht lt) (ht rt) + 1.
Proof.
  destruct t as [|l lt x rt]; simpl; [lia|]. intros (? & ? & ? & [?|(->&->&?)]) ?; [|lia].
  by exists l, lt, x, rt.
Qed.

(** What [rebalance] is applied to: balanced subtrees whose heights differ by at most two. *)
Record near (lt rt : tree) : Prop := {
  nr_left : balanced lt;
  nr_right : balanced rt;
  nr_diff : -2 ≤ ht rt - ht lt ≤ 2;
  nr_low_left : low lt;
  nr_low_right : low rt;
}.

Ltac heights :=
  repeat match goal with
  | H : balanced ?t |- _ => lazymatch goal with H' : -1 ≤ ht t |- _ => fail | _ => pose proof (balanced_ht t H) end
  end.

(** The cases of [reb]: no rotation, a single one or a double one. *)
Inductive reb_case (l : loc) (lt : tree) (x : info) (rt : tree) : Prop :=
| reb_none : -1 ≤ ht rt - ht lt ≤ 1 → reb l lt x rt = upd l lt x rt → reb_case l lt x rt
| reb_right c a y b :
    lt = T c a y b → ht lt = ht rt + 2 → factor lt ≤ 0 → ht b ≤ ht a → ht a = ht lt - 1 →
    reb l lt x rt = rotR (T l lt x rt) → reb_case l lt x rt
| reb_right2 c a y d e z f :
    lt = T c a y (T d e z f) → ht lt = ht rt + 2 → 0 < factor lt →
    ht (T d e z f) = ht lt - 1 → ht a = ht lt - 2 →
    reb l lt x rt = rotR (T l (rotL lt) x rt) → reb_case l lt x rt
| reb_left c a y b :
    rt = T c a y b → ht rt = ht lt + 2 → 0 ≤ factor rt → ht a ≤ ht b → ht b = ht rt - 1 →
    reb l lt x rt = rotL (T l lt x rt) → reb_case l lt x rt
| reb_left2 c a y d e z f :
    rt = T c (T d e z f) y a → ht rt = ht lt + 2 → factor rt < 0 →
    ht (T d e z f) = ht rt - 1 → ht a = ht rt - 2 →
    reb l lt x rt = rotL (T l lt x (rotR rt)) → reb_case l lt x rt.

Lemma reb_cases l lt x rt : near lt rt → reb_case l lt x rt.
Proof.
  intros [Bl Br Hd Ll Lr]. unfold low in *. heights.
  assert (reb l lt x rt = if ht rt - ht lt <? -1 then rotR (T l (if 0 <? factor lt then rotL lt else lt) x rt)
    else if 1 <? ht rt - ht lt then rotL (T l lt x (if factor rt <? 0 then rotR rt else rt))
    else upd l lt x rt) as Er.
  { unfold reb. by rewrite i16_small by lia. }
  destruct (Z.ltb_spec (ht rt - ht lt) (-1)).
  - destruct (balanced_high lt Bl ltac:(lia)) as (c & a & y & b & -> & Ba & Bb & Hab & Hc). heights.
    assert (factor (T c a y b) = ht b - ht a) as Ef by (simpl; apply i16_small; lia).
    destruct (Z.ltb_spec 0 (factor (T c a y b))).
    + destruct (balanced_nonneg b Bb ltac:(lia)) as (d & e & z & f & -> & _).
      eapply reb_right2; try done; lia.
    + eapply reb_right; try done; lia.
  - destruct (Z.ltb_spec 1 (ht rt - ht lt)).
    + destruct (balanced_high rt Br ltac:(lia)) as (c & a & y & b & -> & Ba & Bb & Hab & Hc). heights.
      assert (factor (T c a y b) = ht b - ht a) as Ef by (simpl; apply i16_small; lia).
      destruct (Z.ltb_spec (factor (T c a y b)) 0).
      * destruct (balanced_nonneg a Ba ltac:(lia)) as (d & e & z & f & -> & _).
        eapply reb_left2; try done; lia.
      * eapply reb_left; try done; lia.
    + by apply reb_none; [lia|].
Qed.

(** [rebalance] restores balance; the result is at most one higher than its children. *)
Lemma reb_balanced l lt x rt :
  near lt rt →
  balanced (reb l lt x rt) ∧
  Z.max (ht lt) (ht rt) ≤ ht (reb l lt x rt) ≤ Z.max (ht lt) (ht rt) + 1 ∧
  (-1 ≤ ht rt - ht lt ≤ 1 → ht (reb l lt x rt) = Z.max (ht lt) (ht rt) + 1).
Proof.
  intros N. pose proof N as [Bl Br Hd Ll Lr]. unfold low in *. heights.
  destruct (reb_cases l lt x rt N) as
    [Hd' ->|c a y b -> H1 H2 H3 H4 ->|c a y d e z f -> H1 H2 H3 H4 ->
    |c a y b -> H1 H2 H3 H4 ->|c a y d e z f -> H1 H2 H3 H4 ->];
    simpl in *; heights;
    repeat match goal with H : _ ∧ _ |- _ => destruct H end; heights;
    rewrite ?i16_small by lia; rewrite ?i16_small by lia;
    repeat match goal with |- _ ∧ _ => split end; try done; try lia; auto; try (left; lia).
Qed.

(** ** [rebalance] on the heap *)

Lemma rotR_with_height l c x h rt : rotR (T l c (with_height x h) rt) = match c with E => T l c (with_height x h) rt | _ => rotR (T l c x rt) end.
Proof. by destruct c. Qed.

Lemma root_top_same s s' t t' :
  root s' = root s → locs t' ≡ₚ locs t → ptr_of t' = ptr_of t → root_top s t → root_top s' t'.
Proof. unfold root_top. intros -> HL -> H l Hr. rewrite HL. by apply H. Qed.

Lemma get_factor_ok s l t : rep (nodes s) t → ptr_of t = Some l → getHeightFactor (Some l) s = Ret (s, factor t).
Proof. intros H <-. by apply getHeightFactor_ok. Qed.

Lemma fix_left_heavy_ok s l lt x rt :
  rep (nodes s) (T l lt x rt) → NoDup (locs (T l lt x rt)) → root_top s (T l lt x rt) →
  root s ≠ None → near lt rt → ht rt - ht lt < -1 →
  ∃ s' l', fix_left_heavy (ht rt - ht lt) l s = Ret (s', l') ∧ same_data s s' ∧
    ptr_of (reb l lt x rt) = Some l' ∧ becomes [] s s' (T l lt x rt) (reb l lt x rt).
Proof.
  intros R Hnd Htop Hne N Hh. unfold fix_left_heavy.
  destruct (Z.ltb_spec (ht rt - ht lt) (-1)); [|lia]. pose proof R as (Hl & Rl & Rr).
  erewrite stM_bind_Ret by (apply get_node_ok; exact Hl). simpl.
  erewrite stM_bind_Ret by (by apply getHeightFactor_ok).
  destruct (reb_cases l lt x rt N) as
    [?|c a y b -> ? Hf ? ? Er|c a y d e z f -> ? Hf ? ? Er|c a y b -> ? ? ? ? ?|c a y d e z f -> ? ? ? ? ?]; try lia.
  - destruct (Z.ltb_spec 0 (factor (T c a y b))); [lia|]. erewrite stM_bind_Ret by done.
    destruct (rotateRight_ok s l c a y b x rt R Hnd) as (s' & -> & D & B). rewrite Er. by exists s', c.
  - destruct (Z.ltb_spec 0 (factor (T c a y (T d e z f)))); [|lia]. simpl ptr_of. cbv iota.
    pose proof Hnd as (_ & _ & Hndl & _)%NoDup_locs_T.
    destruct (rotateLeft_ok s c a y d e z f Rl Hndl) as (s1 & E1 & D1 & B1).
    destruct (set_left_becomes [] s s1 l _ _ x rt R Hnd Htop Hne (λ l' H, False_ind _ (not_elem_of_nil _ H)) B1)
      as (s2 & E2 & D2 & T2 & B2).
    erewrite stM_bind_Ret by (erewrite stM_bind_Ret by exact E1; exact E2).
    edestruct (rotateRight_ok s2 l d) as (s3 & -> & D3 & B3).
    { exact (bc_rep _ _ _ _ _ B2). }
    { pose proof (bc_locs _ _ _ _ _ B2) as HP. rewrite <- HP in Hnd. exact Hnd. }
    rewrite Er. exists s3, d. split; [done|]. split.
    { destruct D1, D2, D3. split; congruence. }
    split; [done|]. exact (becomes_trans_nil _ _ _ _ _ _ _ _ _ _ _ _ Htop B2 B3).
Qed.

Lemma fix_right_heavy_ok s l lt x rt :
  rep (nodes s) (T l lt x rt) → NoDup (locs (T l lt x rt)) → root_top s (T l lt x rt) →
  root s ≠ None → near lt rt → 1 < ht rt - ht lt →
  ∃ s' l', fix_right_heavy (ht rt - ht lt) l s = Ret (s', l') ∧ same_data s s' ∧
    ptr_of (reb l lt x rt) = Some l' ∧ becomes [] s s' (T l lt x rt) (reb l lt x rt).
Proof.
  intros R Hnd Htop Hne N Hh. unfold fix_right_heavy.
  destruct (Z.ltb_spec 1 (ht rt - ht lt)); [|lia]. pose proof R as (Hl & Rl & Rr).
  erewrite stM_bind_Ret by (apply get_node_ok; exact Hl). simpl.
  erewrite stM_bind_Ret by (by apply getHeightFactor_ok).
  destruct (reb_cases l lt x rt N) as
    [?|c a y b -> ? ? ? ? ?|c a y d e z f -> ? ? ? ? ?|c a y b -> ? Hf ? ? Er|c a y d e z f -> ? Hf ? ? Er]; try lia.
  - destruct (Z.ltb_spec (factor (T c a y b)) 0); [lia|]. erewrite stM_bind_Ret by done.
    destruct (rotateLeft_ok s l lt x c a y b R Hnd) as (s' & -> & D & B). rewrite Er. by exists s', c.
  - destruct (Z.ltb_spec (factor (T c (T d e z f) y a)) 0); [|lia]. simpl ptr_of. cbv iota.
    pose proof Hnd as (_ & _ & _ & Hndr & _)%NoDup_locs_T.
    destruct (rotateRight_ok s c d e z f y a Rr Hndr) as (s1 & E1 & D1 & B1).
    destruct (set_right_becomes [] s s1 l lt x _ _ R Hnd Htop Hne (λ l' H, False_ind _ (not_elem_of_nil _ H)) B1)
      as (s2 & E2 & D2 & T2 & B2).
    erewrite stM_bind_Ret by (erewrite stM_bind_Ret by exact E1; exact E2).
    edestruct (rotateLeft_ok s2 l lt x d) as (s3 & -> & D3 & B3).
    { exact (bc_rep _ _ _ _ _ B2). }
    { pose proof (bc_locs _ _ _ _ _ B2) as HP. rewrite <- HP in Hnd. exact Hnd. }
    rewrite Er. exists s3, d. split; [done|]. split.
    { destruct D1, D2, D3. split; congruence. }
    split; [done|]. exact (becomes_trans_nil _ _ _ _ _ _ _ _ _ _ _ _ Htop B2 B3).
Qed.

Lemma near_heights lt rt : near lt rt → i16 (ht rt - ht lt) = ht rt - ht lt.
Proof. intros [? ? ? ? ?]. apply i16_small. lia. Qed.

Lemma reb_with_height l lt x h rt : near lt rt → reb l lt (with_height x h) rt = reb l lt x rt.
Proof.
  intros N. unfold reb. destruct (_ <? -1) eqn:E1; [|destruct (1 <? _) eqn:E2; [|done]].
  - destruct (if 0 <? factor lt then rotL lt else lt) eqn:El; [|done].
    exfalso. apply Z.ltb_lt in E1. rewrite near_heights in E1 by done.
    destruct N as [Bl Br ? ? ?]. heights.
    destruct (balanced_high lt Bl ltac:(lia)) as (c & a & y & b & -> & _).
    destruct (0 <? factor _); [|done]. by destruct b.
  - destruct (if factor rt <? 0 then rotR rt else rt) eqn:Er; [|done].
    exfalso. apply Z.ltb_lt in E2. rewrite near_heights in E2 by done.
    destruct N as [Bl Br ? ? ?]. heights.
    destruct (balanced_high rt Br ltac:(lia)) as (c & a & y & b & -> & _).
    destruct (factor _ <? 0); [|done]. by destruct a.
Qed.

Lemma rebalance_ok s l lt x rt :
  rep (nodes s) (T l lt x rt) → NoDup (locs (T l lt x rt)) → root_top s (T l lt x rt) →
  root s ≠ None → near lt rt →
  ∃ s' l', rebalance l s = Ret (s', l') ∧ same_data s s' ∧
    ptr_of (reb l lt x rt) = Some l' ∧ becomes [] s s' (T l lt x rt) (reb l lt x rt).
Proof.
  intros R Hnd Htop Hne N. unfold rebalance.
  destruct (updateHeight_becomes s l lt x rt R Hnd) as (s1 & E1 & D1 & T1 & B1).
  erewrite stM_bind_Ret by exact E1.
  erewrite stM_bind_Ret by (apply (get_factor_ok s1 l (upd l lt x rt)); [apply B1|done]).
  simpl factor. rewrite near_heights by done. unfold upd in B1.
  set (x1 := with_height x _) in *.
  assert (Htop1 : root_top s1 (T l lt x1 rt)) by (eapply root_top_same; [done|done|done|exact Htop]).
  assert (Hne1 : root s1 ≠ None) by congruence.
  pose proof (reb_with_height l lt x (i16 (Z.max (ht lt) (ht rt) + 1)) rt N) as Er. fold x1 in Er.
  destruct (decide (ht rt - ht lt < -1)).
  - destruct (fix_left_heavy_ok s1 l lt x1 rt (bc_rep _ _ _ _ _ B1) Hnd Htop1 Hne1 N)
      as (s2 & l2 & E2 & D2 & P2 & B2); [done|].
    erewrite stM_bind_Ret by exact E2. unfold fix_right_heavy.
    destruct (Z.ltb_spec 1 (ht rt - ht lt)); [lia|]. exists s2, l2. split; [done|].
    rewrite <- Er. split; [destruct D1, D2; split; congruence|]. split; [done|].
    exact (becomes_trans_nil _ _ _ _ _ _ _ _ _ _ _ _ Htop B1 B2).
  - unfold fix_left_heavy. destruct (Z.ltb_spec (ht rt - ht lt) (-1)); [lia|].
    erewrite stM_bind_Ret by done. destruct (decide (1 < ht rt - ht lt)).
    + destruct (fix_right_heavy_ok s1 l lt x1 rt (bc_rep _ _ _ _ _ B1) Hnd Htop1 Hne1 N)
        as (s2 & l2 & E2 & D2 & P2 & B2); [done|].
      rewrite E2. exists s2, l2. split; [done|].
      rewrite <- Er. split; [destruct D1, D2; split; congruence|]. split; [done|].
      exact (becomes_trans_nil _ _ _ _ _ _ _ _ _ _ _ _ Htop B1 B2).
    + unfold fix_right_heavy. destruct (Z.ltb_spec 1 (ht rt - ht lt)); [lia|].
      exists s1, l. split; [done|]. split; [done|].
      assert (reb l lt x rt = upd l lt x rt) as ->; [|done].
      destruct (reb_cases l lt x rt N); done || lia.
Qed.

(** ** Search order *)

(** The nodes in order, with the height left out. *)
Fixpoint inorder (t : tree) : list (loc * info) :=
  match t with E => [] | T l lt x rt => inorder lt ++ (l, with_height x 0) :: inorder rt end.

Definition hash_of (i : loc * info) : Z := i_hash i.2.
Definition hashes (t : tree) : list Z := hash_of <$> inorder t.
Definition sorted (t : tree) : Prop := StronglySorted Z.lt (hashes t).

(** The search of [AVLTree::get]. *)
Fixpoint find (k : Z) (t : tree) : option (loc * info) :=
  match t with
  | E => None
  | T l lt x rt =>
      if i_hash x =? k then Some (l, with_height x 0)
      else if k <? i_hash x then find k lt else find k rt
  end.

Lemma inorder_rotR t : inorder (rotR t) = inorder t.
Proof. destruct t as [|l [|c a y b] x d]; [done..|]. simpl. by rewrite <- app_assoc. Qed.

Lemma inorder_rotL t : inorder (rotL t) = inorder t.
Proof. destruct t as [|l a x [|c b y d]]; [done..|]. simpl. by rewrite <- app_assoc. Qed.

Lemma inorder_reb l lt x rt : inorder (reb l lt x rt) = inorder lt ++ (l, with_height x 0) :: inorder rt.
Proof.
  unfold reb. destruct (_ <? -1); [|destruct (1 <? _)]; [| |done].
  - rewrite inorder_rotR. simpl. destruct (0 <? _); [by rewrite inorder_rotL|done].
  - rewrite inorder_rotL. simpl. destruct (_ <? 0); [by rewrite inorder_rotR|done].
Qed.

Lemma locs_inorder t : locs t = fst <$> inorder t.
Proof.
  induction t as [|l lt IHl x rt IHr]; simpl; [done|]. by rewrite fmap_app, IHl, IHr.
Qed.

Lemma hashes_T l lt x rt : hashes (T l lt x rt) = hashes lt ++ i_hash x :: hashes rt.
Proof. unfold hashes. simpl. by rewrite fmap_app. Qed.

Lemma sorted_T l lt x rt :
  sorted (T l lt x rt) ↔
  sorted lt ∧ sorted rt ∧ Forall (λ k, k < i_hash x) (hashes lt) ∧ Forall (λ k, i_hash x < k) (hashes rt).
Proof.
  unfold sorted. rewrite hashes_T. induction (hashes lt) as [|k ks IH]; simpl.
  - split.
    + intros [? ?]%StronglySorted_inv. repeat split; try done; constructor.
    + intros (_ & ? & _ & ?). by constructor.
  - split.
    + intros [H1 H2]%StronglySorted_inv. apply Forall_app in H2 as [H2 H3].
      apply Forall_cons in H3 as [H3 H4]. apply IH in H1 as (? & ? & ? & ?).
      repeat split; try done; by constructor.
    + intros (H1 & H2 & H3 & H4). apply StronglySorted_inv in H1 as [H1 H5].
      apply Forall_cons in H3 as [H3 H6]. constructor; [by apply IH|].
      apply Forall_app. split; [done|]. constructor; [done|].
      eapply Forall_impl; [exact H4|]. simpl. lia.
Qed.

Lemma find_Some k t l x :
  sorted t → (find k t = Some (l, x) ↔ (l, x) ∈ inorder t ∧ i_hash x = k).
Proof.
  induction t as [|l' lt IHl x' rt IHr]; [set_solver|].
  intros (Sl & Sr & Hl & Hr)%sorted_T. specialize (IHl Sl). specialize (IHr Sr).
  rewrite Forall_forall in Hl, Hr.
  assert (∀ i, i ∈ inorder lt → hash_of i < i_hash x') as Hl' by (intros i Hi; apply Hl, list_elem_of_fmap; eauto).
  assert (∀ i, i ∈ inorder rt → i_hash x' < hash_of i) as Hr' by (intros i Hi; apply Hr, list_elem_of_fmap; eauto).
  simpl. rewrite elem_of_app, elem_of_cons. unfold hash_of in *.
  destruct (Z.eqb_spec (i_hash x') k) as [Hk|Hk].
  - split; [intros [= -> <-]; naive_solver|].
    intros [[Hi|[[= -> ->]|Hi]] Hh]; [apply Hl' in Hi; simpl in Hi; lia|done|apply Hr' in Hi; simpl in Hi; lia].
  - destruct (Z.ltb_spec k (i_hash x')).
    + rewrite IHl. split; [naive_solver|]. intros [[?|[[= -> ->]|Hi]] Hh]; [done| |apply Hr' in Hi]; simpl in *; lia.
    + rewrite IHr. split; [naive_solver|]. intros [[Hi|[[= -> ->]|?]] Hh]; [apply Hl' in Hi| |done]; simpl in *; lia.
Qed.

Lemma find_None k t : sorted t → (find k t = None ↔ k ∉ (hashes t)).
Proof.
  intros S. split.
  - intros HN ([l x] & -> & Hi)%list_elem_of_fmap. unfold hash_of in HN. simpl in HN.
    assert (find (i_hash x) t = Some (l, x)) by (by apply find_Some). congruence.
  - intros Hk. destruct (find k t) as [[l x]|] eqn:F; [|done]. apply find_Some in F as [Hi <-]; [|done].
    exfalso. apply Hk, list_elem_of_fmap. by exists (l, x).
Qed.

(** ** The insertion path *)

Lemma tins_present leaf accept h t :
  sorted t → h ∈ hashes t → inorder (tins leaf accept h t) = inorder t.
Proof.
  induction t as [|l lt IHl x rt IHr]; intros S Hh; [by apply elem_of_nil in Hh|].
  apply sorted_T in S as (Sl & Sr & Hl & Hr). rewrite Forall_forall in Hl, Hr.
  rewrite hashes_T, elem_of_app, elem_of_cons in Hh. simpl.
  destruct (Z.ltb_spec h (i_hash x)); [|destruct (Z.ltb_spec (i_hash x) h)].
  - rewrite inorder_reb, IHl; [done|done|]. destruct Hh as [?|[->|?%Hr]]; [done|lia..].
  - rewrite inorder_reb, IHr; [done|done|]. destruct Hh as [?%Hl|[->|?]]; [lia..|done].
  - destruct accept; [by rewrite inorder_reb|done].
Qed.

Lemma tins_absent leaf accept h t :
  sorted t → h ∉ (hashes t) →
  ∃ l1 l2, inorder t = l1 ++ l2 ∧ inorder (tins leaf accept h t) = l1 ++ inorder leaf ++ l2 ∧
    Forall (λ i, hash_of i < h) l1 ∧ Forall (λ i, h < hash_of i) l2.
Proof.
  induction t as [|l lt IHl x rt IHr]; intros S Hh.
  { exists [], []. simpl. by rewrite app_nil_r. }
  apply sorted_T in S as (Sl & Sr & Hl & Hr). unfold hashes in Hl, Hr. rewrite Forall_fmap in Hl, Hr.
  rewrite hashes_T, not_elem_of_app, not_elem_of_cons in Hh. destruct Hh as (Hhl & Hne & Hhr). simpl.
  destruct (Z.ltb_spec h (i_hash x)); [|destruct (Z.ltb_spec (i_hash x) h); [|lia]].
  - destruct (IHl Sl Hhl) as (l1 & l2 & E1 & E2 & H1 & H2).
    exists l1, (l2 ++ (l, with_height x 0) :: inorder rt).
    rewrite inorder_reb, E1, E2, <- !app_assoc. split; [done|]. split; [done|]. split; [done|].
    apply Forall_app. split; [done|]. constructor; [done|]. eapply Forall_impl; [exact Hr|]. simpl. lia.
  - destruct (IHr Sr Hhr) as (l1 & l2 & E1 & E2 & H1 & H2).
    exists (inorder lt ++ (l, with_height x 0) :: l1), l2.
    rewrite inorder_reb, E1, E2, <- !app_assoc. simpl. split; [done|]. split; [done|]. split; [|done].
    apply Forall_app. split; [eapply Forall_impl; [exact Hl|]; simpl; lia|]. by constructor.
Qed.

Lemma tins_balanced leaf accept h t :
  balanced leaf → ht leaf = -1 → balanced t → ht t < 1000 →
  balanced (tins leaf accept h t) ∧ ht t ≤ ht (tins leaf accept h t) ≤ ht t + 1.
Proof.
  intros Bleaf Hleaf. induction t as [|l lt IHl x rt IHr]; intros B Hlow.
  { simpl. rewrite Hleaf. split; [done|lia]. }
  pose proof B as (Bl & Br & Hd & Hx). simpl in Hlow, Hx. heights.
  assert (ht lt ≤ i_height x ∧ ht rt ≤ i_height x) as [??] by (destruct Hx as [?|(->&->&?)]; simpl in *; lia).
  destruct (IHl Bl ltac:(lia)) as [Bl' Hl']. destruct (IHr Br ltac:(lia)) as [Br' Hr'].
  simpl. destruct (h <? i_hash x); [|destruct (i_hash x <? h)].
  - destruct (reb_balanced l (tins leaf accept h lt) x rt) as (B' & Hb & He); [split; unfold low; try done; lia|].
    split; [done|]. destruct Hx as [?|(->&->&?)]; simpl in *; [|lia].
    destruct (decide (-1 ≤ ht rt - ht (tins leaf accept h lt) ≤ 1)); [rewrite He by done; lia|lia].
  - destruct (reb_balanced l lt x (tins leaf accept h rt)) as (B' & Hb & He); [split; unfold low; try done; lia|].
    split; [done|]. destruct Hx as [?|(->&->&?)]; simpl in *; [|lia].
    destruct (decide (-1 ≤ ht (tins leaf accept h rt) - ht lt ≤ 1)); [rewrite He by done; lia|lia].
  - destruct accept; [|simpl; lia || (split; [done|simpl; lia])].
    destruct (reb_balanced l lt x rt) as (B' & Hb & He); [split; unfold low; try done; lia|].
    split; [done|]. rewrite He by done. destruct Hx as [?|(->&->&?)]; simpl in *; lia.
Qed.

Fixpoint depth (t : tree) : nat :=
  match t with E => 0 | T _ lt _ rt => S (Nat.max (depth lt) (depth rt)) end.

Lemma depth_locs t : (depth t ≤ length (locs t))%nat.
Proof. induction t as [|l lt IHl x rt IHr]; simpl; [done|]. rewrite length_app. simpl. lia. Qed.

Lemma rep_dom h t : rep h t → locs t ⊆ elements (dom h).
Proof.
  induction t as [|l lt IHl x rt IHr]; simpl; [set_solver|]. intros (H & Hl%IHl & Hr%IHr).
  assert (l ∈ dom h) by (apply elem_of_dom; eauto). set_solver.
Qed.

(** The allocated nodes bound the depth of every stored tree. *)
Lemma rep_size h t : rep h t → NoDup (locs t) → (depth t ≤ size h)%nat.
Proof.
  intros R Hnd. pose proof (depth_locs t). rewrite <- (size_dom (D:=gset loc) h).
  assert (length (locs t) ≤ length (elements (dom h : gset loc)))%nat; [|unfold size, set_size; simpl; lia].
  apply NoDup_incl_length; [by apply NoDup_ListNoDup|].
  intros l Hl%list_elem_of_In. apply list_elem_of_In. by apply (rep_dom h t).
Qed.

(** Finishing a level after the recursive call: the parent is rewired to the new subtree
    (unless the call was rejected right below) and rebalanced. *)
Lemma descend_left new s s1 l lt lt' x rt inserted :
  rep (nodes s) (T l lt x rt) → NoDup (locs (T l lt x rt)) → root_top s (T l lt x rt) →
  root s ≠ None → (∀ l', l' ∈ new → l' ∉ (locs (T l lt x rt)) ∧ root s ≠ Some l') → NoDup new →
  becomes new s s1 lt lt' → near lt' rt →
  (inserted = ptr_of lt' ∧ lt' ≠ E) ∨ (inserted = None ∧ lt' = lt ∧ s1 = s ∧ new = []) →
  ∃ s2 s3 l', (match inserted with Some _ => set_left l inserted | None => mret () end) s1 = Ret (s2, ()) ∧
    rebalance l s2 = Ret (s3, l') ∧ same_data s1 s3 ∧ ptr_of (reb l lt' x rt) = Some l' ∧
    becomes new s s3 (T l lt x rt) (reb l lt' x rt).
Proof.
  intros R Hnd Htop Hne Hnew Hndn B N Hins.
  assert (∃ s2, (match inserted with Some _ => set_left l inserted | None => mret () end) s1 = Ret (s2, ()) ∧
    same_data s1 s2 ∧ root s2 = root s ∧ becomes new s s2 (T l lt x rt) (T l lt' x rt)) as (s2 & E2 & D2 & T2 & B2).
  { destruct Hins as [[-> Hlt']|(-> & -> & -> & ->)].
    - destruct lt' as [|c a y b]; [done|].
      apply (set_left_becomes new s s1 l lt (T c a y b) x rt); try done. intros l' Hl'. by apply Hnew.
    - exists s. split; [done|]. split; [done|]. split; [done|]. split; [done|done|done|].
      by destruct (decide (root s = ptr_of (T l lt x rt))) as [->|]. }
  assert (NoDup (locs (T l lt' x rt))) as Hnd2.
  { pose proof (bc_locs _ _ _ _ _ B2) as ->. apply NoDup_app. split; [done|]. split; [|done].
    intros l' Hl'. by apply Hnew. }
  destruct (rebalance_ok s2 l lt' x rt (bc_rep _ _ _ _ _ B2) Hnd2) as (s3 & l' & E3 & D3 & P3 & B3);
    [|by rewrite T2|done|].
  { intros l' Hr Hl'. rewrite T2 in Hr. pose proof (bc_locs _ _ _ _ _ B2) as HL.
    rewrite HL in Hl'. apply elem_of_app in Hl' as [Hl'|Hl']; [by apply Hnew in Hl' as [_ ?]|]. by apply Htop. }
  exists s2, s3, l'. split; [done|]. split; [done|]. split; [destruct D2, D3; split; congruence|].
  split; [done|]. refine (becomes_trans _ _ _ _ _ _ _ Htop _ _ _ B2 B3); [done|done|].
  intros r Hr Hn. by apply Hnew in Hn as [_ ?].
Qed.

Lemma descend_right new s s1 l lt x rt rt' inserted :
  rep (nodes s) (T l lt x rt) → NoDup (locs (T l lt x rt)) → root_top s (T l lt x rt) →
  root s ≠ None → (∀ l', l' ∈ new → l' ∉ (locs (T l lt x rt)) ∧ root s ≠ Some l') → NoDup new →
  becomes new s s1 rt rt' → near lt rt' →
  (inserted = ptr_of rt' ∧ rt' ≠ E) ∨ (inserted = None ∧ rt' = rt ∧ s1 = s ∧ new = []) →
  ∃ s2 s3 l', (match inserted with Some _ => set_right l inserted | None => mret () end) s1 = Ret (s2, ()) ∧
    rebalance l s2 = Ret (s3, l') ∧ same_data s1 s3 ∧ ptr_of (reb l lt x rt') = Some l' ∧
    becomes new s s3 (T l lt x rt) (reb l lt x rt').
Proof.
  intros R Hnd Htop Hne Hnew Hndn B N Hins.
  assert (∃ s2, (match inserted with Some _ => set_right l inserted | None => mret () end) s1 = Ret (s2, ()) ∧
    same_data s1 s2 ∧ root s2 = root s ∧ becomes new s s2 (T l lt x rt) (T l lt x rt')) as (s2 & E2 & D2 & T2 & B2).
  { destruct Hins as [[-> Hrt']|(-> & -> & -> & ->)].
    - destruct rt' as [|c a y b]; [done|].
      apply (set_right_becomes new s s1 l lt x rt (T c a y b)); try done. intros l' Hl'. by apply Hnew.
    - exists s. split; [done|]. split; [done|]. split; [done|]. split; [done|done|done|].
      by destruct (decide (root s = ptr_of (T l lt x rt))) as [->|]. }
  assert (NoDup (locs (T l lt x rt'))) as Hnd2.
  { pose proof (bc_locs _ _ _ _ _ B2) as ->. apply NoDup_app. split; [done|]. split; [|done].
    intros l' Hl'. by apply Hnew. }
  destruct (rebalance_ok s2 l lt x rt' (bc_rep _ _ _ _ _ B2) Hnd2) as (s3 & l' & E3 & D3 & P3 & B3);
    [|by rewrite T2|done|].
  { intros l' Hr Hl'. rewrite T2 in Hr. pose proof (bc_locs _ _ _ _ _ B2) as HL.
    rewrite HL in Hl'. apply elem_of_app in Hl' as [Hl'|Hl']; [by apply Hnew in Hl' as [_ ?]|]. by apply Htop. }
  exists s2, s3, l'. split; [done|]. split; [done|]. split; [destruct D2, D3; split; congruence|].
  split; [done|]. refine (becomes_trans _ _ _ _ _ _ _ Htop _ _ _ B2 B3); [done|done|].
  intros r Hr Hn. by apply Hnew in Hn as [_ ?].
Qed.
