(* ===== verification/AvlOps.v ===== *)
(** * Operations of the bucket tree

    The heap code of [Avl] against functional trees: lookup, insertion of data and of
    counters on every path (new key, accepted update, rejected update), in-order
    traversal, and removal.  [tree_ok] is the invariant of a bucket; [view] its meaning as
    a finite map from hashes to keys and values. *)

From Stdlib Require Import Sorting.Sorted.
From S2P Require Import Prelude.
From S2P Require Import Utils.
From S2P Require Import Clock.
From S2P Require Import Counters.
From S2P Require Import Avl.
From S2P Require Import AvlTrees.
Import Avl.

(** ** Effects on values and on the clock *)

(** The clock after [AVLTree::updateClock], and the value returned. *)
Definition clock_after (strategy : LamportClock.UpdateClockStrategy) (other : Z) (c : option Z) :
    option Z * Z :=
  match c with
  | None => (None, 0)
  | Some c => let '(c', r) := LamportClock.update strategy other c in (Some c', r)
  end.

(** The value a write stores, and the timestamp it reports. *)
Definition written (v : SimpleString.t) (ts : LamportClock.t) (n : Z) (fromNode : bool) : payload * Z :=
  if fromNode then (DataAVLNode v ts, LamportClock.counter ts)
  else (DataAVLNode v (LamportClock.mk n (LamportClock.nodeId ts)), n).

(** Timestamps are compared only for requests of other nodes that carry a clock update. *)
Definition ignores (strategy : LamportClock.UpdateClockStrategy) (fromNode : bool) : bool :=
  match strategy with LamportClock.NONE => true | _ => negb fromNode end.

Lemma updateClock_ok s strategy other :
  updateClock strategy other s
  = Ret (set_clock (clock_after strategy other (clock s)).1 s, (clock_after strategy other (clock s)).2).
Proof.
  unfold updateClock, clock_update, get_st, modify, mbind, stM_bind, mret, stM_ret, clock_after. simpl.
  destruct s as [ns ds r [c|]]; simpl; [|done]. by destruct (LamportClock.update strategy other c).
Qed.

Lemma clock_update_ok s strategy other c :
  clock s = Some c →
  clock_update strategy other s
  = Ret (set_clock (clock_after strategy other (clock s)).1 s, (clock_after strategy other (clock s)).2).
Proof.
  intros Hc. pose proof (updateClock_ok s strategy other) as H. unfold updateClock in H.
  unfold mbind, stM_bind, get_st in H. simpl in H. by rewrite Hc in *.
Qed.

Lemma stamp_ok s d v ts n fromNode :
  stamp d v ts n fromNode s
  = Ret (with_datas (insert d (written v ts n fromNode).1) s, (written v ts n fromNode).2).
Proof. unfold stamp. by destruct fromNode. Qed.

(** ** Lookup *)

Lemma get_loop_ok s k t fuel :
  rep (nodes s) t → (depth t < fuel)%nat → get_loop fuel k (ptr_of t) s = Ret (s, fst <$> find k t).
Proof.
  revert fuel. induction t as [|l lt IHl x rt IHr]; intros [|fuel] R Hf; simpl in Hf; try lia; [done|].
  destruct R as (H & Rl & Rr). simpl. erewrite stM_bind_Ret by (apply get_node_ok; exact H). simpl.
  destruct (i_hash x =? k); [done|]. destruct (k <? i_hash x); [apply IHl|apply IHr]; done || lia.
Qed.

Lemma get_ok s k t :
  rep (nodes s) t → NoDup (locs t) → root s = ptr_of t → get k s = Ret (s, fst <$> find k t).
Proof.
  intros R Hnd Hr. unfold get. erewrite stM_bind_Ret by done. rewrite Hr.
  apply get_loop_ok; [done|]. unfold fuel_of. pose proof (rep_size _ _ R Hnd). lia.
Qed.

(** ** Insertion *)

Lemma near_tins leaf accept h l lt x rt :
  balanced leaf → ht leaf = -1 → balanced (T l lt x rt) → ht (T l lt x rt) < 1000 →
  near (tins leaf accept h lt) rt ∧ near lt (tins leaf accept h rt) ∧ near lt rt ∧
  ht lt < 1000 ∧ ht rt < 1000 ∧ balanced lt ∧ balanced rt.
Proof.
  intros Bleaf Hleaf (Bl & Br & Hd & Hx) Hlow. simpl in *.
  pose proof (balanced_ht lt Bl). pose proof (balanced_ht rt Br).
  assert (ht lt < 1000 ∧ ht rt < 1000) as [??] by (destruct Hx as [?|(->&->&?)]; simpl in *; lia).
  destruct (tins_balanced leaf accept h lt Bleaf Hleaf Bl) as [Bl' Hl']; [done|].
  destruct (tins_balanced leaf accept h rt Bleaf Hleaf Br) as [Br' Hr']; [done|].
  split; [|split; [|split]]; [split; unfold low; try done; lia..|]. done.
Qed.

Lemma reb_nonempty l lt x rt l' : ptr_of (reb l lt x rt) = Some l' → reb l lt x rt ≠ E.
Proof. intros H HE. by rewrite HE in H. Qed.

Lemma find_locs k t l x : find k t = Some (l, x) → l ∈ locs t.
Proof.
  induction t as [|l' lt IHl x' rt IHr]; simpl; [done|].
  rewrite elem_of_app, elem_of_cons.
  destruct (i_hash x' =? k); [naive_solver|]. destruct (k <? i_hash x'); naive_solver.
Qed.

Section insert.
Context (new : loc) (xi : info) (h : Z) (v : SimpleString.t) (ts : LamportClock.t).
Context (strategy : LamportClock.UpdateClockStrategy) (fromNode : bool).
Hypothesis (Hxi_hash : i_hash xi = h) (Hxi_height : i_height xi = -1).

Definition leaf_of : tree := T new E xi E.

Lemma leaf_balanced : balanced leaf_of ∧ ht leaf_of = -1.
Proof. simpl. rewrite Hxi_height. repeat split; try lia. right. done. Qed.

(** The memory an insertion into the subtree [t] starts from. *)
Record insertable (s : state) (t : tree) (fuel : nat) : Prop := {
  in_fuel : (depth t < fuel)%nat;
  in_rep : rep (nodes s) t;
  in_nodup : NoDup (locs t);
  in_top : root_top s t;
  in_root : t ≠ E → root s ≠ None;
  in_new : new ∉ (locs t) ∧ root s ≠ Some new;
  in_node : nodes s !! new = Some (node_of xi None None);
  in_bal : balanced t;
  in_low : ht t < 1000;
}.

Lemma insertable_sub s l lt x rt fuel :
  insertable s (T l lt x rt) (S fuel) → insertable s lt fuel ∧ insertable s rt fuel.
Proof.
  intros [F (H & Rl & Rr) Hnd Htop Hr [Hn Hn'] Hx B Hlow]. simpl in F.
  assert (root s ≠ None) as Hne by (by apply Hr).
  pose proof Hnd as (N1 & N2 & N3 & N4 & N5)%NoDup_locs_T.
  destruct (near_tins leaf_of true h l lt x rt (proj1 leaf_balanced) (proj2 leaf_balanced) B Hlow)
    as (_ & _ & _ & ? & ? & ? & ?).
  rewrite elem_of_locs_T in Hn.
  split; (split; [lia|done|done| |done|split; [tauto|done]|done|done|done]);
    intros r Hr' Hin; exfalso;
    assert (Some l = Some r) as [= <-] by (apply (Htop r Hr'); rewrite elem_of_locs_T; tauto); tauto.
Qed.

Ltac enter I :=
  pose proof I as [F (Hl & Rl & Rr) Hnd Htop Hroot [Hnew Hnew'] Hx B Hlow];
  assert (root _ ≠ None) as Hne by (by apply Hroot);
  pose proof (insertable_sub _ _ _ _ _ _ I) as [Il Ir];
  pose proof (fun acc => near_tins leaf_of acc h _ _ _ _ (proj1 leaf_balanced) (proj2 leaf_balanced) B Hlow) as N;
  cbn [insertRecursiveData insertRecursiveCounter ptr_of];
  erewrite stM_bind_Ret by (apply get_node_ok; exact Hl);
  erewrite stM_bind_Ret by (apply get_node_ok; exact Hx);
  cbn [keyHash nodeType data left right node_of]; rewrite Hxi_hash.

(** A new hash: the node is linked in, its value stamped. *)
Lemma insert_absent fuel t s result ts0 :
  insertable s t fuel → find h t = None → datas s !! i_data xi = Some (DataAVLNode v ts0) →
  let '(c', n) := clock_after strategy (LamportClock.counter ts) (clock s) in
  let '(p, r) := written v ts n fromNode in
  ∃ s', insertRecursiveData fuel new result (ptr_of t) ts strategy fromNode s
          = Ret (s', (r, ptr_of (tins leaf_of true h t))) ∧
        becomes [new] s s' t (tins leaf_of true h t) ∧ tins leaf_of true h t ≠ E ∧
        datas s' = <[i_data xi:=p]> (datas s) ∧ clock s' = c'.
Proof.
  destruct (clock_after _ _ _) as [c' n] eqn:Ec. destruct (written _ _ _ _) as [p r] eqn:Ew.
  revert t. induction fuel as [|fuel IH]; intros t I Hfind Hd; [by pose proof (in_fuel _ _ _ I); lia|].
  destruct t as [|l lt x rt].
  - pose proof I as [_ _ _ _ _ [_ Hnew'] Hx _ _]. cbn [insertRecursiveData ptr_of].
    erewrite stM_bind_Ret by apply updateClock_ok. rewrite Ec. simpl.
    erewrite stM_bind_Ret by (apply get_node_ok; exact Hx). simpl.
    erewrite stM_bind_Ret by (unfold get_data; simpl; rewrite Hd; reflexivity). cbn iota.
    erewrite stM_bind_Ret by apply stamp_ok. rewrite Ew. cbn [fst snd].
    erewrite stM_bind_Ret by (unfold get_root; reflexivity). cbn [root with_datas set_clock].
    destruct (root s) as [r0|] eqn:Hr.
    + eexists; split; [done|]. split; [|done]. split; simpl; [done|done|done|]. by rewrite Hr.
    + eexists; split; [done|]. split; [|done]. split; simpl; [done|done|done|]. by rewrite Hr.
  - enter I. simpl in Hfind. destruct (Z.eqb_spec (i_hash x) h); [done|].
    destruct (Z.ltb_spec h (i_hash x)); [|destruct (Z.ltb_spec (i_hash x) h); [|lia]].
    + destruct (IH lt Il Hfind Hd) as (s1 & E1 & B1 & Hne1 & D1 & C1).
      erewrite stM_bind_Ret by exact E1. cbn iota beta.
      destruct (descend_left [new] s s1 l lt (tins leaf_of true h lt) x rt (ptr_of (tins leaf_of true h lt)) (in_rep _ _ _ I) Hnd Htop Hne) as
        (s2 & s3 & l' & E2 & E3 & [D3 C3] & P3 & B3);
        [by intros l' ->%list_elem_of_singleton|apply NoDup_singleton|exact B1|apply (N true)|by left|].
      erewrite stM_bind_Ret by exact E2. erewrite stM_bind_Ret by exact E3.
      simpl tins. destruct (Z.ltb_spec h (i_hash x)); [|lia].
      exists s3. rewrite P3. split; [done|]. split; [done|]. split; [by eapply reb_nonempty|]. split; congruence.
    + destruct (IH rt Ir Hfind Hd) as (s1 & E1 & B1 & Hne1 & D1 & C1).
      erewrite stM_bind_Ret by exact E1. cbn iota beta.
      destruct (descend_right [new] s s1 l lt x rt (tins leaf_of true h rt) (ptr_of (tins leaf_of true h rt)) (in_rep _ _ _ I) Hnd Htop Hne) as
        (s2 & s3 & l' & E2 & E3 & [D3 C3] & P3 & B3);
        [by intros l' ->%list_elem_of_singleton|apply NoDup_singleton|exact B1|apply (N true)|by left|].
      erewrite stM_bind_Ret by exact E2. erewrite stM_bind_Ret by exact E3.
      simpl tins. destruct (Z.ltb_spec h (i_hash x)); [lia|]. destruct (Z.ltb_spec (i_hash x) h); [|lia].
      exists s3. rewrite P3. split; [done|]. split; [done|]. split; [by eapply reb_nonempty|]. split; congruence.
Qed.
(** The hash is there and the update accepted: the stored value is replaced, and the path
    to it rebalanced. *)
Lemma insert_accepted fuel t s result l0 x0 ts0 v0 tl c :
  insertable s t fuel → find h t = Some (l0, x0) → i_type x0 = DATA →
  datas s !! i_data xi = Some (DataAVLNode v ts0) → datas s !! i_data x0 = Some (DataAVLNode v0 tl) →
  ignores strategy fromNode = true ∨ LamportClock.op_gt tl ts = false → clock s = Some c →
  let '(c', n) := clock_after strategy (LamportClock.counter ts) (clock s) in
  let '(p, r) := written v ts n fromNode in
  ∃ s', insertRecursiveData fuel new result (ptr_of t) ts strategy fromNode s
          = Ret (s', (r, ptr_of (tins leaf_of true h t))) ∧
        becomes [] s s' t (tins leaf_of true h t) ∧ tins leaf_of true h t ≠ E ∧
        datas s' = <[i_data x0:=p]> (datas s) ∧ clock s' = c'.
Proof.
  intros I0 Hfind0 Hty Hd Hd0 Hacc Hc.
  destruct (clock_after _ _ _) as [c' n] eqn:Ec. destruct (written _ _ _ _) as [p r] eqn:Ew.
  revert t I0 Hfind0. induction fuel as [|fuel IH]; intros t I Hfind; [by pose proof (in_fuel _ _ _ I); lia|].
  destruct t as [|l lt x rt]; [done|]. enter I. simpl in Hfind. simpl tins.
  destruct (Z.ltb_spec h (i_hash x)); [|destruct (Z.ltb_spec (i_hash x) h)];
    (destruct (Z.eqb_spec (i_hash x) h) as [Hh|Hh]; try lia).
  - destruct (IH lt Il Hfind) as (s1 & E1 & B1 & Hne1 & D1 & C1).
    erewrite stM_bind_Ret by exact E1. cbn iota beta.
    destruct (descend_left [] s s1 l lt (tins leaf_of true h lt) x rt (ptr_of (tins leaf_of true h lt))
      (in_rep _ _ _ I) Hnd Htop Hne) as (s2 & s3 & l' & E2 & E3 & [D3 C3] & P3 & B3);
      [set_solver|constructor|exact B1|apply (N true)|by left|].
    erewrite stM_bind_Ret by exact E2. erewrite stM_bind_Ret by exact E3.
    exists s3. rewrite P3. split; [done|]. split; [done|]. split; [by eapply reb_nonempty|]. split; congruence.
  - destruct (IH rt Ir Hfind) as (s1 & E1 & B1 & Hne1 & D1 & C1).
    erewrite stM_bind_Ret by exact E1. cbn iota beta.
    destruct (descend_right [] s s1 l lt x rt (tins leaf_of true h rt) (ptr_of (tins leaf_of true h rt))
      (in_rep _ _ _ I) Hnd Htop Hne) as (s2 & s3 & l' & E2 & E3 & [D3 C3] & P3 & B3);
      [set_solver|constructor|exact B1|apply (N true)|by left|].
    erewrite stM_bind_Ret by exact E2. erewrite stM_bind_Ret by exact E3.
    exists s3. rewrite P3. split; [done|]. split; [done|]. split; [by eapply reb_nonempty|]. split; congruence.
  - injection Hfind as <- <-. simpl in Hty, Hd0. rewrite decide_True by done.
    erewrite stM_bind_Ret by (unfold get_data; rewrite Hd; reflexivity). cbn iota.
    erewrite stM_bind_Ret by (unfold get_data; rewrite Hd0; reflexivity). cbn iota.
    assert (negb (ignores strategy fromNode) && LamportClock.op_gt tl ts = false) as Ha
      by (destruct Hacc as [->| ->]; [done|by rewrite andb_false_r]).
    unfold ignores in Ha. rewrite Ha. erewrite stM_bind_Ret by (by eapply clock_update_ok). rewrite Ec.
    erewrite stM_bind_Ret by apply stamp_ok. cbn [fst snd]. rewrite Ew. cbn [fst snd].
    destruct (rebalance_ok (with_datas (insert (i_data x) p) (set_clock c' s)) l lt x rt
      (in_rep _ _ _ I) Hnd Htop Hne) as (s3 & l' & E3 & [D3 C3] & P3 & [R3 L3 F3 T3]); [apply (N true)|].
    erewrite stM_bind_Ret by exact E3. exists s3. rewrite P3. split; [done|].
    split; [by split|]. split; [by eapply reb_nonempty|]. done.
Qed.

(** The hash is there and the update refused, because the node holds a counter or a newer
    value: no value changes; only the call on the node itself returns null. *)
Lemma insert_rejected fuel t s result l0 x0 ts0 v0 tl :
  insertable s t fuel → find h t = Some (l0, x0) →
  datas s !! i_data xi = Some (DataAVLNode v ts0) →
  i_type x0 ≠ DATA ∨ (datas s !! i_data x0 = Some (DataAVLNode v0 tl) ∧
                      ignores strategy fromNode = false ∧ LamportClock.op_gt tl ts = true) →
  ∃ s' q, insertRecursiveData fuel new result (ptr_of t) ts strategy fromNode s = Ret (s', (result, q)) ∧
        becomes [] s s' t (tins leaf_of false h t) ∧ same_data s s' ∧
        ((q = ptr_of (tins leaf_of false h t) ∧ tins leaf_of false h t ≠ E ∧ ptr_of t ≠ Some l0) ∨
         (q = None ∧ tins leaf_of false h t = t ∧ s' = s ∧ ptr_of t = Some l0)).
Proof.
  intros I0 Hfind0 Hd Hrej. revert t I0 Hfind0.
  induction fuel as [|fuel IH]; intros t I Hfind; [by pose proof (in_fuel _ _ _ I); lia|].
  destruct t as [|l lt x rt]; [done|]. enter I. pose proof Hfind as Hfind'. simpl in Hfind. simpl tins.
  destruct (Z.ltb_spec h (i_hash x)); [|destruct (Z.ltb_spec (i_hash x) h)];
    (destruct (Z.eqb_spec (i_hash x) h) as [Hh|Hh]; try lia).
  - destruct (IH lt Il Hfind) as (s1 & q & E1 & B1 & [D1 C1] & Hq).
    erewrite stM_bind_Ret by exact E1. cbn iota beta.
    destruct (descend_left [] s s1 l lt (tins leaf_of false h lt) x rt q (in_rep _ _ _ I) Hnd Htop Hne)
      as (s2 & s3 & l' & E2 & E3 & [D3 C3] & P3 & B3);
      [set_solver|constructor|exact B1|apply (N false)|naive_solver|].
    erewrite stM_bind_Ret by exact E2. erewrite stM_bind_Ret by exact E3.
    exists s3, (Some l'). split; [done|]. split; [done|]. split; [split; congruence|]. left.
    split; [done|]. split; [by eapply reb_nonempty|]. intros [= <-].
    apply find_locs in Hfind. apply NoDup_locs_T in Hnd. tauto.
  - destruct (IH rt Ir Hfind) as (s1 & q & E1 & B1 & [D1 C1] & Hq).
    erewrite stM_bind_Ret by exact E1. cbn iota beta.
    destruct (descend_right [] s s1 l lt x rt (tins leaf_of false h rt) q (in_rep _ _ _ I) Hnd Htop Hne)
      as (s2 & s3 & l' & E2 & E3 & [D3 C3] & P3 & B3);
      [set_solver|constructor|exact B1|apply (N false)|naive_solver|].
    erewrite stM_bind_Ret by exact E2. erewrite stM_bind_Ret by exact E3.
    exists s3, (Some l'). split; [done|]. split; [done|]. split; [split; congruence|]. left.
    split; [done|]. split; [by eapply reb_nonempty|]. intros [= <-].
    apply find_locs in Hfind. apply NoDup_locs_T in Hnd. tauto.
  - injection Hfind as <- <-. simpl in Hrej. exists s, None.
    split; [|split; [split; [apply I|done|done|by destruct (decide (root s = ptr_of _)) as [->|]]|];
             split; [done|by right]].
    destruct Hrej as [Hty|(Hd0 & Hig & Hgt)]; [by rewrite decide_False|].
    destruct (decide (i_type x = DATA)); [|done].
    erewrite stM_bind_Ret by (unfold get_data; rewrite Hd; reflexivity). cbn iota.
    erewrite stM_bind_Ret by (unfold get_data; rewrite Hd0; reflexivity). cbn iota.
    unfold ignores in Hig. by rewrite Hig, Hgt.
Qed.

(** A counter with a new hash. *)
Lemma insertCounter_absent fuel t s :
  insertable s t fuel → find h t = None →
  ∃ s', insertRecursiveCounter fuel new (ptr_of t) s = Ret (s', ptr_of (tins leaf_of true h t)) ∧
        becomes [new] s s' t (tins leaf_of true h t) ∧ tins leaf_of true h t ≠ E ∧ same_data s s'.
Proof.
  revert t. induction fuel as [|fuel IH]; intros t I Hfind; [by pose proof (in_fuel _ _ _ I); lia|].
  destruct t as [|l lt x rt].
  - pose proof I as [_ _ _ _ _ [_ Hnew'] Hx _ _]. cbn [insertRecursiveCounter ptr_of].
    erewrite stM_bind_Ret by (unfold get_root; reflexivity). destruct (root s) as [r0|] eqn:Hr.
    + eexists; split; [done|]. split; [|done]. split; simpl; [done|done|done|]. by rewrite Hr.
    + eexists; split; [done|]. split; [|done]. split; simpl; [done|done|done|]. by rewrite Hr.
  - enter I. simpl in Hfind. simpl tins. destruct (Z.eqb_spec (i_hash x) h); [done|].
    destruct (Z.ltb_spec h (i_hash x)); [|destruct (Z.ltb_spec (i_hash x) h); [|lia]].
    + destruct (IH lt Il Hfind) as (s1 & E1 & B1 & Hne1 & D1 & C1).
      erewrite stM_bind_Ret by exact E1. cbn iota beta.
      destruct (descend_left [new] s s1 l lt (tins leaf_of true h lt) x rt (ptr_of (tins leaf_of true h lt))
        (in_rep _ _ _ I) Hnd Htop Hne) as (s2 & s3 & l' & E2 & E3 & [D3 C3] & P3 & B3);
        [by intros l' ->%list_elem_of_singleton|apply NoDup_singleton|exact B1|apply (N true)|by left|].
      erewrite stM_bind_Ret by exact E2. erewrite stM_bind_Ret by exact E3.
      exists s3. rewrite P3. split; [done|]. split; [done|]. split; [by eapply reb_nonempty|]. split; congruence.
    + destruct (IH rt Ir Hfind) as (s1 & E1 & B1 & Hne1 & D1 & C1).
      erewrite stM_bind_Ret by exact E1. cbn iota beta.
      destruct (descend_right [new] s s1 l lt x rt (tins leaf_of true h rt) (ptr_of (tins leaf_of true h rt))
        (in_rep _ _ _ I) Hnd Htop Hne) as (s2 & s3 & l' & E2 & E3 & [D3 C3] & P3 & B3);
        [by intros l' ->%list_elem_of_singleton|apply NoDup_singleton|exact B1|apply (N true)|by left|].
      erewrite stM_bind_Ret by exact E2. erewrite stM_bind_Ret by exact E3.
      exists s3. rewrite P3. split; [done|]. split; [done|]. split; [by eapply reb_nonempty|]. split; congruence.
Qed.

End insert.

(** ** Height bounds *)

(** A balanced tree of stored height [h] has at least [2 ^ ((h + 1) / 2) - 1] nodes. *)
Lemma balanced_nodes t :
  balanced t → 2 ^ (ht t + 1) ≤ (Z.of_nat (length (locs t)) + 1) ^ 2.
Proof.
  induction t as [|l lt IHl x rt IHr]; [simpl; lia|].
  intros (Bl & Br & Hd & Hx). specialize (IHl Bl). specialize (IHr Br).
  pose proof (balanced_ht lt Bl). pose proof (balanced_ht rt Br).
  simpl locs. rewrite length_app. simpl length. simpl ht.
  replace (Z.of_nat (length (locs lt) + S (length (locs rt))) + 1)
    with ((Z.of_nat (length (locs lt)) + 1) + (Z.of_nat (length (locs rt)) + 1)) by lia.
  set (a := Z.of_nat (length (locs lt)) + 1) in *. set (b := Z.of_nat (length (locs rt)) + 1) in *.
  assert (1 ≤ a ∧ 1 ≤ b) as [Ha Hb] by lia.
  destruct Hx as [Hx|(->&->&Hx)]; [|rewrite Hx; simpl; nia]. rewrite Hx, Z.pow_2_r in *.
  destruct (Z.le_gt_cases (ht lt) (ht rt)) as [Hle|Hgt].
  - rewrite Z.max_r by lia. replace (ht rt + 1 + 1) with (Z.succ (ht rt + 1)) by lia.
    rewrite Z.pow_succ_r by lia. destruct (decide (ht lt = ht rt)) as [Heq|Hne].
    + rewrite Heq in IHl. nia.
    + replace (ht rt + 1) with (Z.succ (ht lt + 1)) in * by lia. rewrite Z.pow_succ_r in * by lia. nia.
  - rewrite Z.max_l by lia. replace (ht lt + 1 + 1) with (Z.succ (ht lt + 1)) by lia.
    rewrite Z.pow_succ_r by lia. replace (ht lt + 1) with (Z.succ (ht rt + 1)) in * by lia.
    rewrite Z.pow_succ_r in * by lia. nia.
Qed.

Lemma depth_height t : balanced t → Z.of_nat (depth t) ≤ ht t + 2.
Proof.
  induction t as [|l lt IHl x rt IHr]; simpl; [lia|]. intros (Bl & Br & Hd & Hx).
  specialize (IHl Bl). specialize (IHr Br). destruct Hx as [->|(->&->&->)]; simpl in *; lia.
Qed.

Lemma sorted_NoDup t : sorted t → NoDup (hashes t).
Proof.
  unfold sorted. generalize (hashes t). induction l as [|k l IH]; intros H; [constructor|].
  apply StronglySorted_inv in H as [H1 H2]. apply NoDup_cons. split; [|auto].
  intros Hk. rewrite Forall_forall in H2. apply H2 in Hk. lia.
Qed.

Lemma hashes_bound t : sorted t → Forall (ufits 32) (hashes t) → Z.of_nat (length (locs t)) ≤ 2 ^ 32.
Proof.
  intros S%sorted_NoDup F. rewrite locs_inorder, length_fmap, <- (length_fmap hash_of). fold (hashes t).
  assert (length (hashes t) ≤ length (seqZ 0 (2 ^ 32)))%nat as H; [|rewrite length_seqZ in H; lia].
  apply submseteq_length, NoDup_submseteq; [done|]. intros k Hk.
  rewrite Forall_forall in F. apply F in Hk. apply elem_of_seqZ. unfold ufits in Hk. lia.
Qed.

Lemma height_bound t : balanced t → sorted t → Forall (ufits 32) (hashes t) → ht t < 66.
Proof.
  intros B S F. pose proof (balanced_nodes t B) as H1. pose proof (hashes_bound t S F) as H2.
  pose proof (balanced_ht t B). destruct (Z.lt_ge_cases (ht t) 66) as [|Hge]; [done|]. exfalso.
  assert (2 ^ 67 ≤ 2 ^ (ht t + 1)) by (apply Z.pow_le_mono_r; lia).
  assert ((Z.of_nat (length (locs t)) + 1) ^ 2 ≤ (2 ^ 32 + 1) ^ 2) by (apply Z.pow_le_mono_l; lia).
  assert ((2 ^ 32 + 1) ^ 2 < 2 ^ 67) by (vm_compute; reflexivity). lia.
Qed.

(** ** The bucket invariant and its meaning *)

Definition data_locs (t : tree) : list loc := (λ i, i_data i.2) <$> inorder t.

(** The value of a node has the kind its type says. *)
Definition typed (ds : gmap loc payload) (x : info) : Prop :=
  match i_type x with
  | DATA => ∃ v ts, ds !! i_data x = Some (DataAVLNode v ts)
  | COUNTER => ∃ c, ds !! i_data x = Some (CounterAVLNode c)
  end.

Record tree_ok (s : state) (t : tree) : Prop := {
  ok_rep : rep (nodes s) t;
  ok_nodup : NoDup (locs t);
  ok_root : root s = ptr_of t;
  ok_sorted : sorted t;
  ok_balanced : balanced t;
  ok_hashes : Forall (ufits 32) (hashes t);
  ok_typed : Forall (λ i, typed (datas s) i.2) (inorder t);
  ok_data : NoDup (data_locs t);
}.

(** The bucket as a finite map from hashes to the key stored and its value. *)
Definition view (s : state) (t : tree) (k : Z) : option (SimpleString.t * payload) :=
  match find k t with
  | Some (_, x) => (λ p, (i_key x, p)) <$> datas s !! i_data x
  | None => None
  end.

Lemma find_same t t' k :
  sorted t → sorted t' → (∀ i, hash_of i = k → (i ∈ inorder t ↔ i ∈ inorder t')) → find k t' = find k t.
Proof.
  intros S S' H. destruct (find k t) as [[l x]|] eqn:F.
  - apply find_Some in F as [Hi Hk]; [|done]. apply find_Some; [done|]. split; [|done].
    by apply (H (l, x)).
  - apply find_None; [done|]. apply find_None in F; [|done]. intros ([l x] & Hk & Hi)%list_elem_of_fmap.
    apply F, list_elem_of_fmap. exists (l, x). split; [done|]. by apply (H (l, x)).
Qed.

Lemma sorted_middle (l1 l2 : list (loc * info)) i h :
  hash_of i = h → StronglySorted Z.lt (hash_of <$> l1 ++ l2) →
  Forall (λ i, hash_of i < h) l1 → Forall (λ i, h < hash_of i) l2 →
  StronglySorted Z.lt (hash_of <$> l1 ++ i :: l2).
Proof.
  intros <-. induction l1 as [|j l1 IH]; simpl; intros S F1 F2.
  - constructor; [done|]. by apply Forall_fmap.
  - apply StronglySorted_inv in S as [S Hj]. apply Forall_cons in F1 as [Hj1 F1]. constructor; [auto|].
    rewrite Forall_fmap, Forall_app in *. destruct Hj. split; [done|]. by constructor.
Qed.

(** Everything stays true of the other hashes when one value changes. *)
Lemma view_other s s' t t' k d p :
  sorted t → sorted t' → (∀ i, hash_of i = k → (i ∈ inorder t ↔ i ∈ inorder t')) →
  datas s' = <[d:=p]> (datas s) → (∀ i, i ∈ inorder t → hash_of i = k → i_data i.2 ≠ d) →
  view s' t' k = view s t k.
Proof.
  intros S S' H Ed Hd. unfold view. rewrite (find_same t t' k S S' H).
  destruct (find k t) as [[l x]|] eqn:F; [|done]. apply find_Some in F as [Hi Hk]; [|done].
  rewrite Ed, lookup_insert_ne; [done|]. apply not_eq_sym. by apply (Hd (l, x)).
Qed.

Lemma data_locs_inj t i j :
  NoDup (data_locs t) → i ∈ inorder t → j ∈ inorder t → i_data i.2 = i_data j.2 → i = j.
Proof.
  unfold data_locs. generalize (inorder t). induction l as [|a l IH]; intros N Hi Hj E; [by apply elem_of_nil in Hi|].
  simpl in N. apply NoDup_cons in N as [Ha N].
  apply elem_of_cons in Hi as [->|Hi]; apply elem_of_cons in Hj as [->|Hj]; [done| | |by apply IH].
  - exfalso. apply Ha. rewrite E. apply list_elem_of_fmap. by exists j.
  - exfalso. apply Ha. rewrite <- E. apply list_elem_of_fmap. by exists i.
Qed.

(** ** Allocation and the invariant after an insertion *)

Definition new_info (s : state) (k : SimpleString.t) (h : Z) (ty : NodeType) : info :=
  mk_info k (fresh (dom (datas s))) h (-1) ty.
Definition new_loc (s : state) : loc := fresh (dom (nodes s)).
Definition allocated (s : state) (k : SimpleString.t) (h : Z) (ty : NodeType) (p : payload) : state :=
  with_nodes (insert (new_loc s) (node_of (new_info s k h ty) None None))
    (with_datas (insert (fresh (dom (datas s))) p) s).

Lemma new_AVLNode_ok s k h ty p : new_AVLNode k h ty p s = Ret (allocated s k h ty p, new_loc s).
Proof. done. Qed.

Lemma new_loc_fresh s t : rep (nodes s) t → new_loc s ∉ (locs t).
Proof.
  intros R Hl. apply (rep_dom _ _ R) in Hl. apply elem_of_elements in Hl. unfold new_loc in Hl. by apply is_fresh in Hl.
Qed.

Lemma typed_dom ds x : typed ds x → i_data x ∈ dom ds.
Proof. unfold typed. intros H. apply elem_of_dom. destruct (i_type x); naive_solver. Qed.

Lemma data_fresh s t i : tree_ok s t → i ∈ inorder t → i_data i.2 ≠ fresh (dom (datas s)).
Proof.
  intros O Hi Heq. pose proof (ok_typed _ _ O) as F. rewrite Forall_forall in F.
  apply F, typed_dom in Hi. rewrite Heq in Hi. by apply is_fresh in Hi.
Qed.

Lemma typed_insert ds d p x : i_data x ≠ d → typed ds x → typed (<[d:=p]> ds) x.
Proof. unfold typed. intros H. by rewrite lookup_insert_ne. Qed.

Lemma tree_ok_allocated s t k h ty p : tree_ok s t → tree_ok (allocated s k h ty p) t.
Proof.
  intros O. pose proof O as [R N Rt S B F Ty D]. split; try done; simpl.
  - apply rep_insert_ne; [by apply new_loc_fresh|done].
  - apply Forall_forall. intros i Hi. apply typed_insert; [by apply (data_fresh s t)|].
    by apply (proj1 (Forall_forall _ _) Ty).
Qed.

Lemma view_allocated s t k h ty p k' : tree_ok s t → view (allocated s k h ty p) t k' = view s t k'.
Proof.
  intros O. eapply (view_other s _ t t k'); [apply O|apply O|done|done|].
  intros i Hi _. by apply (data_fresh s t).
Qed.

Lemma insertable_allocated s t k h ty p :
  tree_ok s t →
  insertable (new_loc s) (new_info s k h ty) (allocated s k h ty p) t (fuel_of (allocated s k h ty p)).
Proof.
  intros O. pose proof (tree_ok_allocated s t k h ty p O) as O'. pose proof O' as [R N Rt S B F Ty D].
  split; try done.
  - unfold fuel_of. pose proof (rep_size _ _ R N). lia.
  - intros l Hr _. by rewrite <- Rt.
  - intros HE Hr. rewrite Hr in Rt. by destruct t.
  - split; [by apply new_loc_fresh, O|]. simpl. rewrite (ok_root _ _ O). intros Hr.
    pose proof (new_loc_fresh s t (ok_rep _ _ O)) as Hf. destruct t as [|l lt x rt]; [done|].
    injection Hr as Hr. apply Hf. rewrite elem_of_locs_T. auto.
  - simpl. by rewrite lookup_insert_eq.
  - pose proof (height_bound t B S F). lia.
Qed.

(** A bucket after a node with a fresh hash was linked in. *)
Lemma tree_ok_absent s s' t new xi h :
  tree_ok s t → ufits 32 h → i_hash xi = h → i_height xi = -1 → find h t = None →
  becomes [new] s s' t (tins (leaf_of new xi) true h t) → new ∉ (locs t) →
  i_data xi ∉ (data_locs t) → Forall (λ i, typed (datas s') i.2) (inorder t) → typed (datas s') xi →
  tree_ok s' (tins (leaf_of new xi) true h t) ∧
  (∀ i, i ∈ inorder (tins (leaf_of new xi) true h t) ↔ i ∈ inorder t ∨ i = (new, with_height xi 0)).
Proof.
  intros O Hh Hxh Hxi Hf B Hn Hd Hty Hty'. apply find_None in Hf; [|apply O].
  destruct (tins_absent (leaf_of new xi) true h t (ok_sorted _ _ O) Hf) as (l1 & l2 & E1 & E2 & H1 & H2).
  simpl in E2.
  assert (∀ i, i ∈ inorder (tins (leaf_of new xi) true h t) ↔ i ∈ inorder t ∨ i = (new, with_height xi 0)) as Hin.
  { intros i. rewrite E1, E2. set_solver. }
  split; [|done]. destruct B as [R L Fr Rt]. split.
  - done.
  - rewrite L. apply NoDup_app. split; [apply NoDup_singleton|]. split; [set_solver|apply O].
  - rewrite Rt, decide_True by apply O. done.
  - unfold sorted, hashes. rewrite E2. apply (sorted_middle l1 l2 (new, with_height xi 0) h); [done| |done|done].
    rewrite <- E1. apply O.
  - apply tins_balanced; [by apply (leaf_balanced new xi)|done|apply O|].
    pose proof (height_bound t (ok_balanced _ _ O) (ok_sorted _ _ O) (ok_hashes _ _ O)). lia.
  - unfold hashes. rewrite E2. pose proof (ok_hashes _ _ O) as F. unfold hashes in F. rewrite E1 in F.
    rewrite Forall_fmap, Forall_app in *. destruct F. split; [done|]. constructor; [unfold hash_of; simpl; by rewrite Hxh|done].
  - rewrite E2. rewrite E1, Forall_app in Hty. destruct Hty. apply Forall_app. split; [done|]. by constructor.
  - unfold data_locs. rewrite E2. pose proof (ok_data _ _ O) as N. unfold data_locs in *.
    rewrite E1, fmap_app in *. simpl. rewrite <- Permutation_middle. apply NoDup_cons. done.
Qed.

(** A bucket after its nodes were only rearranged. *)
Lemma tree_ok_present s s' t leaf accept h :
  tree_ok s t → balanced leaf → ht leaf = -1 → h ∈ hashes t →
  becomes [] s s' t (tins leaf accept h t) → Forall (λ i, typed (datas s') i.2) (inorder t) →
  tree_ok s' (tins leaf accept h t) ∧ inorder (tins leaf accept h t) = inorder t.
Proof.
  intros O Bl Hl Hh [R L Fr Rt] Hty.
  pose proof (tins_present leaf accept h t (ok_sorted _ _ O) Hh) as E2. split; [|done]. split.
  - done.
  - rewrite L. apply O.
  - rewrite Rt, decide_True by apply O. done.
  - unfold sorted, hashes. rewrite E2. apply O.
  - apply tins_balanced; [done|done|apply O|].
    pose proof (height_bound t (ok_balanced _ _ O) (ok_sorted _ _ O) (ok_hashes _ _ O)). lia.
  - unfold hashes. rewrite E2. apply O.
  - by rewrite E2.
  - unfold data_locs. rewrite E2. apply O.
Qed.

(** ** Memory outside the bucket *)

(** From [s] to [s'] the bucket went from [t] to [t']: allocated memory that is not the
    bucket's is untouched, and what the bucket gained was not allocated before. *)
Record framed (s s' : state) (t t' : tree) : Prop := {
  fr_nodes : ∀ l n, nodes s !! l = Some n → l ∉ (locs t) → nodes s' !! l = Some n;
  fr_datas : ∀ d p, datas s !! d = Some p → d ∉ (data_locs t) → datas s' !! d = Some p;
  fr_locs : ∀ l, l ∈ locs t' → l ∈ locs t ∨ nodes s !! l = None;
  fr_data_locs : ∀ d, d ∈ data_locs t' → d ∈ data_locs t ∨ datas s !! d = None;
}.

Lemma new_loc_None s : nodes s !! new_loc s = None.
Proof. apply not_elem_of_dom. unfold new_loc. apply is_fresh. Qed.

Lemma new_data_None s k h ty : datas s !! i_data (new_info s k h ty) = None.
Proof. simpl. apply not_elem_of_dom. apply is_fresh. Qed.

Lemma framed_absent s s' t k h ty p q :
  tree_ok s t →
  becomes [new_loc s] (allocated s k h ty p) s' t (tins (leaf_of (new_loc s) (new_info s k h ty)) true h t) →
  (∀ i, i ∈ inorder (tins (leaf_of (new_loc s) (new_info s k h ty)) true h t) ↔
        i ∈ inorder t ∨ i = (new_loc s, with_height (new_info s k h ty) 0)) →
  datas s' = <[i_data (new_info s k h ty):=q]> (datas (allocated s k h ty p)) →
  framed s s' t (tins (leaf_of (new_loc s) (new_info s k h ty)) true h t).
Proof.
  intros O [R L Fr Rt] Hin D. pose proof (new_loc_None s) as Nl. pose proof (new_data_None s k h ty) as Nd.
  split.
  - intros l n Hl Hn. assert (l ≠ new_loc s) by congruence. rewrite Fr by set_solver. simpl.
    by rewrite lookup_insert_ne.
  - intros d p' Hd Hn. assert (d ≠ i_data (new_info s k h ty)) by congruence. rewrite D. simpl.
    by rewrite !lookup_insert_ne.
  - intros l Hl. rewrite L in Hl. apply elem_of_app in Hl as [->%list_elem_of_singleton|?]; auto.
  - intros d (i & -> & [?| ->]%Hin)%list_elem_of_fmap; [left; apply list_elem_of_fmap; eauto|by right].
Qed.

Lemma framed_present s s' t t' k h ty p :
  tree_ok s t → becomes [] (allocated s k h ty p) s' t t' → inorder t' = inorder t →
  (∀ d, d ∉ (data_locs t) → datas s' !! d = datas (allocated s k h ty p) !! d) → framed s s' t t'.
Proof.
  intros O [R L Fr Rt] Hin D. pose proof (new_loc_None s) as Nl. pose proof (new_data_None s k h ty) as Nd.
  split.
  - intros l n Hl Hn. assert (l ≠ new_loc s) by congruence. rewrite Fr by set_solver. simpl.
    by rewrite lookup_insert_ne.
  - intros d p' Hd Hn. rewrite D by done. simpl. rewrite lookup_insert_ne; [done|]. simpl in Nd. congruence.
  - intros l Hl. rewrite L in Hl. auto.
  - intros d. unfold data_locs. rewrite Hin. auto.
Qed.

(** ** [addData] against the map *)

(** Whether [h] is the hash of the root node. *)
Definition at_root (t : tree) (h : Z) : bool :=
  match t with E => false | T _ _ x _ => i_hash x =? h end.

(** An update of the value [p] is refused. *)
Definition refused (p : payload) (ts : LamportClock.t) (strategy : LamportClock.UpdateClockStrategy)
    (fromNode : bool) : bool :=
  match p with
  | DataAVLNode _ tl => negb (ignores strategy fromNode) && LamportClock.op_gt tl ts
  | CounterAVLNode _ => true
  end.

Lemma addData_run s k h v ts strategy fromNode s' res q :
  insertRecursiveData (fuel_of (allocated s k h DATA (DataAVLNode v (LamportClock.mk 0 0)))) (new_loc s) 0
    (root s) ts strategy fromNode (allocated s k h DATA (DataAVLNode v (LamportClock.mk 0 0)))
    = Ret (s', (res, q)) →
  addData k h v ts strategy fromNode s = Ret (s', match q with Some _ => Some res | None => None end).
Proof.
  intros H. unfold addData. erewrite stM_bind_Ret by apply new_AVLNode_ok.
  erewrite stM_bind_Ret by done. by erewrite stM_bind_Ret by exact H.
Qed.

Lemma view_of_find s t h l x p :
  find h t = Some (l, x) → datas s !! i_data x = Some p → view s t h = Some (i_key x, p).
Proof. intros Hf Hp. unfold view. by rewrite Hf, Hp. Qed.

Lemma at_root_find t h l x :
  sorted t → NoDup (locs t) → find h t = Some (l, x) → at_root t h = bool_decide (ptr_of t = Some l).
Proof.
  intros S N F. destruct t as [|l' lt x' rt]; [done|]. simpl in *.
  destruct (Z.eqb_spec (i_hash x') h) as [Hh|Hh].
  - injection F as <- <-. by rewrite bool_decide_true.
  - rewrite bool_decide_false; [done|]. intros [= <-]. apply (NoDup_locs_T _ _ x') in N as (N1 & N2 & _).
    destruct (h <? i_hash x'); apply find_locs in F; tauto.
Qed.

(** Inserting a hash that is not there. *)
Lemma addData_absent s t k h v ts strategy fromNode :
  tree_ok s t → ufits 32 h → view s t h = None →
  let '(c', n) := clock_after strategy (LamportClock.counter ts) (clock s) in
  let '(p, r) := written v ts n fromNode in
  ∃ s' t', addData k h v ts strategy fromNode s = Ret (s', Some r) ∧ tree_ok s' t' ∧
    (∀ k', k' ≠ h → view s' t' k' = view s t k') ∧ view s' t' h = Some (k, p) ∧ clock s' = c' ∧
    framed s s' t t'.
Proof.
  intros O Hh Hv. set (p0 := DataAVLNode v (LamportClock.mk 0 0)).
  pose proof (tree_ok_allocated s t k h DATA p0 O) as O0.
  pose proof (insertable_allocated s t k h DATA p0 O) as I0.
  set (s0 := allocated s k h DATA p0) in *. set (xi := new_info s k h DATA) in *.
  assert (find h t = None) as Hf.
  { unfold view in Hv. destruct (find h t) as [[l x]|] eqn:F; [|done]. exfalso.
    apply find_Some in F as [Hi _]; [|apply O]. pose proof (ok_typed _ _ O) as Ty.
    rewrite Forall_forall in Ty. apply Ty, typed_dom, elem_of_dom in Hi as [p Hp]. simpl in Hp.
    by rewrite Hp in Hv. }
  assert (Hd0 : datas s0 !! i_data xi = Some p0) by (simpl; by rewrite lookup_insert_eq).
  pose proof (insert_absent (new_loc s) xi h v ts strategy fromNode eq_refl eq_refl _ t s0 0
    (LamportClock.mk 0 0) I0 Hf Hd0) as H.
  change (clock s0) with (clock s) in H.
  destruct (clock_after _ _ _) as [c' n]. destruct (written _ _ _ _) as [p r] eqn:Ew.
  destruct H as (s' & E1 & B & Hne & D & C).
  assert (∃ v' ts', p = DataAVLNode v' ts') as (v' & ts' & Ep).
  { unfold written in Ew. destruct fromNode; injection Ew as <- <-; eauto. }
  destruct (tree_ok_absent s0 s' t (new_loc s) xi h O0 Hh eq_refl eq_refl Hf B) as [O' Hin].
  { by apply new_loc_fresh, O. }
  { intros (i & Hi & Hii)%list_elem_of_fmap. by apply (data_fresh s t i O Hii). }
  { apply Forall_forall. intros i Hi. rewrite D. apply typed_insert; [by apply (data_fresh s t)|].
    by apply (proj1 (Forall_forall _ _) (ok_typed _ _ O0)). }
  { unfold typed. simpl. rewrite D, lookup_insert_eq, Ep. eauto. }
  set (t' := tins (leaf_of (new_loc s) xi) true h t) in *. exists s', t'.
  split; [|split; [done|split; [|split; [|split; [done|]]]]].
  - erewrite addData_run by (rewrite (ok_root _ _ O); exact E1).
    fold t'. by destruct (ptr_of t') eqn:Ep'; [|destruct t'].
  - intros k' Hk'. rewrite <- (view_allocated s t k h DATA p0 k' O).
    apply (view_other s0 s' t t' k' (i_data xi) p); [apply O|apply O'| |done|].
    + intros i Hi. rewrite Hin. split; [by left|]. intros [?| ->]; [done|]. by unfold hash_of in Hi.
    + intros i Hi _. by apply (data_fresh s t).
  - apply (view_of_find s' t' h (new_loc s) (with_height xi 0)).
    + apply find_Some; [apply O'|]. rewrite Hin. split; [by right|done].
    + by rewrite D, lookup_insert_eq.
  - exact (framed_absent s s' t k h DATA p0 p O B Hin D).
Qed.

(** A stored value, as the search sees it. *)
Lemma view_Some s t h key0 p :
  tree_ok s t → view s t h = Some (key0, p) →
  ∃ l x, find h t = Some (l, x) ∧ i_key x = key0 ∧ datas s !! i_data x = Some p ∧
    (l, x) ∈ inorder t ∧ h ∈ hashes t ∧
    i_type x = match p with DataAVLNode _ _ => DATA | CounterAVLNode _ => COUNTER end.
Proof.
  intros O Hv. unfold view in Hv. destruct (find h t) as [[l x]|] eqn:F; [|done].
  destruct (datas s !! i_data x) as [p'|] eqn:Hd; [|done]. injection Hv as <- <-.
  pose proof F as [Hi Hh]%find_Some; [|apply O]. exists l, x. do 4 (split; [done|]). split.
  - apply list_elem_of_fmap. by exists (l, x).
  - pose proof (ok_typed _ _ O) as Ty. rewrite Forall_forall in Ty. apply Ty in Hi. unfold typed in Hi.
    simpl in Hi. destruct (i_type x); [destruct Hi as (? & ? & Hi)|destruct Hi as (? & Hi)];
      rewrite Hi in Hd; by injection Hd as <-.
Qed.

(** Replacing the value of a hash that is there. *)
Lemma addData_accepted s t k h v ts strategy fromNode key0 p0 c :
  tree_ok s t → clock s = Some c → view s t h = Some (key0, p0) → refused p0 ts strategy fromNode = false →
  let '(c', n) := clock_after strategy (LamportClock.counter ts) (clock s) in
  let '(p, r) := written v ts n fromNode in
  ∃ s' t', addData k h v ts strategy fromNode s = Ret (s', Some r) ∧ tree_ok s' t' ∧
    (∀ k', k' ≠ h → view s' t' k' = view s t k') ∧ view s' t' h = Some (key0, p) ∧ clock s' = c' ∧
    framed s s' t t'.
Proof.
  intros O Hc Hv Hacc. set (q0 := DataAVLNode v (LamportClock.mk 0 0)).
  rewrite <- (view_allocated s t k h DATA q0 h O) in Hv.
  pose proof (tree_ok_allocated s t k h DATA q0 O) as O0.
  pose proof (insertable_allocated s t k h DATA q0 O) as I0.
  set (s0 := allocated s k h DATA q0) in *. set (xi := new_info s k h DATA) in *.
  destruct (view_Some _ _ _ _ _ O0 Hv) as (l & x & Hf & Hk & Hd & Hi & Hh & Hty).
  destruct p0 as [v0 tl|]; [|done]. unfold refused in Hacc. apply andb_false_iff in Hacc.
  assert (Hd0 : datas s0 !! i_data xi = Some q0) by (simpl; by rewrite lookup_insert_eq).
  pose proof (insert_accepted (new_loc s) xi h v ts strategy fromNode eq_refl eq_refl _ t s0 0 l x
    (LamportClock.mk 0 0) v0 tl c I0 Hf Hty Hd0 Hd) as H.
  change (clock s0) with (clock s) in H. specialize (H ltac:(rewrite negb_false_iff in Hacc; tauto) Hc).
  destruct (clock_after _ _ _) as [c' n]. destruct (written _ _ _ _) as [p r] eqn:Ew.
  destruct H as (s' & E1 & B & Hne & D & C).
  assert (∃ v' ts', p = DataAVLNode v' ts') as (v' & ts' & Ep).
  { unfold written in Ew. destruct fromNode; injection Ew as <- <-; eauto. }
  destruct (leaf_balanced (new_loc s) xi eq_refl) as [Bl Hl].
  destruct (tree_ok_present s0 s' t (leaf_of (new_loc s) xi) true h O0 Bl Hl Hh B) as [O' Hin].
  { apply Forall_forall. intros i Hi'. rewrite D. destruct (decide (i_data i.2 = i_data x)) as [Heq|Hne'].
    - assert (i = (l, x)) as -> by (by apply (data_locs_inj t); [apply O|..]).
      unfold typed. simpl. rewrite Hty, lookup_insert_eq, Ep. eauto.
    - apply typed_insert; [done|]. by apply (proj1 (Forall_forall _ _) (ok_typed _ _ O0)). }
  set (t' := tins (leaf_of (new_loc s) xi) true h t) in *. exists s', t'.
  split; [|split; [done|split; [|split; [|split; [done|]]]]].
  - erewrite addData_run by (rewrite (ok_root _ _ O); exact E1).
    fold t'. by destruct (ptr_of t') eqn:Ep'; [|destruct t'].
  - intros k' Hk'. rewrite <- (view_allocated s t k h DATA q0 k' O).
    apply (view_other s0 s' t t' k' (i_data x) p); [apply O|apply O'|by rewrite Hin|done|].
    intros i Hi' Hik Heq. assert (i = (l, x)) as -> by (by apply (data_locs_inj t); [apply O|..]).
    apply Hk'. rewrite <- Hik. apply find_Some in Hf; [|apply O]. by destruct Hf.
  - rewrite <- Hk. apply (view_of_find s' t' h l).
    + rewrite (find_same t t' h); [done|apply O|apply O'|by rewrite Hin].
    + by rewrite D, lookup_insert_eq.
  - apply (framed_present s s' t t' k h DATA q0 O B Hin). intros d Hd'. rewrite D.
    rewrite lookup_insert_ne; [done|]. intros <-. apply Hd'. apply list_elem_of_fmap. by exists (l, x).
Qed.

(** A refused update: only a refusal at the root is reported. *)
Lemma addData_refused s t k h v ts strategy fromNode key0 p0 :
  tree_ok s t → view s t h = Some (key0, p0) → refused p0 ts strategy fromNode = true →
  ∃ s' t', addData k h v ts strategy fromNode s
             = Ret (s', if at_root t h then None else Some 0) ∧ tree_ok s' t' ∧
    (∀ k', view s' t' k' = view s t k') ∧ clock s' = clock s ∧ framed s s' t t'.
Proof.
  intros O Hv Href. set (q0 := DataAVLNode v (LamportClock.mk 0 0)).
  rewrite <- (view_allocated s t k h DATA q0 h O) in Hv.
  pose proof (tree_ok_allocated s t k h DATA q0 O) as O0.
  pose proof (insertable_allocated s t k h DATA q0 O) as I0.
  set (s0 := allocated s k h DATA q0) in *. set (xi := new_info s k h DATA) in *.
  destruct (view_Some _ _ _ _ _ O0 Hv) as (l & x & Hf & Hk & Hd & Hi & Hh & Hty).
  assert (Hd0 : datas s0 !! i_data xi = Some q0) by (simpl; by rewrite lookup_insert_eq).
  destruct (insert_rejected (new_loc s) xi h v ts strategy fromNode eq_refl eq_refl _ t s0 0 l x
    (LamportClock.mk 0 0) (match p0 with DataAVLNode v0 _ => v0 | _ => v end)
    (match p0 with DataAVLNode _ tl => tl | _ => ts end) I0 Hf Hd0) as (s' & q & E1 & B & [D C] & Hq).
  { destruct p0 as [v0 tl|c0]; [right|left; by rewrite Hty]. unfold refused in Href.
    apply andb_true_iff in Href as [Hi1 Hi2]. apply negb_true_iff in Hi1. done. }
  destruct (leaf_balanced (new_loc s) xi eq_refl) as [Bl Hl].
  destruct (tree_ok_present s0 s' t (leaf_of (new_loc s) xi) false h O0 Bl Hl Hh B) as [O' Hin].
  { rewrite D. apply O0. }
  set (t' := tins (leaf_of (new_loc s) xi) false h t) in *. exists s', t'.
  split; [|split; [done|split; [|split; [done|]]]].
  - erewrite addData_run by (rewrite (ok_root _ _ O); exact E1).
    rewrite (at_root_find t h l x (ok_sorted _ _ O) (ok_nodup _ _ O) Hf).
    destruct Hq as [(-> & Hne & Hp)|(-> & _ & _ & Hp)].
    + rewrite bool_decide_false by done. by destruct (ptr_of t') eqn:Ep'; [|destruct t'].
    + by rewrite bool_decide_true.
  - intros k'. rewrite <- (view_allocated s t k h DATA q0 k' O). unfold view.
    rewrite D, (find_same t t' k'); [done|apply O|apply O'|by rewrite Hin].
  - apply (framed_present s s' t t' k h DATA q0 O B Hin). intros d _. by rewrite D.
Qed.

(** ** [addCounter] *)

Lemma addCounter_absent s t k h selfNodeId nNodes :
  tree_ok s t → ufits 32 h → view s t h = None →
  ∃ s' t', addCounter k h selfNodeId nNodes s = Ret (s', true) ∧ tree_ok s' t' ∧
    (∀ k', k' ≠ h → view s' t' k' = view s t k') ∧
    view s' t' h = Some (k, CounterAVLNode (Counter.make selfNodeId nNodes)) ∧ clock s' = clock s ∧
    framed s s' t t'.
Proof.
  intros O Hh Hv. set (p0 := CounterAVLNode (Counter.make selfNodeId nNodes)).
  pose proof (tree_ok_allocated s t k h COUNTER p0 O) as O0.
  pose proof (insertable_allocated s t k h COUNTER p0 O) as I0.
  set (s0 := allocated s k h COUNTER p0) in *. set (xi := new_info s k h COUNTER) in *.
  assert (find h t = None) as Hf.
  { unfold view in Hv. destruct (find h t) as [[l x]|] eqn:F; [|done]. exfalso.
    apply find_Some in F as [Hi _]; [|apply O]. pose proof (ok_typed _ _ O) as Ty.
    rewrite Forall_forall in Ty. apply Ty, typed_dom, elem_of_dom in Hi as [p Hp]. simpl in Hp.
    by rewrite Hp in Hv. }
  assert (Hd0 : datas s0 !! i_data xi = Some p0) by (simpl; by rewrite lookup_insert_eq).
  destruct (insertCounter_absent (new_loc s) xi h eq_refl eq_refl _ t s0 I0 Hf) as (s' & E1 & B & Hne & D & C).
  destruct (tree_ok_absent s0 s' t (new_loc s) xi h O0 Hh eq_refl eq_refl Hf B) as [O' Hin].
  { by apply new_loc_fresh, O. }
  { intros (i & Hi & Hii)%list_elem_of_fmap. by apply (data_fresh s t i O Hii). }
  { rewrite D. apply O0. }
  { unfold typed. rewrite D, Hd0. simpl. unfold p0. eauto. }
  set (t' := tins (leaf_of (new_loc s) xi) true h t) in *. exists s', t'.
  split; [|split; [done|split; [|split; [|split; [done|]]]]].
  - unfold addCounter. erewrite stM_bind_Ret by apply new_AVLNode_ok. erewrite stM_bind_Ret by done.
    erewrite stM_bind_Ret by (simpl root; rewrite (ok_root _ _ O); exact E1).
    fold t'. destruct (ptr_of t') eqn:Ep'; [|by destruct t']. by rewrite bool_decide_true by eauto.
  - intros k' Hk'. rewrite <- (view_allocated s t k h COUNTER p0 k' O).
    apply (view_other s0 s' t t' k' (i_data xi) p0); [apply O|apply O'| | |].
    + intros i Hi. rewrite Hin. split; [by left|]. intros [?| ->]; [done|]. by unfold hash_of in Hi.
    + rewrite D. symmetry. by apply insert_id.
    + intros i Hi _. by apply (data_fresh s t).
  - apply (view_of_find s' t' h (new_loc s) (with_height xi 0)).
    + apply find_Some; [apply O'|]. rewrite Hin. split; [by right|done].
    + by rewrite D.
  - apply (framed_absent s s' t k h COUNTER p0 p0 O B Hin). rewrite D. symmetry. by apply insert_id.
Qed.

(** ** In-order traversal *)

Definition entry_of_item (i : loc * info) : MapEntry :=
  mk_entry (i_key i.2) (i_hash i.2) (i_type i.2) (i_data i.2).

Lemma getOrderedByHashRecursive_ok s t fuel acc l lt x rt :
  t = T l lt x rt → rep (nodes s) t → (depth t < fuel)%nat →
  getOrderedByHashRecursive fuel l acc s = Ret (s, acc ++ (entry_of_item <$> inorder t)).
Proof.
  revert fuel acc l lt x rt. induction t as [|l lt IHl x rt IHr]; [done|].
  intros [|fuel] acc l' lt' x' rt' [= <- <- <- <-] (H & Rl & Rr) Hf; simpl in Hf; [lia|].
  cbn [getOrderedByHashRecursive]. erewrite stM_bind_Ret by (apply get_node_ok; exact H).
  assert ((match ptr_of lt with Some l => getOrderedByHashRecursive fuel l acc | None => mret acc end) s
    = Ret (s, acc ++ (entry_of_item <$> inorder lt))) as El.
  { destruct lt as [|a b c d]; simpl; [by rewrite app_nil_r|]. by apply (IHl fuel acc a b c d); [|done|lia]. }
  simpl left. erewrite stM_bind_Ret by exact El. simpl right. simpl inorder. rewrite fmap_app.
  destruct rt as [|a b c d]; simpl ptr_of; cbv iota beta zeta.
  - simpl. by rewrite <- app_assoc.
  - cbn [right node_of ptr_of]. rewrite (IHr fuel _ a b c d); [|done|done|lia].
    rewrite fmap_cons, <- !app_assoc. done.
Qed.

(** ** Removal past the root *)

(** The nodes reached from the top by going left. *)
Fixpoint spine (t : tree) : list (loc * Z) :=
  match t with E => [] | T l lt x _ => (l, i_hash x) :: spine lt end.

(** A chain of nodes whose two child pointers are the same. *)
Fixpoint doubled (h : gmap loc AVLNode) (p : ptr) (chain : list (loc * Z)) : Prop :=
  match chain with
  | [] => p = None
  | (l, k) :: chain =>
      p = Some l ∧ ∃ n, h !! l = Some n ∧ keyHash n = k ∧ left n = right n ∧ doubled h (left n) chain
  end.

Lemma spine_locs t : (spine t).*1 ⊆ locs t.
Proof. induction t as [|l lt IHl x rt IHr]; simpl; set_solver. Qed.

Lemma spine_hashes t : (spine t).*2 ⊆ hashes t.
Proof.
  induction t as [|l lt IHl x rt IHr]; [done|]. rewrite hashes_T. simpl. set_solver.
Qed.

Lemma spine_NoDup t : NoDup (locs t) → NoDup (spine t).*1.
Proof.
  induction t as [|l lt IHl x rt IHr]; simpl; [constructor|]. intros Hnd.
  apply (NoDup_locs_T l lt x rt) in Hnd as (N1 & N2 & N3 & N4 & N5). apply NoDup_cons. split; [|auto].
  intros ?%spine_locs. done.
Qed.

Lemma doubled_frame h h' p chain :
  (∀ l, l ∈ chain.*1 → h' !! l = h !! l) → doubled h p chain → doubled h' p chain.
Proof.
  revert p. induction chain as [|[l k] chain IH]; intros p Hf; simpl; [done|].
  intros (-> & n & Hn & Hk & Hlr & Hd). split; [done|]. exists n. rewrite Hf by set_solver.
  do 3 (split; [done|]). apply IH; [set_solver|done].
Qed.

(** [rebalance] leaves a node with equal children in place. *)
Lemma rebalance_equal_children s l n :
  nodes s !! l = Some n → left n = right n → (∀ c, left n = Some c → c ≠ l ∧ is_Some (nodes s !! c)) →
  ∃ s' n', rebalance l s = Ret (s', l) ∧ nodes s' = <[l:=n']> (nodes s) ∧ root s' = root s ∧
    keyHash n' = keyHash n ∧ left n' = left n ∧ right n' = right n.
Proof.
  intros Hn Hlr Hc.
  assert (∃ z, ∀ s', (∀ c, c ≠ l → nodes s' !! c = nodes s !! c) →
    getHeight (left n) s' = Ret (s', z) ∧ getHeight (right n) s' = Ret (s', z)) as (z & Hz).
  { rewrite <- Hlr. destruct (left n) as [c|]; [|by exists (-1)].
    destruct (Hc c eq_refl) as [Hcl [nc Hnc]]. exists (height nc). intros s' Hs'.
    assert (getHeight (Some c) s' = Ret (s', height nc)); [|done].
    simpl. by erewrite stM_bind_Ret by (apply get_node_ok; rewrite Hs' by done; exact Hnc). }
  set (n' := mk_node (key n) (left n) (right n) (data n) (keyHash n) (i16 (Z.max z z + 1)) (nodeType n)).
  assert (updateHeight l s = Ret (with_nodes (insert l n') s, ())) as E1.
  { unfold updateHeight. erewrite stM_bind_Ret by (by apply get_node_ok).
    erewrite stM_bind_Ret by (by apply Hz). erewrite stM_bind_Ret by (by apply Hz).
    unfold set_height. erewrite stM_bind_Ret by (by apply get_node_ok). by erewrite set_node_ok. }
  exists (with_nodes (insert l n') s), n'. split; [|done]. unfold rebalance.
  erewrite stM_bind_Ret by exact E1. set (s1 := with_nodes (insert l n') s).
  assert (∀ c, c ≠ l → nodes s1 !! c = nodes s !! c) as Hs1
    by (intros c Hcl; simpl; by rewrite lookup_insert_ne).
  erewrite stM_bind_Ret; cycle 1.
  { simpl getHeightFactor. erewrite stM_bind_Ret by (apply get_node_ok; simpl; apply lookup_insert_eq).
    erewrite stM_bind_Ret by (by apply Hz). erewrite stM_bind_Ret by (by apply Hz). reflexivity. }
  rewrite Z.sub_diag. change (i16 0) with 0. by erewrite stM_bind_Ret by done.
Qed.

(** Looking for a hash above every hash of a subtree walks down its left spine and copies
    each left pointer over the right one. *)
Lemma removeRecursiveData_above fuel s t k result ts strategy removed check :
  rep (nodes s) t → NoDup (locs t) → (depth t < fuel)%nat → Forall (λ k', k' < k) (spine t).*2 →
  ∃ s', removeRecursiveData fuel (ptr_of t) result k ts strategy removed check s
          = Ret (s', (result, removed, ptr_of t)) ∧
        doubled (nodes s') (ptr_of t) (spine t) ∧ root s' = root s ∧
        dom (nodes s') = dom (nodes s) ∧ (∀ l, l ∉ (locs t) → nodes s' !! l = nodes s !! l).
Proof.
  revert fuel s. induction t as [|l lt IHl x rt _]; intros [|fuel] s R Hnd Hf Hk; simpl in Hf; try lia.
  { exists s. by cbn. }
  destruct R as (H & Rl & Rr). pose proof Hnd as (N1 & N2 & N3 & N4 & N5)%NoDup_locs_T.
  simpl in Hk. rewrite Forall_cons in Hk. destruct Hk as (Hkx & Hkl).
  cbn [removeRecursiveData ptr_of]. erewrite stM_bind_Ret by (apply get_node_ok; exact H).
  cbn [keyHash left right node_of]. destruct (Z.ltb_spec k (i_hash x)); [lia|].
  destruct (Z.ltb_spec (i_hash x) k); [|lia].
  destruct (IHl fuel s Rl N3 ltac:(lia) Hkl) as (s1 & E1 & D1 & T1 & Dm1 & F1).
  erewrite stM_bind_Ret by exact E1. cbn iota beta.
  erewrite stM_bind_Ret by (eapply set_right_ok; rewrite F1 by done; exact H).
  set (s2 := with_nodes _ s1).
  destruct (rebalance_equal_children s2 l (node_of x (ptr_of lt) (ptr_of lt)))
    as (s3 & n' & E3 & M3 & T3 & K3 & L3 & R3); [by simpl; rewrite lookup_insert_eq|done| |].
  { simpl. intros c Hc. destruct lt as [|c' a y b]; [done|]. injection Hc as <-.
    assert (c' ≠ l) as Hcl by (intros ->; apply N1; rewrite elem_of_locs_T; auto).
    split; [done|]. rewrite lookup_insert_ne by done. destruct D1 as (_ & n & Hn & _). eauto. }
  erewrite stM_bind_Ret by exact E3. exists s3. split; [done|].
  assert (l ∉ (spine lt).*1) as Hls by (intros ?%spine_locs; done).
  split; [|split; [|split]].
  - split; [done|]. exists n'. rewrite M3, lookup_insert_eq. split; [done|]. split; [done|].
    split; [by rewrite L3, R3|]. rewrite L3. simpl. eapply doubled_frame; [|exact D1].
    intros l' Hl'. simpl. rewrite !lookup_insert_ne; [done|..]; by intros ->.
  - by rewrite T3.
  - rewrite M3. simpl. assert (l ∈ dom (nodes s1)) as Hl1 by (rewrite Dm1; apply elem_of_dom; eauto).
    rewrite !dom_insert_L, Dm1 in *. set_solver.
  - intros l' Hl'. rewrite elem_of_locs_T in Hl'. rewrite M3. simpl.
    rewrite !lookup_insert_ne by naive_solver. apply F1. tauto.
Qed.

Lemma get_doubled s j p chain fuel :
  doubled (nodes s) p chain → (length chain < fuel)%nat →
  ∃ q, get_loop fuel j p s = Ret (s, q) ∧ (is_Some q ↔ j ∈ chain.*2).
Proof.
  revert p fuel. induction chain as [|[l k] chain IH]; intros p [|fuel] D Hf; simpl in Hf; try lia.
  - simpl in D. subst p. exists None. split; [done|]. split; [by intros [? ?]|by intros ?%elem_of_nil].
  - destruct D as (-> & n & Hn & Hk & Hlr & D). cbn [get_loop].
    erewrite stM_bind_Ret by (apply get_node_ok; exact Hn). rewrite <- Hlr.
    destruct (IH (left n) fuel D ltac:(lia)) as (q & E & Hq). simpl.
    destruct (Z.eqb_spec (keyHash n) j).
    + exists (Some l). split; [done|]. split; [|eauto]. intros _. rewrite elem_of_cons. left. lia.
    + assert ((if j <? keyHash n then get_loop fuel j (left n) else get_loop fuel j (left n))
        = get_loop fuel j (left n)) as -> by (by destruct (j <? keyHash n)).
      exists q. split; [done|]. rewrite Hq, elem_of_cons. split; [by right|]. intros [->|?]; [lia|done].
Qed.

Lemma doubled_length h p chain :
  NoDup chain.*1 → doubled h p chain → (length chain ≤ size h)%nat.
Proof.
  intros Hnd D. pose proof (size_list_to_set (C:=gset loc) _ Hnd) as Hs. rewrite length_fmap in Hs.
  rewrite <- Hs, <- (size_dom (D:=gset loc) h). apply subseteq_size.
  clear Hnd Hs. revert p D. induction chain as [|[l k] chain IH]; intros p D; simpl; [set_solver|].
  destruct D as (-> & n & Hn & _ & _ & D). apply IH in D.
  assert (l ∈ dom h) by (apply elem_of_dom; eauto). set_solver.
Qed.

Lemma rep_lookup h t l x :
  rep h t → (l, x) ∈ inorder t → ∃ z p q, h !! l = Some (node_of (with_height x z) p q).
Proof.
  induction t as [|l' lt IHl x' rt IHr]; simpl; [set_solver|]. intros (H & Rl & Rr).
  rewrite elem_of_app, elem_of_cons. intros [?|[[= -> ->]|?]]; [auto| |auto].
  exists (i_height x'), (ptr_of lt), (ptr_of rt). by destruct x'.
Qed.

Lemma addData_cases (s : state) (t : tree) (k : SimpleString.t) (h : Z) (v : SimpleString.t)
    (ts : LamportClock.t) (strategy : LamportClock.UpdateClockStrategy) (fromNode : bool) (c : Z) :
  tree_ok s t → ufits 32 h → clock s = Some c →
  ∃ s' t' r, addData k h v ts strategy fromNode s = Ret (s', r) ∧ tree_ok s' t' ∧
    (∀ k', k' ≠ h → view s' t' k' = view s t k') ∧ framed s s' t t' ∧
    let '(c', n) := clock_after strategy (LamportClock.counter ts) (clock s) in
    let '(p, reported) := written v ts n fromNode in
    match view s t h with
    | None => view s' t' h = Some (k, p) ∧ r = Some reported ∧ clock s' = c'
    | Some (key0, p0) =>
        if refused p0 ts strategy fromNode
        then view s' t' h = view s t h ∧ clock s' = clock s ∧ r = if at_root t h then None else Some 0
        else view s' t' h = Some (key0, p) ∧ r = Some reported ∧ clock s' = c'
    end.
Proof.
  intros O Hh Hc. destruct (view s t h) as [[key0 p0]|] eqn:Hv.
  - destruct (refused p0 ts strategy fromNode) eqn:Href.
    + destruct (addData_refused s t k h v ts strategy fromNode key0 p0 O Hv Href) as (s' & t' & E & O' & V & C & Fr).
      exists s', t'. eexists. split; [exact E|]. split; [done|]. split; [done|]. split; [done|].
      destruct (clock_after _ _ _). destruct (written _ _ _ _). rewrite V, Hv. done.
    + pose proof (addData_accepted s t k h v ts strategy fromNode key0 p0 c O Hc Hv Href) as H.
      destruct (clock_after _ _ _). destruct (written _ _ _ _).
      destruct H as (s' & t' & E & O' & V & V' & C & Fr). by exists s', t', (Some z0).
  - pose proof (addData_absent s t k h v ts strategy fromNode O Hh Hv) as H.
    destruct (clock_after _ _ _). destruct (written _ _ _ _).
    destruct H as (s' & t' & E & O' & V & V' & C & Fr). by exists s', t', (Some z0).
Qed.

(** ** Properties *)

(** [AVLTree::get] on a bucket finds exactly the hashes stored, and returns the node
    whose key and value the map holds for it.  The number of nodes visited is at most
    logarithmic: [2 ^ (depth - 1)] is at most the square of the number of nodes plus one. *)
Theorem get_refines (s : state) (t : tree) (k : Z) :
  tree_ok s t →
  (∃ p, get k s = Ret (s, p) ∧
     match p with
     | None => view s t k = None
     | Some l => ∃ n d, nodes s !! l = Some n ∧ keyHash n = k ∧ datas s !! data n = Some d ∧
                        view s t k = Some (key n, d)
     end) ∧
  2 ^ (Z.of_nat (depth t) - 1) ≤ (Z.of_nat (length (locs t)) + 1) ^ 2.
Proof.
  intros O. split.
  - exists (fst <$> find k t). split; [apply get_ok; apply O|].
    destruct (find k t) as [[l x]|] eqn:F; simpl; [|unfold view; by rewrite F].
    pose proof F as [Hi Hk]%find_Some; [|apply O].
    destruct (rep_lookup _ _ _ _ (ok_rep _ _ O) Hi) as (h & p & q & Hn).
    pose proof (ok_typed _ _ O) as Ty. rewrite Forall_forall in Ty.
    apply Ty, typed_dom, elem_of_dom in Hi as [d Hd]. simpl in Hd.
    exists (node_of (with_height x h) p q), d. split; [done|]. split; [done|]. split; [done|].
    exact (view_of_find s t k l x d F Hd).
  - pose proof (balanced_nodes t (ok_balanced _ _ O)) as H1.
    pose proof (depth_height t (ok_balanced _ _ O)) as H2.
    etrans; [|exact H1]. apply Z.pow_le_mono_r; lia.
Qed.

Lemma get_refines_witness :
  let x := mk_info (SimpleString.fromChar 65) 1 65 (-1) DATA in
  let d := DataAVLNode (SimpleString.fromChar 7) (LamportClock.mk 3 1) in
  let s := mk_state {[1%positive := node_of x None None]} {[1%positive := d]} (Some 1%positive) (Some 3) in
  let t := T 1 E x E in
  (∃ p, get 65 s = Ret (s, p) ∧
     match p with
     | None => view s t 65 = None
     | Some l => ∃ n d, nodes s !! l = Some n ∧ keyHash n = 65 ∧ datas s !! data n = Some d ∧
                        view s t 65 = Some (key n, d)
     end) ∧
  2 ^ (Z.of_nat (depth t) - 1) ≤ (Z.of_nat (length (locs t)) + 1) ^ 2.
Proof.
  intros x d s t. apply (get_refines s t 65). split.
  - repeat split.
  - repeat constructor; set_solver.
  - reflexivity.
  - repeat constructor.
  - simpl. repeat split; try lia. by right.
  - repeat constructor; unfold ufits, hash_of; simpl; lia.
  - repeat constructor. unfold typed. simpl. eauto.
  - repeat constructor; set_solver.
Defined.

(** C1: [AVLTree::addData] on a bucket, on every branch.  It always returns, keeps the bucket
    a search tree whose stored heights are balanced, changes no other hash and touches no
    memory outside the bucket.  A new hash
    is stored with its key; an accepted update replaces the value but keeps the stored key;
    either reports the timestamp written.  An update refused because a newer value or a
    counter is there changes nothing, but it is reported as an error only when the hash is
    the root's: below the root the call succeeds with timestamp 0. *)
Theorem addData_refines (s : state) (t : tree) (k : SimpleString.t) (h : Z) (v : SimpleString.t)
    (ts : LamportClock.t) (strategy : LamportClock.UpdateClockStrategy) (fromNode : bool) (c : Z) :
  tree_ok s t → ufits 32 h → clock s = Some c →
  ∃ s' t' r, addData k h v ts strategy fromNode s = Ret (s', r) ∧ tree_ok s' t' ∧
    (∀ k', k' ≠ h → view s' t' k' = view s t k') ∧ framed s s' t t' ∧
    let '(c', n) := clock_after strategy (LamportClock.counter ts) (clock s) in
    let '(p, reported) := written v ts n fromNode in
    match view s t h with
    | None => view s' t' h = Some (k, p) ∧ r = Some reported ∧ clock s' = c'
    | Some (key0, p0) =>
        if refused p0 ts strategy fromNode
        then view s' t' h = view s t h ∧ clock s' = clock s ∧ r = if at_root t h then None else Some 0
        else view s' t' h = Some (key0, p) ∧ r = Some reported ∧ clock s' = c'
    end.
Proof. intros. by eapply addData_cases. Qed.

Lemma addData_refines_witness :
  let s := mk_state ∅ ∅ None (Some 0) in
  ∃ s' t' r, addData (SimpleString.fromChar 65) 65 (SimpleString.fromChar 7) (LamportClock.mk 0 1)
               LamportClock.TICK false s = Ret (s', r) ∧ tree_ok s' t' ∧
    (∀ k', k' ≠ 65 → view s' t' k' = view s E k') ∧ framed s s' E t' ∧
    view s' t' 65 = Some (SimpleString.fromChar 65,
                          DataAVLNode (SimpleString.fromChar 7) (LamportClock.mk 1 1)) ∧
    r = Some 1 ∧ clock s' = Some 1.
Proof.
  intros s. apply (addData_refines s E (SimpleString.fromChar 65) 65 (SimpleString.fromChar 7)
    (LamportClock.mk 0 1) LamportClock.TICK false 0); [|split; lia|reflexivity].
  split; try reflexivity; try constructor.
Defined.

(** C35: removing a hash greater than the root's destroys the bucket: the search recurses into
    the left subtree instead of the right one and stores the result as the right child.
    The call reports that nothing was removed, and afterwards only the hashes on the left
    spine of the old tree can be found, whatever was stored to the right of it. *)
Theorem removeData_past_root_loses (s : state) (t : tree) (k : Z) (l : loc) (lt : tree) (x : info)
    (rt : tree) (ts : LamportClock.t) (strategy : LamportClock.UpdateClockStrategy) (check : bool) :
  tree_ok s t → t = T l lt x rt → i_hash x < k →
  ∃ s', removeData k ts strategy check s = Ret (s', None) ∧
    ∀ j, ∃ p, get j s' = Ret (s', p) ∧ (is_Some p ↔ j ∈ (spine t).*2).
Proof.
  intros O -> Hk. pose proof O as [R N Rt S _ _ _ _].
  assert (Forall (λ k', k' < k) (spine (T l lt x rt)).*2) as Hsp.
  { apply sorted_T in S as (_ & _ & Hl & _). rewrite Forall_forall in Hl. simpl. constructor; [done|].
    apply Forall_forall. intros k' Hk'%spine_hashes%Hl. lia. }
  pose proof (rep_size _ _ R N) as Hsz. unfold removeData. erewrite stM_bind_Ret by done. rewrite Rt.
  destruct (removeRecursiveData_above (fuel_of s) s (T l lt x rt) k 0 ts strategy false check R N)
    as (s' & E & Db & T' & Dm & _); [unfold fuel_of; lia|done|].
  erewrite stM_bind_Ret by exact E. exists s'. split; [done|]. intros j.
  unfold get. erewrite stM_bind_Ret by done. rewrite T', Rt. apply get_doubled; [done|].
  unfold fuel_of. pose proof (doubled_length _ _ _ (spine_NoDup _ N) Db). lia.
Qed.

(** Root 4 with right child 6: removing 6 fails, and 6 can no longer be found. *)
Lemma removeData_past_root_loses_witness :
  let x := mk_info (SimpleString.fromChar 4) 1 4 0 DATA in
  let y := mk_info (SimpleString.fromChar 6) 2 6 (-1) DATA in
  let d := DataAVLNode (SimpleString.fromChar 7) (LamportClock.mk 1 1) in
  let s := mk_state {[1%positive := node_of x None (Some 2%positive); 2%positive := node_of y None None]}
             {[1%positive := d; 2%positive := d]} (Some 1%positive) (Some 1) in
  ∃ s', removeData 6 (LamportClock.mk 0 1) LamportClock.TICK false s = Ret (s', None) ∧
    ∀ j, ∃ p, get j s' = Ret (s', p) ∧ (is_Some p ↔ j ∈ [4]).
Proof.
  intros x y d s.
  apply (removeData_past_root_loses s (T 1 E x (T 2 E y E)) 6 1 E x (T 2 E y E) (LamportClock.mk 0 1)
    LamportClock.TICK false); [|reflexivity|simpl; lia].
  split.
  - repeat split.
  - repeat constructor; set_solver.
  - reflexivity.
  - repeat constructor; unfold hash_of; simpl; lia.
  - simpl. repeat split; try lia; by right.
  - repeat constructor; unfold ufits, hash_of; simpl; lia.
  - repeat constructor; unfold typed; simpl; eauto.
  - repeat constructor; set_solver.
Defined.

(** [AVLTree::getOrderedByHash] lists every entry of the bucket once, in increasing order
    of hash. *)
Theorem getOrderedByHash_sorted (s : state) (t : tree) :
  tree_ok s t →
  ∃ entries, getOrderedByHash s = Ret (s, entries) ∧
    StronglySorted Z.lt (e_keyHash <$> entries) ∧
    (∀ k, k ∈ e_keyHash <$> entries ↔ view s t k ≠ None).
Proof.
  intros O. exists (entry_of_item <$> inorder t).
  assert (e_keyHash <$> (entry_of_item <$> inorder t) = hashes t) as Eh
    by (unfold hashes; by rewrite <- list_fmap_compose).
  rewrite Eh. split; [|split; [apply O|]].
  - unfold getOrderedByHash. erewrite stM_bind_Ret by done. rewrite (ok_root _ _ O).
    destruct t as [|l lt x rt]; [done|]. cbn [ptr_of].
    rewrite (getOrderedByHashRecursive_ok s _ _ [] l lt x rt eq_refl); [done|apply O|].
    unfold fuel_of. pose proof (rep_size _ _ (ok_rep _ _ O) (ok_nodup _ _ O)). lia.
  - intros k. split.
    + intros ([l x] & -> & Hi)%list_elem_of_fmap Hv.
      pose proof (ok_typed _ _ O) as Ty. rewrite Forall_forall in Ty.
      pose proof Hi as Hi'. apply Ty, typed_dom, elem_of_dom in Hi' as [p Hp].
      assert (find (hash_of (l, x)) t = Some (l, x)) as Hf by (apply find_Some; [apply O|done]).
      by rewrite (view_of_find s t _ l x p Hf Hp) in Hv.
    + intros Hv. destruct (decide (k ∈ hashes t)) as [|Hn]; [done|]. exfalso. apply Hv. unfold view.
      by rewrite (proj2 (find_None k t (ok_sorted _ _ O)) Hn).
Qed.

Lemma getOrderedByHash_sorted_witness :
  let x := mk_info (SimpleString.fromChar 4) 1 4 0 DATA in
  let y := mk_info (SimpleString.fromChar 6) 2 6 (-1) DATA in
  let d := DataAVLNode (SimpleString.fromChar 7) (LamportClock.mk 1 1) in
  let s := mk_state {[1%positive := node_of x None (Some 2%positive); 2%positive := node_of y None None]}
             {[1%positive := d; 2%positive := d]} (Some 1%positive) (Some 1) in
  ∃ entries, getOrderedByHash s = Ret (s, entries) ∧
    StronglySorted Z.lt (e_keyHash <$> entries) ∧
    (∀ k, k ∈ e_keyHash <$> entries ↔ view s (T 1 E x (T 2 E y E)) k ≠ None).
Proof.
  intros x y d s. apply (getOrderedByHash_sorted s (T 1 E x (T 2 E y E))). split.
  - repeat split.
  - repeat constructor; set_solver.
  - reflexivity.
  - repeat constructor; unfold hash_of; simpl; lia.
  - simpl. repeat split; try lia; by right.
  - repeat constructor; unfold ufits, hash_of; simpl; lia.
  - repeat constructor; unfold typed; simpl; eauto.
  - repeat constructor; set_solver.
Defined.
