(* ===== verification/MapStore.v ===== *)
(** * The hash map of a partition

    Models [db/Map.h] and [db/MemDbStores.cpp].  A [Map] is a power-of-two number of
    [AVLTree] buckets that share the node and value heaps, each with a lock.  Calls run one
    at a time here (the locks' mutual exclusion is in [Sync]); a lock that an earlier call
    left taken blocks every later call on its bucket. *)

From S2P Require Import Prelude.
From S2P Require Import Utils.
From S2P Require Import Clock.
From S2P Require Import Counters.
From S2P Require Import Avl.
From S2P Require Import AvlTrees.
From S2P Require Import AvlOps.

Module Map.

Record t := mk {
  nodes : gmap positive Avl.AVLNode;
  datas : gmap positive Avl.payload;
  clock : option Z;
  buckets : list (option positive);
  locked : list bool;
  numberBuckets : Z;
  size : Z;
}.

Abbreviation M := (stM t).

(** [Map::Map(numberBuckets)]; [size] is value-initialised and never written again. *)
Definition make (clock : option Z) (numberBuckets : Z) : t :=
  let n := Utils.roundUpPowerOfTwo 32 numberBuckets in
  mk ∅ ∅ clock (replicate (Z.to_nat n) None) (replicate (Z.to_nat n) false) n 0.

(** [Map::calculateHash]. *)
Definition calculateHash `{Platform} (key : SimpleString.t) : outcome Z :=
  ofoldl (λ hashCode i,
    let! b := at_undef (SimpleString.data key) i in
    Ret (dbl_hash_step hashCode b i)) 0 (seq 0 (Z.to_nat (SimpleString.size key))).

(** Index of a hash's bucket and lock. *)
Definition index (m : t) (keyHash : Z) : nat :=
  Z.to_nat (Utils.optimizedModulePowerOfTwo 32 (numberBuckets m) keyHash).

(** Run code of [AVLTree] on the bucket of a hash ([Map::getBucket]). *)
Definition bucket_state (m : t) (root : option positive) : Avl.state :=
  Avl.mk_state (nodes m) (datas m) root (clock m).
Definition put_bucket (m : t) (i : nat) (s : Avl.state) : t :=
  mk (Avl.nodes s) (Avl.datas s) (Avl.clock s) (<[i:=Avl.root s]> (buckets m)) (locked m)
     (numberBuckets m) (size m).
Definition on_bucket {A} (keyHash : Z) (f : Avl.M A) : M A := λ m,
  let! root := at_undef (buckets m) (index m keyHash) in
  let! (s, a) := f (bucket_state m root) in
  Ret (put_bucket m (index m keyHash) s, a).

Definition set_lock (i : nat) (b : bool) (m : t) : t :=
  mk (nodes m) (datas m) (clock m) (buckets m) (<[i:=b]> (locked m)) (numberBuckets m) (size m).

(** [Map::lockRead]/[Map::unlockRead]: taken and given back by the same call. *)
Definition lockRead (keyHash : Z) : M () := λ m,
  let! b := at_throw (locked m) (index m keyHash) in
  if (b : bool) then Blocked else Ret (m, ()).
Definition unlockRead (keyHash : Z) : M () := mret ().

(** [Map::lockWrite]/[Map::unlockWrite]. *)
Definition lockWrite (keyHash : Z) : M () := λ m,
  let! b := at_throw (locked m) (index m keyHash) in
  if (b : bool) then Blocked else Ret (set_lock (index m keyHash) true m, ()).
Definition unlockWrite (keyHash : Z) : M () := λ m,
  Ret (set_lock (index m keyHash) false m, ()).

(** [Map::getNodeByKeyHash]. *)
Definition getNodeByKeyHash (keyHash : Z) : M (option positive) := on_bucket keyHash (Avl.get keyHash).

(** [Map::putData]. *)
Definition putData `{Platform} (key value : SimpleString.t) (timestamp : LamportClock.t)
    (strategy : LamportClock.UpdateClockStrategy) (requestFromNode : bool) : M (option Z) :=
  keyHash ← lift (calculateHash key);
  _ ← lockWrite keyHash;
  addResult ← on_bucket keyHash (Avl.addData key keyHash value timestamp strategy requestFromNode);
  _ ← unlockWrite keyHash;
  mret addResult.

(** The counter at a location of the value heap, updated. *)
Definition on_counter {A} (d : positive) (f : Counter.t → outcome (Counter.t * A)) : M A := λ m,
  match datas m !! d with
  | Some (Avl.CounterAVLNode c) =>
      let! (c', a) := f c in
      Ret (mk (nodes m) (<[d:=Avl.CounterAVLNode c']> (datas m)) (clock m) (buckets m) (locked m)
              (numberBuckets m) (size m), a)
  | _ => Undef
  end.

Definition get_map_node (l : positive) : M Avl.AVLNode := λ m,
  match nodes m !! l with Some n => Ret (m, n) | None => Undef end.

(** [Map::updateCounter]; the early return on a value that is not a counter does not
    release the lock. *)
Definition updateCounter `{Platform} (key : SimpleString.t) (selfNodeId nNodes : Z)
    (isIncrement : bool) : M (option Z) :=
  hash ← lift (calculateHash key);
  _ ← lockWrite hash;
  found ← getNodeByKeyHash hash;
  node ← (match found with
          | None => _ ← on_bucket hash (Avl.addCounter key hash selfNodeId nNodes);
                    getNodeByKeyHash hash
          | Some l => mret (Some l)
          end);
  match node with
  | None => λ _, Undef
  | Some l =>
      n ← get_map_node l;
      if decide (Avl.nodeType n = Avl.COUNTER) then
        newValue ← on_counter (Avl.data n) (if isIncrement then Counter.increment else Counter.decrement);
        _ ← unlockWrite hash;
        mret (Some newValue)
      else mret None
  end.

(** [Map::putCounter]. *)
Definition putCounter `{Platform} (key : SimpleString.t) (selfNodeId nNodes : Z) : M bool :=
  hash ← lift (calculateHash key);
  _ ← lockWrite hash;
  found ← getNodeByKeyHash hash;
  added ← (match found with
           | None => _ ← on_bucket hash (Avl.addCounter key hash selfNodeId nNodes); mret true
           | Some _ => mret false
           end);
  _ ← unlockWrite hash;
  mret added.

(** [Map::get]. *)
Definition get `{Platform} (key : SimpleString.t) : M (option Avl.MapEntry) :=
  hash ← lift (calculateHash key);
  _ ← lockRead hash;
  node ← getNodeByKeyHash hash;
  response ← (match node with
              | Some l => n ← get_map_node l; mret (Some (Avl.entry_of n))
              | None => mret None
              end);
  _ ← unlockRead hash;
  mret response.

(** [Map::remove]. *)
Definition remove `{Platform} (key : SimpleString.t) (timestamp : LamportClock.t)
    (strategy : LamportClock.UpdateClockStrategy) (checkTimestamps : bool) : M (option Z) :=
  hash ← lift (calculateHash key);
  _ ← lockWrite hash;
  removeResult ← on_bucket hash (Avl.removeData hash timestamp strategy checkTimestamps);
  _ ← unlockWrite hash;
  mret removeResult.

(** [Map::clear]. *)
Definition clear : M () := λ m,
  let! m := ofoldl (λ m i,
    let! b := at_undef (locked m) i in
    if (b : bool) then Blocked else
    let! root := at_undef (buckets m) i in
    let! (s, _) := Avl.clear (bucket_state m root) in
    Ret (put_bucket m i s)) m (seq 0 (Z.to_nat (numberBuckets m))) in
  Ret (m, ()).

(** [Map::contains]: takes no lock. *)
Definition contains `{Platform} (key : SimpleString.t) : M bool :=
  hash ← lift (calculateHash key);
  node ← getNodeByKeyHash hash;
  mret (bool_decide (is_Some node)).

(** [Map::getSize]. *)
Definition getSize (m : t) : Z := i32 (size m).

(** [BucketMapHashOrderedIterator]: the state is [actualBucket]. *)
Definition iterator_next (actualBucket : Z) : M (Z * list Avl.MapEntry) := λ m,
  let! root := at_throw (buckets m) (Z.to_nat actualBucket) in
  let! (s, entries) := Avl.getOrderedByHash (bucket_state m root) in
  Ret (m, (u32 (actualBucket + 1), entries)).
Definition iterator_hasNext (m : t) (actualBucket : Z) : bool := actualBucket <? numberBuckets m.
Definition iterator_totalSize (m : t) : Z := numberBuckets m.

End Map.

(** ** [MemDbStores] *)

Module MemDbStores.

Definition t := gmap Z Map.t.

(** [MemDbStores::initializeStoresMap]. *)
Definition initializeStoresMap (clock : option Z) (stores : t) (partitionsPerNode numberBuckets : Z) : t :=
  foldl (λ stores i, <[Z.of_nat i:=Map.make clock (u32 numberBuckets)]> stores) stores
    (seq 0 (Z.to_nat partitionsPerNode)).

(** [MemDbStores::getByPartitionId]. *)
Definition getByPartitionId (stores : t) (partitionId : Z) : outcome Map.t :=
  of_option out_of_range (stores !! partitionId).

(** [MemDbStores::removeByPartitionId]. *)
Definition removeByPartitionId (stores : t) (partitionId : Z) : t := delete partitionId stores.

End MemDbStores.

Import Map.

(** ** The invariant of a map *)

(** [ts] are the trees of the buckets; no two share memory. *)
Record map_ok (m : t) (ts : list tree) : Prop := {
  mo_pow : ∃ k, 0 ≤ k < 32 ∧ numberBuckets m = 2 ^ k;
  mo_len : length ts = Z.to_nat (numberBuckets m) ∧ length (buckets m) = length ts ∧
           length (locked m) = length ts;
  mo_tree : ∀ i tr, ts !! i = Some tr →
    tree_ok (bucket_state m (ptr_of tr)) tr ∧ buckets m !! i = Some (ptr_of tr);
  mo_disj : ∀ i j ti tj, i ≠ j → ts !! i = Some ti → ts !! j = Some tj →
    (∀ l, l ∈ locs ti → l ∉ (locs tj)) ∧ (∀ d, d ∈ data_locs ti → d ∉ (data_locs tj));
}.

(** No call left a lock taken. *)
Definition unlocked (m : t) : Prop := Forall (eq false) (locked m).

(** The value the map holds for a hash. *)
Definition mview (m : t) (ts : list tree) (h : Z) : option (SimpleString.t * Avl.payload) :=
  tr ← ts !! index m h; view (bucket_state m (ptr_of tr)) tr h.

Lemma index_lt m ts h : map_ok m ts → (index m h < length ts)%nat.
Proof.
  intros O. destruct (mo_pow _ _ O) as (k & Hk & En). destruct (mo_len _ _ O) as (Hl & _).
  unfold index. rewrite En, optimizedModule_mod by done. rewrite Hl, En.
  pose proof (Z.mod_pos_bound h (2 ^ k)). lia.
Qed.

Lemma bucket_of m ts h :
  map_ok m ts → ∃ tr, ts !! index m h = Some tr ∧ tree_ok (bucket_state m (ptr_of tr)) tr ∧
    buckets m !! index m h = Some (ptr_of tr).
Proof.
  intros O. destruct (lookup_lt_is_Some_2 ts (index m h) (index_lt m ts h O)) as [tr Htr].
  destruct (mo_tree _ _ O _ _ Htr). by exists tr.
Qed.

(** Another bucket's tree after a framed change of this one. *)
Lemma tree_ok_frame s s' tr tr' tr2 :
  tree_ok s tr2 → framed s s' tr tr' → (∀ l, l ∈ locs tr2 → l ∉ (locs tr)) →
  (∀ d, d ∈ data_locs tr2 → d ∉ (data_locs tr)) →
  tree_ok (Avl.mk_state (Avl.nodes s') (Avl.datas s') (ptr_of tr2) (Avl.clock s')) tr2 ∧
  (∀ k, view (Avl.mk_state (Avl.nodes s') (Avl.datas s') (ptr_of tr2) (Avl.clock s')) tr2 k = view s tr2 k) ∧
  (∀ l, l ∈ locs tr' → l ∉ (locs tr2)) ∧ (∀ d, d ∈ data_locs tr' → d ∉ (data_locs tr2)).
Proof.
  intros O [Fn Fd Fl Fdl] Hl Hd. pose proof O as [R N Rt S B F Ty D].
  assert (∀ d, d ∈ data_locs tr2 → ∃ p, Avl.datas s !! d = Some p ∧ Avl.datas s' !! d = Some p) as Hdd.
  { intros d Hd2. pose proof Hd2 as (i & -> & Hi)%list_elem_of_fmap. rewrite Forall_forall in Ty.
    apply Ty, typed_dom, elem_of_dom in Hi as [p Hp]. exists p. split; [done|]. apply Fd; [done|].
    by apply Hd. }
  assert (∀ i, i ∈ inorder tr2 → i_data i.2 ∈ data_locs tr2) as Hin
    by (intros i Hi; apply list_elem_of_fmap; eauto).
  split; [split; try done; simpl|split; [|split]].
  - eapply rep_frame; [|exact R]. intros l Hl2.
    pose proof (rep_dom _ _ R l Hl2) as Hdom. apply elem_of_elements, elem_of_dom in Hdom as [n Hn].
    rewrite Hn. apply Fn; [done|]. by apply Hl.
  - apply Forall_forall. intros i Hi. rewrite Forall_forall in Ty. pose proof (Ty i Hi) as Hty.
    destruct (Hdd _ (Hin i Hi)) as (p & Hp & Hp'). unfold typed in *. by rewrite Hp in Hty; rewrite Hp'.
  - intros k. unfold view. destruct (find k tr2) as [[l x]|] eqn:Fk; [|done]. simpl.
    apply find_Some in Fk as [Hi _]; [|done]. by destruct (Hdd (i_data x) (Hin (l, x) Hi)) as (p & -> & ->).
  - intros l Hl' Hl2. destruct (Fl l Hl') as [?|Hnone]; [by apply (Hl l)|].
    pose proof (rep_dom _ _ R l Hl2) as Hdom. apply elem_of_elements, elem_of_dom in Hdom as [n Hn].
    congruence.
  - intros d Hd' Hd2. destruct (Fdl d Hd') as [?|Hnone]; [by apply (Hd d)|].
    destruct (Hdd d Hd2) as (p & Hp & _). congruence.
Qed.

(** Running bucket code that keeps its tree and memory frame. *)
Lemma on_bucket_ok {A} m ts h (f : Avl.M A) tr s' tr' a :
  map_ok m ts → ts !! index m h = Some tr → f (bucket_state m (ptr_of tr)) = Ret (s', a) →
  tree_ok s' tr' → framed (bucket_state m (ptr_of tr)) s' tr tr' →
  let m' := put_bucket m (index m h) s' in
  on_bucket h f m = Ret (m', a) ∧ map_ok m' (<[index m h:=tr']> ts) ∧
  (∀ k, index m k ≠ index m h → mview m' (<[index m h:=tr']> ts) k = mview m ts k) ∧
  (∀ k, index m k = index m h → mview m' (<[index m h:=tr']> ts) k = view s' tr' k).
Proof.
  intros O Htr Ef O' Fr m'. destruct (mo_tree _ _ O _ _ Htr) as [Ot Hb].
  destruct (mo_len _ _ O) as (L1 & L2 & L3). pose proof (index_lt m ts h O) as Hi.
  set (i := index m h) in *.
  assert (∀ j tj, j ≠ i → ts !! j = Some tj →
    tree_ok (bucket_state m' (ptr_of tj)) tj ∧
    (∀ k, view (bucket_state m' (ptr_of tj)) tj k = view (bucket_state m (ptr_of tj)) tj k) ∧
    (∀ l, l ∈ locs tr' → l ∉ (locs tj)) ∧ (∀ d, d ∈ data_locs tr' → d ∉ (data_locs tj))) as Hother.
  { intros j tj Hj Htj. destruct (mo_tree _ _ O _ _ Htj) as [Oj _].
    destruct (mo_disj _ _ O j i tj tr Hj Htj Htr) as [Dl Dd].
    by apply (tree_ok_frame (bucket_state m (ptr_of tj)) s' tr tr' tj Oj); [destruct Fr; split|..]. }
  split; [|split; [|split]].
  - unfold on_bucket. fold i. rewrite (at_undef_Some _ _ _ Hb). simpl. by rewrite Ef.
  - split; simpl; [apply O|by rewrite !length_insert| |].
    + intros j tj Hj. destruct (decide (j = i)) as [->|Hne].
      * rewrite list_lookup_insert_eq in Hj by done. injection Hj as <-.
        rewrite list_lookup_insert_eq by lia. rewrite (ok_root _ _ O'). split; [|done].
        destruct s'; simpl in *. pose proof (ok_root _ _ O') as Hr. simpl in Hr. by rewrite <- Hr.
      * rewrite list_lookup_insert_ne in Hj by done. rewrite list_lookup_insert_ne by done.
        destruct (Hother j tj Hne Hj) as [? _]. split; [done|]. by apply (mo_tree _ _ O).
    + intros j k tj tk Hjk Hj Hk. destruct (decide (j = i)) as [->|Hj'], (decide (k = i)) as [->|Hk']; [done|..].
      * rewrite list_lookup_insert_eq in Hj by done. rewrite list_lookup_insert_ne in Hk by done.
        injection Hj as <-. by apply Hother with k.
      * rewrite list_lookup_insert_ne in Hj by done. rewrite list_lookup_insert_eq in Hk by done.
        injection Hk as <-. destruct (Hother j tj Hj' Hj) as (_ & _ & H1 & H2).
        split; [intros l Hl Hl'; by apply (H1 l)|intros d Hd Hd'; by apply (H2 d)].
      * rewrite list_lookup_insert_ne in Hj, Hk by done. by apply (mo_disj _ _ O j k).
  - intros k Hk. unfold mview. change (index m' k) with (index m k). rewrite list_lookup_insert_ne by done.
    destruct (ts !! index m k) as [tk|] eqn:Htk; [|done]. simpl. by apply Hother with (index m k).
  - intros k Hk. unfold mview. change (index m' k) with (index m k). rewrite Hk.
    rewrite list_lookup_insert_eq by done. simpl. unfold view. done.
Qed.

Lemma lockWrite_ok m ts h :
  map_ok m ts → unlocked m → lockWrite h m = Ret (set_lock (index m h) true m, ()).
Proof.
  intros O U. destruct (mo_len _ _ O) as (_ & _ & L). unfold lockWrite.
  destruct (lookup_lt_is_Some_2 (locked m) (index m h)) as [b Hb]; [rewrite L; by apply index_lt|].
  rewrite (at_throw_Some _ _ _ Hb). unfold unlocked in U. rewrite Forall_forall in U.
  apply list_elem_of_lookup_2, U in Hb as <-. done.
Qed.

Lemma lockRead_ok m ts h : map_ok m ts → unlocked m → lockRead h m = Ret (m, ()).
Proof.
  intros O U. destruct (mo_len _ _ O) as (_ & _ & L). unfold lockRead.
  destruct (lookup_lt_is_Some_2 (locked m) (index m h)) as [b Hb]; [rewrite L; by apply index_lt|].
  rewrite (at_throw_Some _ _ _ Hb). unfold unlocked in U. rewrite Forall_forall in U.
  apply list_elem_of_lookup_2, U in Hb as <-. done.
Qed.

(** Locks do not matter to the rest of the state. *)
Lemma map_ok_set_lock m ts i b : map_ok m ts → map_ok (set_lock i b m) ts.
Proof.
  intros [P L T D]. split; simpl; [done|by rewrite length_insert|exact T|exact D].
Qed.

Lemma mview_set_lock m ts i b k : mview (set_lock i b m) ts k = mview m ts k.
Proof. done. Qed.

(** A write: the lock is taken, the bucket code runs, and the lock is given back. *)
Lemma locked_bucket_ok {A} m ts h (f : Avl.M A) tr s' tr' a :
  map_ok m ts → unlocked m → ts !! index m h = Some tr →
  f (bucket_state m (ptr_of tr)) = Ret (s', a) → tree_ok s' tr' →
  framed (bucket_state m (ptr_of tr)) s' tr tr' →
  ∃ m', (_ ← lockWrite h; r ← on_bucket h f; _ ← unlockWrite h; mret r) m = Ret (m', a) ∧
    map_ok m' (<[index m h:=tr']> ts) ∧ unlocked m' ∧ clock m' = Avl.clock s' ∧
    numberBuckets m' = numberBuckets m ∧ (∀ k, index m' k = index m k) ∧
    (∀ k, index m k ≠ index m h → mview m' (<[index m h:=tr']> ts) k = mview m ts k) ∧
    (∀ k, index m k = index m h → mview m' (<[index m h:=tr']> ts) k = view s' tr' k).
Proof.
  intros O U Htr Ef O' Fr. set (m1 := set_lock (index m h) true m).
  pose proof (map_ok_set_lock m ts (index m h) true O) as O1.
  destruct (on_bucket_ok m1 ts h f tr s' tr' a O1 Htr Ef O' Fr) as (E2 & O2 & V2 & V2').
  set (m2 := put_bucket m1 (index m1 h) s') in *.
  exists (set_lock (index m h) false m2).
  erewrite stM_bind_Ret by (by eapply lockWrite_ok). erewrite stM_bind_Ret by exact E2.
  split; [done|]. split; [by apply map_ok_set_lock|]. split.
  { unfold unlocked in *. simpl. rewrite list_insert_insert_eq. by apply Forall_insert. }
  split; [done|]. split; [done|]. split; [done|]. split; [exact V2|exact V2'].
Qed.

(** The type of the node that holds a value. *)
Definition payload_type (p : Avl.payload) : Avl.NodeType :=
  match p with Avl.DataAVLNode _ _ => Avl.DATA | Avl.CounterAVLNode _ => Avl.COUNTER end.

(** [Map::get] returns the entry of the hash's value. *)
Lemma map_get_ok `{Platform} m ts key h :
  map_ok m ts → unlocked m → calculateHash key = Ret h →
  ∃ m' e, get key m = Ret (m', e) ∧ m' = m ∧
    match e with
    | None => mview m ts h = None
    | Some e => ∃ p, Avl.e_keyHash e = h ∧ datas m !! Avl.e_data e = Some p ∧
                     mview m ts h = Some (Avl.e_key e, p) ∧ Avl.e_type e = payload_type p
    end.
Proof.
  intros O U Eh. destruct (bucket_of m ts h O) as (tr & Htr & Ot & Hb).
  unfold get. erewrite stM_bind_Ret by (unfold lift; rewrite Eh; reflexivity).
  erewrite stM_bind_Ret by (by eapply lockRead_ok).
  assert (getNodeByKeyHash h m = Ret (m, fst <$> find h tr)) as Eg.
  { unfold getNodeByKeyHash, on_bucket. rewrite (at_undef_Some _ _ _ Hb). simpl.
    rewrite (AvlOps.get_ok _ h tr) by apply Ot. simpl. unfold put_bucket. simpl.
    rewrite list_insert_id by done. by destruct m. }
  erewrite stM_bind_Ret by exact Eg. destruct (find h tr) as [[l x]|] eqn:F; simpl.
  - pose proof F as [Hi Hh]%find_Some; [|apply Ot].
    destruct (rep_lookup _ _ _ _ (ok_rep _ _ Ot) Hi) as (z & p & q & Hn). simpl in Hn.
    pose proof (ok_typed _ _ Ot) as Ty. rewrite Forall_forall in Ty.
    apply Ty, typed_dom, elem_of_dom in Hi as [d Hd]. simpl in Hd.
    exists m, (Some (Avl.entry_of (node_of (with_height x z) p q))). split.
    { erewrite stM_bind_Ret; [by erewrite stM_bind_Ret by done|].
      erewrite stM_bind_Ret by (unfold get_map_node; rewrite Hn; reflexivity). done. }
    split; [done|]. exists d. split; [done|]. split; [done|].
    pose proof (view_of_find (bucket_state m (ptr_of tr)) tr h l x d F Hd) as Hv. split.
    { unfold mview. rewrite Htr. exact Hv. }
    destruct (view_Some _ _ _ _ _ Ot Hv) as (l' & x' & F' & _ & _ & _ & _ & Hty).
    rewrite F in F'. injection F' as <- <-. exact Hty.
  - exists m, None. split; [done|]. split; [done|]. unfold mview. rewrite Htr. simpl. unfold view. by rewrite F.
Qed.

Lemma map_get_typed `{Platform} m ts key h m' e p :
  map_ok m ts → unlocked m → calculateHash key = Ret h → get key m = Ret (m', Some e) →
  datas m !! Avl.e_data e = Some p → Avl.e_type e = payload_type p.
Proof.
  intros O U Eh Eg Hd. destruct (map_get_ok m ts key h O U Eh) as (m2 & e2 & Eg2 & -> & He).
  rewrite Eg in Eg2. injection Eg2 as -> <-. destruct He as (p' & _ & Hd' & _ & ->).
  rewrite Hd in Hd'. by injection Hd' as <-.
Qed.

(** ** Hashes of keys *)

Lemma calculateHash_range `{Platform} key h : calculateHash key = Ret h → ufits 32 h.
Proof.
  unfold calculateHash. assert (ufits 32 0) as H0 by (split; lia). revert H0.
  generalize 0 as acc. generalize (seq 0 (Z.to_nat (SimpleString.size key))) as l.
  induction l as [|i l IH]; intros acc Hacc Hh; simpl in Hh; [by injection Hh as <-|].
  inv_ret. eapply IH; [|exact Hh]. apply dbl_hash_step_range.
Qed.

(** The hash of a two-byte key, when it is below [2 ^ 32]. *)
Lemma calculateHash_two `{Platform} a b :
  byte_ok a → byte_ok b → calculateHash (SimpleString.mk [a; b] 2) = Ret (a + b * 31).
Proof.
  intros Ha Hb. unfold calculateHash, byte_ok in *. simpl.
  assert (dbl_hash_step 0 a 0 = a) as ->.
  { rewrite dbl_hash_step_exact; change (31 ^ Z.of_nat 0) with 1; unfold ufits, byte_ok; lia. }
  assert (dbl_hash_step a b 1 = a + b * 31) as ->; [|done].
  rewrite dbl_hash_step_exact; change (31 ^ Z.of_nat 1) with 31; unfold ufits, byte_ok; lia.
Qed.

(** ** Empty maps *)

Lemma tree_ok_empty s : Avl.root s = None → tree_ok s E.
Proof. intros Hr. split; done || constructor. Qed.

Lemma map_ok_make c n :
  1 ≤ n ≤ 2 ^ 31 →
  map_ok (make c n) (replicate (Z.to_nat (Utils.roundUpPowerOfTwo 32 n)) E) ∧ unlocked (make c n).
Proof.
  intros Hn. destruct (roundUpPowerOfTwo_pow2 32 n) as (k & Hk & Ek & _); [lia..|]. split; [split|].
  - exists k. by rewrite <- Ek.
  - simpl. by rewrite !length_replicate.
  - intros i tr [-> Hi]%lookup_replicate. split; [by apply tree_ok_empty|]. simpl. by apply lookup_replicate.
  - intros i j ti tj _ [-> _]%lookup_replicate [-> _]%lookup_replicate. simpl. set_solver.
  - by apply Forall_replicate.
Qed.

(** ** Locks left taken *)

Lemma locked_blocks m h :
  locked m !! index m h = Some true →
  lockRead h m = Blocked ∧ lockWrite h m = Blocked.
Proof. intros Hl. unfold lockRead, lockWrite. by rewrite (at_throw_Some _ _ _ Hl). Qed.

Lemma bind_Blocked {S A B} (c : stM S A) (k : A → stM S B) s : c s = Blocked → (c ≫= k) s = Blocked.
Proof. unfold mbind, stM_bind. by intros ->. Qed.

Lemma putData_cases `{Platform} (m : t) (ts : list tree) (key value : SimpleString.t) (h : Z)
    (timestamp : LamportClock.t) (strategy : LamportClock.UpdateClockStrategy) (fromNode : bool) (c : Z) :
  map_ok m ts → unlocked m → clock m = Some c → calculateHash key = Ret h →
  ∃ m' ts' r, putData key value timestamp strategy fromNode m = Ret (m', r) ∧
    map_ok m' ts' ∧ unlocked m' ∧ (∀ h', h' ≠ h → mview m' ts' h' = mview m ts h') ∧
    let '(c', n) := clock_after strategy (LamportClock.counter timestamp) (clock m) in
    let '(p, reported) := written value timestamp n fromNode in
    match mview m ts h with
    | Some (key0, p0) =>
        if refused p0 timestamp strategy fromNode
        then mview m' ts' h = mview m ts h ∧ clock m' = clock m ∧ (r = None ∨ r = Some 0)
        else r = Some reported ∧ clock m' = c' ∧
             ∀ key2, calculateHash key2 = Ret h →
               ∃ e, get key2 m' = Ret (m', Some e) ∧ Avl.e_key e = key0 ∧ datas m' !! Avl.e_data e = Some p
    | None => r = Some reported ∧ clock m' = c' ∧
              ∀ key2, calculateHash key2 = Ret h →
                ∃ e, get key2 m' = Ret (m', Some e) ∧ Avl.e_key e = key ∧ datas m' !! Avl.e_data e = Some p
    end.
Proof.
  intros O U Hc Eh. destruct (bucket_of m ts h O) as (tr & Htr & Ot & Hb).
  destruct (addData_cases (bucket_state m (ptr_of tr)) tr key h value timestamp strategy fromNode c)
    as (s' & tr' & r & Ea & O' & V & Fr & Hcases); [done|by eapply calculateHash_range|done|].
  destruct (locked_bucket_ok m ts h _ tr s' tr' r O U Htr Ea O' Fr) as
    (m' & Em & Om & Um & Cm & Nm & Im & Vm & Vm').
  exists m', (<[index m h:=tr']> ts), r. split.
  { unfold putData. erewrite stM_bind_Ret by (unfold lift; rewrite Eh; reflexivity). exact Em. }
  split; [done|]. split; [done|]. split.
  { intros h' Hh'. destruct (decide (index m h' = index m h)) as [Hi|Hi]; [|by apply Vm].
    rewrite Vm' by done. rewrite V by done. unfold mview. rewrite Hi, Htr. done. }
  assert (mview m ts h = view (bucket_state m (ptr_of tr)) tr h) as Ev by (unfold mview; by rewrite Htr).
  assert (∀ key2 key0 p0, calculateHash key2 = Ret h → view s' tr' h = Some (key0, p0) →
    ∃ e, get key2 m' = Ret (m', Some e) ∧ Avl.e_key e = key0 ∧ datas m' !! Avl.e_data e = Some p0) as Hget.
  { intros key2 key0 p0 E2 Hv. destruct (map_get_ok m' _ key2 h Om Um E2) as (m2 & e & Eg & -> & He).
    rewrite Vm', Hv in He by done. destruct e as [e|]; [|done]. destruct He as (p & _ & Hd & [= -> ->] & _).
    by exists e. }
  rewrite Ev, Cm. change (Avl.clock (bucket_state m (ptr_of tr))) with (clock m) in Hcases.
  destruct (clock_after _ _ _) as [c' n]. destruct (written _ _ _ _) as [p reported].
  destruct (view _ tr h) as [[key0 p0]|].
  - destruct (refused p0 timestamp strategy fromNode).
    + destruct Hcases as (Hv & Hcl & ->). rewrite Vm' by done. destruct (at_root tr h); auto.
    + destruct Hcases as (Hv & -> & ->). split; [done|]. split; [done|]. intros key2 E2. by apply Hget.
  - destruct Hcases as (Hv & -> & ->). split; [done|]. split; [done|]. intros key2 E2. by apply Hget.
Qed.

(** ** Properties *)

(** C2: [Map::putData] on every branch, seen through [Map::get].  On a map whose buckets are
    well-formed and unlocked the call returns, keeps the map so, and leaves every key with
    another hash as it was.  A write that is not refused makes every later [get] of a key
    with that hash return the new value; a refused one (a newer value, or a counter) leaves
    the old value, and is an error only if the hash is at the root of its bucket. *)
Theorem putData_get `{Platform} (m : t) (ts : list tree) (key value : SimpleString.t) (h : Z)
    (timestamp : LamportClock.t) (strategy : LamportClock.UpdateClockStrategy) (fromNode : bool) (c : Z) :
  map_ok m ts → unlocked m → clock m = Some c → calculateHash key = Ret h →
  ∃ m' ts' r, putData key value timestamp strategy fromNode m = Ret (m', r) ∧
    map_ok m' ts' ∧ unlocked m' ∧ (∀ h', h' ≠ h → mview m' ts' h' = mview m ts h') ∧
    let '(c', n) := clock_after strategy (LamportClock.counter timestamp) (clock m) in
    let '(p, reported) := written value timestamp n fromNode in
    match mview m ts h with
    | Some (key0, p0) =>
        if refused p0 timestamp strategy fromNode
        then mview m' ts' h = mview m ts h ∧ clock m' = clock m ∧ (r = None ∨ r = Some 0)
        else r = Some reported ∧ clock m' = c' ∧
             ∀ key2, calculateHash key2 = Ret h →
               ∃ e, get key2 m' = Ret (m', Some e) ∧ Avl.e_key e = key0 ∧ datas m' !! Avl.e_data e = Some p
    | None => r = Some reported ∧ clock m' = c' ∧
              ∀ key2, calculateHash key2 = Ret h →
                ∃ e, get key2 m' = Ret (m', Some e) ∧ Avl.e_key e = key ∧ datas m' !! Avl.e_data e = Some p
    end.
Proof. intros. by eapply putData_cases. Qed.

Lemma putData_get_witness :
  let key := SimpleString.mk [97; 97] 2 in
  let m := make (Some 0) 3 in
  ∃ m' ts' r, putData (H := masking_target) key (SimpleString.fromChar 7) (LamportClock.mk 0 1)
                LamportClock.TICK false m = Ret (m', r) ∧
    map_ok m' ts' ∧ unlocked m' ∧ (∀ h', h' ≠ 3104 → mview m' ts' h' = mview m (replicate 4 E) h') ∧
    r = Some 1 ∧ clock m' = Some 1 ∧
    ∀ key2, calculateHash (H := masking_target) key2 = Ret 3104 →
      ∃ e, get (H := masking_target) key2 m' = Ret (m', Some e) ∧ Avl.e_key e = key ∧
        datas m' !! Avl.e_data e = Some (Avl.DataAVLNode (SimpleString.fromChar 7) (LamportClock.mk 1 1)).
Proof.
  intros key m. destruct (map_ok_make (Some 0) 3) as [O U]; [lia|].
  apply (putData_get (H := masking_target) m (replicate 4 E) key (SimpleString.fromChar 7) 3104
    (LamportClock.mk 0 1) LamportClock.TICK false 0); [exact O|exact U|reflexivity|vm_compute; reflexivity].
Defined.

(** Keys are told apart only by their 32-bit hash.  On every target the keys ["aa"] and
    ["Bb"] have hash 3104, so after storing one a [get] of the other returns the first key's
    entry and value. *)
Theorem colliding_keys_overwrite `{Platform} (m : t) (ts : list tree) (value : SimpleString.t)
    (timestamp : LamportClock.t) (strategy : LamportClock.UpdateClockStrategy) (c : Z) :
  map_ok m ts → unlocked m → clock m = Some c → mview m ts 3104 = None →
  let aa := SimpleString.mk [97; 97] 2 in
  let Bb := SimpleString.mk [66; 98] 2 in
  calculateHash aa = Ret 3104 ∧ calculateHash Bb = Ret 3104 ∧
  ∃ m' r e ts', putData aa value timestamp strategy false m = Ret (m', r) ∧
    get Bb m' = Ret (m', Some e) ∧ Avl.e_key e = aa ∧
    datas m' !! Avl.e_data e = Some (Avl.DataAVLNode value ts').
Proof.
  intros O U Hc Hn aa Bb.
  assert (calculateHash aa = Ret 3104) as Ea by (apply (calculateHash_two 97 97); unfold byte_ok; lia).
  assert (calculateHash Bb = Ret 3104) as Eb by (apply (calculateHash_two 66 98); unfold byte_ok; lia).
  split; [done|]. split; [done|].
  destruct (putData_cases m ts aa value 3104 timestamp strategy false c O U Hc Ea)
    as (m' & ts' & r & Ep & _ & _ & _ & Hcases).
  rewrite Hn in Hcases. destruct (clock_after _ _ _) as [c' n]. simpl in Hcases.
  destruct Hcases as (_ & _ & Hget). destruct (Hget Bb Eb) as (e & Eg & Hk & Hd).
  exists m', r, e. eexists. eauto.
Qed.

Lemma colliding_keys_overwrite_witness :
  let aa := SimpleString.mk [97; 97] 2 in
  let Bb := SimpleString.mk [66; 98] 2 in
  calculateHash (H := masking_target) aa = Ret 3104 ∧ calculateHash (H := masking_target) Bb = Ret 3104 ∧
  ∃ m' r e ts', putData (H := masking_target) aa (SimpleString.fromChar 7) (LamportClock.mk 0 1)
                  LamportClock.TICK false (make (Some 0) 3) = Ret (m', r) ∧
    get (H := masking_target) Bb m' = Ret (m', Some e) ∧ Avl.e_key e = aa ∧
    datas m' !! Avl.e_data e = Some (Avl.DataAVLNode (SimpleString.fromChar 7) ts').
Proof.
  destruct (map_ok_make (Some 0) 3) as [O U]; [lia|].
  apply (colliding_keys_overwrite (H := masking_target) (make (Some 0) 3) (replicate 4 E)
    (SimpleString.fromChar 7) (LamportClock.mk 0 1) LamportClock.TICK 0); [exact O|exact U|reflexivity..].
Defined.

(** [Map::updateCounter] on a key that holds plain data returns an error without releasing
    the bucket's write lock: every later [get], [putData], [updateCounter], [putCounter] and
    [remove] of a key of that bucket blocks for ever. *)
Theorem updateCounter_leaks_lock `{Platform} (m : t) (ts : list tree) (key key0 v : SimpleString.t)
    (tl : LamportClock.t) (h selfNodeId nNodes : Z) (isIncrement : bool) :
  map_ok m ts → unlocked m → calculateHash key = Ret h →
  mview m ts h = Some (key0, Avl.DataAVLNode v tl) →
  ∃ m', updateCounter key selfNodeId nNodes isIncrement m = Ret (m', None) ∧
    ∀ key2 h2 value timestamp strategy b, calculateHash key2 = Ret h2 → index m h2 = index m h →
      get key2 m' = Blocked ∧ putData key2 value timestamp strategy b m' = Blocked ∧
      updateCounter key2 selfNodeId nNodes b m' = Blocked ∧
      putCounter key2 selfNodeId nNodes m' = Blocked ∧ remove key2 timestamp strategy b m' = Blocked.
Proof.
  intros O U Eh Hv. destruct (bucket_of m ts h O) as (tr & Htr & Ot & Hb).
  unfold mview in Hv. rewrite Htr in Hv. simpl in Hv.
  destruct (view_Some _ _ _ _ _ Ot Hv) as (l & x & Hf & _ & _ & Hi & _ & Hty).
  destruct (rep_lookup _ _ _ _ (ok_rep _ _ Ot) Hi) as (z & p & q & Hn). simpl in Hn.
  set (m1 := set_lock (index m h) true m). exists m1. split.
  - unfold updateCounter. erewrite stM_bind_Ret by (unfold lift; rewrite Eh; reflexivity).
    erewrite stM_bind_Ret by (by eapply lockWrite_ok). fold m1.
    assert (getNodeByKeyHash h m1 = Ret (m1, Some l)) as Eg.
    { unfold getNodeByKeyHash, on_bucket. simpl. change (index m1 h) with (index m h).
      rewrite (at_undef_Some _ _ _ Hb). simpl. change (bucket_state m1) with (bucket_state m).
      rewrite (AvlOps.get_ok _ h tr), Hf by apply Ot. simpl. unfold put_bucket. simpl.
      rewrite list_insert_id by done. done. }
    erewrite stM_bind_Ret by exact Eg. cbn iota.
    erewrite stM_bind_Ret by (unfold mret, stM_ret; reflexivity). cbn iota.
    erewrite stM_bind_Ret by (unfold get_map_node; simpl; rewrite Hn; reflexivity).
    rewrite decide_False; [done|]. simpl. by rewrite Hty.
  - intros key2 h2 value timestamp strategy b E2 Hidx.
    assert (locked m1 !! index m1 h2 = Some true) as Hl.
    { simpl. change (index m1 h2) with (index m h2). rewrite Hidx, list_lookup_insert_eq; [done|].
      destruct (mo_len _ _ O) as (_ & _ & ->). by apply index_lt. }
    destruct (locked_blocks m1 h2 Hl) as [Hr Hw].
    unfold get, putData, updateCounter, putCounter, remove.
    repeat split; (erewrite stM_bind_Ret by (unfold lift; rewrite E2; reflexivity)); by apply bind_Blocked.
Qed.

Lemma updateCounter_leaks_lock_witness :
  let key := SimpleString.fromChar 65 in
  let v := SimpleString.fromChar 7 in
  let tl := LamportClock.mk 3 1 in
  let x := mk_info key 1 65 (-1) Avl.DATA in
  let m := mk {[1%positive := node_of x None None]} {[1%positive := Avl.DataAVLNode v tl]} (Some 3)
             [Some 1%positive] [false] 1 0 in
  ∃ m', updateCounter (H := masking_target) key 1 1 true m = Ret (m', None) ∧
    ∀ key2 h2 value timestamp strategy b, calculateHash (H := masking_target) key2 = Ret h2 →
      index m h2 = index m 65 →
      get (H := masking_target) key2 m' = Blocked ∧
      putData (H := masking_target) key2 value timestamp strategy b m' = Blocked ∧
      updateCounter (H := masking_target) key2 1 1 b m' = Blocked ∧
      putCounter (H := masking_target) key2 1 1 m' = Blocked ∧
      remove (H := masking_target) key2 timestamp strategy b m' = Blocked.
Proof.
  intros key v tl x m.
  apply (updateCounter_leaks_lock (H := masking_target) m [T 1 E x E] key key v tl 65 1 1 true);
    [|repeat constructor|vm_compute; reflexivity|vm_compute; reflexivity].
  split.
  - exists 0. split; [lia|reflexivity].
  - repeat split.
  - intros [|i] tr Htr; [|done]. injection Htr as <-. split; [|reflexivity]. split.
    + repeat split.
    + repeat constructor; set_solver.
    + reflexivity.
    + repeat constructor.
    + simpl. repeat split; try lia. by right.
    + repeat constructor; unfold ufits, hash_of; simpl; lia.
    + repeat constructor. unfold typed. simpl. eauto.
    + repeat constructor; set_solver.
  - intros [|i] [|j] ti tj; done.
Defined.
