(* ===== verification/Messages.v ===== *)
(** * Requests and responses

    Models [messages/request/Request.cpp], [messages/request/RequestBuilder.cpp],
    [messages/response/Response.cpp], [messages/response/ResponseBuilder.cpp] and
    [messages/response/ErrorCode.h].  Arguments are a shared pointer to a vector, so they
    are an optional list; the builders return the values the setters accumulated. *)

From S2P Require Import Prelude.
From S2P Require Import Utils.
From S2P Require Import Clock.

(** [AuthenticationType]. *)
Inductive AuthenticationType := USER | NODE.

#[global] Instance AuthenticationType_eq_dec : EqDecision AuthenticationType.
Proof. solve_decision. Defined.

(** ** [OperationBody], [AuthenticationBody] and [Request] *)

Module OperationBody.

Record t := mk {
  args : option (list SimpleString.t);
  timestamp : Z;
  nodeId : Z;
  operatorNumber : Z;
  flag1 : bool;
  flag2 : bool;
}.

#[global] Instance eq_dec : EqDecision t.
Proof. solve_decision. Defined.

(** Dereferencing the vector of arguments. *)
Definition the_args (o : t) : outcome (list SimpleString.t) :=
  match args o with Some l => Ret l | None => Undef end.

(** [OperationBody::getTotalLength]. *)
Definition getTotalLength (o : t) (includesNodeId : bool) : outcome Z :=
  let totalLength := 0 in
  let totalLength := u32 (totalLength + 1) in
  let totalLength := u32 (totalLength + 8) in
  let totalLength := if includesNodeId then u32 (totalLength + 2) else totalLength in
  let! l := the_args o in
  Ret (foldl (λ totalLength arg, u32 (u32 (totalLength + 4) + SimpleString.size arg)) totalLength l).

(** [OperationBody::getArg]. *)
Definition getArg (o : t) (position : nat) : outcome SimpleString.t :=
  let! l := the_args o in at_throw l position.

(** [OperationBody::getArgOr]. *)
Definition getArgOr (o : t) (position : nat) (other : SimpleString.t) : outcome SimpleString.t :=
  let! l := the_args o in
  if decide (position < length l)%nat then at_throw l position else Ret other.

(** [OperationBody::getDoubleArgU64]. *)
Definition getDoubleArgU64 (o : t) (start : nat) : outcome Z :=
  let! a := getArg o start in
  let! part1 := SimpleString.to 4 false a in
  let! b := getArg o (start + 1) in
  let! part2 := SimpleString.to 4 false b in
  Ret (Z.lor (u64 (Z.shiftl part1 32)) part2).

(** [OperationBody::setArg]; writing at [end()] is undefined. *)
Definition setArg (o : t) (position : nat) (newArg : SimpleString.t) : outcome t :=
  let! l := the_args o in
  let set l := mk (Some l) (timestamp o) (nodeId o) (operatorNumber o) (flag1 o) (flag2 o) in
  if decide (length l < position)%nat then Ret (set (l ++ [newArg]))
  else let! _ := at_undef l position in Ret (set (<[position:=newArg]> l)).

(** [OperationBody::operator==]; the vectors are compared by address ([same_args]). *)
Definition eqb (a b : t) (same_args : bool) : bool :=
  (timestamp a =? timestamp b) && (nodeId a =? nodeId b)
  && (operatorNumber a =? operatorNumber b)
  && Bool.eqb (flag1 a) (flag1 b) && Bool.eqb (flag2 a) (flag2 b) && same_args.

End OperationBody.

Module AuthenticationBody.

Record t := mk { authKey : bytes; flag1 : bool; flag2 : bool }.

(** [AuthenticationBody::getTotalLength]. *)
Definition getTotalLength (a : t) : Z := u32 (1 + Z.of_nat (length (authKey a))).

End AuthenticationBody.

Module Request.

Record t := mk {
  authentication : AuthenticationBody.t;
  operation : OperationBody.t;
  requestNumber : Z;
  authenticationType : AuthenticationType;
}.

(** [Request::getTotalLength]. *)
Definition getTotalLength (r : t) : outcome Z :=
  let! opLength := OperationBody.getTotalLength (operation r)
                     (AuthenticationBody.flag1 (authentication r)) in
  Ret (u32 (4 + AuthenticationBody.getTotalLength (authentication r) + opLength)).

End Request.

(** ** [RequestBuilder] *)

Module RequestBuilder.

Record t := mk {
  _authKey : bytes;
  _authFlag1 : bool;
  _authFlag2 : bool;
  _requestNumber : Z;
  _operatorNumber : Z;
  _operatorFlag1 : bool;
  _operatorFlag2 : bool;
  _nodeId : Z;
  _timestamp : Z;
  _args : list SimpleString.t;
}.

(** [RequestBuilder::builder]; [_operatorNumber] has no initial value in the code. *)
Definition builder : t := mk [] false false 0 0 false false 0 0 [].

Definition authKey (k : bytes) (b : t) : t :=
  mk k (_authFlag1 b) (_authFlag2 b) (_requestNumber b) (_operatorNumber b) (_operatorFlag1 b)
     (_operatorFlag2 b) (_nodeId b) (_timestamp b) (_args b).
Definition authFlag2 (v : bool) (b : t) : t :=
  mk (_authKey b) (_authFlag1 b) v (_requestNumber b) (_operatorNumber b) (_operatorFlag1 b)
     (_operatorFlag2 b) (_nodeId b) (_timestamp b) (_args b).
Definition auth (k : bytes) (f1 f2 : bool) (b : t) : t :=
  mk k f1 f2 (_requestNumber b) (_operatorNumber b) (_operatorFlag1 b) (_operatorFlag2 b)
     (_nodeId b) (_timestamp b) (_args b).
Definition requestNumber (n : Z) (b : t) : t :=
  mk (_authKey b) (_authFlag1 b) (_authFlag2 b) n (_operatorNumber b) (_operatorFlag1 b)
     (_operatorFlag2 b) (_nodeId b) (_timestamp b) (_args b).
Definition operatorNumber (n : Z) (b : t) : t :=
  mk (_authKey b) (_authFlag1 b) (_authFlag2 b) (_requestNumber b) n (_operatorFlag1 b)
     (_operatorFlag2 b) (_nodeId b) (_timestamp b) (_args b).
Definition operatorFlag1 (v : bool) (b : t) : t :=
  mk (_authKey b) (_authFlag1 b) (_authFlag2 b) (_requestNumber b) (_operatorNumber b) v
     (_operatorFlag2 b) (_nodeId b) (_timestamp b) (_args b).
Definition operatorFlag2 (v : bool) (b : t) : t :=
  mk (_authKey b) (_authFlag1 b) (_authFlag2 b) (_requestNumber b) (_operatorNumber b)
     (_operatorFlag1 b) v (_nodeId b) (_timestamp b) (_args b).
Definition timestamp (v : Z) (b : t) : t :=
  mk (_authKey b) (_authFlag1 b) (_authFlag2 b) (_requestNumber b) (_operatorNumber b)
     (_operatorFlag1 b) (_operatorFlag2 b) (_nodeId b) v (_args b).
(** [RequestBuilder::selfNode] also marks the request as a node's. *)
Definition selfNode (v : Z) (b : t) : t :=
  mk (_authKey b) true (_authFlag2 b) (_requestNumber b) (_operatorNumber b)
     (_operatorFlag1 b) (_operatorFlag2 b) v (_timestamp b) (_args b).
Definition args (l : list SimpleString.t) (b : t) : t :=
  mk (_authKey b) (_authFlag1 b) (_authFlag2 b) (_requestNumber b) (_operatorNumber b)
     (_operatorFlag1 b) (_operatorFlag2 b) (_nodeId b) (_timestamp b) l.
Definition addArg (a : SimpleString.t) (b : t) : t := args (_args b ++ [a]) b.
(** [RequestBuilder::addDoubleArg]: the high and the low 32 bits as two arguments. *)
Definition addDoubleArg (a : Z) (b : t) : t :=
  let part1 := u32 (Z.shiftr a 32) in
  let part2 := Z.land (u32 a) 0xFFFFFFFF in
  args (_args b ++ [SimpleString.fromNumber 4 part1; SimpleString.fromNumber 4 part2]) b.

(** [RequestBuilder::buildOperationBody]. *)
Definition buildOperationBody (b : t) : OperationBody.t :=
  OperationBody.mk (Some (_args b)) (_timestamp b) (_nodeId b) (_operatorNumber b)
    (_operatorFlag1 b) (_operatorFlag2 b).

(** [RequestBuilder::build]. *)
Definition build (b : t) : Request.t :=
  Request.mk (AuthenticationBody.mk (_authKey b) (_authFlag1 b) (_authFlag2 b))
    (buildOperationBody b) (_requestNumber b) USER.

End RequestBuilder.

(** ** [ErrorCode], [Response] and [ResponseBuilder] *)

Module ErrorCode.
Definition AUTH_ERROR : Z := 0.
Definition UNKNOWN_KEY : Z := 1.
Definition UNKNOWN_OPERATOR : Z := 2.
Definition ALREADY_REPLICATED : Z := 3.
Definition NOT_AUTHORIZED : Z := 4.
Definition INVALID_NODE_STATE : Z := 5.
Definition INVALID_PARTITION : Z := 6.
Definition INVALID_CALL : Z := 7.
Definition SYNC_OP_LOG_EOF : Z := 8.
Definition UNFIXABLE_CORRUPTED_OPLOG_SEGMENT : Z := 9.
Definition CAS_FAILED : Z := 10.
Definition NODE_NOT_FOUND : Z := 11.
Definition INVALID_TYPE : Z := 12.
End ErrorCode.

Module Response.

Record t := mk {
  isSuccessful : bool;
  errorCode : Z;
  timestamp : LamportClock.t;
  requestNumber : Z;
  responseValue : SimpleString.t;
}.

(** [Response::getTotalLength]. *)
Definition getTotalLength (r : t) : Z :=
  u32 (4 + 8 + 2 + 1 + (if 0 <? SimpleString.size (responseValue r)
                        then 4 + SimpleString.size (responseValue r) else 4)).

(** [Response::hasErrorCode]. *)
Definition hasErrorCode (r : t) (errorCodeToCheck : Z) : bool :=
  Z.land (Z.shiftr (errorCode r) 1) errorCodeToCheck =? errorCodeToCheck.

(** [Response::getResponseValueAtOffset]. *)
Definition getResponseValueAtOffset (r : t) (initOffset size : nat) : outcome SimpleString.t :=
  SimpleString.fromPointer (drop initOffset (SimpleString.data (responseValue r))) size.

(** [Response::success] and [Response::error]. *)
Definition success_value (response : SimpleString.t) (timestamp : LamportClock.t) : t :=
  mk true 0 timestamp 0 response.
Definition success (timestamp : LamportClock.t) : t := mk true 0 timestamp 0 SimpleString.empty.
Definition error (errorCode : Z) : t := mk false errorCode (LamportClock.mk 0 0) 0 SimpleString.empty.
Definition error_to (errorCode requestNumber : Z) (timestamp : LamportClock.t) : t :=
  mk false errorCode timestamp requestNumber SimpleString.empty.

End Response.

Module ResponseBuilder.

Record t := mk {
  _responseValue : list SimpleString.t;
  _requestNumber : Z;
  _timestamp : LamportClock.t;
  _errorCode : Z;
  _isSuccessful : bool;
}.

Definition builder : t := mk [] 0 (LamportClock.mk 0 0) 0 false.

Definition timestamp (v : LamportClock.t) (b : t) : t :=
  mk (_responseValue b) (_requestNumber b) v (_errorCode b) (_isSuccessful b).
(** [LamportClock{0, timestampCounter}] is (node, counter). *)
Definition timestampCounter (v : Z) (b : t) : t :=
  mk (_responseValue b) (_requestNumber b) (LamportClock.mk v 0) (_errorCode b) (_isSuccessful b).
Definition error (code : Z) (b : t) : t :=
  mk (_responseValue b) (_requestNumber b) (_timestamp b) code false.
Definition success (b : t) : t :=
  mk (_responseValue b) (_requestNumber b) (_timestamp b) (_errorCode b) true.
Definition requestNumber (n : Z) (b : t) : t :=
  mk (_responseValue b) n (_timestamp b) (_errorCode b) (_isSuccessful b).
Definition isSuccessful (v : bool) (errorCodeIfUnsuccessful : Z) (b : t) : t :=
  mk (_responseValue b) (_requestNumber b) (_timestamp b)
     (if v then _errorCode b else errorCodeIfUnsuccessful) v.
Definition value (v : SimpleString.t) (b : t) : t :=
  mk (_responseValue b ++ [v]) (_requestNumber b) (_timestamp b) (_errorCode b) (_isSuccessful b).
Definition valueIfSuccessful (isSuccess : bool) (v : SimpleString.t) (b : t) : t :=
  if isSuccess then value v b else b.
Definition values (l : list SimpleString.t) (b : t) : t :=
  mk l (_requestNumber b) (_timestamp b) (_errorCode b) (_isSuccessful b).

(** [ResponseBuilder::buildResponseValue]; without a value it is the [int] 0. *)
Definition buildResponseValue (b : t) : outcome SimpleString.t :=
  match _responseValue b with
  | [] => Ret (SimpleString.fromNumber 4 0)
  | [v] => Ret v
  | l => SimpleString.fromSimpleStrings l
  end.

(** [ResponseBuilder::build]. *)
Definition build (b : t) : outcome Response.t :=
  let! v := buildResponseValue b in
  Ret (Response.mk (_isSuccessful b) (_errorCode b) (_timestamp b) (_requestNumber b) v).

End ResponseBuilder.
