(* ===== verification/Codec.v ===== *)
(** * Wire formats

    Models [RequestSerializer], [RequestDeserializer], [ResponseSerializer],
    [ResponseDeserializer] (under [messages/]) and [OperationLogSerializer],
    [OperationLogDeserializer] (under [persistence/serializers/]).  A read past the end of
    the buffer is undefined; the argument loop of a request and the record loop of an
    operation log carry fuel. *)

From S2P Require Import Prelude.
From S2P Require Import Utils.
From S2P Require Import Clock.
From S2P Require Import Messages.

Definition b2z (b : bool) : Z := if b then 1 else 0.

(** [value << 2 | flag1 << 1 | flag2] stored in a byte. *)
Definition header (value : Z) (flag1 flag2 : bool) : Z :=
  u8 (Z.lor (Z.lor (Z.shiftl value 2) (Z.shiftl (b2z flag1) 1)) (b2z flag2)).

(** ** Requests *)

Module RequestSerializer.

(** One argument: its length and its bytes. *)
Definition append_arg (out : bytes) (arg : SimpleString.t) : outcome bytes :=
  Utils.appendPtrToBuffer (SimpleString.data arg) (Z.to_nat (SimpleString.size arg))
    (Utils.appendToBuffer 4 (SimpleString.size arg) out).

(** [RequestSerializer::serialize]. *)
Definition serialize (request : Request.t) : outcome bytes :=
  let auth := Request.authentication request in
  let op := Request.operation request in
  let out := Utils.appendToBuffer 4 (Request.requestNumber request) [] in
  let keyLength := length (AuthenticationBody.authKey auth) in
  let out := out ++ [header (Z.of_nat keyLength) (AuthenticationBody.flag1 auth)
                            (AuthenticationBody.flag2 auth)] in
  let! out := Utils.appendPtrToBuffer (AuthenticationBody.authKey auth) keyLength out in
  let out := out ++ [header (OperationBody.operatorNumber op) (OperationBody.flag1 op)
                            (OperationBody.flag2 op)] in
  let out := Utils.appendToBuffer 8 (OperationBody.timestamp op) out in
  let out := if AuthenticationBody.flag1 auth
             then Utils.appendToBuffer 2 (OperationBody.nodeId op) out else out in
  let! args := OperationBody.the_args op in
  ofoldl append_arg out args.

End RequestSerializer.

Module RequestDeserializer.
Section deserializer.
Context `{Platform}.

Definition FLAG1_MASK : Z := 0x20.
Definition FLAG2_MASK : Z := 0x10.

(** [RequestDeserializer::getValueWithoutFlags]. *)
Definition getValueWithoutFlags (buffer : bytes) (pos : nat) : outcome Z :=
  let! b := at_undef buffer pos in Ret (Z.shiftr b 2).

(** [RequestDeserializer::getFlag]. *)
Definition getFlag (buffer : bytes) (pos : nat) (flagMask : Z) : outcome bool :=
  let! b := at_undef buffer pos in Ret (negb (Z.land (Z.shiftl b 4) flagMask =? 0)).

(** [RequestDeserializer::fill]; the positions are [int]s. *)
Definition fill (buffer : bytes) (initialPos endPos : Z) : outcome bytes :=
  let initialPos := i32 initialPos in
  let endPos := i32 endPos in
  let size := endPos - initialPos in
  if size <? 0 then Throw bad_alloc
  else if initialPos <? 0 then Undef
  else slice buffer (Z.to_nat initialPos) (Z.to_nat size).

(** [RequestDeserializer::deserializeAuthenticacion]. *)
Definition deserializeAuthenticacion (buffer : bytes) : outcome AuthenticationBody.t :=
  let! authLength := getValueWithoutFlags buffer 4 in
  let! authKey := fill buffer (4 + 1) (4 + authLength + 1) in
  let! flagAuth1 := getFlag buffer 4 FLAG1_MASK in
  let! flagAuth2 := getFlag buffer 4 FLAG2_MASK in
  Ret (AuthenticationBody.mk authKey flagAuth1 flagAuth2).

(** The argument loop of [deserializeOperation]. *)
Fixpoint args_loop (fuel : nat) (buffer : bytes) (position : nat) (arguments : list SimpleString.t) :
    outcome (list SimpleString.t) :=
  match fuel with
  | O => NoFuel
  | S fuel =>
      if decide (position + 1 < length buffer)%nat then
        let! argLength := Utils.parseFromBuffer 4 buffer position in
        let position := (position + 4)%nat in
        if argLength =? 0 then Ret arguments
        else
          let! argValue := fill buffer (Z.of_nat position) (Z.of_nat position + argLength) in
          args_loop fuel buffer (position + Z.to_nat argLength)
            (arguments ++ [SimpleString.mk argValue argLength])
      else Ret arguments
  end.

(** [RequestDeserializer::deserializeOperation]; every iteration consumes at least four
    bytes, so the length of the buffer is enough fuel. *)
Definition deserializeOperation (buffer : bytes) (position : nat) (includesNodeId : bool) :
    outcome OperationBody.t :=
  let! operatorNumber := getValueWithoutFlags buffer position in
  let! flagOperation1 := getFlag buffer position FLAG1_MASK in
  let! flagOperation2 := getFlag buffer position FLAG2_MASK in
  let position := (position + 1)%nat in
  let! timestamp := Utils.parseFromBuffer 8 buffer position in
  let position := (position + 8)%nat in
  let! (nodeId, position) :=
    (if includesNodeId
     then let! nodeId := Utils.parseFromBuffer 2 buffer position in Ret (nodeId, (position + 2)%nat)
     else Ret (1, position)) in
  if decide (position = length buffer - 1)%nat
  then Ret (OperationBody.mk None timestamp nodeId operatorNumber flagOperation1 flagOperation2)
  else
    let! arguments := args_loop (S (length buffer)) buffer position [] in
    Ret (OperationBody.mk (Some arguments) timestamp nodeId operatorNumber flagOperation1 flagOperation2).

(** [RequestDeserializer::deserialize]. *)
Definition deserialize (buffer : bytes) : outcome Request.t :=
  let! requestNumber := Utils.parseFromBuffer 4 buffer 0 in
  let! authentication := deserializeAuthenticacion buffer in
  let! operation := deserializeOperation buffer
    (Z.to_nat (AuthenticationBody.getTotalLength authentication + 4))
    (AuthenticationBody.flag1 authentication) in
  Ret (Request.mk authentication operation requestNumber USER).

End deserializer.
End RequestDeserializer.

(** ** Responses *)

Module ResponseCodec.

(** [ResponseSerializer::serialize]. *)
Definition serialize (response : Response.t) : outcome bytes :=
  let serialized := Utils.appendToBuffer 4 (Response.requestNumber response) [] in
  let serialized := Utils.appendToBuffer 8 (LamportClock.counter (Response.timestamp response)) serialized in
  let serialized := Utils.appendToBuffer 2 (LamportClock.nodeId (Response.timestamp response)) serialized in
  let serialized := serialized ++
    [u8 (Z.lor (Z.shiftl (Response.errorCode response) 1) (b2z (Response.isSuccessful response)))] in
  let value := Response.responseValue response in
  let serialized := Utils.appendToBuffer 4 (SimpleString.size value) serialized in
  Utils.appendPtrToBuffer (SimpleString.data value) (Z.to_nat (SimpleString.size value)) serialized.

(** [ResponseDeserializer::deserialize]; the length test asks for 17 bytes, two short of
    the fixed part. *)
Definition deserialize `{Platform} (buffer : bytes) : outcome (option Response.t) :=
  if Z.of_nat (length buffer) <? 4 + 8 + 1 + 4 then Ret None
  else
    let! requestNumber := Utils.parseFromBuffer 4 buffer 0 in
    let! timestampCounter := Utils.parseFromBuffer 8 buffer 4 in
    let! timestampNodeId := Utils.parseFromBuffer 2 buffer (4 + 8) in
    let! b := at_undef buffer (8 + 2 + 4) in
    let success := negb (u8 (Z.shiftl b 7) =? 0) in
    let errorCode := u8 (Z.shiftr b 1) in
    let! lengthResponse := Utils.parseFromBuffer 4 buffer (8 + 2 + 4 + 1) in
    let! responseBody := Utils.copyFromBuffer buffer (8 + 2 + 4 + 1 + 4)
                           (u64 (Z.of_nat (length buffer) - 1)) in
    Ret (Some (Response.mk success errorCode (LamportClock.mk timestampCounter timestampNodeId)
                 requestNumber (SimpleString.mk responseBody lengthResponse))).

End ResponseCodec.

(** ** Operation logs *)

Module OperationLogCodec.

(** The loop [for(uint8_t j = 0; j < arg->size; j++)]. *)
Fixpoint arg_bytes_loop (fuel : nat) (j : Z) (arg : SimpleString.t) (out : bytes) : outcome bytes :=
  match fuel with
  | O => NoFuel
  | S fuel =>
      if j <? SimpleString.size arg then
        let! b := at_undef (SimpleString.data arg) (Z.to_nat j) in
        arg_bytes_loop fuel (u8 (j + 1)) arg (out ++ [b])
      else Ret out
  end.

(** [OperationLogSerializer::writePadding]. *)
Definition writePadding (buffer : bytes) : bytes := buffer ++ [0; 0; 0; 0].

(** [OperationLogSerializer::serialize]; 257 iterations are enough when the loop ends. *)
Definition serialize (serializedOut : bytes) (op : OperationBody.t) : outcome bytes :=
  let out := serializedOut ++ [header (OperationBody.operatorNumber op) (OperationBody.flag1 op)
                                      (OperationBody.flag2 op)] in
  let out := Utils.appendToBuffer 8 (OperationBody.timestamp op) out in
  let! out :=
    match OperationBody.args op with
    | None => Ret out
    | Some args =>
        ofoldl (λ out arg, arg_bytes_loop 257 0 arg (Utils.appendToBuffer 4 (SimpleString.size arg) out))
          out args
    end in
  Ret (writePadding out).

(** [OperationLogSerializer::serializeAll] and [serializeAllShared]. *)
Definition serializeAll (toSerialize : list OperationBody.t) : outcome bytes :=
  ofoldl serialize [] toSerialize.

(** [OperationLogDeserializer::deserializeAll]; the step is a [uint8_t]. *)
Fixpoint deserialize_loop `{Platform} (fuel : nat) (buffer : bytes) (offset : nat)
    (logs : list OperationBody.t) : outcome (list OperationBody.t) :=
  match fuel with
  | O => NoFuel
  | S fuel =>
      if decide (offset < length buffer)%nat then
        let! op := RequestDeserializer.deserializeOperation buffer offset false in
        let! len := OperationBody.getTotalLength op false in
        let toIncrease := u8 (len + 4) in
        deserialize_loop fuel buffer (offset + Z.to_nat toIncrease) (logs ++ [op])
      else Ret logs
  end.
Definition deserializeAll `{Platform} (buffer : bytes) : outcome (list OperationBody.t) :=
  match buffer with
  | [] => Ret []
  | _ => deserialize_loop (S (length buffer)) buffer 0 []
  end.

End OperationLogCodec.

(** ** Byte layouts *)

(** A non-empty argument whose [size] is the length of its buffer. *)
Definition arg_ok (a : SimpleString.t) : Prop := SimpleString.ok a ∧ 0 < SimpleString.size a < 2 ^ 31.

Definition arg_bytes (a : SimpleString.t) : bytes := be_bytes 4 (SimpleString.size a) ++ SimpleString.data a.
Definition args_bytes (args : list SimpleString.t) : bytes := concat (arg_bytes <$> args).

Definition op_bytes (op : OperationBody.t) (args : list SimpleString.t) (includesNodeId : bool) : bytes :=
  [header (OperationBody.operatorNumber op) (OperationBody.flag1 op) (OperationBody.flag2 op)]
  ++ be_bytes 8 (OperationBody.timestamp op)
  ++ (if includesNodeId then be_bytes 2 (OperationBody.nodeId op) else []) ++ args_bytes args.

(** What the formats can carry: six bits of operator number and timestamps below [2 ^ 31]. *)
Record op_ok (op : OperationBody.t) (args : list SimpleString.t) : Prop := {
  oo_args : OperationBody.args op = Some args;
  oo_each : Forall arg_ok args;
  oo_number : 0 ≤ OperationBody.operatorNumber op < 64;
  oo_time : 0 ≤ OperationBody.timestamp op < 2 ^ 31;
  oo_node : ufits 16 (OperationBody.nodeId op);
}.

Lemma append_arg_ok out a : SimpleString.ok a → RequestSerializer.append_arg out a = Ret (out ++ arg_bytes a).
Proof.
  intros [Hs _]. unfold RequestSerializer.append_arg. rewrite Hs, Nat2Z.id, appendToBuffer_be, <- Hs.
  rewrite <- (app_nil_r (SimpleString.data a)) at 1. rewrite appendPtrToBuffer_app.
  unfold arg_bytes. by rewrite app_assoc.
Qed.

Lemma append_args_ok out args :
  Forall arg_ok args → ofoldl RequestSerializer.append_arg out args = Ret (out ++ args_bytes args).
Proof.
  intros H. revert out. induction H as [|a args [Ha _] _ IH]; intros out; simpl.
  - by rewrite app_nil_r.
  - rewrite append_arg_ok by done. simpl. rewrite IH. by rewrite <- app_assoc.
Qed.

Lemma appendPtr_all l out : Utils.appendPtrToBuffer l (length l) out = Ret (out ++ l).
Proof. rewrite <- (app_nil_r l) at 1. apply appendPtrToBuffer_app. Qed.

(** The bytes of a request. *)
Lemma serialize_layout r args :
  op_ok (Request.operation r) args →
  let auth := Request.authentication r in
  RequestSerializer.serialize r
  = Ret (be_bytes 4 (Request.requestNumber r)
         ++ [header (Z.of_nat (length (AuthenticationBody.authKey auth)))
               (AuthenticationBody.flag1 auth) (AuthenticationBody.flag2 auth)]
         ++ AuthenticationBody.authKey auth
         ++ op_bytes (Request.operation r) args (AuthenticationBody.flag1 auth)).
Proof.
  intros O auth. unfold RequestSerializer.serialize. fold auth.
  rewrite appendToBuffer_be, appendPtr_all, app_nil_l. cbn [obind].
  unfold OperationBody.the_args. rewrite (oo_args _ _ O). cbn [obind].
  rewrite append_args_ok by apply O. rewrite !appendToBuffer_be. unfold op_bytes.
  destruct (AuthenticationBody.flag1 auth); rewrite <- ?app_assoc; reflexivity.
Qed.

(** ** Header bytes *)

Lemma header_value v f1 f2 : 0 ≤ v < 64 → header v f1 f2 = v * 4 + b2z f1 * 2 + b2z f2.
Proof.
  intros Hv. unfold header.
  assert (Z.shiftl (b2z f1) 1 = b2z f1 * 2) as -> by (by rewrite Z.shiftl_mul_pow2).
  rewrite (lor_shiftl_add v 2) by (destruct f1; simpl; lia).
  replace (v * 2 ^ 2 + b2z f1 * 2) with (Z.shiftl (v * 2 + b2z f1) 1) by (rewrite Z.shiftl_mul_pow2; lia).
  rewrite lor_shiftl_add by (destruct f2; simpl; lia).
  rewrite wrap_small; destruct f1, f2; unfold ufits; simpl; lia.
Qed.

Lemma header_shiftr v f1 f2 : 0 ≤ v < 64 → Z.shiftr (header v f1 f2) 2 = v.
Proof.
  intros Hv. rewrite header_value, Z.shiftr_div_pow2 by lia.
  destruct f1, f2; simpl; Z.div_mod_to_equations; lia.
Qed.

Lemma header_flags v f1 f2 :
  0 ≤ v < 64 →
  negb (Z.land (Z.shiftl (header v f1 f2) 4) RequestDeserializer.FLAG1_MASK =? 0) = f1 ∧
  negb (Z.land (Z.shiftl (header v f1 f2) 4) RequestDeserializer.FLAG2_MASK =? 0) = f2.
Proof.
  intros Hv. assert (∃ n : nat, v = Z.of_nat n ∧ (n < 64)%nat) as (n & -> & Hn).
  { exists (Z.to_nat v). lia. }
  do 64 (destruct n as [|n]; [destruct f1, f2; split; reflexivity|]). lia.
Qed.

Lemma args_bytes_cons a args : args_bytes (a :: args) = arg_bytes a ++ args_bytes args.
Proof. done. Qed.

Lemma length_arg_bytes a : length (arg_bytes a) = (4 + length (SimpleString.data a))%nat.
Proof. unfold arg_bytes. by rewrite length_app. Qed.

(** ** Reading an operation back *)

Section reading.
Context `{Platform}.
Import RequestDeserializer.

Lemma fill_ok pre l post :
  Z.of_nat (length pre + length l) < 2 ^ 31 →
  fill (pre ++ l ++ post) (Z.of_nat (length pre)) (Z.of_nat (length pre) + Z.of_nat (length l)) = Ret l.
Proof.
  intros Hb. unfold fill. rewrite !sext_small by (unfold sfits; simpl; lia).
  destruct (Z.ltb_spec (Z.of_nat (length pre) + Z.of_nat (length l) - Z.of_nat (length pre)) 0); [lia|].
  destruct (Z.ltb_spec (Z.of_nat (length pre)) 0); [lia|].
  rewrite Nat2Z.id. replace (Z.to_nat _) with (length l) by lia. apply slice_app.
Qed.

(** The arguments end with the buffer, or with a zero length. *)
Definition ends (post : bytes) : Prop := post = [] ∨ ∃ rest, post = [0; 0; 0; 0] ++ rest.

Lemma args_loop_ok fuel pre args post acc :
  Forall arg_ok args → ends post → (length args < fuel)%nat →
  Z.of_nat (length (pre ++ args_bytes args ++ post)) < 2 ^ 31 →
  args_loop fuel (pre ++ args_bytes args ++ post) (length pre) acc = Ret (acc ++ args).
Proof.
  intros Hok Hpost. revert fuel pre acc. induction Hok as [|a args [[Hs Hby] [Hp Hlt]] _ IH];
    intros [|fuel] pre acc Hf Hb; simpl in Hf; try lia; cbn [args_loop].
  - unfold args_bytes in *. simpl in *. rewrite app_nil_r. destruct Hpost as [->|[rest ->]].
    + rewrite app_nil_r, decide_False by lia. done.
    + rewrite decide_True by (rewrite !length_app; simpl; lia).
      pose proof (parseFromBuffer_narrow 4 pre 0 rest ltac:(lia)) as E.
      change (be_bytes 4 0) with [0; 0; 0; 0] in E. rewrite E by (split; simpl; lia). done.
  - rewrite args_bytes_cons, <- app_assoc in *. rewrite !length_app, length_arg_bytes in Hb.
    rewrite decide_True by (rewrite !length_app, length_arg_bytes; lia). unfold arg_bytes.
    rewrite <- !app_assoc. rewrite parseFromBuffer_narrow; [|lia|split; simpl; lia]. cbn [obind].
    destruct (Z.eqb_spec (SimpleString.size a) 0); [lia|].
    set (pre' := pre ++ be_bytes 4 (SimpleString.size a)).
    assert (length pre' = length pre + 4)%nat as Hp' by (unfold pre'; by rewrite length_app).
    rewrite (app_assoc pre). fold pre'. rewrite <- Hp'.
    pose proof (fill_ok pre' (SimpleString.data a) (args_bytes args ++ post)) as Ef. rewrite <- Hs in Ef.
    rewrite Ef by (rewrite Hp'; lia). cbn [obind].
    replace (Z.to_nat (SimpleString.size a)) with (length (SimpleString.data a)) by lia.
    rewrite <- length_app, (app_assoc pre'). rewrite IH; [|lia|].
    + rewrite <- app_assoc. do 3 f_equal. by destruct a.
    + rewrite !length_app, Hp'. lia.
Qed.

Lemma at_undef_mid {A} (pre post : list A) (a : A) : at_undef (pre ++ a :: post) (length pre) = Ret a.
Proof. apply at_undef_Some. rewrite lookup_app_r by done. by rewrite Nat.sub_diag. Qed.

(** The operation that was written; the node is 1 when the format leaves it out. *)
Definition op_read (op : OperationBody.t) (args : list SimpleString.t) (includesNodeId : bool) : OperationBody.t :=
  OperationBody.mk (Some args) (OperationBody.timestamp op)
    (if includesNodeId then OperationBody.nodeId op else 1)
    (OperationBody.operatorNumber op) (OperationBody.flag1 op) (OperationBody.flag2 op).

(** The bytes of the operation before its arguments. *)
Definition op_head (op : OperationBody.t) (includesNodeId : bool) : bytes :=
  [header (OperationBody.operatorNumber op) (OperationBody.flag1 op) (OperationBody.flag2 op)]
  ++ be_bytes 8 (OperationBody.timestamp op)
  ++ (if includesNodeId then be_bytes 2 (OperationBody.nodeId op) else []).

Lemma op_bytes_head op args incl : op_bytes op args incl = op_head op incl ++ args_bytes args.
Proof. unfold op_bytes, op_head. by rewrite <- !app_assoc. Qed.

Lemma length_op_head op incl : length (op_head op incl) = (if incl then 11 else 9)%nat.
Proof. unfold op_head. rewrite !length_app, length_be_bytes. by destruct incl. Qed.

Lemma length_args_bytes args : (4 * length args ≤ length (args_bytes args))%nat.
Proof.
  induction args as [|a args IH]; [simpl; lia|].
  rewrite args_bytes_cons, length_app, length_arg_bytes. simpl. lia.
Qed.

(** A buffer never stops one byte after the header of an operation. *)
Lemma rest_length args post :
  ends post → length (args_bytes args ++ post) ≠ 1%nat.
Proof.
  intros Hp. rewrite length_app. destruct args as [|a args].
  - destruct Hp as [->|[rest ->]]; simpl; lia.
  - rewrite args_bytes_cons, length_app, length_arg_bytes. lia.
Qed.

Lemma deserializeOperation_ok pre op args incl post :
  op_ok op args → ends post →
  Z.of_nat (length (pre ++ op_bytes op args incl ++ post)) < 2 ^ 31 →
  deserializeOperation (pre ++ op_bytes op args incl ++ post) (length pre) incl = Ret (op_read op args incl).
Proof.
  intros [Ha Hall Hn Ht Hid] Hp Hb. rewrite op_bytes_head, <- app_assoc in *.
  set (tail := args_bytes args ++ post). unfold deserializeOperation, getValueWithoutFlags, getFlag.
  set (h := header (OperationBody.operatorNumber op) (OperationBody.flag1 op) (OperationBody.flag2 op)).
  set (nd := if incl then be_bytes 2 (OperationBody.nodeId op) else []).
  assert (pre ++ op_head op incl ++ tail
          = pre ++ h :: be_bytes 8 (OperationBody.timestamp op) ++ nd ++ tail) as E.
  { unfold op_head. rewrite <- !app_assoc. reflexivity. }
  assert (at_undef (pre ++ op_head op incl ++ tail) (length pre) = Ret h) as Eh.
  { rewrite E. apply at_undef_mid. }
  rewrite Eh. cbn [obind].
  assert (Utils.parseFromBuffer 8 (pre ++ op_head op incl ++ tail) (length pre + 1)
          = Ret (OperationBody.timestamp op)) as Et.
  { rewrite E. replace (length pre + 1)%nat with (length (pre ++ [h])) by (rewrite length_app; done).
    replace (pre ++ h :: _) with ((pre ++ [h]) ++ be_bytes 8 (OperationBody.timestamp op) ++ nd ++ tail)
      by (rewrite <- app_assoc; done). by apply parseFromBuffer_8. }
  rewrite Et. cbn [obind].
  assert ((if incl then
             let! nodeId := Utils.parseFromBuffer 2 (pre ++ op_head op incl ++ tail) (length pre + 1 + 8) in
             Ret (nodeId, (length pre + 1 + 8 + 2)%nat)
           else Ret (1, (length pre + 1 + 8)%nat))
          = Ret (OperationBody.nodeId (op_read op args incl), length (pre ++ op_head op incl))) as ->.
  { rewrite length_app, length_op_head. destruct incl; cbn [op_read OperationBody.nodeId].
    - assert (Utils.parseFromBuffer 2 (pre ++ op_head op true ++ tail) (length pre + 1 + 8)
              = Ret (OperationBody.nodeId op)) as ->.
      { rewrite E. set (p := pre ++ h :: be_bytes 8 (OperationBody.timestamp op)).
        replace (length pre + 1 + 8)%nat with (length p) by (unfold p; rewrite length_app; simpl; lia).
        replace (pre ++ h :: _) with (p ++ be_bytes 2 (OperationBody.nodeId op) ++ tail)
          by (unfold p, nd; rewrite <- app_assoc; done).
        apply parseFromBuffer_narrow; [lia|done]. }
      cbn [obind]. do 2 f_equal. lia.
    - do 2 f_equal. lia. }
  cbn [obind]. rewrite (app_assoc pre) in *.
  assert (length tail ≠ 1%nat) by (by apply rest_length).
  rewrite decide_False by (rewrite (length_app (pre ++ _) tail);
    rewrite (length_app pre), length_op_head; destruct incl; lia).
  unfold tail. rewrite args_loop_ok; [|done|done| |done].
  { cbn [obind]. unfold h. rewrite header_shiftr by done.
    destruct (header_flags _ (OperationBody.flag1 op) (OperationBody.flag2 op) Hn) as [-> ->].
    by destruct incl. }
  rewrite !length_app. pose proof (length_args_bytes args). lia.
Qed.

End reading.

(** ** Reading a request back *)

(** What the request format can carry: a key of at most 63 bytes and operations as above. *)
Record request_ok (r : Request.t) (args : list SimpleString.t) : Prop := {
  ro_number : ufits 32 (Request.requestNumber r);
  ro_key : (length (AuthenticationBody.authKey (Request.authentication r)) < 64)%nat;
  ro_op : op_ok (Request.operation r) args;
  ro_size : Z.of_nat (length (args_bytes args)) < 2 ^ 30;
}.

(** The request the receiver builds. *)
Definition request_read (r : Request.t) (args : list SimpleString.t) : Request.t :=
  Request.mk (Request.authentication r)
    (op_read (Request.operation r) args (AuthenticationBody.flag1 (Request.authentication r)))
    (Request.requestNumber r) USER.

Section requests.
Context `{Platform}.
Import RequestDeserializer.

Lemma parseFromBuffer_start n v post :
  (n ≤ 4)%nat → ufits (8 * Z.of_nat n) v → Utils.parseFromBuffer n (be_bytes n v ++ post) 0 = Ret v.
Proof. intros Hn Hv. exact (parseFromBuffer_narrow n [] v post Hn Hv). Qed.

Lemma deserializeAuthenticacion_ok n a rest :
  (length (AuthenticationBody.authKey a) < 64)%nat →
  deserializeAuthenticacion
    (be_bytes 4 n ++ header (Z.of_nat (length (AuthenticationBody.authKey a)))
       (AuthenticationBody.flag1 a) (AuthenticationBody.flag2 a) :: AuthenticationBody.authKey a ++ rest)
  = Ret a.
Proof.
  intros Hk. set (h := header _ _ _). unfold deserializeAuthenticacion, getValueWithoutFlags, getFlag.
  assert (at_undef (be_bytes 4 n ++ h :: AuthenticationBody.authKey a ++ rest) 4 = Ret h) as ->.
  { change 4%nat with (length (be_bytes 4 n)) at 2. apply at_undef_mid. }
  cbn [obind]. unfold h at 2. rewrite header_shiftr by lia.
  pose proof (fill_ok (be_bytes 4 n ++ [h]) (AuthenticationBody.authKey a) rest) as Ef.
  rewrite <- app_assoc in Ef. cbn [app] in Ef.
  assert (length (be_bytes 4 n ++ [h]) = 5%nat) as E5 by done. rewrite E5 in Ef.
  replace (4 + Z.of_nat (length (AuthenticationBody.authKey a)) + 1)
    with (Z.of_nat 5 + Z.of_nat (length (AuthenticationBody.authKey a))) by lia.
  change (4 + 1) with (Z.of_nat 5). rewrite Ef by lia. cbn [obind]. unfold h.
  destruct (header_flags (Z.of_nat (length (AuthenticationBody.authKey a)))
    (AuthenticationBody.flag1 a) (AuthenticationBody.flag2 a)) as [-> ->]; [lia|]. by destruct a.
Qed.

Lemma request_layout_ok r args b :
  request_ok r args → RequestSerializer.serialize r = Ret b → deserialize b = Ret (request_read r args).
Proof.
  intros [Hn Hk Ho Hs] E. rewrite (serialize_layout r args Ho) in E. apply Ret_inj in E as <-.
  set (a := Request.authentication r) in *. set (f1 := AuthenticationBody.flag1 a) in *.
  set (ob := op_bytes (Request.operation r) args f1).
  set (h := header (Z.of_nat (length (AuthenticationBody.authKey a))) f1 (AuthenticationBody.flag2 a)).
  unfold deserialize. rewrite (parseFromBuffer_start 4) by (done || lia). cbn [obind].
  change ([h] ++ AuthenticationBody.authKey a ++ ob) with (h :: AuthenticationBody.authKey a ++ ob).
  unfold h, f1. rewrite deserializeAuthenticacion_ok by done. fold f1 h. cbn [obind].
  set (pre := be_bytes 4 (Request.requestNumber r) ++ h :: AuthenticationBody.authKey a).
  assert (length pre = 5 + length (AuthenticationBody.authKey a))%nat as Hpre.
  { unfold pre. rewrite length_app. simpl. lia. }
  replace (Z.to_nat (AuthenticationBody.getTotalLength a + 4)) with (length pre).
  2: { unfold AuthenticationBody.getTotalLength. rewrite wrap_small; [lia|].
       unfold ufits. change (2 ^ 32) with 4294967296. lia. }
  pose proof (deserializeOperation_ok pre (Request.operation r) args f1 [] Ho (or_introl eq_refl)) as Eo.
  fold ob in Eo. rewrite app_nil_r in Eo. unfold pre in Eo at 2. rewrite <- app_assoc in Eo.
  cbn [app] in Eo. fold f1. rewrite Eo; [done|]. rewrite length_app, Hpre.
  unfold ob. rewrite op_bytes_head, length_app, length_op_head. destruct f1; lia.
Qed.

End requests.

(** C23: a request written by [RequestSerializer] is read back by [RequestDeserializer] field
    by field (key of at most 63 bytes, six-bit operator number, timestamp below [2 ^ 31],
    non-empty arguments); the node is on the wire only when the first authentication flag
    says the sender is a node, otherwise the receiver assumes node 1. *)
Theorem request_roundtrip `{Platform} (r : Request.t) (args : list SimpleString.t) :
  request_ok r args →
  (let! b := RequestSerializer.serialize r in RequestDeserializer.deserialize b)
  = Ret (Request.mk (Request.authentication r)
      (OperationBody.mk (OperationBody.args (Request.operation r))
         (OperationBody.timestamp (Request.operation r))
         (if AuthenticationBody.flag1 (Request.authentication r)
          then OperationBody.nodeId (Request.operation r) else 1)
         (OperationBody.operatorNumber (Request.operation r))
         (OperationBody.flag1 (Request.operation r)) (OperationBody.flag2 (Request.operation r)))
      (Request.requestNumber r) USER).
Proof.
  intros Hr. pose proof (serialize_layout r args (ro_op _ _ Hr)) as E. cbv zeta in E.
  pose proof (request_layout_ok r args _ Hr E) as E'. rewrite E. cbn [obind].
  rewrite E'. rewrite (oo_args _ _ (ro_op _ _ Hr)). done.
Qed.

Definition sample_request : Request.t :=
  RequestBuilder.build (RequestBuilder.addArg (SimpleString.mk [118; 49] 2)
    (RequestBuilder.addArg (SimpleString.mk [107] 1) (RequestBuilder.timestamp 12
      (RequestBuilder.selfNode 3 (RequestBuilder.operatorNumber 1
        (RequestBuilder.requestNumber 77 (RequestBuilder.authKey [115; 101; 99] RequestBuilder.builder))))))).

Lemma request_roundtrip_witness :
  (let! b := RequestSerializer.serialize sample_request in
   RequestDeserializer.deserialize (H := masking_target) b) = Ret sample_request.
Proof.
  rewrite (request_roundtrip (H := masking_target) sample_request
             [SimpleString.mk [107] 1; SimpleString.mk [118; 49] 2]); [reflexivity|].
  constructor; simpl; [split; lia|lia| |lia].
  constructor; simpl; [done| |lia|lia|split; lia].
  repeat constructor; simpl; unfold byte_ok; lia.
Defined.

(** ** Responses *)

(** What the response format can carry. *)
Record response_ok (r : Response.t) : Prop := {
  po_number : ufits 32 (Response.requestNumber r);
  po_counter : 0 ≤ LamportClock.counter (Response.timestamp r) < 2 ^ 31;
  po_node : ufits 16 (LamportClock.nodeId (Response.timestamp r));
  po_code : 0 ≤ Response.errorCode r < 128;
  po_value : SimpleString.ok (Response.responseValue r);
  po_size : SimpleString.size (Response.responseValue r) < 2 ^ 32;
}.

Lemma status_byte e s : 0 ≤ e < 128 → u8 (Z.lor (Z.shiftl e 1) (b2z s)) = 2 * e + b2z s.
Proof.
  intros He. rewrite lor_shiftl_add by (destruct s; simpl; lia).
  rewrite wrap_small; destruct s; unfold ufits; simpl; lia.
Qed.

Lemma status_success e s : 0 ≤ e < 128 → negb (u8 (Z.shiftl (2 * e + b2z s) 7) =? 0) = s.
Proof.
  intros He. rewrite Z.shiftl_mul_pow2 by lia. unfold wrap.
  replace ((2 * e + b2z s) * 2 ^ 7) with (b2z s * 128 + e * 2 ^ 8) by lia.
  rewrite Z.mod_add by lia. by destruct s.
Qed.

Lemma status_code e s : 0 ≤ e < 128 → u8 (Z.shiftr (2 * e + b2z s) 1) = e.
Proof.
  intros He. rewrite Z.shiftr_div_pow2 by lia.
  rewrite wrap_small; destruct s; unfold ufits; simpl b2z; change (2 ^ 1) with 2; change (2 ^ 8) with 256;
    Z.div_mod_to_equations; lia.
Qed.

(** The bytes of a response. *)
Lemma response_layout r :
  SimpleString.ok (Response.responseValue r) →
  ResponseCodec.serialize r
  = Ret (be_bytes 4 (Response.requestNumber r)
         ++ be_bytes 8 (LamportClock.counter (Response.timestamp r))
         ++ be_bytes 2 (LamportClock.nodeId (Response.timestamp r))
         ++ [u8 (Z.lor (Z.shiftl (Response.errorCode r) 1) (b2z (Response.isSuccessful r)))]
         ++ be_bytes 4 (SimpleString.size (Response.responseValue r))
         ++ SimpleString.data (Response.responseValue r)).
Proof.
  intros [Hs _]. unfold ResponseCodec.serialize.
  rewrite !appendToBuffer_be, Hs, Nat2Z.id, appendPtr_all, <- Hs. by rewrite <- !app_assoc.
Qed.

Section responses.
Context `{Platform}.

(** A field at a known offset of a concatenation of fields. *)
Lemma field_narrow n pos pre v post b :
  b = pre ++ be_bytes n v ++ post → length pre = pos → (n ≤ 4)%nat → ufits (8 * Z.of_nat n) v →
  Utils.parseFromBuffer n b pos = Ret v.
Proof. intros -> <-. apply parseFromBuffer_narrow. Qed.

Lemma field_8 pos pre v post b :
  b = pre ++ be_bytes 8 v ++ post → length pre = pos → 0 ≤ v < 2 ^ 31 →
  Utils.parseFromBuffer 8 b pos = Ret v.
Proof. intros -> <-. apply parseFromBuffer_8. Qed.

Lemma response_layout_ok r b :
  response_ok r → ResponseCodec.serialize r = Ret b → ResponseCodec.deserialize b = Ret (Some r).
Proof.
  intros [Hn Hc Hd He Hv Hs] E. rewrite (response_layout r Hv) in E. apply Ret_inj in E as E.
  destruct r as [succ e [c d] n [v sz]];
    cbn [Response.requestNumber Response.timestamp Response.errorCode Response.isSuccessful
         Response.responseValue LamportClock.counter LamportClock.nodeId SimpleString.data
         SimpleString.size] in *.
  destruct Hv as [Hv _]; simpl in Hv.
  rewrite status_byte in E by done. set (f1 := be_bytes 4 n) in *. set (f2 := be_bytes 8 c) in *.
  set (f3 := be_bytes 2 d) in *. set (f5 := be_bytes 4 sz) in *.
  assert (Z.of_nat (length b) = 19 + sz) as Hlen.
  { rewrite <- E, !length_app. unfold f1, f2, f3, f5. rewrite !length_be_bytes. simpl. lia. }
  unfold ResponseCodec.deserialize. rewrite Hlen.
  destruct (Z.ltb_spec (19 + sz) (4 + 8 + 1 + 4)); [lia|].
  rewrite (field_narrow 4 0 [] n _ b (eq_sym E)) by (done || lia). cbn [obind].
  rewrite (field_8 4 f1 c _ b (eq_sym E)) by done. cbn [obind].
  rewrite (field_narrow 2 (4 + 8) (f1 ++ f2) d (_ ++ _) b) by (first [rewrite <- E, <- app_assoc; done | done | lia]).
  cbn [obind].
  rewrite (at_undef_Some _ _ (2 * e + b2z succ)) by (rewrite <- E; reflexivity). cbn [obind].
  rewrite status_success, status_code by done.
  rewrite (field_narrow 4 (8 + 2 + 4 + 1) (f1 ++ f2 ++ f3 ++ [2 * e + b2z succ]) sz v b)
    by (first [rewrite <- E, <- !app_assoc; done | done | split; simpl; lia | lia]).
  cbn [obind]. unfold Utils.copyFromBuffer.
  rewrite (wrap_small 64 (19 + sz - 1)) by (unfold ufits; change (2 ^ 64) with 18446744073709551616; lia).
  rewrite wrap_small by (unfold ufits; change (2 ^ 64) with 18446744073709551616; lia).
  destruct (Z.ltb_spec (19 + sz - 1 + 1) (8 + 2 + 4 + 1 + 4)); [lia|].
  replace (Z.to_nat (19 + sz - 1 + 1 - (8 + 2 + 4 + 1 + 4))) with (length v) by lia.
  pose proof (slice_app (f1 ++ f2 ++ f3 ++ [2 * e + b2z succ] ++ f5) v []) as Es.
  rewrite app_nil_r in Es. change (Z.to_nat (8 + 2 + 4 + 1 + 4)) with 19%nat.
  rewrite <- !app_assoc in Es. rewrite E in Es.
  change (length (f1 ++ f2 ++ f3 ++ [2 * e + b2z succ] ++ f5)) with 19%nat in Es.
  rewrite Es. done.
Qed.

End responses.

(** A response written by [ResponseSerializer] is read back by [ResponseDeserializer]
    field by field, for error codes of seven bits and clock counters below [2 ^ 31]. *)
Theorem response_roundtrip `{Platform} (r : Response.t) :
  response_ok r →
  (let! b := ResponseCodec.serialize r in ResponseCodec.deserialize b) = Ret (Some r).
Proof.
  intros Hr. pose proof (response_layout r (po_value _ Hr)) as E.
  pose proof (response_layout_ok r _ Hr E) as E'. by rewrite E.
Qed.

Definition sample_response : Response.t :=
  Response.mk false ErrorCode.CAS_FAILED (LamportClock.mk 41 2) 77 (SimpleString.mk [1; 2] 2).

Lemma response_roundtrip_witness :
  (let! b := ResponseCodec.serialize sample_response in
   ResponseCodec.deserialize (H := masking_target) b) = Ret (Some sample_response).
Proof.
  apply (response_roundtrip (H := masking_target) sample_response).
  constructor; simpl; [split; lia|lia|split; lia|unfold ErrorCode.CAS_FAILED; lia| |lia].
  split; [done|]. repeat constructor; simpl; unfold byte_ok; lia.
Defined.

(** ** Error codes *)

(** Masking can only lower a number. *)
Lemma land_le a b : 0 ≤ a → Z.land a b ≤ a.
Proof.
  intros Ha. assert (Z.ldiff a b = a - Z.land a b) as E.
  { pose proof (Z.sub_nocarry_ldiff a (Z.land a b)) as E.
    rewrite E; [|apply Z.bits_inj'; intros i Hi; rewrite Z.ldiff_spec, Z.land_spec, Z.bits_0;
                 by destruct (Z.testbit a i), (Z.testbit b i)].
    apply Z.bits_inj'; intros i Hi. rewrite !Z.ldiff_spec, Z.land_spec.
    by destruct (Z.testbit a i), (Z.testbit b i). }
  assert (0 ≤ Z.ldiff a b) by (apply Z.ldiff_nonneg; by left). lia.
Qed.

(** [Response::hasErrorCode] never recognises the code of a response: the deserializer
    has already dropped the success bit and the test shifts once more, so it is false for
    every non-zero code, and true for [AUTH_ERROR] (code 0) whatever the response says. *)
Theorem hasErrorCode_never (r : Response.t) (code : Z) :
  0 ≤ Response.errorCode r →
  (0 < code → Response.errorCode r = code → Response.hasErrorCode r code = false) ∧
  Response.hasErrorCode r ErrorCode.AUTH_ERROR = true.
Proof.
  intros Hr. unfold Response.hasErrorCode, ErrorCode.AUTH_ERROR. split.
  - intros Hc ->. apply Z.eqb_neq. intros E.
    assert (Z.land (Z.shiftr code 1) code ≤ Z.shiftr code 1) as Hle.
    { apply land_le. rewrite Z.shiftr_div_pow2 by lia. apply Z.div_pos; lia. }
    rewrite E, Z.shiftr_div_pow2 in Hle by lia. change (2 ^ 1) with 2 in Hle.
    Z.div_mod_to_equations. lia.
  - by rewrite Z.land_0_r.
Qed.

Lemma hasErrorCode_never_witness :
  Response.hasErrorCode (Response.error ErrorCode.SYNC_OP_LOG_EOF) ErrorCode.SYNC_OP_LOG_EOF = false.
Proof.
  apply (hasErrorCode_never (Response.error ErrorCode.SYNC_OP_LOG_EOF));
    simpl; unfold ErrorCode.SYNC_OP_LOG_EOF; lia.
Defined.

(** ** Operation logs *)

Import OperationLogCodec.

Lemma arg_bytes_loop_ok a : SimpleString.ok a → SimpleString.size a < 256 → ∀ n j out fuel,
  (n + j = length (SimpleString.data a))%nat → (n < fuel)%nat →
  arg_bytes_loop fuel (Z.of_nat j) a out = Ret (out ++ drop j (SimpleString.data a)).
Proof.
  intros [Hs Hok] Hlt n. induction n as [|n IH]; intros j out [|fuel] Hj Hf; try lia; cbn [arg_bytes_loop].
  - destruct (Z.ltb_spec (Z.of_nat j) (SimpleString.size a)); [lia|].
    by rewrite drop_ge, app_nil_r by lia.
  - destruct (Z.ltb_spec (Z.of_nat j) (SimpleString.size a)); [|lia]. rewrite Nat2Z.id.
    destruct (lookup_lt_is_Some_2 (SimpleString.data a) j) as [b Hb]; [lia|].
    rewrite (at_undef_Some _ _ _ Hb). cbn [obind].
    rewrite wrap_small by (unfold ufits; change (2 ^ 8) with 256; lia).
    replace (Z.of_nat j + 1) with (Z.of_nat (S j)) by lia.
    rewrite IH by lia. rewrite <- app_assoc. by rewrite (drop_S _ _ _ Hb).
Qed.

(** Operations the log can hold: a record of fewer than 256 bytes. *)
Record log_op_ok (op : OperationBody.t) (args : list SimpleString.t) : Prop := {
  lo_op : op_ok op args;
  lo_size : (length (op_bytes op args false) + 4 < 256)%nat;
}.

Lemma args_small args a :
  a ∈ args → (length (SimpleString.data a) ≤ length (args_bytes args))%nat.
Proof.
  induction 1 as [a args|a a' args _ IH]; rewrite args_bytes_cons, length_app, length_arg_bytes; lia.
Qed.

Lemma serialize_args_ok args out :
  Forall arg_ok args → (length (args_bytes args) < 256)%nat →
  ofoldl (λ out arg, arg_bytes_loop 257 0 arg (Utils.appendToBuffer 4 (SimpleString.size arg) out)) out args
  = Ret (out ++ args_bytes args).
Proof.
  intros H. revert out. induction H as [|a args [Ha _] _ IH]; intros out Hl; cbn [ofoldl].
  - unfold args_bytes. simpl. by rewrite app_nil_r.
  - rewrite args_bytes_cons, length_app, length_arg_bytes in Hl.
    rewrite (arg_bytes_loop_ok a Ha) with (j := 0%nat) (n := length (SimpleString.data a));
      [|destruct Ha; lia|lia|lia].
    cbn [obind]. rewrite IH by lia. rewrite appendToBuffer_be, args_bytes_cons.
    unfold arg_bytes. by rewrite <- !app_assoc.
Qed.

(** The bytes of one record. *)
Lemma log_serialize_ok op args out :
  log_op_ok op args → serialize out op = Ret (out ++ op_bytes op args false ++ [0; 0; 0; 0]).
Proof.
  intros [Ho Hs]. unfold serialize. rewrite (oo_args _ _ Ho). rewrite op_bytes_head, length_app in Hs.
  rewrite serialize_args_ok by (apply Ho || lia). cbn [obind].
  unfold writePadding, op_bytes. rewrite appendToBuffer_be, <- !app_assoc. done.
Qed.

(** The bytes of a log. *)
Definition log_bytes (l : list (OperationBody.t * list SimpleString.t)) : bytes :=
  concat ((λ p, op_bytes p.1 p.2 false ++ [0; 0; 0; 0]) <$> l).

Lemma serializeAll_layout l :
  Forall (λ p, log_op_ok p.1 p.2) l → serializeAll (fst <$> l) = Ret (log_bytes l).
Proof.
  intros H. unfold serializeAll. rewrite <- (app_nil_l (log_bytes l)). generalize ([] : bytes).
  induction H as [|[op args] l Hp _ IH]; intros out; cbn [fmap list_fmap ofoldl].
  - unfold log_bytes. simpl. by rewrite app_nil_r.
  - simpl in *. rewrite (log_serialize_ok _ _ _ Hp). cbn [obind]. rewrite IH.
    unfold log_bytes. cbn [fmap list_fmap concat]. by rewrite <- !app_assoc.
Qed.

Lemma getTotalLength_ok op args incl n :
  op_ok op args → (length (op_bytes op args incl) < 256)%nat →
  OperationBody.getTotalLength (OperationBody.mk (Some args) (OperationBody.timestamp op) n
    (OperationBody.operatorNumber op) (OperationBody.flag1 op) (OperationBody.flag2 op)) incl
  = Ret (Z.of_nat (length (op_bytes op args incl))).
Proof.
  intros Ho. rewrite op_bytes_head, length_app. unfold OperationBody.getTotalLength.
  cbn [OperationBody.the_args OperationBody.args obind]. intros Hs. f_equal.
  assert (∀ acc, 0 ≤ acc → acc + Z.of_nat (length (args_bytes args)) < 2 ^ 32 →
    foldl (λ totalLength arg, u32 (u32 (totalLength + 4) + SimpleString.size arg)) acc args
    = acc + Z.of_nat (length (args_bytes args))) as Hfold.
  { destruct Ho as [_ Hall _ _ _]. clear Hs. induction Hall as [|a args [[Ha _] _] _ IH]; intros acc H0 Hacc.
    - unfold args_bytes. simpl. lia.
    - rewrite args_bytes_cons, length_app, length_arg_bytes in *. cbn [foldl].
      rewrite (wrap_small 32 (acc + 4)) by (split; lia).
      rewrite wrap_small by (split; lia). rewrite IH by lia. lia. }
  change (u32 (u32 (u32 (0 + 1) + 8) + 2)) with 11. change (u32 (u32 (0 + 1) + 8)) with 9.
  rewrite length_op_head in *. destruct incl; rewrite Hfold by lia; lia.
Qed.

Section logs.
Context `{Platform}.

Lemma deserialize_loop_ok fuel pre l acc :
  Forall (λ p, log_op_ok p.1 p.2) l → (length l < fuel)%nat →
  Z.of_nat (length (pre ++ log_bytes l)) < 2 ^ 31 →
  deserialize_loop fuel (pre ++ log_bytes l) (length pre) acc
  = Ret (acc ++ ((λ p, op_read p.1 p.2 false) <$> l)).
Proof.
  intros Hl. revert fuel pre acc. induction Hl as [|[op args] l [Ho Hs] _ IH];
    intros [|fuel] pre acc Hf Hb; simpl in Hf; try lia; cbn [deserialize_loop].
  - unfold log_bytes. simpl. rewrite !app_nil_r, decide_False by lia. done.
  - assert (log_bytes ((op, args) :: l)
            = op_bytes op args false ++ [0; 0; 0; 0] ++ log_bytes l) as El.
    { unfold log_bytes. simpl. by rewrite <- !app_assoc. }
    cbn [fst snd] in Ho, Hs. rewrite El in *. pose proof (length_op_head op false) as Hh.
    rewrite decide_True.
    2: { rewrite !length_app, op_bytes_head, length_app, Hh. lia. }
    rewrite deserializeOperation_ok; [|done| |done].
    2: { right. by exists (log_bytes l). }
    cbn [obind]. unfold op_read at 1. rewrite getTotalLength_ok by (done || lia). cbn [obind].
    rewrite wrap_small by (unfold ufits; change (2 ^ 8) with 256; lia).
    set (pre' := pre ++ op_bytes op args false ++ [0; 0; 0; 0]).
    replace (length pre + _)%nat with (length pre')
      by (unfold pre'; rewrite !length_app; change (length [0; 0; 0; 0]) with 4%nat; lia).
    replace (pre ++ op_bytes op args false ++ [0; 0; 0; 0] ++ log_bytes l) with (pre' ++ log_bytes l) in *
      by (unfold pre'; rewrite <- !app_assoc; done).
    rewrite IH by (done || lia). by rewrite <- app_assoc.
Qed.

Lemma log_bytes_length l : (length l ≤ length (log_bytes l))%nat.
Proof.
  induction l as [|[op args] l IH]; [simpl; lia|]. unfold log_bytes in *. cbn [fmap list_fmap concat].
  rewrite !length_app. change (length [0; 0; 0; 0]) with 4%nat. cbn [length]. lia.
Qed.

Lemma deserializeAll_ok l :
  Forall (λ p, log_op_ok p.1 p.2) l → Z.of_nat (length (log_bytes l)) < 2 ^ 31 →
  deserializeAll (log_bytes l) = Ret ((λ p, op_read p.1 p.2 false) <$> l).
Proof.
  intros Hl Hb. pose proof (log_bytes_length l).
  pose proof (deserialize_loop_ok (S (length (log_bytes l))) [] l []) as E. unfold deserializeAll.
  destruct (log_bytes l) eqn:El; [|apply E; (done || lia)].
  destruct l; [done|simpl in *; lia].
Qed.

End logs.

(** The loop on [uint8_t j] never passes a size of 256. *)
Lemma arg_bytes_loop_diverges a : SimpleString.ok a → 256 ≤ SimpleString.size a → ∀ fuel j out,
  0 ≤ j < 256 → arg_bytes_loop fuel j a out = NoFuel.
Proof.
  intros [Hs _] H fuel. induction fuel as [|fuel IH]; intros j out Hj; [done|]. cbn [arg_bytes_loop].
  destruct (Z.ltb_spec j (SimpleString.size a)); [|lia].
  destruct (lookup_lt_is_Some_2 (SimpleString.data a) (Z.to_nat j)) as [b Hb]; [lia|].
  rewrite (at_undef_Some _ _ _ Hb). cbn [obind]. apply IH. apply (wrap_ufits 8). lia.
Qed.

(** C37: a log of operations with timestamps below [2 ^ 31], non-empty arguments and records of
    fewer than 256 bytes ([log_op_ok]) is read back in order by
    [OperationLogDeserializer::deserializeAll], with every node identifier replaced by 1
    (the log does not record it); an argument of 256 bytes or more is never written, the
    [uint8_t] counter of the copying loop wraps below the size for ever. *)
Theorem oplog_roundtrip `{Platform} (l : list (OperationBody.t * list SimpleString.t))
    (arg : SimpleString.t) :
  (Forall (λ p, log_op_ok p.1 p.2) l → Z.of_nat (length (log_bytes l)) < 2 ^ 31 →
   (let! b := OperationLogCodec.serializeAll (fst <$> l) in OperationLogCodec.deserializeAll b)
   = Ret ((λ p, OperationBody.mk (OperationBody.args p.1) (OperationBody.timestamp p.1) 1
            (OperationBody.operatorNumber p.1) (OperationBody.flag1 p.1) (OperationBody.flag2 p.1)) <$> l)) ∧
  (SimpleString.ok arg → 256 ≤ SimpleString.size arg → ∀ fuel out,
   OperationLogCodec.arg_bytes_loop fuel 0 arg out = NoFuel).
Proof.
  split.
  - intros Hl Hb. rewrite serializeAll_layout by done. cbn [obind]. rewrite deserializeAll_ok by done.
    f_equal. apply list_fmap_ext. intros i [op args] Hi. simpl. unfold op_read.
    rewrite Forall_lookup in Hl. pose proof (oo_args _ _ (lo_op _ _ (Hl _ _ Hi))) as Ea.
    simpl in Ea. by rewrite Ea.
  - intros Ha Hs fuel out. apply arg_bytes_loop_diverges; (done || lia).
Qed.

Definition sample_log : list (OperationBody.t * list SimpleString.t) :=
  [(Request.operation sample_request, [SimpleString.mk [107] 1; SimpleString.mk [118; 49] 2]);
   (OperationBody.mk (Some []) 13 2 2 false true, [])].

Lemma oplog_roundtrip_witness :
  (let! b := OperationLogCodec.serializeAll (fst <$> sample_log) in
   OperationLogCodec.deserializeAll (H := masking_target) b)
  = Ret [OperationBody.mk (Some [SimpleString.mk [107] 1; SimpleString.mk [118; 49] 2]) 12 1 1 false false;
         OperationBody.mk (Some []) 13 1 2 false true] ∧
  OperationLogCodec.arg_bytes_loop 257 0 (SimpleString.mk (replicate 256 7) 256) [] = NoFuel.
Proof.
  split.
  - rewrite (proj1 (oplog_roundtrip (H := masking_target) sample_log SimpleString.empty));
      [reflexivity| |vm_compute; reflexivity].
    repeat constructor; simpl; try done; unfold byte_ok; lia.
  - apply (oplog_roundtrip (H := masking_target) [] (SimpleString.mk (replicate 256 7) 256)); [|simpl; lia].
    split; [done|]. apply Forall_replicate. unfold byte_ok; lia.
Defined.
