(* ===== verification/Config.v ===== *)
(** * Configuration and authentication

    Models [utils/strings/StringUtils.cpp], [config/Configuration.cpp],
    [config/ConfigurationLoader.cpp], [config/keys/] and [auth/Authenticator.cpp].  The
    process environment ([std::getenv]) is a parameter. *)

From Stdlib Require Import Ascii.
From S2P Require Import Prelude.
From S2P Require Import Utils.
From S2P Require Import Messages.

(** The bytes of a [std::string]. *)
Fixpoint bytes_of_string (s : string) : bytes :=
  match s with
  | EmptyString => []
  | String c s => Z.of_N (N_of_ascii c) :: bytes_of_string s
  end.

Module StringUtils.

(** The [std::getline] loop; [token] holds the characters since the last delimiter.  A
    delimiter at the end of the input opens no token. *)
Fixpoint getlines (s : string) (delimiter : ascii) (token : string) : list string :=
  match s with
  | EmptyString => match token with EmptyString => [] | _ => [token] end
  | String c s =>
      if decide (c = delimiter) then token :: getlines s delimiter EmptyString
      else getlines s delimiter (token +:+ String c EmptyString)
  end.

(** [StringUtils::split]. *)
Definition split (stringToSplit : string) (delimiter : ascii) : list string :=
  match stringToSplit with
  | EmptyString => []
  | _ => getlines stringToSplit delimiter EmptyString
  end.

End StringUtils.

Module ConfigurationKeys.
Definition AUTH_NODE_KEY : string := "AUTH_NODE_KEY".
Definition AUTH_API_USER_KEY : string := "AUTH_API_USER_KEY".
Definition DATA_PATH : string := "DATA_PATH".
Definition SERVER_PORT : string := "SERVER_PORT".
Definition SERVER_THREADS : string := "SERVER_THREADS".
Definition NUMBER_BUCKETS : string := "NUMBER_BUCKETS".
Definition SHOW_DEBUG_LOG : string := "SHOW_DEBUG_LOG".
Definition PERSISTENCE_SEGMENT_SIZE_MB : string := "PERSISTENCE_SEGMENT_SIZE_MB".
Definition USE_REPLICATION : string := "USE_REPLICATION".
Definition NODE_ID : string := "NODE_ID".
Definition USE_PARTITIONS : string := "USE_PARTITIONS".
Definition NODE_REQUEST_TIMEOUT_MS : string := "NODE_REQUEST_TIMEOUT_MS".
Definition NODE_REQUEST_N_RETRIES : string := "NODE_REQUEST_N_RETRIES".
Definition ADDRESS : string := "ADDRESS".
Definition SEED_NODES : string := "SEED_NODES".
Definition NODES_PER_PARTITION : string := "NODES_PER_PARTITION".
Definition MAX_PARTITION_SIZE : string := "MAX_PARTITION_SIZE".
End ConfigurationKeys.

(** [DefaultConfig::get]. *)
Definition DefaultConfig_get : gmap string string :=
  list_to_map
    [(ConfigurationKeys.AUTH_API_USER_KEY, "123"%string);
     (ConfigurationKeys.AUTH_NODE_KEY, "456"%string);
     (ConfigurationKeys.SERVER_THREADS, "63"%string);
     (ConfigurationKeys.SERVER_PORT, "10000"%string);
     (ConfigurationKeys.NUMBER_BUCKETS, "64"%string);
     (ConfigurationKeys.PERSISTENCE_SEGMENT_SIZE_MB, "100"%string);
     (ConfigurationKeys.USE_REPLICATION, "false"%string);
     (ConfigurationKeys.NODE_ID, "1"%string);
     (ConfigurationKeys.SHOW_DEBUG_LOG, "false"%string);
     (ConfigurationKeys.USE_PARTITIONS, "false"%string);
     (ConfigurationKeys.NODE_REQUEST_TIMEOUT_MS, "5000"%string);
     (ConfigurationKeys.NODE_REQUEST_N_RETRIES, "10"%string);
     (ConfigurationKeys.SEED_NODES, ""%string);
     (ConfigurationKeys.ADDRESS, "localhost"%string);
     (ConfigurationKeys.NODES_PER_PARTITION, "1"%string);
     (ConfigurationKeys.MAX_PARTITION_SIZE, "64"%string);
     (ConfigurationKeys.DATA_PATH, "/etc/memdb"%string)].

Module Configuration.

(** The default values, and the environment of the process. *)
Record t := mk { defaultConfigurationValues : gmap string string; getenv : string → option string }.

(** [Configuration::getDefault]. *)
Definition getDefault (c : t) (key : string) : outcome string :=
  of_option runtime_error (defaultConfigurationValues c !! key).

(** [Configuration::getOrDefault]. *)
Definition getOrDefault (c : t) (key : string) : outcome string :=
  match getenv c key with
  | Some fromEnvVariable => Ret fromEnvVariable
  | None => getDefault c key
  end.

(** [Configuration::get]. *)
Definition get (c : t) (key : string) : outcome string := getOrDefault c key.

(** [Configuration::getVector]. *)
Definition getVector (c : t) (key : string) : outcome (list string) :=
  let! vectorRaw := get c key in Ret (StringUtils.split vectorRaw ",").

(** [Configuration::getBoolean]. *)
Definition getBoolean (c : t) (key : string) : outcome bool :=
  let! v := getOrDefault c key in Ret (bool_decide (v = "true"%string)).

Definition digit (c : ascii) : option Z :=
  let n := Z.of_N (N_of_ascii c) in
  if (48 <=? n) && (n <=? 57) then Some (n - 48) else None.

(** The leading decimal digits of a string, read after [acc]. *)
Fixpoint digits (s : string) (acc : Z) : Z :=
  match s with
  | EmptyString => acc
  | String c s => match digit c with Some d => digits s (10 * acc + d) | None => acc end
  end.

Fixpoint skip_spaces (s : string) : string :=
  match s with
  | String c s' =>
      let n := Z.of_N (N_of_ascii c) in
      if (n =? 32) || ((9 <=? n) && (n <=? 13)) then skip_spaces s' else s
  | EmptyString => EmptyString
  end.

(** [std::stoul] on a 64-bit [unsigned long]: spaces, a sign, decimal digits. *)
Definition stoul (s : string) : outcome Z :=
  let unsigned s :=
    match s with
    | String c _ =>
        match digit c with
        | Some _ => let n := digits s 0 in if n <? 2 ^ 64 then Ret n else Throw out_of_range
        | None => Throw invalid_argument
        end
    | EmptyString => Throw invalid_argument
    end in
  match skip_spaces s with
  | String "-" s => let! n := unsigned s in Ret (u64 (- n))
  | String "+" s => unsigned s
  | s => unsigned s
  end.

(** [Configuration::get<T>], [T] unsigned of [w] bits. *)
Definition getUint (w : Z) (c : t) (key : string) : outcome Z :=
  let! v := getOrDefault c key in
  let! n := stoul v in
  Ret (wrap w n).

End Configuration.

Module ConfiguartionLoader.

(** One iteration of [argsToConfigMap]; [None] is a null pointer. *)
Definition add_arg (toReturn : gmap string string) (arg : option string) : outcome (gmap string string) :=
  match arg with
  | None => Ret toReturn
  | Some arg =>
      let keyValueArgSplit := StringUtils.split arg "=" in
      let! keyArg := at_undef keyValueArgSplit 0 in
      let! valueArg := at_undef keyValueArgSplit 1 in
      Ret (<[keyArg:=valueArg]> toReturn)
  end.

(** [argsToConfigMap]; the first argument is the program's name. *)
Definition argsToConfigMap (args : list (option string)) : outcome (gmap string string) :=
  ofoldl add_arg ∅ (drop 1 args).

(** [ConfiguartionLoader::load]. *)
Definition load (getenv : string → option string) (args : list (option string)) : outcome Configuration.t :=
  let defaultConfigurationValues := DefaultConfig_get in
  let! configurationValuesFromArgs := argsToConfigMap args in
  Ret (Configuration.mk (Utils.unionMaps defaultConfigurationValues configurationValuesFromArgs) getenv).

End ConfiguartionLoader.

Module Authenticator.

(** [Authenticator::authenticate]. *)
Definition authenticate (c : Configuration.t) (authKey : bytes) : outcome bool :=
  let! user := Configuration.get c ConfigurationKeys.AUTH_API_USER_KEY in
  if bool_decide (bytes_of_string user = authKey) then Ret true
  else
    let! node := Configuration.get c ConfigurationKeys.AUTH_NODE_KEY in
    Ret (bool_decide (bytes_of_string node = authKey)).

(** [Authenticator::getAuthenticationTypeFromConfiguration]; [None] is the error result. *)
Definition getAuthenticationTypeFromConfiguration (c : Configuration.t) (authKey : bytes) :
    outcome (option AuthenticationType) :=
  let! user := Configuration.get c ConfigurationKeys.AUTH_API_USER_KEY in
  if bool_decide (bytes_of_string user = authKey) then Ret (Some USER)
  else
    let! node := Configuration.get c ConfigurationKeys.AUTH_NODE_KEY in
    Ret (if bool_decide (bytes_of_string node = authKey) then Some NODE else None).

(** [Authenticator::getAuthenticationType]. *)
Definition getAuthenticationType (c : Configuration.t) (authKey : bytes) :
    outcome (option AuthenticationType) :=
  getAuthenticationTypeFromConfiguration c authKey.

(** [Authenticator::isKeyFromNode]. *)
Definition isKeyFromNode (c : Configuration.t) (authKey : bytes) : outcome bool :=
  let! result := getAuthenticationTypeFromConfiguration c authKey in
  Ret (bool_decide (result = Some NODE)).

(** [Authenticator::isKeyUser]. *)
Definition isKeyUser (c : Configuration.t) (authKey : bytes) : outcome bool :=
  let! result := getAuthenticationTypeFromConfiguration c authKey in
  Ret (bool_decide (result = Some USER)).

End Authenticator.

(** ** Lemmas *)

Lemma unionMaps_lookup {V} (first second : gmap string V) k :
  Utils.unionMaps first second !! k
  = match second !! k with Some v => Some v | None => first !! k end.
Proof.
  unfold Utils.unionMaps.
  assert (∀ (m acc : gmap string V), map_fold (λ k v acc, <[k:=v]> acc) acc m = m ∪ acc) as E.
  { intros m acc. apply (map_fold_weak_ind (λ r m, r = m ∪ acc)); [by rewrite map_empty_union|].
    intros i x m' r Hi ->. by rewrite insert_union_l. }
  rewrite !E, map_union_empty. rewrite lookup_union. by destruct (second !! k), (first !! k).
Qed.

(** A string without the character [c]. *)
Fixpoint without (c : ascii) (s : string) : Prop :=
  match s with EmptyString => True | String d s => d ≠ c ∧ without c s end.

Lemma string_app_cons c (s1 s2 : string) : String c s1 +:+ s2 = String c (s1 +:+ s2).
Proof. done. Qed.

Lemma string_app_empty_r s : s +:+ EmptyString = s.
Proof. induction s as [|c s IH]; [done|]. by rewrite string_app_cons, IH. Qed.

Lemma string_app_assoc (s1 s2 s3 : string) : s1 +:+ (s2 +:+ s3) = (s1 +:+ s2) +:+ s3.
Proof. induction s1 as [|c s1 IH]; [done|]. by rewrite !string_app_cons, IH. Qed.

Lemma getlines_token d tok s rest :
  without d s → StringUtils.getlines (s +:+ rest) d tok = StringUtils.getlines rest d (tok +:+ s).
Proof.
  revert tok. induction s as [|c s IH]; intros tok H.
  - by rewrite string_app_empty_r.
  - destruct H as [Hc Hs]. rewrite string_app_cons. cbn [StringUtils.getlines].
    rewrite decide_False by done. rewrite IH by done. by rewrite <- string_app_assoc.
Qed.

(** [key=value] splits into its two halves. *)
Lemma split_pair d k v :
  without d k → without d v → v ≠ EmptyString →
  StringUtils.split (k +:+ String d v) d = [k; v].
Proof.
  intros Hk Hv Hne. unfold StringUtils.split.
  assert (StringUtils.getlines (k +:+ String d v) d EmptyString = [k; v]) as E.
  { rewrite getlines_token by done. simpl. rewrite decide_True by done. f_equal.
    rewrite <- (string_app_empty_r v) at 1. rewrite getlines_token by done. simpl.
    destruct v; done. }
  rewrite E. by destruct k.
Qed.

(** The program arguments [key=value]. *)
Definition format_arg (kv : string * string) : option string := Some (kv.1 +:+ String "=" kv.2).

Definition arg_pair_ok (kv : string * string) : Prop :=
  without "=" kv.1 ∧ without "=" kv.2 ∧ kv.2 ≠ EmptyString.

Lemma args_fold kvs m :
  Forall arg_pair_ok kvs →
  ofoldl ConfiguartionLoader.add_arg m (format_arg <$> kvs)
  = Ret (foldl (λ m kv, <[kv.1:=kv.2]> m) m kvs).
Proof.
  intros H. revert m. induction H as [|[k v] kvs (Hk & Hv & Hne) _ IH]; intros m; [done|].
  cbn [fmap list_fmap ofoldl foldl]. unfold ConfiguartionLoader.add_arg at 1, format_arg at 1.
  cbn [fst snd] in *. rewrite split_pair by done. cbn. apply IH.
Qed.

(** The value the last [key=value] argument gives. *)
Definition last_value (kvs : list (string * string)) (k : string) : option string :=
  snd <$> last (filter (λ kv, kv.1 = k) kvs).

Lemma foldl_insert_last kvs (m : gmap string string) k :
  foldl (λ m kv, <[kv.1:=kv.2]> m) m kvs !! k
  = match last_value kvs k with Some v => Some v | None => m !! k end.
Proof.
  unfold last_value. induction kvs as [|[k' v] kvs IH] using rev_ind; [done|].
  rewrite foldl_app. simpl. rewrite filter_app. destruct (decide (k' = k)) as [->|Hne].
  - rewrite filter_cons_True by done. cbn [filter list_filter]. rewrite last_snoc, lookup_insert_eq. done.
  - rewrite filter_cons_False by done. cbn [filter list_filter]. rewrite app_nil_r, lookup_insert_ne by done. apply IH.
Qed.

(** ** Properties *)

(** The value of a configuration key is that of the environment variable, else that of
    the last [key=value] program argument, else the built-in default; a key found in none
    of them raises [std::runtime_error]. *)
Theorem config_precedence (getenv : string → option string) (program : option string)
    (kvs : list (string * string)) :
  Forall arg_pair_ok kvs →
  ∃ c, ConfiguartionLoader.load getenv (program :: (format_arg <$> kvs)) = Ret c ∧
    ∀ k, Configuration.get c k =
      match getenv k with
      | Some v => Ret v
      | None =>
          match last_value kvs k with
          | Some v => Ret v
          | None => match DefaultConfig_get !! k with Some v => Ret v | None => Throw runtime_error end
          end
      end.
Proof.
  intros Hkv. unfold ConfiguartionLoader.load, ConfiguartionLoader.argsToConfigMap.
  change (drop 1 (program :: (format_arg <$> kvs))) with (format_arg <$> kvs). rewrite args_fold by done. cbn [obind]. eexists. split; [reflexivity|].
  intros k. unfold Configuration.get, Configuration.getOrDefault, Configuration.getDefault.
  cbn [Configuration.getenv Configuration.defaultConfigurationValues].
  destruct (getenv k); [done|]. rewrite unionMaps_lookup, foldl_insert_last, lookup_empty.
  by destruct (last_value kvs k), (DefaultConfig_get !! k).
Qed.

Lemma config_precedence_witness :
  ∃ c, ConfiguartionLoader.load (λ k, if decide (k = "NODE_ID"%string) then Some "7"%string else None)
         [Some "memdb"%string; Some "NODE_ID=3"%string; Some "SERVER_PORT=9"%string] = Ret c ∧
    Configuration.get c "NODE_ID" = Ret "7"%string ∧
    Configuration.get c "SERVER_PORT" = Ret "9"%string ∧
    Configuration.get c "ADDRESS" = Ret "localhost"%string ∧
    Configuration.get c "COLOR" = Throw runtime_error.
Proof.
  destruct (config_precedence (λ k, if decide (k = "NODE_ID"%string) then Some "7"%string else None)
    (Some "memdb"%string) [("NODE_ID", "3"); ("SERVER_PORT", "9")]%string) as (c & E & Hc).
  { repeat constructor; simpl; done. }
  exists c. split; [exact E|]. rewrite !Hc. repeat split; reflexivity.
Defined.
