(* ===== verification/Connection.v ===== *)
(** * Framing of messages on a connection

    Models [server/Connection.cpp].  The socket is the operating system's: it delivers a
    stream of bytes ([boost::asio::read] fills the buffer or fails at the end of the
    stream) and accepts some of the bytes of a write ([write_some]), a parameter.  An
    asynchronous write only starts an operation: the connection records the buffers passed to
    [async_write_some], and what becomes of them is not decided here.  The code passes local
    vectors that are gone when its functions return, so it has no guarantee of it. *)

From S2P Require Import Prelude.
From S2P Require Import Utils.

(** How many bytes of a buffer [write_some] takes. *)
Class Socket := {
  write_some : bytes → nat;
  write_some_le : ∀ b, (write_some b ≤ length b)%nat;
}.

(** The write takes the buffer whole. *)
Definition taken `{Socket} (b : bytes) : Prop := write_some b = length b.

Module Connection.

Definition FRAGMENT_MIN_SIZE : nat := 1024.

(** The two directions of the stream, the buffers passed to [async_write_some],
    [typePacketHeaderBuffer], and the stream the reset callback opens when one is set. *)
Record t := mk {
  incoming : bytes;
  outgoing : bytes;
  asyncWrites : list bytes;
  open : bool;
  typePacketHeaderBuffer : Z;
  resetConnectionCallback : option bytes;
}.

Definition set_incoming (i : bytes) (c : t) : t :=
  mk i (outgoing c) (asyncWrites c) (open c) (typePacketHeaderBuffer c) (resetConnectionCallback c).
Definition set_outgoing (o : bytes) (c : t) : t :=
  mk (incoming c) o (asyncWrites c) (open c) (typePacketHeaderBuffer c) (resetConnectionCallback c).
Definition set_header (h : Z) (c : t) : t :=
  mk (incoming c) (outgoing c) (asyncWrites c) (open c) h (resetConnectionCallback c).
Definition set_asyncWrites (l : list bytes) (c : t) : t :=
  mk (incoming c) (outgoing c) l (open c) (typePacketHeaderBuffer c) (resetConnectionCallback c).

Definition isOpen (c : t) : bool := open c.

(** [Connection::close]. *)
Definition close : stM t () :=
  modify (λ c, mk (incoming c) (outgoing c) (asyncWrites c) false (typePacketHeaderBuffer c) (resetConnectionCallback c)).

(** [Connection::resetConnection]. *)
Definition resetConnection : stM t () :=
  _ ← close;
  c ← get_st;
  match resetConnectionCallback c with
  | Some stream => modify (λ c, mk stream [] [] true (typePacketHeaderBuffer c) (resetConnectionCallback c))
  | None => mret ()
  end.

(** [Connection::readWithTimeout] of [n] bytes; [None] is an error code. *)
Definition readWithTimeout (n : nat) : stM t (option bytes) :=
  λ c,
    if negb (open c) then Ret (c, None)
    else if decide (n ≤ length (incoming c))%nat
    then Ret (set_incoming (drop n (incoming c)) c, Some (take n (incoming c)))
    else Ret (set_incoming [] c, None).

(** The one-byte read into [typePacketHeaderBuffer]. *)
Definition readHeader : stM t bool :=
  h ← readWithTimeout 1;
  match h with
  | Some [b] => _ ← modify (set_header b); mret true
  | _ => mret false
  end.

(** [Connection::isFragmentPacket] and [Connection::isLastFragmentPacket]. *)
Definition isFragmentPacket (packetTypeHeader : Z) : bool := negb (Z.land packetTypeHeader 0x01 =? 0).
Definition isLastFragmentPacket (packetTypeHeader : Z) : bool := Z.land packetTypeHeader 0x03 =? 0x03.

(** [Connection::readPacketContent]; a length of zero makes it start again. *)
Fixpoint readPacketContent (fuel : nat) : stM t (option bytes) :=
  match fuel with
  | O => λ _, NoFuel
  | S fuel =>
      messageLengthHeaderBuffer ← readWithTimeout 4;
      match messageLengthHeaderBuffer with
      | None => mret None
      | Some messageLengthHeaderBuffer =>
          packetLength ← lift (Utils.parse 4 false messageLengthHeaderBuffer);
          if packetLength =? 0 then readPacketContent fuel
          else readWithTimeout (Z.to_nat packetLength)
      end
  end.

(** [Connection::readFragmentedPacket]. *)
Fixpoint readFragmentedPacket (fuel : nat) (result : bytes) : stM t (option bytes) :=
  match fuel with
  | O => λ _, NoFuel
  | S fuel =>
      c ← get_st;
      packetResult ← readPacketContent (S (length (incoming c)));
      match packetResult with
      | None => mret None
      | Some packet =>
          let result := result ++ packet in
          c ← get_st;
          if isLastFragmentPacket (typePacketHeaderBuffer c) then mret (Some result)
          else
            read ← readHeader;
            if (read : bool) then readFragmentedPacket fuel result else mret None
      end
  end.

(** [Connection::readPacket]; every fragment and every length takes bytes off the stream,
    so its length is enough fuel. *)
Definition readPacket (packetType : Z) : stM t (option bytes) :=
  c ← get_st;
  if isFragmentPacket packetType then readFragmentedPacket (S (length (incoming c))) []
  else readPacketContent (S (length (incoming c))).

(** [Connection::readSync]. *)
Definition readSync : stM t (option bytes) :=
  read ← readHeader;
  if (read : bool) then c ← get_st; readPacket (typePacketHeaderBuffer c) else mret None.

(** [Connection::readAsync]: the messages passed to the request callback until a read
    of the header fails. *)
Fixpoint readAsync (fuel : nat) (delivered : list bytes) : stM t (list bytes) :=
  match fuel with
  | O => λ _, NoFuel
  | S fuel =>
      read ← readHeader;
      if (read : bool) then
        c ← get_st;
        packetReadResult ← readPacket (typePacketHeaderBuffer c);
        readAsync fuel (match packetReadResult with
                        | Some m => delivered ++ [m] | None => delivered end)
      else mret delivered
  end.

(** [Connection::addContentLengthHeader] and [Connection::addNoFragmentationHeader]. *)
Definition addContentLengthHeader (vec : bytes) (contentLength : Z) : bytes :=
  Utils.appendBeginningToBuffer 4 contentLength vec.
Definition addNoFragmentationHeader (vec : bytes) : bytes := 0x00 :: vec.

(** [socket.write_some]; on a closed socket it throws [boost::system::system_error], a
    [std::runtime_error]. *)
Definition socket_write_some `{Socket} (b : bytes) : stM t Z :=
  λ c,
    if open c then Ret (set_outgoing (outgoing c ++ take (write_some b) b) c, Z.of_nat (write_some b))
    else Throw runtime_error.

(** [socket.async_write_some]: the operation is started; its error is dropped by the empty
    handler. *)
Definition socket_async_write_some (b : bytes) : stM t Z :=
  λ c, Ret (if open c then set_asyncWrites (asyncWrites c ++ [b]) c else c, 0).

(** The fragment built by one iteration of [fragmentPacketAndSend]. *)
Definition fragment (initialPacket : bytes) (lastPacket : bool) (contentSizeInFragment start : nat) :
    outcome bytes :=
  let fragmentedPacket := Utils.appendBeginningToBuffer 4 (Z.of_nat contentSizeInFragment) [] in
  let fragmentedPacket := Utils.appendBeginningToBuffer 1 (if lastPacket then 0x03 else 0x01) fragmentedPacket in
  let! content := slice initialPacket start contentSizeInFragment in
  Ret (take (1 + 4) fragmentedPacket ++ content ++ drop (1 + 4) fragmentedPacket).

(** The loop of [Connection::fragmentPacketAndSend] from iteration [i], [k] to go. *)
Fixpoint fragments_loop (sender : bytes → stM t Z) (initialPacket : bytes) (nFragments k i start : nat)
    (written : Z) : stM t Z :=
  match k with
  | O => mret written
  | S k =>
      let lastPacket := (nFragments <=? i + 1)%nat in
      let contentSizeInFragment :=
        if lastPacket then (length initialPacket mod FRAGMENT_MIN_SIZE)%nat else FRAGMENT_MIN_SIZE in
      fragmentedPacket ← lift (fragment initialPacket lastPacket contentSizeInFragment start);
      w ← sender fragmentedPacket;
      fragments_loop sender initialPacket nFragments k (i + 1)
        (if lastPacket then start else start + contentSizeInFragment)%nat (u64 (written + w))
  end.

Definition nFragments (initialPacket : bytes) : nat :=
  (length initialPacket / FRAGMENT_MIN_SIZE
   + if decide (length initialPacket mod FRAGMENT_MIN_SIZE = 0) then 0 else 1)%nat.

(** [Connection::fragmentPacketAndSend]. *)
Definition fragmentPacketAndSend (initialPacket : bytes) (sender : bytes → stM t Z) : stM t Z :=
  fragments_loop sender initialPacket (nFragments initialPacket) (nFragments initialPacket) 0 0 0.

(** What [writeSync] and [writeAsync] leave in the buffer they are given: a short packet gets its
    headers in place. *)
Definition left_in_buffer (toWrite : bytes) : bytes :=
  if decide (length toWrite < FRAGMENT_MIN_SIZE)%nat
  then addNoFragmentationHeader (addContentLengthHeader toWrite (Z.of_nat (length toWrite))) else toWrite.

(** [Connection::writeAsync]. *)
Definition writeAsync (toWrite : bytes) : stM t () :=
  if decide (length toWrite < FRAGMENT_MIN_SIZE)%nat then
    let toWrite := addContentLengthHeader toWrite (Z.of_nat (length toWrite)) in
    let toWrite := addNoFragmentationHeader toWrite in
    _ ← socket_async_write_some toWrite; mret ()
  else _ ← fragmentPacketAndSend toWrite socket_async_write_some; mret ().

(** [Connection::writeSync]. *)
Definition writeSync `{Socket} (toWrite : bytes) : stM t Z :=
  if decide (length toWrite < FRAGMENT_MIN_SIZE)%nat then
    let toWrite := addContentLengthHeader toWrite (Z.of_nat (length toWrite)) in
    let toWrite := addNoFragmentationHeader toWrite in
    written ← socket_write_some toWrite;
    if written =? 0 then _ ← resetConnection; socket_write_some toWrite
    else mret written
  else fragmentPacketAndSend toWrite socket_write_some.

End Connection.

(** ** The bytes on the wire *)

(** [k] fragments of the packet [p]; the last one carries [r] bytes. *)
Fixpoint fragments (r k : nat) (p : bytes) : list bytes :=
  match k with
  | O => []
  | 1%nat => [3 :: be_bytes 4 (Z.of_nat r) ++ take r p]
  | S k => (1 :: be_bytes 4 1024 ++ take 1024 p) :: fragments r k (drop 1024 p)
  end.
Definition frames (r k : nat) (p : bytes) : bytes := concat (fragments r k p).

(** The buffers a message is cut into, one write each, and the bytes they make. *)
Definition packets (p : bytes) : list bytes :=
  if decide (length p < 1024)%nat then [0 :: be_bytes 4 (Z.of_nat (length p)) ++ p]
  else fragments (length p mod 1024) (Connection.nFragments p) p.
Definition frame (p : bytes) : bytes := concat (packets p).

Section wire.
Import Connection.

Lemma fragment_ok p last r start :
  (start + r ≤ length p)%nat →
  fragment p last r start
  = Ret ((if last then 3 else 1) :: be_bytes 4 (Z.of_nat r) ++ take r (drop start p)).
Proof.
  intros Hr. unfold fragment. rewrite !appendBeginningToBuffer_be, app_nil_r.
  unfold slice. rewrite decide_True by lia. cbn [obind].
  set (b := be_bytes 4 (Z.of_nat r)).
  assert (length b = 4%nat) as Hb by apply length_be_bytes.
  assert (be_bytes 1 (if last then 3 else 1) = [if last then 3 else 1]) as -> by (by destruct last).
  change ([if last then 3 else 1] ++ b) with ((if last then 3 else 1) :: b).
  rewrite (drop_ge (_ :: b)) by (cbn [length]; lia). rewrite app_nil_r, (take_ge (_ :: b)) by (cbn [length]; lia). done.
Qed.

(** What a sender does with a list of buffers on an open connection: [put] adds them, [w] is
    what it returns for each. *)
Record delivers (sender : bytes → stM t Z) (put : list bytes → t → t) (w : bytes → Z) : Prop := {
  dv_send : ∀ b c, open c = true → sender b c = Ret (put [b] c, w b);
  dv_nil : ∀ c, put [] c = c;
  dv_app : ∀ l l' c, put l' (put l c) = put (l ++ l') c;
  dv_open : ∀ l c, open (put l c) = open c;
}.

(** The sum of what the writes return, in a [size_t]. *)
Definition total (w : bytes → Z) (written : Z) (l : list bytes) : Z := foldl (λ a b, u64 (a + w b)) written l.

Definition started (l : list bytes) (c : t) : t := set_asyncWrites (asyncWrites c ++ l) c.
Definition sent `{Socket} (l : list bytes) (c : t) : t :=
  set_outgoing (outgoing c ++ concat ((λ b, take (write_some b) b) <$> l)) c.

Lemma async_delivers : delivers socket_async_write_some started (λ _, 0).
Proof.
  split; unfold started.
  - intros b c Ho. unfold socket_async_write_some. by rewrite Ho.
  - intros []. unfold set_asyncWrites. simpl. by rewrite app_nil_r.
  - intros l l' c. unfold set_asyncWrites. simpl. by rewrite app_assoc.
  - done.
Qed.

Lemma sync_delivers `{Socket} : delivers socket_write_some sent (λ b, Z.of_nat (write_some b)).
Proof.
  split; unfold sent.
  - intros b c Ho. unfold socket_write_some. rewrite Ho. cbn [fmap list_fmap concat]. by rewrite app_nil_r.
  - intros []. unfold set_outgoing. simpl. by rewrite app_nil_r.
  - intros l l' c. unfold set_outgoing. simpl. by rewrite fmap_app, concat_app, app_assoc.
  - done.
Qed.

Lemma fragments_loop_ok sender put w p n : delivers sender put w →
  let r := (length p mod 1024)%nat in
  (1024 * (n - 1) + r ≤ length p)%nat → ∀ k i c written,
  open c = true → (k + i = n)%nat →
  fragments_loop sender p n k i (1024 * i) written c
  = Ret (put (fragments r k (drop (1024 * i) p)) c, total w written (fragments r k (drop (1024 * i) p))).
Proof.
  intros Hs r Hlen k. induction k as [|k IH]; intros i c written Ho Hk.
  - simpl. by rewrite (dv_nil _ _ _ Hs).
  - cbn [fragments_loop]. unfold FRAGMENT_MIN_SIZE. fold r.
    destruct (Nat.leb_spec n (i + 1)) as [Hl|Hl].
    + assert (k = 0%nat) as -> by lia.
      erewrite stM_bind_Ret by (unfold lift; rewrite fragment_ok by lia; reflexivity).
      erewrite stM_bind_Ret by (by apply (dv_send _ _ _ Hs)). reflexivity.
    + erewrite stM_bind_Ret by (unfold lift; rewrite fragment_ok by lia; reflexivity).
      erewrite stM_bind_Ret by (by apply (dv_send _ _ _ Hs)).
      replace (1024 * i + 1024)%nat with (1024 * (i + 1))%nat by lia.
      rewrite (IH (i + 1)%nat); [|by rewrite (dv_open _ _ _ Hs)|lia].
      destruct k as [|k]; [lia|]. rewrite (dv_app _ _ _ Hs). cbn [app].
      replace (drop (1024 * (i + 1)) p) with (drop 1024 (drop (1024 * i) p)) by (rewrite drop_drop; f_equal; lia). done.
Qed.

Lemma nFragments_bound p :
  (1024 * (nFragments p - 1) + length p mod 1024 ≤ length p)%nat.
Proof.
  unfold nFragments, FRAGMENT_MIN_SIZE. pose proof (Nat.div_mod_eq (length p) 1024).
  destruct (decide (length p mod 1024 = 0)%nat); lia.
Qed.

Lemma fragmentPacketAndSend_ok sender put w p c :
  delivers sender put w → open c = true →
  let l := fragments (length p mod 1024) (nFragments p) p in
  fragmentPacketAndSend p sender c = Ret (put l c, total w 0 l).
Proof.
  intros Hs Ho. unfold fragmentPacketAndSend.
  pose proof (fragments_loop_ok sender put w p (nFragments p) Hs (nFragments_bound p) (nFragments p) 0 c 0) as E.
  change (1024 * 0)%nat with 0%nat in E. rewrite drop_0 in E. apply E; [done|lia].
Qed.

(** [writeAsync] starts one write per buffer. *)
Lemma writeAsync_packets p c :
  open c = true → writeAsync p c = Ret (started (packets p) c, ()).
Proof.
  intros Ho. unfold writeAsync, packets, FRAGMENT_MIN_SIZE. case_decide.
  - unfold addContentLengthHeader, addNoFragmentationHeader. rewrite appendBeginningToBuffer_be.
    by erewrite stM_bind_Ret by (by apply (dv_send _ _ _ async_delivers)).
  - by erewrite stM_bind_Ret by (by apply (fragmentPacketAndSend_ok _ _ _ _ _ async_delivers)).
Qed.

(** [writeSync] sends what the socket takes of each buffer and returns how much that is. *)
Lemma writeSync_packets `{Socket} p c :
  open c = true → Forall (λ b, 0 < write_some b)%nat (packets p) →
  writeSync p c = Ret (sent (packets p) c, total (λ b, Z.of_nat (write_some b)) 0 (packets p)).
Proof.
  intros Ho Hpos. unfold writeSync, packets, FRAGMENT_MIN_SIZE in *. case_decide as Hl.
  - unfold addContentLengthHeader, addNoFragmentationHeader. rewrite appendBeginningToBuffer_be.
    set (b := 0 :: be_bytes 4 (Z.of_nat (length p)) ++ p) in *. apply Forall_cons in Hpos as [Hpos _].
    erewrite stM_bind_Ret by (by apply (dv_send _ _ _ sync_delivers)). cbn beta.
    destruct (Z.eqb_spec (Z.of_nat (write_some b)) 0); [lia|].
    unfold total. cbn [foldl]. rewrite wrap_small; [done|].
    pose proof (write_some_le b). assert (length b < 1029)%nat
      by (unfold b; cbn [length]; rewrite length_app, length_be_bytes; lia). split; lia.
  - by apply (fragmentPacketAndSend_ok _ _ _ _ _ sync_delivers).
Qed.

Lemma taken_concat `{Socket} l : Forall taken l → concat ((λ b, take (write_some b) b) <$> l) = concat l.
Proof.
  induction 1 as [|b l Hb _ IH]; [done|]. cbn [fmap list_fmap concat]. rewrite IH. unfold taken in Hb.
  by rewrite Hb, firstn_all.
Qed.

Lemma taken_total `{Socket} l : ∀ written,
  Forall taken l → 0 ≤ written → written + Z.of_nat (length (concat l)) < 2 ^ 64 →
  total (λ b, Z.of_nat (write_some b)) written l = written + Z.of_nat (length (concat l)).
Proof.
  unfold total. induction l as [|b l IH]; intros written Hl Hw Hb; [simpl; lia|].
  apply Forall_cons in Hl as [H1 Hl]. unfold taken in H1. cbn [foldl concat] in *. rewrite length_app in *.
  rewrite H1, wrap_small by (split; lia). rewrite IH; [lia|done|lia|lia].
Qed.

Lemma fragments_nonempty r k : ∀ p, Forall (λ b, 0 < length b)%nat (fragments r k p).
Proof.
  induction k as [|[|k] IH]; intros p; [apply Forall_nil; done|apply Forall_cons; split; [simpl; lia|done]|].
  apply Forall_cons. split; [simpl; lia|apply IH].
Qed.

Lemma packets_nonempty p : Forall (λ b, 0 < length b)%nat (packets p).
Proof. unfold packets. case_decide; [apply Forall_cons; split; [simpl; lia|done]|apply fragments_nonempty]. Qed.

(** A message whose buffers are taken whole is on the stream. *)
Lemma writeSync_whole `{Socket} p c :
  open c = true → Forall taken (packets p) → Z.of_nat (length (frame p)) < 2 ^ 64 →
  writeSync p c = Ret (set_outgoing (outgoing c ++ frame p) c, Z.of_nat (length (frame p))).
Proof.
  intros Ho Hall Hb. rewrite writeSync_packets; [|done|].
  - unfold sent. rewrite taken_concat by done. rewrite taken_total by (done || fold (frame p); lia). done.
  - pose proof (packets_nonempty p) as Hne. rewrite Forall_forall in *. intros b Hin. rewrite (Hall b Hin). by apply Hne.
Qed.

End wire.

(** ** Reading *)

Section reading.
Import Connection.

Lemma readWithTimeout_ok c l rest :
  open c = true → incoming c = l ++ rest →
  readWithTimeout (length l) c = Ret (set_incoming rest c, Some l).
Proof.
  intros Ho Hi. unfold readWithTimeout. rewrite Ho, Hi. simpl.
  rewrite decide_True by (rewrite length_app; lia).
  by rewrite take_app_length, drop_app_length.
Qed.

Lemma readWithTimeout_eof c n :
  (length (incoming c) < n)%nat → ∃ c', readWithTimeout n c = Ret (c', None).
Proof.
  intros Hn. unfold readWithTimeout. destruct (open c); simpl; [|by eexists].
  rewrite decide_False by lia. by eexists.
Qed.

Lemma readHeader_ok c b rest :
  open c = true → incoming c = b :: rest →
  readHeader c = Ret (set_header b (set_incoming rest c), true).
Proof.
  intros Ho Hi. unfold readHeader.
  erewrite stM_bind_Ret by (apply (readWithTimeout_ok c [b] rest); done). done.
Qed.

Lemma readPacketContent_ok fuel c l rest :
  open c = true → incoming c = be_bytes 4 (Z.of_nat (length l)) ++ l ++ rest →
  (0 < length l)%nat → Z.of_nat (length l) < 2 ^ 32 → (0 < fuel)%nat →
  readPacketContent fuel c = Ret (set_incoming rest c, Some l).
Proof.
  intros Ho Hi Hl Hb Hf. destruct fuel as [|fuel]; [lia|]. cbn [readPacketContent].
  set (h := be_bytes 4 (Z.of_nat (length l))) in *.
  erewrite stM_bind_Ret by (apply (readWithTimeout_ok c h (l ++ rest)); done). cbn iota.
  pose proof (parse_be_bytes 4 false (Z.of_nat (length l)) [] ltac:(lia)) as E. fold h in E.
  rewrite app_nil_r in E. unfold Utils.to_T in E. rewrite wrap_small in E by (split; simpl; lia).
  erewrite stM_bind_Ret by (unfold lift; rewrite E; reflexivity). cbn beta.
  destruct (Z.eqb_spec (Z.of_nat (length l)) 0); [lia|]. rewrite Nat2Z.id.
  rewrite (readWithTimeout_ok (set_incoming (l ++ rest) c) l rest) by done. done.
Qed.

(** Reading the content of a packet keeps the type of its header. *)
Lemma readPacketContent_header fuel : ∀ c c' m,
  readPacketContent fuel c = Ret (c', m) → typePacketHeaderBuffer c = typePacketHeaderBuffer c'.
Proof.
  assert (∀ n c c' m, readWithTimeout n c = Ret (c', m) → typePacketHeaderBuffer c = typePacketHeaderBuffer c') as Hr.
  { intros n c c' m. unfold readWithTimeout. destruct (negb _); [by intros [= <- _]|]. case_decide; by intros [= <- _]. }
  induction fuel as [|fuel IH]; intros c c' m; [done|]. cbn [readPacketContent]. intros E.
  apply stM_bind_inv in E as (c1 & h & E1 & E). rewrite (Hr _ _ _ _ E1). destruct h as [h|]; [|by injection E as <- _].
  apply stM_bind_inv in E as (c2 & l & E2 & E). unfold lift in E2. destruct (Utils.parse _ _ _); [|done..].
  injection E2 as <- <-. destruct (_ =? 0); [by apply (IH _ _ _ E)|by apply (Hr _ _ _ _ E)].
Qed.

(** The frames of a packet after their first byte, the type of the first one. *)
Definition first_type (k : nat) : Z := if decide (k = 1)%nat then 3 else 1.

Lemma frames_first r k p : (0 < k)%nat → frames r k p = first_type k :: tail (frames r k p).
Proof. intros Hk. destruct k as [|[|k]]; [lia|done|done]. Qed.

Lemma frames_step r k p :
  (0 < k)%nat →
  tail (frames r (S k) p) = be_bytes 4 1024 ++ take 1024 p ++ frames r k (drop 1024 p).
Proof. intros Hk. destruct k as [|k]; [lia|]. unfold frames. cbn [fragments concat app tail]. by rewrite <- app_assoc. Qed.

(** One iteration of [readFragmentedPacket] on a fragment that is not the last. *)
Lemma readFragmented_step fuel r k p result rest c :
  (0 < k)%nat → (1024 ≤ length p)%nat →
  open c = true → typePacketHeaderBuffer c = 1 →
  incoming c = tail (frames r (S k) p) ++ rest →
  readFragmentedPacket (S fuel) result c
  = readFragmentedPacket fuel (result ++ take 1024 p)
      (set_header (first_type k) (set_incoming (tail (frames r k (drop 1024 p)) ++ rest) c)).
Proof.
  intros Hk Hp Ho Hh Hi. cbn [readFragmentedPacket]. rewrite frames_step, <- !app_assoc in Hi by done.
  assert (length (take 1024 p) = 1024%nat) as Ht by (rewrite length_take; lia).
  erewrite stM_bind_Ret by reflexivity. cbn beta.
  erewrite stM_bind_Ret.
  2: { eapply (readPacketContent_ok _ c (take 1024 p) (frames r k (drop 1024 p) ++ rest)); try done.
       - rewrite Ht. exact Hi.
       - rewrite Ht. lia.
       - rewrite Ht. lia.
       - lia. }
  cbn iota. erewrite stM_bind_Ret by reflexivity. cbn beta.
  unfold set_incoming at 1. cbn [typePacketHeaderBuffer]. rewrite Hh. cbn [isLastFragmentPacket].
  change (isLastFragmentPacket 1) with false. cbn iota.
  erewrite stM_bind_Ret.
  2: { apply (readHeader_ok _ (first_type k) (tail (frames r k (drop 1024 p)) ++ rest)); [done|].
       cbn [incoming set_incoming]. by rewrite (frames_first r k (drop 1024 p)) by done. }
  done.
Qed.

Lemma readFragmented_ok k : ∀ fuel r p result rest c,
  (0 < r < 1024)%nat → (length p = 1024 * k + r)%nat → (k < fuel)%nat →
  open c = true → typePacketHeaderBuffer c = first_type (S k) →
  incoming c = tail (frames r (S k) p) ++ rest →
  readFragmentedPacket fuel result c
  = Ret (set_header 3 (set_incoming rest c), Some (result ++ p)).
Proof.
  induction k as [|k IH]; intros fuel r p result rest c Hr Hp Hf Ho Hh Hi.
  - destruct fuel as [|fuel]; [lia|]. cbn [readFragmentedPacket].
    assert (take r p = p) as Ht by (apply take_ge; lia).
    unfold frames in Hi. cbn [fragments concat app tail] in Hi. rewrite app_nil_r, Ht, <- app_assoc in Hi.
    erewrite stM_bind_Ret by reflexivity. cbn beta.
    erewrite stM_bind_Ret.
    2: { eapply (readPacketContent_ok _ c p rest); try done; [|lia|lia|lia].
         rewrite Hi. do 3 f_equal. lia. }
    cbn iota. erewrite stM_bind_Ret by reflexivity. cbn beta.
    unfold set_incoming at 1. cbn [typePacketHeaderBuffer]. rewrite Hh. cbn iota.
    change (isLastFragmentPacket (first_type 1)) with true. cbn iota.
    destruct c; simpl in *; by subst.
  - destruct fuel as [|fuel]; [lia|].
    rewrite (readFragmented_step fuel r (S k) p result rest c) by (done || lia).
    rewrite (IH fuel r (drop 1024 p) _ rest); [|done| |lia|done|done|done].
    + by rewrite <- app_assoc, take_drop.
    + rewrite length_drop. lia.
Qed.

(** What reading a packet gives once the content of its last fragment is taken for [result]
    followed by the next packet content of the stream. *)
Definition continued (fuel : nat) (result : bytes) : stM t (option bytes) :=
  m ← readPacketContent fuel;
  match m with Some m => mret (Some (result ++ m)) | None => mret None end.

(** A packet that is a multiple of 1024 bytes is cut off by its last fragment, which announces
    no bytes: the reader goes on with whatever follows. *)
Lemma readFragmented_multiple k : ∀ fuel p result rest c,
  (length p = 1024 * S k)%nat → (k < fuel)%nat →
  open c = true → typePacketHeaderBuffer c = first_type (S k) →
  incoming c = tail (frames 0 (S k) p) ++ rest →
  readFragmentedPacket fuel result c
  = continued (4 + length rest) (result ++ take (1024 * k) p) (set_header 3 (set_incoming rest c)).
Proof.
  induction k as [|k IH]; intros fuel p result rest c Hp Hf Ho Hh Hi.
  - destruct fuel as [|fuel]; [lia|]. cbn [readFragmentedPacket].
    assert (incoming c = be_bytes 4 0 ++ rest) as Hi' by (rewrite Hi; done). clear Hi.
    erewrite stM_bind_Ret by reflexivity. cbn beta.
    assert (set_header 3 (set_incoming rest c) = set_incoming rest c) as -> by (destruct c; simpl in *; by subst).
    replace (S (length (incoming c))) with (S (4 + length rest)) by (rewrite Hi', length_app, length_be_bytes; lia).
    assert (readPacketContent (S (4 + length rest)) c = readPacketContent (4 + length rest) (set_incoming rest c)) as E.
    { set (n := (4 + length rest)%nat). cbn [readPacketContent].
      erewrite stM_bind_Ret by (apply (readWithTimeout_ok c (be_bytes 4 0) rest); done). cbn iota.
      erewrite stM_bind_Ret by (unfold lift; change (Utils.parse 4 false (be_bytes 4 0)) with (Ret 0); reflexivity). done. }
    unfold continued. change (1024 * 0)%nat with 0%nat. rewrite take_0, app_nil_r.
    destruct (readPacketContent (4 + length rest) (set_incoming rest c)) as [[c' m]| | | |] eqn:Ec;
      [|unfold mbind, stM_bind; by rewrite E, Ec..].
    rewrite (stM_bind_Ret _ _ c c' m) by (by rewrite E). rewrite (stM_bind_Ret _ _ (set_incoming rest c) c' m) by done.
    destruct m as [m|]; [|done]. erewrite stM_bind_Ret by reflexivity. cbn beta.
    assert (typePacketHeaderBuffer c' = 3) as ->; [|done].
    rewrite <- (readPacketContent_header _ _ _ _ Ec). exact Hh.
  - destruct fuel as [|fuel]; [lia|].
    rewrite (readFragmented_step fuel 0 (S k) p result rest c) by (done || lia).
    rewrite (IH fuel (drop 1024 p) _ rest); [|rewrite length_drop; lia|lia|done|done|done].
    rewrite <- app_assoc, take_take_drop. by replace (1024 * S k)%nat with (1024 + 1024 * k)%nat by lia.
Qed.

End reading.

(** ** Properties *)

(** A connection on which [b] is still to be read. *)
Definition receiver (b : bytes) : Connection.t := Connection.mk b [] [] true 0 None.

Lemma nFragments_mod p :
  (length p mod 1024 ≠ 0)%nat → Connection.nFragments p = S (length p / 1024).
Proof.
  intros H. unfold Connection.nFragments, Connection.FRAGMENT_MIN_SIZE. rewrite decide_False by done. lia.
Qed.

Lemma frames_length r k p : (k ≤ length (frames r k p))%nat.
Proof.
  revert p. induction k as [|[|k] IH]; intros p; [simpl; lia|simpl; lia|].
  rewrite (frames_first r (S (S k)) p), frames_step by lia.
  specialize (IH (drop 1024 p)). cbn [length]. rewrite !length_app. lia.
Qed.

Lemma readSync_packet b l :
  let c := Connection.set_header b (receiver l) in
  Connection.readSync (receiver (b :: l))
  = if Connection.isFragmentPacket b then Connection.readFragmentedPacket (S (length l)) [] c
    else Connection.readPacketContent (S (length l)) c.
Proof.
  intros c. unfold Connection.readSync.
  erewrite stM_bind_Ret by (apply (readHeader_ok _ b l); reflexivity). cbn iota.
  erewrite stM_bind_Ret by reflexivity. cbn beta. unfold Connection.readPacket.
  erewrite stM_bind_Ret by reflexivity. cbn [Connection.typePacketHeaderBuffer Connection.set_header].
  by destruct (Connection.isFragmentPacket b).
Qed.

Lemma first_type_fragment k : Connection.isFragmentPacket (first_type k) = true.
Proof. unfold first_type. by destruct (decide _). Qed.

Lemma readSync_fragments r k p rest :
  (0 < k)%nat →
  Connection.readSync (receiver (frames r k p ++ rest))
  = Connection.readFragmentedPacket (S (length (tail (frames r k p) ++ rest))) []
      (Connection.set_header (first_type k) (receiver (tail (frames r k p) ++ rest))).
Proof.
  intros Hk. rewrite (frames_first r k p) at 1 by done.
  change ((first_type k :: tail (frames r k p)) ++ rest) with (first_type k :: (tail (frames r k p) ++ rest)).
  by rewrite readSync_packet, first_type_fragment.
Qed.

Lemma frames_tail_length r k p : (k ≤ S (length (tail (frames r k p))))%nat.
Proof.
  pose proof (frames_length r k p) as H. destruct k; [lia|].
  rewrite (frames_first r (S k) p) in H by lia. exact H.
Qed.

Lemma short_frame p : (length p < 1024)%nat → frame p = 0 :: be_bytes 4 (Z.of_nat (length p)) ++ p.
Proof. intros Hl. unfold frame, packets. rewrite decide_True by done. cbn [concat]. by rewrite app_nil_r. Qed.

Lemma long_frame p : (1024 ≤ length p)%nat → frame p = frames (length p mod 1024) (Connection.nFragments p) p.
Proof. intros Hl. unfold frame, packets. by rewrite decide_False by lia. Qed.

(** Reading a frame. *)
Lemma frame_read p rest :
  (0 < length p)%nat → Z.of_nat (length p) < 2 ^ 32 → (length p < 1024)%nat ∨ (length p mod 1024 ≠ 0)%nat →
  ∃ c', Connection.readSync (receiver (frame p ++ rest)) = Ret (c', Some p) ∧ Connection.incoming c' = rest.
Proof.
  intros Hp Hb Hcase. destruct (decide (length p < 1024)%nat) as [Hl|Hl].
  - rewrite short_frame by done. cbn [app]. rewrite readSync_packet. change (Connection.isFragmentPacket 0) with false. cbn iota.
    rewrite (readPacketContent_ok _ _ p rest); [|done| |lia|lia|lia].
    + eexists. split; [reflexivity|done].
    + cbn [Connection.incoming Connection.set_header receiver]. by rewrite <- app_assoc.
  - assert (length p mod 1024 ≠ 0)%nat as Hm by lia. rewrite long_frame, nFragments_mod by (done || lia).
    rewrite readSync_fragments by lia.
    pose proof (Nat.div_mod_eq (length p) 1024). pose proof (Nat.mod_upper_bound (length p) 1024).
    pose proof (frames_tail_length (length p mod 1024) (S (length p / 1024)) p).
    rewrite (readFragmented_ok (length p / 1024) _ (length p mod 1024) p [] rest);
      [|lia|lia|rewrite length_app; lia|done|done|done].
    eexists. split; [reflexivity|done].
Qed.

(** Reading the frame of a message that is a multiple of 1024 bytes. *)
Lemma frame_multiple p rest :
  (0 < length p)%nat → (length p mod 1024 = 0)%nat →
  Connection.readSync (receiver (frame p ++ rest))
  = continued (4 + length rest) (take (length p - 1024) p) (Connection.set_header 3 (receiver rest)).
Proof.
  intros Hp Hm. pose proof (Nat.div_mod_eq (length p) 1024) as Hd. rewrite Hm in Hd.
  rewrite long_frame by lia. rewrite Hm.
  assert (Connection.nFragments p = S (length p / 1024 - 1)) as ->.
  { unfold Connection.nFragments, Connection.FRAGMENT_MIN_SIZE. rewrite decide_True by done. lia. }
  rewrite readSync_fragments by lia.
  pose proof (frames_tail_length 0 (S (length p / 1024 - 1)) p).
  rewrite (readFragmented_multiple (length p / 1024 - 1) _ p [] rest); [|lia|rewrite length_app; lia|done..].
  cbn [app]. by replace (1024 * (length p / 1024 - 1))%nat with (length p - 1024)%nat by lia.
Qed.

(** A short frame that was cut is not read. *)
Lemma cut_frame p n :
  (0 < length p < 1024)%nat → (0 < n < length (frame p))%nat →
  ∃ c', Connection.readSync (receiver (take n (frame p))) = Ret (c', None).
Proof.
  intros Hp Hn. rewrite short_frame in * by lia. destruct n as [|n]; [lia|]. cbn [take length] in *.
  rewrite length_app, length_be_bytes in Hn. rewrite readSync_packet. change (Connection.isFragmentPacket 0) with false. cbn iota.
  set (h := be_bytes 4 (Z.of_nat (length p))) in *. assert (length h = 4%nat) as Hh by apply length_be_bytes.
  set (fuel := length (take n (h ++ p))). cbn [Connection.readPacketContent].
  destruct (decide (n < 4)%nat) as [Hs|Hs].
  - destruct (readWithTimeout_eof (Connection.set_header 0 (receiver (take n (h ++ p)))) 4) as [c' E].
    { cbn [Connection.incoming Connection.set_header receiver]. rewrite length_take, length_app. lia. }
    erewrite stM_bind_Ret by exact E. by eexists.
  - assert (take n (h ++ p) = h ++ take (n - 4) p) as -> by (rewrite take_app, take_ge by lia; by rewrite Hh).
    erewrite stM_bind_Ret by (rewrite <- Hh; apply (readWithTimeout_ok _ h (take (n - 4) p)); done). cbn iota.
    pose proof (parse_be_bytes 4 false (Z.of_nat (length p)) [] ltac:(lia)) as E. fold h in E.
    rewrite app_nil_r in E. unfold Utils.to_T in E. rewrite wrap_small in E by (split; simpl; lia).
    erewrite stM_bind_Ret by (unfold lift; rewrite E; reflexivity). cbn beta.
    destruct (Z.eqb_spec (Z.of_nat (length p)) 0); [lia|]. rewrite Nat2Z.id. apply readWithTimeout_eof.
    cbn [Connection.incoming Connection.set_header Connection.set_incoming receiver]. rewrite length_take. lia.
Qed.

Lemma frame_length p : (length (frame p) ≤ length p + 5 * S (length p / 1024))%nat.
Proof.
  assert (∀ r k q, (length (frames r k q) ≤ length q + 5 * k)%nat) as Hk.
  { intros r k. induction k as [|[|k] IH]; intros q; [simpl; lia| |].
    - unfold frames. cbn [fragments concat]. cbn [length app]. rewrite !length_app, length_be_bytes, length_take. simpl. lia.
    - rewrite (frames_first r (S (S k)) q), frames_step by lia. specialize (IH (drop 1024 q)).
      cbn [length]. rewrite !length_app, length_be_bytes, length_take. rewrite length_drop in IH. lia. }
  destruct (decide (length p < 1024)%nat) as [Hl|Hl].
  - rewrite short_frame by done. cbn [length]. rewrite length_app, length_be_bytes. lia.
  - rewrite long_frame by lia. etransitivity; [apply Hk|]. unfold Connection.nFragments, Connection.FRAGMENT_MIN_SIZE.
    case_decide; lia.
Qed.

(** C36: framing on a connection, whatever the socket does.  [Connection::writeAsync] starts one
    asynchronous write for each buffer of the frame of a message.  [Connection::writeSync] puts
    the frame on the stream and returns its length when the socket takes every buffer whole; of
    a message under 1024 bytes the socket may take a part, which is what [writeSync] returns:
    the rest is never sent, and a reader of that part alone fails.  [Connection::readSync] of a
    frame returns the message and leaves the bytes that follow, unless the length of the message
    is a positive multiple of 1024: then its last fragment announces no bytes, the last 1024
    bytes of the message are missing, and the reader takes what follows on the stream for a
    length and a content (with nothing there, it fails). *)
Theorem framing_roundtrip `{Socket} (p rest : bytes) (c : Connection.t) :
  Connection.open c = true → (0 < length p)%nat → Z.of_nat (length p) < 2 ^ 32 →
  let wire := frame p in
  let n := write_some wire in
  (Connection.writeAsync p c = Ret (started (packets p) c, ()) ∧ concat (packets p) = wire) ∧
  (Forall taken (packets p) →
   Connection.writeSync p c = Ret (Connection.set_outgoing (Connection.outgoing c ++ wire) c, Z.of_nat (length wire))) ∧
  ((length p < 1024)%nat → (0 < n < length wire)%nat →
   Connection.writeSync p c = Ret (Connection.set_outgoing (Connection.outgoing c ++ take n wire) c, Z.of_nat n) ∧
   ∃ c', Connection.readSync (receiver (take n wire)) = Ret (c', None)) ∧
  ((length p < 1024)%nat ∨ (length p mod 1024 ≠ 0)%nat →
   ∃ c', Connection.readSync (receiver (wire ++ rest)) = Ret (c', Some p) ∧ Connection.incoming c' = rest) ∧
  ((length p mod 1024 = 0)%nat →
   Connection.readSync (receiver (wire ++ rest))
     = continued (4 + length rest) (take (length p - 1024) p) (Connection.set_header 3 (receiver rest)) ∧
   ∃ c', Connection.readSync (receiver wire) = Ret (c', None)).
Proof.
  intros Ho Hp Hb wire n. split; [by split; [apply writeAsync_packets|]|]. split; [|split; [|split]].
  - intros Hall. apply writeSync_whole; [done..|]. pose proof (frame_length p).
    pose proof (Nat.div_mod_eq (length p) 1024). lia.
  - intros Hl Hn. split; [|by apply cut_frame]. assert (packets p = [wire]) as Ep.
    { unfold wire. rewrite short_frame by done. unfold packets. by rewrite decide_True by done. }
    rewrite writeSync_packets; [|done|rewrite Ep; apply Forall_cons; split; [lia|done]]. rewrite Ep. unfold sent, total.
    cbn [fmap list_fmap concat foldl]. rewrite app_nil_r, wrap_small; [done|]. pose proof (frame_length p).
    pose proof (Nat.div_mod_eq (length p) 1024). unfold wire in *. split; lia.
  - by apply frame_read.
  - intros Hm. split; [by apply frame_multiple|]. rewrite <- (app_nil_r wire). unfold wire. rewrite frame_multiple by done.
    destruct (readWithTimeout_eof (Connection.set_header 3 (receiver [])) 4) as [c' E]; [simpl; lia|].
    exists c'. unfold continued. cbn [length Nat.add Connection.readPacketContent].
    rewrite (stM_bind_Ret _ _ _ c' None); [done|]. by erewrite stM_bind_Ret by exact E.
Qed.

(** A socket that takes every buffer whole. *)
#[export] Instance whole_socket : Socket := {| write_some b := length b; write_some_le b := le_n _ |}.

(** A socket that takes at most 100 bytes at a time. *)
Definition slow_socket : Socket.
Proof. refine {| write_some b := Nat.min 100 (length b) |}. intros b. apply Nat.le_min_r. Defined.

Lemma framing_roundtrip_witness :
  (∃ c', Connection.readSync (receiver (frame (replicate 1500 7) ++ [9])) = Ret (c', Some (replicate 1500 7)) ∧
         Connection.incoming c' = [9]) ∧
  (∃ c w, Connection.writeSync (H := slow_socket) (replicate 200 7) (receiver []) = Ret (c, w) ∧ w = 100) ∧
  (∃ c', Connection.readSync (receiver (frame (replicate 2048 7))) = Ret (c', None)).
Proof.
  split; [|split].
  - apply (framing_roundtrip (H := whole_socket) (replicate 1500 7) [9] (receiver []));
      [done|apply Nat.ltb_lt; reflexivity|vm_compute; reflexivity|right; vm_compute; discriminate].
  - destruct (framing_roundtrip (H := slow_socket) (replicate 200 7) [] (receiver [])) as (_ & _ & Hcut & _);
      [done|apply Nat.ltb_lt; reflexivity|vm_compute; reflexivity|].
    destruct Hcut as [E _]; [apply Nat.ltb_lt; reflexivity|split; apply Nat.ltb_lt; vm_compute; reflexivity|].
    eexists _, _. split; [exact E|]. vm_compute. reflexivity.
  - destruct (framing_roundtrip (H := whole_socket) (replicate 2048 7) [] (receiver [])) as (_ & _ & _ & _ & Hm);
      [done|apply Nat.ltb_lt; reflexivity|vm_compute; reflexivity|].
    apply Hm. vm_compute. reflexivity.
Defined.
