(* ===== verification/Server.v ===== *)
(** * The TCP server

    Models [TCPServer::onNewRequest], [sendAuthError] and [sendResponse] of
    [server/TCPServer.cpp].  What executes a request is an interface, [Dispatcher]; the
    server's theorems hold for every implementation of it. *)

From S2P Require Import Prelude.
From S2P Require Import Utils.
From S2P Require Import Clock.
From S2P Require Import Messages.
From S2P Require Import Codec.
From S2P Require Import Config.
From S2P Require Import Connection.

(** [OperatorDispatcher] as the server sees it: a request changes the node's state and
    has a response. *)
Class Dispatcher (S : Type) := dispatch : Request.t → stM S Response.t.

Module TCPServer.
Section server.
Context {S : Type} {D : Dispatcher S} {P : Platform}.

(** The node's state and the connection the request came from. *)
Abbreviation world := (S * Connection.t)%type.

Definition on_node {A} (m : stM S A) : stM world A :=
  λ '(s, c), let! (s, a) := m s in Ret ((s, c), a).
Definition on_connection {A} (m : stM Connection.t A) : stM world A :=
  λ '(s, c), let! (c, a) := m c in Ret ((s, c), a).

(** [TCPServer::sendResponse]. *)
Definition sendResponse (response : Response.t) : stM world () :=
  w ← get_st;
  if Connection.isOpen w.2 then
    serialized ← lift (ResponseCodec.serialize response);
    on_connection (Connection.writeAsync serialized)
  else mret ().

(** [TCPServer::sendAuthError]. *)
Definition authError (request : Request.t) : Response.t :=
  Response.error_to ErrorCode.AUTH_ERROR (Request.requestNumber request)
    (LamportClock.mk (OperationBody.timestamp (Request.operation request)) 0).
Definition sendAuthError (request : Request.t) : stM world () := sendResponse (authError request).

Definition set_authenticationType (ty : AuthenticationType) (r : Request.t) : Request.t :=
  Request.mk (Request.authentication r) (Request.operation r) (Request.requestNumber r) ty.
Definition set_requestNumber (n : Z) (r : Response.t) : Response.t :=
  Response.mk (Response.isSuccessful r) (Response.errorCode r) (Response.timestamp r) n
    (Response.responseValue r).

(** [TCPServer::onNewRequest] up to the call of the dispatcher: the request, and whether it may
    be dispatched. *)
Definition receive (configuration : Configuration.t) (requestRawBuffer : bytes) : outcome (bool * Request.t) :=
  let! request := RequestDeserializer.deserialize requestRawBuffer in
  let key := AuthenticationBody.authKey (Request.authentication request) in
  let! authenticationValid := Authenticator.authenticate configuration key in
  if negb authenticationValid then Ret (false, request)
  else
    let! authType := Authenticator.getAuthenticationType configuration key in
    let! authType := of_option runtime_error authType in
    let request := set_authenticationType authType request in
    Ret (negb (bool_decide (authType ≠ NODE) && AuthenticationBody.flag1 (Request.authentication request)), request).

(** [TCPServer::onNewRequest]. *)
Definition onNewRequest (configuration : Configuration.t) (requestRawBuffer : bytes) : stM world () :=
  received ← lift (receive configuration requestRawBuffer);
  let request := received.2 in
  if negb received.1 then sendAuthError request
  else
    response ← on_node (dispatch request);
    sendResponse (set_requestNumber (Request.requestNumber request) response).

End server.
End TCPServer.

(** ** Lemmas *)

(** The kind of key, when the key is one of the two configured ones. *)
Definition key_type (user node : bytes) (key : bytes) : option AuthenticationType :=
  if bool_decide (user = key) then Some USER else if bool_decide (node = key) then Some NODE else None.

Lemma authenticate_type c user node key :
  Configuration.get c ConfigurationKeys.AUTH_API_USER_KEY = Ret user →
  Configuration.get c ConfigurationKeys.AUTH_NODE_KEY = Ret node →
  let ty := key_type (bytes_of_string user) (bytes_of_string node) key in
  Authenticator.authenticate c key = Ret (bool_decide (is_Some ty)) ∧
  Authenticator.getAuthenticationType c key = Ret ty.
Proof.
  intros Hu Hn ty. unfold Authenticator.authenticate, Authenticator.getAuthenticationType,
    Authenticator.getAuthenticationTypeFromConfiguration, ty, key_type.
  rewrite Hu, Hn. cbn [obind]. by destruct (bool_decide _), (bool_decide (bytes_of_string node = key)).
Qed.

(** What becomes of a request that could be read: its type is that of its key, and it may be
    dispatched under a configured key, as a node only under the node's. *)
Lemma receive_ok `{Platform} conf user node buffer r :
  Configuration.get conf ConfigurationKeys.AUTH_API_USER_KEY = Ret user →
  Configuration.get conf ConfigurationKeys.AUTH_NODE_KEY = Ret node →
  RequestDeserializer.deserialize buffer = Ret r →
  TCPServer.receive conf buffer = Ret
    match key_type (bytes_of_string user) (bytes_of_string node)
            (AuthenticationBody.authKey (Request.authentication r)) with
    | None => (false, r)
    | Some ty => (negb (bool_decide (ty ≠ NODE) && AuthenticationBody.flag1 (Request.authentication r)),
                  TCPServer.set_authenticationType ty r)
    end.
Proof.
  intros Hu Hn Hr. unfold TCPServer.receive. rewrite Hr. cbv zeta. cbn [obind].
  destruct (authenticate_type conf user node
    (AuthenticationBody.authKey (Request.authentication r)) Hu Hn) as [Ea Et].
  rewrite Ea, Et. cbn [obind]. destruct (key_type _ _ _) as [ty|]; [|done].
  by rewrite bool_decide_true by done.
Qed.

Section responses.
Context {S : Type} {D : Dispatcher S} {P : Platform}.

(** What is handed to an open connection as the answer [b]. *)
Definition answered (b : bytes) (c : Connection.t) : Connection.t :=
  if Connection.open c then started (packets b) c else c.

(** [sendResponse] starts the writes of the serialised response on an open connection and
    leaves the node alone. *)
Lemma sendResponse_ok (s : S) c r b :
  ResponseCodec.serialize r = Ret b → TCPServer.sendResponse r (s, c) = Ret ((s, answered b c), ()).
Proof.
  intros Hb. unfold TCPServer.sendResponse, answered. erewrite stM_bind_Ret by reflexivity. cbn beta.
  unfold Connection.isOpen. cbn [snd]. destruct (Connection.open c) eqn:Ho; [|done].
  erewrite stM_bind_Ret by (unfold lift; rewrite Hb; reflexivity). cbn beta.
  unfold TCPServer.on_connection. by rewrite writeAsync_packets.
Qed.

Lemma onNewRequest_refused conf buffer r (s : S) c b :
  TCPServer.receive conf buffer = Ret (false, r) → ResponseCodec.serialize (TCPServer.authError r) = Ret b →
  TCPServer.onNewRequest conf buffer (s, c) = Ret ((s, answered b c), ()).
Proof.
  intros Er Eb. unfold TCPServer.onNewRequest. erewrite stM_bind_Ret by (unfold lift; rewrite Er; reflexivity).
  cbn beta. cbn [fst snd negb]. by apply sendResponse_ok.
Qed.

Lemma onNewRequest_runs conf buffer r (s s' : S) c response b :
  TCPServer.receive conf buffer = Ret (true, r) → dispatch r s = Ret (s', response) →
  ResponseCodec.serialize (TCPServer.set_requestNumber (Request.requestNumber r) response) = Ret b →
  TCPServer.onNewRequest conf buffer (s, c) = Ret ((s', answered b c), ()).
Proof.
  intros Er Ed Eb. unfold TCPServer.onNewRequest. erewrite stM_bind_Ret by (unfold lift; rewrite Er; reflexivity).
  cbn beta. cbn [fst snd negb]. erewrite stM_bind_Ret by (unfold TCPServer.on_node; rewrite Ed; reflexivity).
  by apply sendResponse_ok.
Qed.

End responses.

(** ** Properties *)

(** C21: the server executes a request only when its key is one of the two configured keys
    and, if the request claims to come from a node, only when it is the node key: otherwise
    the node's state is untouched and the answer is [AUTH_ERROR] with the request's number.
    An executed request carries the type of its key and its response carries its number.  The
    answer is what is handed to the connection: one asynchronous write is started for each
    packet of the serialised response, on a connection that is open; whether the socket sends
    them is not part of the statement. *)
Theorem only_authenticated_requests_run {S : Type} {D : Dispatcher S} {P : Platform}
    (conf : Configuration.t) (user node : string) (buffer : bytes) (r : Request.t)
    (s : S) (c : Connection.t) :
  Configuration.get conf ConfigurationKeys.AUTH_API_USER_KEY = Ret user →
  Configuration.get conf ConfigurationKeys.AUTH_NODE_KEY = Ret node →
  RequestDeserializer.deserialize buffer = Ret r →
  let key := AuthenticationBody.authKey (Request.authentication r) in
  let claims_node := AuthenticationBody.flag1 (Request.authentication r) in
  ((key ≠ bytes_of_string user ∧ key ≠ bytes_of_string node) ∨
   (key = bytes_of_string user ∧ claims_node = true) →
   ∃ b, TCPServer.onNewRequest conf buffer (s, c) = Ret ((s, answered b c), ()) ∧
        ResponseCodec.serialize (Response.error_to ErrorCode.AUTH_ERROR (Request.requestNumber r)
          (LamportClock.mk (OperationBody.timestamp (Request.operation r)) 0)) = Ret b) ∧
  (∀ ty s' response b,
   (key = bytes_of_string user ∧ claims_node = false ∧ ty = USER) ∨
   (key = bytes_of_string node ∧ key ≠ bytes_of_string user ∧ ty = NODE) →
   dispatch (TCPServer.set_authenticationType ty r) s = Ret (s', response) →
   ResponseCodec.serialize (TCPServer.set_requestNumber (Request.requestNumber r) response) = Ret b →
   TCPServer.onNewRequest conf buffer (s, c) = Ret ((s', answered b c), ())).
Proof.
  intros Hu Hn Hr key claims_node. pose proof (receive_ok conf user node buffer r Hu Hn Hr) as Ec.
  fold key claims_node in Ec. split.
  - intros Hcase. assert (∃ b, ResponseCodec.serialize (TCPServer.authError r) = Ret b) as [b Hb].
    { eexists. apply response_layout. split; [done|constructor]. }
    exists b. split; [|done]. unfold key_type in Ec. destruct Hcase as [[H1 H2]|[H1 H2]].
    + rewrite !bool_decide_false in Ec by congruence. by eapply onNewRequest_refused.
    + rewrite bool_decide_true in Ec by congruence. rewrite bool_decide_true, H2 in Ec by done.
      by apply (onNewRequest_refused conf buffer (TCPServer.set_authenticationType USER r)).
  - intros ty s' response b Hcase Hd Hb. apply (onNewRequest_runs conf buffer (TCPServer.set_authenticationType ty r) s s' c response b); [|done..].
    rewrite Ec. unfold key_type. destruct Hcase as [(H1 & H2 & ->)|(H1 & H2 & ->)].
    + rewrite bool_decide_true by congruence. by rewrite H2, andb_false_r.
    + rewrite bool_decide_false, bool_decide_true by congruence. done.
Qed.

(** A node that counts the requests it executes. *)
Definition counting : Dispatcher nat :=
  λ _ n, Ret (S n, Response.success (LamportClock.mk 5 1)).

Definition user_request : Request.t :=
  RequestBuilder.build (RequestBuilder.operatorNumber 1
    (RequestBuilder.authKey [49; 50; 51] RequestBuilder.builder)).

Definition raw (r : Request.t) : bytes :=
  match RequestSerializer.serialize r with Ret b => b | _ => [] end.

(** [sample_request] has an unknown key; [user_request] has the default user key [123]. *)
Lemma only_authenticated_requests_run_witness :
  let conf := Configuration.mk DefaultConfig_get (λ _, None) in
  ∃ c1 c2,
    TCPServer.onNewRequest (D := counting) (P := masking_target) conf (raw sample_request) (7%nat, receiver [])
      = Ret ((7%nat, c1), ()) ∧
    TCPServer.onNewRequest (D := counting) (P := masking_target) conf (raw user_request) (7%nat, receiver [])
      = Ret ((8%nat, c2), ()).
Proof.
  intros conf.
  destruct (only_authenticated_requests_run (D := counting) (P := masking_target) conf "123" "456"
    (raw sample_request) sample_request 7%nat (receiver [])) as [[b [Hb _]] _];
    [reflexivity|reflexivity|vm_compute; reflexivity|left; split; discriminate|].
  destruct (only_authenticated_requests_run (D := counting) (P := masking_target) conf "123" "456"
    (raw user_request) (TCPServer.set_authenticationType USER
      (Request.mk (Request.authentication user_request)
         (OperationBody.mk (Some []) 0 1 1 false false) 0 USER)) 7%nat (receiver [])) as [_ Hu];
    [reflexivity|reflexivity|vm_compute; reflexivity|].
  eexists _, _. split; [exact Hb|]. eapply Hu; [left; repeat split|reflexivity|reflexivity].
Defined.
