(* ===== verification/SharedLocks.v ===== *)
(** * The shared/exclusive lock

    Models [utils/threads/SharedLock.cpp] as a step relation over any number of threads:
    one step per statement that touches shared memory, two [std::mutex]es with their owners
    and the two counters.  [std::mutex::unlock] by a thread that does not own the mutex is
    undefined; [foreign_unlock] describes the states that are about to do it. *)

From S2P Require Import Prelude.

Module SharedLock.

(** Where a thread is. [LS*], [US*], [LE*], [UE*] are the statements of [lockShared],
    [unlockShared], [lockExclusive] and [unlockExclusive]; [Shared] and [Exclusive] are the
    caller's critical sections. *)
Inductive pc :=
| Idle
| LS_count        (** waits for [sharedCountLock] *)
| LS_inc          (** [++lockedSharedCount == 1] *)
| LS_lock         (** waits for [lock] *)
| LS_done         (** [sharedCountLock.unlock()] *)
| Shared
| US_count        (** waits for [sharedCountLock] *)
| US_dec          (** [--lockedSharedCount == 0] *)
| US_unlock       (** [lock.unlock()] *)
| US_done         (** [sharedCountLock.unlock()] *)
| LE_lock         (** waits for [lock] *)
| LE_inc          (** [lockedExclusiveCount++] *)
| Exclusive
| UE_dec          (** [--lockedExclusiveCount == 0] *)
| UE_unlock.      (** [lock.unlock()] *)

#[global] Instance pc_eq_dec : EqDecision pc.
Proof. solve_decision. Defined.

Record state := mk {
  lockedSharedCount : Z;
  sharedCountLock : option nat;
  lock : option nat;
  lockedExclusiveCount : Z;
  threads : list pc;
}.

Definition initial (n : nat) : state := mk 0 None None 0 (replicate n Idle).

Definition goto (t : nat) (p : pc) (s : state) : state :=
  mk (lockedSharedCount s) (sharedCountLock s) (lock s) (lockedExclusiveCount s) (<[t:=p]> (threads s)).
Definition set_shared (n : Z) (s : state) : state :=
  mk n (sharedCountLock s) (lock s) (lockedExclusiveCount s) (threads s).
Definition set_count_lock (o : option nat) (s : state) : state :=
  mk (lockedSharedCount s) o (lock s) (lockedExclusiveCount s) (threads s).
Definition set_lock (o : option nat) (s : state) : state :=
  mk (lockedSharedCount s) (sharedCountLock s) o (lockedExclusiveCount s) (threads s).
Definition set_exclusive (n : Z) (s : state) : state :=
  mk (lockedSharedCount s) (sharedCountLock s) (lock s) n (threads s).

(** [SharedLock::lockShared]. *)
Definition lockShared_step (t : nat) (p : pc) (s : state) : option state :=
  match p with
  | LS_count =>
      match sharedCountLock s with
      | None => Some (goto t LS_inc (set_count_lock (Some t) s)) | Some _ => None end
  | LS_inc =>
      let n := lockedSharedCount s + 1 in
      Some (goto t (if n =? 1 then LS_lock else LS_done) (set_shared n s))
  | LS_lock =>
      match lock s with
      | None => Some (goto t LS_done (set_lock (Some t) s)) | Some _ => None end
  | LS_done => Some (goto t Shared (set_count_lock None s))
  | _ => None
  end.

(** [SharedLock::unlockShared]. *)
Definition unlockShared_step (t : nat) (p : pc) (s : state) : option state :=
  match p with
  | US_count =>
      match sharedCountLock s with
      | None => Some (goto t US_dec (set_count_lock (Some t) s)) | Some _ => None end
  | US_dec =>
      let n := lockedSharedCount s - 1 in
      Some (goto t (if n =? 0 then US_unlock else US_done) (set_shared n s))
  | US_unlock => Some (goto t US_done (set_lock None s))
  | US_done => Some (goto t Idle (set_count_lock None s))
  | _ => None
  end.

(** [SharedLock::lockExclusive]. *)
Definition lockExclusive_step (t : nat) (p : pc) (s : state) : option state :=
  match p with
  | LE_lock =>
      match lock s with
      | None => Some (goto t LE_inc (set_lock (Some t) s)) | Some _ => None end
  | LE_inc => Some (goto t Exclusive (set_exclusive (u64 (lockedExclusiveCount s + 1)) s))
  | _ => None
  end.

(** [SharedLock::unlockExclusive]. *)
Definition unlockExclusive_step (t : nat) (p : pc) (s : state) : option state :=
  match p with
  | UE_dec =>
      let n := u64 (lockedExclusiveCount s - 1) in
      Some (goto t (if n =? 0 then UE_unlock else Idle) (set_exclusive n s))
  | UE_unlock => Some (goto t Idle (set_lock None (set_exclusive 0 s)))
  | _ => None
  end.

(** A caller enters and leaves the sections in the documented order. *)
Definition call_step (p : pc) : list pc :=
  match p with
  | Idle => [LS_count; LE_lock]
  | Shared => [US_count]
  | Exclusive => [UE_dec]
  | _ => []
  end.

Inductive step : state → state → Prop :=
| step_call s t p q : threads s !! t = Some p → q ∈ call_step p → step s (goto t q s)
| step_lockShared s s' t p :
    threads s !! t = Some p → lockShared_step t p s = Some s' → step s s'
| step_unlockShared s s' t p :
    threads s !! t = Some p → unlockShared_step t p s = Some s' → step s s'
| step_lockExclusive s s' t p :
    threads s !! t = Some p → lockExclusive_step t p s = Some s' → step s s'
| step_unlockExclusive s s' t p :
    threads s !! t = Some p → unlockExclusive_step t p s = Some s' → step s s'.

Inductive reachable (n : nat) : state → Prop :=
| reach_init : reachable n (initial n)
| reach_step s s' : reachable n s → step s s' → reachable n s'.

(** Some thread is about to release a mutex another thread locked. *)
Definition foreign_unlock (s : state) : Prop :=
  ∃ t t', threads s !! t = Some US_unlock ∧ lock s = Some t' ∧ t' ≠ t.

End SharedLock.

Import SharedLock.

(** ** Counting threads *)

Definition cnt (P : pc → bool) (l : list pc) : Z := foldr (λ p n, Z.b2z (P p) + n) 0 l.

Lemma cnt_nonneg P l : 0 ≤ cnt P l.
Proof. induction l as [|p l IH]; simpl; [lia|]. destruct (P p); simpl; lia. Qed.

Lemma cnt_insert P l t p q :
  l !! t = Some p → cnt P (<[t:=q]> l) = cnt P l - Z.b2z (P p) + Z.b2z (P q).
Proof.
  revert t. induction l as [|x l IH]; intros [|t] H; simpl in *; [done|done| |].
  - injection H as ->. lia.
  - rewrite (IH t H). lia.
Qed.

Lemma cnt_lookup P l t p : l !! t = Some p → P p = true → 0 < cnt P l.
Proof.
  revert t. induction l as [|x l IH]; intros [|t] H HP; simpl in *; [done|done| |].
  - injection H as ->. rewrite HP. pose proof (cnt_nonneg P l). simpl. lia.
  - specialize (IH t H HP). destruct (P x); simpl; lia.
Qed.

Lemma cnt_two P l t t' p p' :
  t ≠ t' → l !! t = Some p → l !! t' = Some p' → P p = true → P p' = true → 1 < cnt P l.
Proof.
  revert t t'. induction l as [|x l IH]; intros [|t] [|t'] Hne H H' HP HP'; simpl in *; try done.
  - injection H as ->. rewrite HP. pose proof (cnt_lookup P l t' p' H' HP'). simpl. lia.
  - injection H' as ->. rewrite HP'. pose proof (cnt_lookup P l t p H HP). simpl. lia.
  - assert (t ≠ t') as Hne' by congruence. specialize (IH t t' Hne' H H' HP HP').
    destruct (P x); simpl; lia.
Qed.

Lemma cnt_length P l : cnt P l ≤ Z.of_nat (length l).
Proof. induction l as [|x l IH]; cbn [cnt foldr length] in *; [lia|]. unfold cnt in IH. destruct (P x); simpl Z.b2z; lia. Qed.

(** Threads that hold [sharedCountLock], that are counted in [lockedSharedCount], that hold
    [lock] for writing, and that are counted in [lockedExclusiveCount]. *)
Definition in_count (p : pc) : bool :=
  match p with LS_inc | LS_lock | LS_done | US_dec | US_unlock | US_done => true | _ => false end.
Definition counted (p : pc) : bool :=
  match p with LS_lock | LS_done | Shared | US_count | US_dec => true | _ => false end.
Definition writing (p : pc) : bool :=
  match p with LE_inc | Exclusive | UE_dec | UE_unlock => true | _ => false end.
Definition counted_excl (p : pc) : bool :=
  match p with Exclusive | UE_dec => true | _ => false end.
(** The first reader in, about to take [lock], and the last one out, about to release it. *)
Definition first_in (p : pc) : bool := match p with LS_lock => true | _ => false end.
Definition last_out (p : pc) : bool := match p with US_unlock => true | _ => false end.

(** The readers as a group hold [lock]: the last one out still has it, or they are counted
    and the first one in has it. *)
Definition readers_hold (s : state) : Z :=
  cnt last_out (threads s)
  + Z.b2z ((0 <? cnt counted (threads s)) && (cnt first_in (threads s) =? 0)).

Definition held (o : option nat) : Z := match o with Some _ => 1 | None => 0 end.

(** The invariant. *)
Record lock_inv (s : state) : Prop := {
  li_count_lock : cnt in_count (threads s) = held (sharedCountLock s);
  li_shared : lockedSharedCount s = cnt counted (threads s);
  li_first : cnt first_in (threads s) = 0 ∨
             (cnt first_in (threads s) = 1 ∧ cnt counted (threads s) = 1);
  li_last : cnt last_out (threads s) = 0 ∨
            (cnt last_out (threads s) = 1 ∧ cnt counted (threads s) = 0);
  li_lock : cnt writing (threads s) + readers_hold s = held (lock s);
  li_excl : lockedExclusiveCount s = cnt counted_excl (threads s);
}.

Lemma cnt_replicate P n : P Idle = false → cnt P (replicate n Idle) = 0.
Proof. intros H. induction n as [|n IH]; simpl; [done|]. rewrite H. simpl. done. Qed.

Lemma lock_inv_initial n : lock_inv (initial n).
Proof.
  constructor; unfold initial, readers_hold; simpl; rewrite ?cnt_replicate by done; auto; reflexivity.
Qed.

Lemma held_01 o : 0 ≤ held o ≤ 1.
Proof. destruct o; simpl; lia. Qed.

(** Subclasses. *)
Lemma cnt_mono (P Q : pc → bool) l : (∀ p, P p = true → Q p = true) → cnt P l ≤ cnt Q l.
Proof.
  intros H. induction l as [|x l IH]; simpl; [lia|].
  destruct (P x) eqn:E; [rewrite (H x E); simpl; lia|]. destruct (Q x); simpl; lia.
Qed.

(** Expand the counters of a state in which thread [t] moved from [p]. *)
Ltac counts Ht :=
  unfold readers_hold in *; cbn [threads goto set_shared set_count_lock set_lock set_exclusive
    lockedSharedCount sharedCountLock lock lockedExclusiveCount] in *;
  rewrite ?(cnt_insert _ _ _ _ _ Ht);
  cbn [in_count counted writing counted_excl first_in last_out Z.b2z].

(** Case analysis on the tests of [readers_hold]. *)
Ltac tests :=
  repeat match goal with
  | |- context [?a <? ?b] => destruct (Z.ltb_spec a b)
  | |- context [?a =? ?b] => destruct (Z.eqb_spec a b)
  | H : context [?a <? ?b] |- _ => destruct (Z.ltb_spec a b)
  | H : context [?a =? ?b] |- _ => destruct (Z.eqb_spec a b)
  end; cbn [andb Z.b2z held] in *.

Lemma first_in_counted l : cnt first_in l ≤ cnt counted l.
Proof. apply cnt_mono. by intros []. Qed.

Lemma counted_excl_writing l : cnt counted_excl l ≤ cnt writing l.
Proof. apply cnt_mono. by intros []. Qed.

(** Threads of different kinds inside [sharedCountLock] are different threads. *)
Lemma cnt_disjoint (P Q R : pc → bool) l :
  (∀ p, P p = true → R p = true ∧ Q p = false) → (∀ p, Q p = true → R p = true) →
  cnt P l + cnt Q l ≤ cnt R l.
Proof.
  intros HP HQ. induction l as [|x l IH]; [simpl; lia|]. cbn [cnt foldr] in *. unfold cnt in IH.
  destruct (P x) eqn:EP.
  - destruct (HP x EP) as [-> ->]. simpl Z.b2z. lia.
  - destruct (Q x) eqn:EQ; [rewrite (HQ x EQ); simpl Z.b2z; lia|].
    destruct (R x); simpl Z.b2z; lia.
Qed.

(** Facts about the counters before the step. *)
Ltac facts s Ht :=
  pose proof (cnt_nonneg in_count (threads s)); pose proof (cnt_nonneg counted (threads s));
  pose proof (cnt_nonneg writing (threads s)); pose proof (cnt_nonneg counted_excl (threads s));
  pose proof (cnt_nonneg first_in (threads s)); pose proof (cnt_nonneg last_out (threads s));
  pose proof (first_in_counted (threads s));
  pose proof (counted_excl_writing (threads s));
  pose proof (held_01 (lock s)); pose proof (held_01 (sharedCountLock s));
  try pose proof (cnt_lookup in_count _ _ _ Ht eq_refl);
  try pose proof (cnt_lookup counted _ _ _ Ht eq_refl);
  try pose proof (cnt_lookup writing _ _ _ Ht eq_refl);
  try pose proof (cnt_lookup counted_excl _ _ _ Ht eq_refl);
  try pose proof (cnt_lookup first_in _ _ _ Ht eq_refl);
  try pose proof (cnt_lookup last_out _ _ _ Ht eq_refl).

(** [sharedCountLock] is held by at most one thread. *)
Lemma count_lock_exclusive s t p (P : pc → bool) :
  lock_inv s → threads s !! t = Some p → in_count p = true → P p = false →
  (∀ q, P q = true → in_count q = true) → cnt P (threads s) = 0.
Proof.
  intros I Ht Hp HP Hin.
  assert (cnt P (threads s) + cnt (λ q, bool_decide (q = p)) (threads s) ≤ cnt in_count (threads s)).
  { apply cnt_disjoint.
    - intros q Hq. split; [by apply Hin|]. apply bool_decide_eq_false. by intros ->; rewrite HP in Hq.
    - by intros q ->%bool_decide_eq_true. }
  assert (0 < cnt (λ q, bool_decide (q = p)) (threads s))
    by (eapply cnt_lookup; [done|]; by apply bool_decide_eq_true).
  pose proof (cnt_nonneg P (threads s)). destruct I as [I1 _ _ _ _ _].
  pose proof (held_01 (sharedCountLock s)). lia.
Qed.

Ltac lock_step s Ht :=
  facts s Ht; constructor; counts Ht; tests; try lia.

Lemma call_inv s t p q :
  lock_inv s → threads s !! t = Some p → q ∈ call_step p → lock_inv (goto t q s).
Proof.
  intros I Ht Hq. destruct I as [I1 I2 I3 I4 I5 I6].
  destruct p; simpl in Hq; try (by apply not_elem_of_nil in Hq);
    repeat (apply elem_of_cons in Hq as [->|Hq]); try (by apply not_elem_of_nil in Hq); lock_step s Ht.
Qed.

Lemma lockShared_inv s s' t p :
  lock_inv s → threads s !! t = Some p → lockShared_step t p s = Some s' → lock_inv s'.
Proof.
  intros I Ht E. pose proof (count_lock_exclusive s t p last_out I Ht) as X1.
  pose proof (count_lock_exclusive s t p first_in I Ht) as X2.
  destruct I as [I1 I2 I3 I4 I5 I6].
  destruct p; simpl in E; try discriminate E;
    try specialize (X1 eq_refl eq_refl ltac:(by intros []));
    try specialize (X2 eq_refl eq_refl ltac:(by intros [])).
  - destruct (sharedCountLock s) eqn:El; [done|]. injection E as <-. lock_step s Ht.
  - injection E as <-. destruct (Z.eqb_spec (lockedSharedCount s + 1) 1); lock_step s Ht.
  - destruct (lock s) eqn:El; [done|]. injection E as <-. lock_step s Ht.
  - injection E as <-. lock_step s Ht.
Qed.

Lemma unlockShared_inv s s' t p :
  lock_inv s → threads s !! t = Some p → unlockShared_step t p s = Some s' → lock_inv s'.
Proof.
  intros I Ht E. pose proof (count_lock_exclusive s t p last_out I Ht) as X1.
  pose proof (count_lock_exclusive s t p first_in I Ht) as X2.
  destruct I as [I1 I2 I3 I4 I5 I6].
  destruct p; simpl in E; try discriminate E;
    try specialize (X1 eq_refl eq_refl ltac:(by intros []));
    try specialize (X2 eq_refl eq_refl ltac:(by intros [])).
  - destruct (sharedCountLock s) eqn:El; [done|]. injection E as <-. lock_step s Ht.
  - injection E as <-. destruct (Z.eqb_spec (lockedSharedCount s - 1) 0); lock_step s Ht.
  - injection E as <-. lock_step s Ht.
  - injection E as <-. lock_step s Ht.
Qed.

Lemma exclusive_inv s s' t p :
  lock_inv s → threads s !! t = Some p →
  lockExclusive_step t p s = Some s' ∨ unlockExclusive_step t p s = Some s' → lock_inv s'.
Proof.
  intros I Ht E. destruct I as [I1 I2 I3 I4 I5 I6].
  assert (0 ≤ lockedExclusiveCount s ≤ 1).
  { facts s Ht. unfold readers_hold in I5. tests; lia. }
  destruct E as [E|E]; destruct p; simpl in E; try discriminate E.
  - destruct (lock s) eqn:El; [done|]. injection E as <-. lock_step s Ht.
  - rewrite wrap_small in E by (split; lia). injection E as <-. lock_step s Ht.
  - assert (lockedExclusiveCount s = 1) as E1 by (facts s Ht; lia). rewrite E1 in E. change (u64 (1 - 1)) with 0 in E. injection E as <-.
    lock_step s Ht.
  - injection E as <-.
    assert (cnt counted_excl (threads s) + cnt (λ p, bool_decide (p = UE_unlock)) (threads s)
            ≤ cnt writing (threads s)) by (apply cnt_disjoint; by intros []).
    assert (0 < cnt (λ p, bool_decide (p = UE_unlock)) (threads s)) by (by eapply cnt_lookup).
    lock_step s Ht.
Qed.

Lemma lock_inv_reachable n s : reachable n s → lock_inv s.
Proof.
  induction 1 as [|s s' _ I Hstep]; [apply lock_inv_initial|].
  destruct Hstep; eauto using call_inv, lockShared_inv, unlockShared_inv, exclusive_inv.
Qed.

Lemma length_threads n s : reachable n s → length (threads s) = n.
Proof.
  induction 1 as [|s s' _ IH Hstep]; [apply length_replicate|].
  destruct Hstep as [s t p q|s s' t p ? E|s s' t p ? E|s s' t p ? E|s s' t p ? E];
    [by simpl; rewrite length_insert|..]; destruct p; simpl in E;
    repeat match type of E with context [match ?o with _ => _ end] => destruct o end;
    try discriminate E; injection E as <-; simpl; by rewrite length_insert.
Qed.

(** ** Properties *)

(** C20: whatever the interleaving of any number of threads, at most one thread is in the
    exclusive section and none is then in the shared section; the counters count the
    threads inside (so they stay within their types), and when every thread is outside both
    mutexes are free. *)
Theorem shared_lock_exclusion (n : nat) (s : SharedLock.state) :
  SharedLock.reachable n s →
  (∀ t t', t ≠ t' → threads s !! t = Some Exclusive →
     threads s !! t' ≠ Some Exclusive ∧ threads s !! t' ≠ Some Shared) ∧
  0 ≤ lockedSharedCount s ≤ Z.of_nat n ∧ 0 ≤ lockedExclusiveCount s ≤ 1 ∧
  ((∀ t p, threads s !! t = Some p → p = Idle) → lock s = None ∧ sharedCountLock s = None).
Proof.
  intros Hr. pose proof (lock_inv_reachable n s Hr) as [I1 I2 I3 I4 I5 I6].
  pose proof (cnt_nonneg counted (threads s)). pose proof (cnt_nonneg last_out (threads s)).
  pose proof (cnt_nonneg counted_excl (threads s)). pose proof (counted_excl_writing (threads s)).
  pose proof (held_01 (lock s)). pose proof (cnt_length counted (threads s)).
  rewrite (length_threads n s Hr) in *. unfold readers_hold in I5. split; [|split; [|split]].
  - intros t t' Hne Ht. pose proof (cnt_lookup writing _ _ _ Ht eq_refl). split; intros Ht'.
    + pose proof (cnt_two writing _ _ _ _ _ Hne Ht Ht' eq_refl eq_refl). tests; lia.
    + assert (cnt first_in (threads s) + cnt (λ p, bool_decide (p = Shared)) (threads s)
              ≤ cnt counted (threads s)) by (apply cnt_disjoint; by intros []).
      assert (0 < cnt (λ p, bool_decide (p = Shared)) (threads s)) by (by eapply cnt_lookup).
      tests; lia.
  - lia.
  - tests; lia.
  - intros Hall. assert (∀ P, P Idle = false → cnt P (threads s) = 0) as Z0.
    { intros P HP. clear -Hall HP. induction (threads s) as [|p l IH]; [done|]. simpl.
      rewrite (Hall 0%nat p eq_refl), HP. simpl. apply IH. intros t q Hq. by apply (Hall (S t) q). }
    rewrite !Z0 in * by done. simpl in I5.
    destruct (lock s), (sharedCountLock s); simpl in *; (done || lia).
Qed.

(** A scheduler: each element of the trace moves one thread, by a call or by a statement. *)
Definition exec (s : state) (m : nat * option pc) : option state :=
  match m with
  | (t, Some q) =>
      match threads s !! t with
      | Some p => if decide (q ∈ call_step p) then Some (goto t q s) else None
      | None => None
      end
  | (t, None) =>
      match threads s !! t with
      | Some p =>
          match lockShared_step t p s with
          | Some s' => Some s'
          | None =>
              match unlockShared_step t p s with
              | Some s' => Some s'
              | None =>
                  match lockExclusive_step t p s with
                  | Some s' => Some s'
                  | None => unlockExclusive_step t p s
                  end
              end
          end
      | None => None
      end
  end.

Fixpoint execs (s : state) (ms : list (nat * option pc)) : option state :=
  match ms with
  | [] => Some s
  | m :: ms => match exec s m with Some s' => execs s' ms | None => None end
  end.

Lemma exec_step s m s' : exec s m = Some s' → step s s'.
Proof.
  destruct m as [t [q|]]; simpl; destruct (threads s !! t) as [p|] eqn:Ht; try done.
  - destruct (decide _); [|done]. intros [= <-]. by eapply step_call.
  - destruct (lockShared_step t p s) eqn:E1; [intros [= <-]; by eapply step_lockShared|].
    destruct (unlockShared_step t p s) eqn:E2; [intros [= <-]; by eapply step_unlockShared|].
    destruct (lockExclusive_step t p s) eqn:E3; [intros [= <-]; by eapply step_lockExclusive|].
    intros E4. by eapply step_unlockExclusive.
Qed.

Lemma execs_reachable n s ms s' : reachable n s → execs s ms = Some s' → reachable n s'.
Proof.
  revert s. induction ms as [|m ms IH]; intros s Hr E; simpl in E; [by injection E as <-|].
  destruct (exec s m) as [s1|] eqn:E1; [|done]. eapply IH; [|done].
  eapply reach_step; [done|]. by eapply exec_step.
Qed.

Definition writer_inside : list (nat * option pc) := [(1%nat, Some LE_lock); (1%nat, None); (1%nat, None)].

Lemma shared_lock_exclusion_witness :
  ∃ s, reachable 2 s ∧ threads s !! 1%nat = Some Exclusive ∧ threads s !! 0%nat ≠ Some Shared.
Proof.
  destruct (execs (initial 2) writer_inside) as [s|] eqn:E; [|discriminate E].
  assert (reachable 2 s) as Hr by (eapply execs_reachable; [apply reach_init|done]).
  vm_compute in E. injection E as <-. eexists. split; [exact Hr|]. split; [reflexivity|].
  by apply (shared_lock_exclusion 2 _ Hr) with (t := 1%nat).
Defined.

(** With two readers the code runs into undefined behaviour: the reader that leaves last
    releases a [std::mutex] that the other reader, which came first, had locked. *)
Theorem readers_unlock_foreign_mutex :
  ∃ s, SharedLock.reachable 2 s ∧ SharedLock.foreign_unlock s.
Proof.
  pose (tr := [(0%nat, Some LS_count); (0%nat, None); (0%nat, None); (0%nat, None); (0%nat, None);
               (1%nat, Some LS_count); (1%nat, None); (1%nat, None); (1%nat, None);
               (0%nat, Some US_count); (0%nat, None); (0%nat, None); (0%nat, None);
               (1%nat, Some US_count); (1%nat, None); (1%nat, None)]).
  destruct (execs (initial 2) tr) as [s|] eqn:E; [|discriminate E].
  exists s. split; [eapply execs_reachable; [apply reach_init|exact E]|].
  vm_compute in E. injection E as <-. exists 1%nat, 0%nat. done.
Qed.
