(* ===== verification/Queues.v ===== *)
(** * Task queues and the thread pool

    Models [utils/datastructures/queue/BlockingQueue.h], [utils/threads/pool/Worker.cpp],
    [utils/threads/pool/ThreadPool.cpp] and [utils/threads/CounterLatch.cpp].  The queue is
    the code's doubly linked list over a heap of nodes; every method runs under the queue's
    mutex, so one call is one step.  A task is an opaque value; running it appends it to the
    list of executed tasks. *)

From S2P Require Import Prelude.
From S2P Require Import Utils.

Module BlockingQueue.

Record node (A : Type) := mk_node { next : option nat; prev : option nat; value : A }.
Arguments mk_node {A} next prev value.
Arguments next {A} n.
Arguments prev {A} n.
Arguments value {A} n.

(** [fresh_loc] is the next unused heap location. *)
Record t (A : Type) := mk {
  heap : gmap nat (node A);
  fresh_loc : nat;
  head : option nat;
  tail : option nat;
  stop : bool;
  size : Z;
}.
Arguments mk {A} heap fresh_loc head tail stop size.
Arguments heap {A} t.
Arguments fresh_loc {A} t.
Arguments head {A} t.
Arguments tail {A} t.
Arguments stop {A} t.
Arguments size {A} t.

Section queue.
Context {A : Type}.

(** A queue made by [std::make_shared], value-initialised. *)
Definition empty : t A := mk ∅ 0 None None false 0.

Definition deref (h : gmap nat (node A)) (p : option nat) : outcome (nat * node A) :=
  match p with
  | Some l => match h !! l with Some n => Ret (l, n) | None => Undef end
  | None => Undef
  end.

(** [BlockingQueue::enqueue]; the [int] size must not overflow. *)
Definition enqueue (data : A) : stM (t A) () :=
  λ q,
    let l := fresh_loc q in
    if decide (sfits 32 (size q + 1)) then
      if size q =? 0 then
        Ret (mk (<[l:=mk_node None None data]> (heap q)) (S l) (Some l) (Some l) (stop q) (size q + 1), ())
      else if size q =? 1 then
        let! (hl, h) := deref (heap q) (head q) in
        Ret (mk (<[l:=mk_node (head q) None data]> (<[hl:=mk_node (next h) (Some l) (value h)]> (heap q)))
               (S l) (head q) (Some l) (stop q) (size q + 1), ())
      else
        let! (tl, n) := deref (heap q) (tail q) in
        Ret (mk (<[l:=mk_node (tail q) None data]> (<[tl:=mk_node (next n) (Some l) (value n)]> (heap q)))
               (S l) (head q) (Some l) (stop q) (size q + 1), ())
    else Undef.

(** [BlockingQueue::stopNow]. *)
Definition stopNow : stM (t A) () :=
  λ q, Ret (if size q =? 0 then mk (heap q) (fresh_loc q) (head q) (tail q) true (size q) else q, ()).

(** [BlockingQueue::dequeue]; it blocks while the queue is empty and not stopped. *)
Definition dequeue : stM (t A) A :=
  λ q,
    if negb ((0 <? size q) || stop q) then Blocked
    else if stop q && (size q =? 0) then Throw interrupted
    else
      let! (_, n) := deref (heap q) (head q) in
      Ret (mk (heap q) (fresh_loc q) (prev n) (tail q) (stop q) (size q - 1), value n).

(** [BlockingQueue::getSize]. *)
Definition getSize (q : t A) : Z := size q.

End queue.
End BlockingQueue.

Module Worker.

Record t (A : Type) := mk { pendingTasks : BlockingQueue.t A; isStopped : bool }.
Arguments mk {A} pendingTasks isStopped.
Arguments pendingTasks {A} t.
Arguments isStopped {A} t.

Section worker.
Context {A : Type}.

Definition make : t A := mk BlockingQueue.empty false.

(** [Worker::enqueue]. *)
Definition enqueue (task : A) : stM (t A) bool :=
  λ w,
    if isStopped w then Ret (w, false)
    else
      let! (q, _) := BlockingQueue.enqueue task (pendingTasks w) in
      Ret (mk q (isStopped w), true).

(** [Worker::stop]. *)
Definition stop : stM (t A) () :=
  λ w, let! (q, _) := BlockingQueue.stopNow (pendingTasks w) in Ret (mk q true, ()).

(** [Worker::pollPendingTasks], with the tasks run so far; an interrupted [dequeue] is
    caught and the loop goes on. *)
Fixpoint pollPendingTasks (fuel : nat) (executed : list A) : stM (t A) (list A) :=
  λ w,
    match fuel with
    | O => NoFuel
    | S fuel =>
        if isStopped w && (BlockingQueue.getSize (pendingTasks w) =? 0) then Ret (w, executed)
        else
          match BlockingQueue.dequeue (pendingTasks w) with
          | Ret (q, task) => pollPendingTasks fuel (executed ++ [task]) (mk q (isStopped w))
          | Throw interrupted => pollPendingTasks fuel executed w
          | Throw e => Throw e
          | Undef => Undef
          | Blocked => Blocked
          | NoFuel => NoFuel
          end
    end.

End worker.
End Worker.

Module ThreadPool.
Section pool.
Context {A : Type}.

(** The workers, and the thread-local counter of the submitting thread. *)
Record t := mk { workers : list (Worker.t A); memdb_thread_pool_counter : Z }.

(** [ThreadPool::ThreadPool] and [createWorkers]; the number of workers is an [int]. *)
Definition make (numberThreads : Z) : t :=
  mk (replicate (Z.to_nat (i32 (Utils.roundUpPowerOfTwo 64 numberThreads))) Worker.make) 0.

(** [ThreadPool::submit]; [threadHash] is the hash of the thread's identifier. *)
Definition submit (threadHash : Z) (task : A) : stM t () :=
  λ p,
    let counter := memdb_thread_pool_counter p in
    let counter := if counter =? 0 then threadHash else counter in
    let counter := u64 (counter + 1) in
    let workerIndex := Z.to_nat (Utils.optimizedModulePowerOfTwo 64 (Z.of_nat (length (workers p))) counter) in
    let! worker := at_undef (workers p) workerIndex in
    let! (worker, _) := Worker.enqueue task worker in
    Ret (mk (<[workerIndex:=worker]> (workers p)) counter, ()).

(** [ThreadPool::stop]. *)
Definition stop : stM t () :=
  λ p,
    let! ws := ofoldl (λ ws w, let! (w, _) := Worker.stop w in Ret (ws ++ [w])) [] (workers p) in
    Ret (mk ws (memdb_thread_pool_counter p), ()).

End pool.
End ThreadPool.

Module CounterLatch.

Record t := mk { counter : Z }.

Definition make : t := mk 0.

(** [CounterLatch::increase]; [fetch_add] on an [atomic_int] wraps. *)
Definition increase (c : t) : t := mk (i32 (counter c + 1)).

(** [CounterLatch::awaitMinOrEq]: the values of the counter the caller sees, first on the
    fast path, then each time it is woken and at the timeout. *)
Definition awaitMinOrEq (minValue : Z) (seen : list t) : bool :=
  existsb (λ c, minValue <=? counter c) seen.

End CounterLatch.

(** ** The queue as a list *)

Section refinement.
Context {A : Type}.
Implicit Types (q : BlockingQueue.t A) (h : gmap nat (BlockingQueue.node A)) (l : list A).
Import BlockingQueue.

(** Following [prev] from [o] visits the nodes [xs], which hold [l], and ends in null. *)
Fixpoint chain h (o : option nat) (xs : list nat) (l : list A) : Prop :=
  match xs, l with
  | [], [] => o = None
  | x :: xs, a :: l => o = Some x ∧ ∃ n, h !! x = Some n ∧ value n = a ∧ chain h (prev n) xs l
  | _, _ => False
  end.

Lemma chain_frame h x n o xs l : x ∉ xs → chain h o xs l → chain (<[x:=n]> h) o xs l.
Proof.
  revert o l. induction xs as [|y xs IH]; intros o [|a l]; simpl; try done.
  intros [Hne Hx]%not_elem_of_cons (-> & n' & Hn & Hv & Hc). split; [done|].
  exists n'. rewrite lookup_insert_ne by done. eauto.
Qed.

Lemma chain_dom h o xs l x : chain h o xs l → x ∈ xs → is_Some (h !! x).
Proof.
  revert o l. induction xs as [|y xs IH]; intros o [|a l]; simpl; try done.
  - by intros _ ?%not_elem_of_nil.
  - intros (_ & n & Hn & _ & Hc) [->|Hx]%elem_of_cons; eauto.
Qed.

Lemma chain_length h o xs l : chain h o xs l → length xs = length l.
Proof.
  revert o l. induction xs as [|y xs IH]; intros o [|a l]; simpl; try done.
  intros (_ & n & _ & _ & Hc). f_equal. eauto.
Qed.

(** Linking a new node behind the last one. *)
Lemma chain_snoc h o xs l y z n a p :
  chain h o (xs ++ [y]) l → NoDup (xs ++ [y]) → z ∉ xs ++ [y] → h !! y = Some n →
  chain (<[z:=mk_node p None a]> (<[y:=mk_node (next n) (Some z) (value n)]> h)) o ((xs ++ [y]) ++ [z]) (l ++ [a]).
Proof.
  revert o l. induction xs as [|x xs IH]; intros o [|b l] Hc Hnd Hz Hy; cbn [app chain] in *; try done.
  - destruct Hc as (-> & n' & Hn' & <- & Hc). destruct l; [|done].
    assert (n' = n) as -> by congruence. apply not_elem_of_cons in Hz as [Hz _].
    split; [done|]. eexists. rewrite lookup_insert_ne, lookup_insert_eq by done.
    split; [done|]. split; [done|]. cbn [prev]. split; [done|].
    exists (mk_node p None a). by rewrite lookup_insert_eq.
  - destruct Hc as (-> & n' & Hn' & <- & Hc). apply NoDup_cons in Hnd as [Hx Hnd].
    apply not_elem_of_cons in Hz as [Hzx Hz]. split; [done|].
    assert (x ≠ y) by (intros ->; apply Hx, elem_of_app; right; by apply list_elem_of_singleton).
    exists n'. rewrite !lookup_insert_ne by done. repeat split; auto.
Qed.

(** The queue holds the values [l], oldest first. *)
Record holds q l : Prop := {
  ho_size : size q = Z.of_nat (length l);
  ho_bound : Z.of_nat (length l) < 2 ^ 31;
  ho_fresh : ∀ x, (fresh_loc q ≤ x)%nat → heap q !! x = None;
  ho_chain : ∃ xs, NoDup xs ∧ chain (heap q) (head q) xs l ∧ (l ≠ [] → last xs = tail q);
}.

Lemma holds_empty : holds empty [].
Proof. constructor; try done. exists []. split; [constructor|done]. Qed.

Lemma fresh_not_in q l xs : holds q l → chain (heap q) (head q) xs l → fresh_loc q ∉ xs.
Proof.
  intros H Hc Hx. destruct (chain_dom _ _ _ _ _ Hc Hx) as [n Hn].
  by rewrite (ho_fresh _ _ H) in Hn by lia.
Qed.

Lemma enqueue_ok q l a :
  holds q l → Z.of_nat (length l) + 1 < 2 ^ 31 →
  ∃ q', enqueue a q = Ret (q', ()) ∧ holds q' (l ++ [a]) ∧ stop q' = stop q.
Proof.
  intros H Hb. pose proof H as [Hs _ Hf (xs & Hnd & Hc & Hl)].
  pose proof (fresh_not_in q l xs H Hc) as Hz. unfold enqueue.
  rewrite decide_True by (rewrite Hs; split; simpl; lia).
  assert (∀ n1 n2 x, x ≠ fresh_loc q → is_Some (heap q !! x) → ∀ y, (S (fresh_loc q) ≤ y)%nat →
    (<[fresh_loc q:=n1]> (<[x:=n2]> (heap q))) !! y = None) as Hfresh.
  { intros n1 n2 x Hx [n Hn] y Hy. rewrite lookup_insert_ne by lia.
    rewrite lookup_insert_ne; [apply Hf; lia|]. intros ->. by rewrite Hf in Hn by lia. }
  destruct (Z.eqb_spec (size q) 0) as [E0|E0].
  - destruct l; [|simpl in Hs; lia]. eexists. split; [reflexivity|]. split; [|done].
    constructor; cbn [size heap fresh_loc head tail]; [simpl; lia|simpl; lia| |].
    + intros x Hx. rewrite lookup_insert_ne by lia. apply Hf. lia.
    + exists [fresh_loc q]. split; [apply NoDup_singleton|]. split; [|done].
      simpl. split; [done|]. eexists. by rewrite lookup_insert_eq.
  - destruct xs as [|y xs _] using rev_ind; [apply chain_length in Hc; destruct l; simpl in *; [lia|done]|].
    assert (l ≠ []) as Hne by (intros ->; apply chain_length in Hc; rewrite length_app in Hc; simpl in Hc; lia).
    specialize (Hl Hne). rewrite last_snoc in Hl.
    destruct (chain_dom _ _ _ _ y Hc) as [n Hn]; [apply elem_of_app; right; by apply list_elem_of_singleton|].
    assert (y ≠ fresh_loc q) as Hyf by (intros ->; by rewrite Hf in Hn by lia).
    assert (∀ p, holds (mk (<[fresh_loc q:=mk_node p None a]>
        (<[y:=mk_node (next n) (Some (fresh_loc q)) (value n)]> (heap q)))
        (S (fresh_loc q)) (head q) (Some (fresh_loc q)) (stop q) (size q + 1)) (l ++ [a])) as Hh.
    { intros p. constructor; cbn [size heap fresh_loc head tail]; rewrite ?length_app; [simpl; lia|simpl; lia|by eapply Hfresh|].
      exists ((xs ++ [y]) ++ [fresh_loc q]). split; [|split; [by eapply chain_snoc|by rewrite last_snoc]].
      apply NoDup_app. split; [done|]. split; [|apply NoDup_singleton].
      intros x Hx ->%list_elem_of_singleton. done. }
    destruct (Z.eqb_spec (size q) 1) as [E1|E1].
    + assert (head q = Some y) as Eh.
      { destruct l as [|b [|]]; simpl in Hs; try lia. pose proof (chain_length _ _ _ _ Hc) as Hlen.
        rewrite length_app in Hlen. destruct xs; simpl in *; [|lia]. by destruct Hc. }
      rewrite Eh in Hh |- *. unfold deref. rewrite Hn. cbn [obind].
      eexists. split; [reflexivity|]. split; [apply Hh|done].
    + rewrite <- Hl. unfold deref. rewrite Hn. cbn [obind]. eexists. split; [reflexivity|].
      split; [apply Hh|done].
Qed.

Lemma dequeue_ok q a l :
  holds q (a :: l) → ∃ q', dequeue q = Ret (q', a) ∧ holds q' l ∧ stop q' = stop q.
Proof.
  intros [Hs Hb Hf (xs & Hnd & Hc & Hl)]. unfold dequeue. simpl in Hs, Hb.
  destruct (Z.ltb_spec 0 (size q)); [|lia]. cbn [orb negb].
  destruct (Z.eqb_spec (size q) 0) as [E|_]; [lia|]. rewrite andb_false_r.
  destruct xs as [|x xs]; [done|]. destruct Hc as (Ex & n & Hn & <- & Hc).
  rewrite Ex. unfold deref. rewrite Hn. cbn [obind]. eexists. split; [reflexivity|]. split; [|done].
  apply NoDup_cons in Hnd as [_ Hnd].
  constructor; cbn [size heap fresh_loc head tail]; [lia|lia|done|]. exists xs. split; [done|]. split; [done|].
  intros Hne. destruct xs as [|y xs]; [destruct l; done|]. rewrite <- Hl by done. done.
Qed.

Lemma dequeue_empty q :
  holds q [] → dequeue q = if stop q then Throw interrupted else Blocked.
Proof. intros [Hs _ _ _]. unfold dequeue. simpl in Hs. rewrite Hs. by destruct (stop q). Qed.

Lemma stopNow_ok q l :
  holds q l → ∃ q', stopNow q = Ret (q', ()) ∧ holds q' l ∧
    stop q' = stop q || bool_decide (l = []).
Proof.
  intros H. unfold stopNow. destruct (Z.eqb_spec (size q) 0) as [E|E]; eexists; (split; [reflexivity|]).
  - destruct H as [Hs Hb Hf Hc]. assert (l = []) as -> by (destruct l; simpl in *; [done|lia]).
    split; [by constructor|]. simpl. by rewrite orb_true_r.
  - split; [done|]. rewrite bool_decide_false, orb_false_r; [done|]. intros ->. by destruct H.
Qed.

(** The worker drains what it holds and returns. *)
Lemma poll_drains l : ∀ q done_ fuel,
  holds q l → (length l < fuel)%nat →
  ∃ q', Worker.pollPendingTasks fuel done_ (Worker.mk q true) = Ret (Worker.mk q' true, done_ ++ l) ∧ holds q' [].
Proof.
  induction l as [|a l IH]; intros q done_ [|fuel] H Hf; simpl in Hf; try lia;
    cbn [Worker.pollPendingTasks Worker.isStopped Worker.pendingTasks andb]; unfold getSize.
  - destruct (Z.eqb_spec (size q) 0) as [E|E]; [|destruct H; simpl in *; lia].
    exists q. by rewrite app_nil_r.
  - destruct (Z.eqb_spec (size q) 0) as [E|E]; [destruct H; simpl in *; lia|].
    destruct (dequeue_ok q a l H) as (q' & -> & H' & _).
    destruct (IH q' (done_ ++ [a]) fuel H' ltac:(lia)) as (q'' & E' & H'').
    exists q''. split; [|done]. rewrite E'. by rewrite <- app_assoc.
Qed.

End refinement.

(** ** Properties *)

(** Calls on a queue and what each returns. *)
Inductive qcall (A : Type) := Enqueue (a : A) | Dequeue.
Arguments Enqueue {A} a.
Arguments Dequeue {A}.

Definition run_qcall {A} (c : qcall A) : stM (BlockingQueue.t A) (option A) :=
  match c with
  | Enqueue a => _ ← BlockingQueue.enqueue a; mret None
  | Dequeue => a ← BlockingQueue.dequeue; mret (Some a)
  end.

(** The same call on an abstract first-in first-out queue. *)
Definition spec_qcall {A} (c : qcall A) (l : list A) : option (list A * option A) :=
  match c, l with
  | Enqueue a, l => Some (l ++ [a], None)
  | Dequeue, a :: l => Some (l, Some a)
  | Dequeue, [] => None
  end.

(** C19: [BlockingQueue] implements a first-in first-out queue: a linked list that holds [l]
    answers each call as the abstract queue does and holds its next state; [dequeue] on the
    empty queue blocks until [stopNow], which stops the queue only when it is empty, and
    throws afterwards. *)
Theorem queue_refines_fifo {A} (q : BlockingQueue.t A) (l : list A) (c : qcall A) :
  holds q l → Z.of_nat (length l) + 1 < 2 ^ 31 →
  match spec_qcall c l with
  | Some (l', r) => ∃ q', run_qcall c q = Ret (q', r) ∧ holds q' l' ∧ BlockingQueue.stop q' = BlockingQueue.stop q
  | None => run_qcall c q = if BlockingQueue.stop q then Throw interrupted else Blocked
  end ∧
  ∃ q', BlockingQueue.stopNow q = Ret (q', ()) ∧ holds q' l ∧
    BlockingQueue.stop q' = BlockingQueue.stop q || bool_decide (l = []).
Proof.
  intros H Hb. split; [|by apply stopNow_ok]. destruct c as [a|]; simpl.
  - destruct (enqueue_ok q l a H Hb) as (q' & E & H' & Hs). exists q'. split; [|done].
    by erewrite stM_bind_Ret by exact E.
  - destruct l as [|a l].
    + unfold mbind, stM_bind. rewrite (dequeue_empty q H). by destruct (BlockingQueue.stop q).
    + destruct (dequeue_ok q a l H) as (q' & E & H' & Hs). exists q'. split; [|done].
      by erewrite stM_bind_Ret by exact E.
Qed.

Lemma queue_refines_fifo_witness :
  run_qcall Dequeue (BlockingQueue.empty (A := nat)) = Blocked ∧
  ∃ q, run_qcall (Enqueue 5%nat) BlockingQueue.empty = Ret (q, None) ∧ holds q [5%nat].
Proof.
  split.
  - apply (queue_refines_fifo BlockingQueue.empty [] Dequeue holds_empty). simpl. lia.
  - destruct (queue_refines_fifo BlockingQueue.empty [] (Enqueue 5%nat) holds_empty ltac:(simpl; lia))
      as [(q & E & H & _) _]. by exists q.
Defined.

(** Enqueueing several tasks. *)
Definition enqueue_all {A} (l : list A) (q : BlockingQueue.t A) : outcome (BlockingQueue.t A * ()) :=
  ofoldl (λ s a, BlockingQueue.enqueue a s.1) (q, ()) l.

(** C38: a worker that is stopped while it holds the tasks [l] still runs them all, in the
    order they were enqueued, and its thread then ends; from then on it accepts no task. *)
Theorem stopped_worker_drains {A} (q : BlockingQueue.t A) (l : list A) (late : A) :
  holds q l →
  ∃ w w', Worker.stop (Worker.mk q false) = Ret (w, ()) ∧
    Worker.pollPendingTasks (S (length l)) [] w = Ret (w', l) ∧
    Worker.enqueue late w = Ret (w, false) ∧ Worker.enqueue late w' = Ret (w', false).
Proof.
  intros H. destruct (stopNow_ok q l H) as (q' & E & H' & _).
  destruct (poll_drains l q' [] (S (length l)) H' ltac:(lia)) as (q'' & E' & _).
  exists (Worker.mk q' true), (Worker.mk q'' true). unfold Worker.stop. cbn [Worker.pendingTasks].
  rewrite E. cbn [obind]. done.
Qed.

(** A queue that holds the tasks 5 and 8, and a worker stopped with it. *)
Lemma two_tasks_held :
  ∃ q, enqueue_all [5%nat; 8%nat] BlockingQueue.empty = Ret (q, ()) ∧ holds q [5%nat; 8%nat].
Proof.
  destruct (enqueue_ok BlockingQueue.empty [] 5%nat holds_empty ltac:(simpl; lia)) as (q1 & E1 & H1 & _).
  destruct (enqueue_ok q1 [5%nat] 8%nat H1 ltac:(simpl; lia)) as (q2 & E2 & H2 & _).
  exists q2. split; [|exact H2]. unfold enqueue_all. cbn [ofoldl fst]. rewrite E1. cbn [obind fst]. rewrite E2. reflexivity.
Qed.

Lemma stopped_worker_drains_witness :
  ∃ q w w', enqueue_all [5%nat; 8%nat] BlockingQueue.empty = Ret (q, ()) ∧
    Worker.stop (Worker.mk q false) = Ret (w, ()) ∧
    Worker.pollPendingTasks 3 [] w = Ret (w', [5%nat; 8%nat]) ∧ Worker.enqueue 3%nat w = Ret (w, false) ∧
    Worker.enqueue 3%nat w' = Ret (w', false).
Proof.
  destruct two_tasks_held as (q & E & Hq).
  destruct (stopped_worker_drains q [5%nat; 8%nat] 3%nat Hq) as (w & w' & E'). by exists q, w, w'.
Defined.

(** The running workers hold the task lists [ls]. *)
Definition pool_holds {A} (p : ThreadPool.t (A := A)) (ls : list (list A)) : Prop :=
  Forall2 (λ w l, holds (Worker.pendingTasks w) l ∧ Worker.isStopped w = false) (ThreadPool.workers p) ls.

(** The counter of the submitting thread after a submission. *)
Definition next_counter (threadHash counter : Z) : Z :=
  u64 ((if counter =? 0 then threadHash else counter) + 1).

Lemma make_holds {A} n :
  1 ≤ n ≤ 2 ^ 30 →
  ∃ k, 0 ≤ k ≤ 30 ∧ n ≤ 2 ^ k < 2 * n ∧
    pool_holds (ThreadPool.make (A := A) n) (replicate (Z.to_nat (2 ^ k)) []).
Proof.
  intros Hn. destruct (roundUpPowerOfTwo_pow2 64 n) as (k & Hk & E & Hb); [lia..|].
  assert (k ≤ 30).
  { destruct (decide (k ≤ 30)) as [|Hk30]; [done|]. pose proof (Z.pow_le_mono_r 2 31 k). lia. }
  exists k. split; [lia|]. split; [done|]. unfold pool_holds, ThreadPool.make. cbn [ThreadPool.workers].
  rewrite E, sext_small.
  - apply Forall2_replicate. split; [apply holds_empty|done].
  - lia.
  - pose proof (Z.pow_le_mono_r 2 k 30). unfold sfits. simpl. lia.
Qed.

(** A pool for [n] threads has the least power of two of workers that is at least [n];
    every [submit] picks the worker whose index is the thread's counter modulo that number
    (never out of range) and puts the task at the end of its queue, leaving the others. *)
Theorem submit_round_robin {A} (p : ThreadPool.t (A := A)) (ls : list (list A)) (l : list A)
    (k threadHash n : Z) (task : A) :
  (1 ≤ n ≤ 2 ^ 30 → ∃ k, n ≤ 2 ^ k < 2 * n ∧
     pool_holds (ThreadPool.make (A := A) n) (replicate (Z.to_nat (2 ^ k)) [])) ∧
  (pool_holds p ls → length ls = Z.to_nat (2 ^ k) → 0 ≤ k < 64 →
   let counter := next_counter threadHash (ThreadPool.memdb_thread_pool_counter p) in
   let i := Z.to_nat (counter mod 2 ^ k) in
   ls !! i = Some l → Z.of_nat (length l) + 1 < 2 ^ 31 →
   (i < length ls)%nat ∧
   ∃ p', ThreadPool.submit threadHash task p = Ret (p', ()) ∧
     pool_holds p' (<[i:=l ++ [task]]> ls) ∧ ThreadPool.memdb_thread_pool_counter p' = counter).
Proof.
  split; [intros Hn; destruct (make_holds (A := A) n Hn) as (j & _ & H); by exists j|].
  intros Hp Hlen Hk counter i Hi Hl. split; [by eapply lookup_lt_Some|].
  unfold ThreadPool.submit. cbv zeta. fold (next_counter threadHash (ThreadPool.memdb_thread_pool_counter p)).
  fold counter. pose proof (Forall2_length _ _ _ Hp) as Hw.
  assert (Z.of_nat (length (ThreadPool.workers p)) = 2 ^ k) as ->
    by (rewrite Hw, Hlen; pose proof (Z.pow_pos_nonneg 2 k); lia).
  rewrite optimizedModule_mod by done. fold i.
  destruct (Forall2_lookup_r _ _ _ _ _ Hp Hi) as (w & Ew & Hh & Hs).
  rewrite (at_undef_Some _ _ _ Ew). cbn [obind]. unfold Worker.enqueue. rewrite Hs.
  destruct (enqueue_ok (Worker.pendingTasks w) l task Hh Hl) as (q' & -> & Hq & _). cbn [obind].
  eexists. split; [reflexivity|]. split; [|done]. unfold pool_holds. cbn [ThreadPool.workers].
  apply Forall2_insert; [done|]. done.
Qed.

Lemma submit_round_robin_witness :
  ∃ p', ThreadPool.submit 10 7%nat (ThreadPool.make 3) = Ret (p', ()) ∧
    pool_holds p' [[]; []; []; [7%nat]].
Proof.
  destruct (proj2 (submit_round_robin (ThreadPool.make (A := nat) 3) [[]; []; []; []] [] 2 10 3 7%nat))
    as (_ & p' & E & H & _); [|done|lia|done|simpl; lia|by exists p'].
  unfold pool_holds. change (ThreadPool.workers (ThreadPool.make 3)) with (replicate 4 (Worker.make (A := nat))).
  repeat constructor; apply holds_empty.
Defined.
