(* ===== verification/Service.v ===== *)
(** * The server at work

    Models [TCPServer::TCPServer], [run] and [acceptNewConnections] of [server/TCPServer.cpp]
    with [Connection::readAsync] and the pool: connections are accepted, packets arrive on
    them and are submitted as tasks, and the workers run [TCPServer::onNewRequest].  The asio
    library decides which handler runs next and the scheduler which worker: a run is a list of
    events, and the theorems hold for every list.  Workers run at the same time: the dispatcher
    is a thread that other threads may interrupt between any two of its steps; taking a packet
    off a queue, authenticating it, each step of its execution and each write of its answer are
    steps of their own.  A worker that cannot go on waits.  The address of an accepted connection
    is only logged and is left out. *)

From S2P Require Import Prelude.
From S2P Require Import Utils.
From S2P Require Import Clock.
From S2P Require Import Messages.
From S2P Require Import Codec.
From S2P Require Import Config.
From S2P Require Import Connection.
From S2P Require Import Server.
From S2P Require Import Queues.

(** ** Threads *)

(** Code on a shared state, cut at the points where another thread may run. *)
Inductive thread (S A : Type) : Type :=
| Return (a : A)
| Step (B : Type) (f : stM S B) (k : B → thread S A).
Arguments Return {S A} a.
Arguments Step {S A B} f k.

(** A thread nobody interrupts. *)
Fixpoint alone {S A} (c : thread S A) : stM S A :=
  match c with
  | Return a => mret a
  | Step f k => b ← f; alone (k b)
  end.

(** [OperatorDispatcher] as a worker runs it. *)
Class Executor (S : Type) := execute : Request.t → thread S Response.t.

(** The coarsest one: a request is one step. *)
Definition one_step {S} (D : Dispatcher S) : Executor S := λ request, Step (dispatch request) Return.

Lemma alone_one_step {S} (D : Dispatcher S) request s : alone (one_step D request) s = dispatch request s.
Proof. cbn [alone one_step]. unfold mbind, stM_bind. by destruct (dispatch request s) as [[s' r]| | | |]. Qed.

Module TCPService.

(** A task: the connection a packet arrived on and the packet. *)
Abbreviation task := (nat * bytes)%type.

(** What happens next: a connection is accepted, a handler of a connection runs, a worker goes on. *)
Inductive event := Accept (c : Connection.t) | Arrive (i : nat) | Work (j : nat).

(** What a step did; [j] is the worker. *)
Inductive effect :=
| Quiet
| Submitted (t : task)
| Taken (t : task)
| Ran (t : task)
| Answered (j : nat) (t : task) (response : Response.t)
| Dropped (t : task)
| Wrote (j : nat) (t : task) (b : bytes)
| Finished (t : task).

Section service.
Context {S : Type} {X : Executor S} {P : Platform}.

(** What a worker is doing: waiting for a task, or running [TCPServer::onNewRequest] before,
    in and after the call of the dispatcher. *)
Inductive activity :=
| Waiting
| Received (t : task)
| Executing (t : task) (requestNumber : Z) (c : thread S Response.t)
| Writing (t : task) (l : list bytes).

(** The node, the accepted connections and whether a read is waiting on them,
    [connectionThreadPool], and what its workers are doing. *)
Record t := mk {
  state : S;
  connections : list (Connection.t * bool);
  connectionThreadPool : ThreadPool.t (A := task);
  activities : list activity;
}.

Definition set_activity (j : nat) (a : activity) (v : t) : t :=
  mk (state v) (connections v) (connectionThreadPool v) (<[j := a]> (activities v)).
Definition set_state (s : S) (v : t) : t := mk s (connections v) (connectionThreadPool v) (activities v).
Definition set_connection (i : nat) (c : Connection.t * bool) (v : t) : t :=
  mk (state v) (<[i := c]> (connections v)) (connectionThreadPool v) (activities v).
Definition set_pool (p : ThreadPool.t (A := task)) (v : t) : t := mk (state v) (connections v) p (activities v).

(** [TCPServer::TCPServer]; the number of threads is an [int] passed as [uint64_t]. *)
Definition make (configuration : Configuration.t) (s : S) : outcome t :=
  let! _ := Configuration.getUint 16 configuration ConfigurationKeys.SERVER_PORT in
  let! n := Configuration.getUint 32 configuration ConfigurationKeys.SERVER_THREADS in
  let p := ThreadPool.make (u64 (i32 n)) in
  Ret (mk s [] p (replicate (length (ThreadPool.workers p)) Waiting)).

(** The handler of [TCPServer::acceptNewConnections]. *)
Definition accept (configuration : Configuration.t) (c : Connection.t) : stM t effect :=
  λ v,
    let! _ := Configuration.getUint 64 configuration ConfigurationKeys.NODE_REQUEST_TIMEOUT_MS in
    Ret (mk (state v) (connections v ++ [(c, true)]) (connectionThreadPool v) (activities v), Quiet).

(** The handler of [Connection::readAsync] on connection [i], with the callback of
    [acceptNewConnections]; [threadHash] is the hash of the thread that runs the handlers. *)
Definition arrive (threadHash : Z) (i : nat) : stM t effect :=
  λ v,
    let! cr := at_undef (connections v) i in
    if negb cr.2 then Ret (v, Quiet)
    else
      let! (c, read) := Connection.readHeader cr.1 in
      if (read : bool) then
        let! (c, packetReadResult) := Connection.readPacket (Connection.typePacketHeaderBuffer c) c in
        let v := set_connection i (c, true) v in
        match packetReadResult with
        | Some m =>
            let! (p, _) := ThreadPool.submit threadHash (i, m) (connectionThreadPool v) in
            Ret (set_pool p v, Submitted (i, m))
        | None => Ret (v, Quiet)
        end
      else Ret (set_connection i (c, false) v, Quiet).

(** [TCPServer::sendResponse] up to the writes, which [Connection::writeAsync] starts one after
    the other. *)
Definition answer (j : nat) (task : task) (response : Response.t) : stM t effect :=
  λ v,
    let! cr := at_undef (connections v) task.1 in
    if Connection.isOpen cr.1 then
      let! serialized := ResponseCodec.serialize response in
      Ret (set_activity j (Writing task (packets serialized)) v, Answered j task response)
    else Ret (set_activity j (Writing task []) v, Dropped task).

(** The next step of worker [j], which runs [Worker::pollPendingTasks] with tasks that run
    [TCPServer::onNewRequest].  An exception of a task ends the process. *)
Definition work (configuration : Configuration.t) (j : nat) : stM t effect :=
  λ v,
    let p := connectionThreadPool v in
    let! w := at_undef (ThreadPool.workers p) j in
    let! a := at_undef (activities v) j in
    match a with
    | Waiting =>
        if Worker.isStopped w && (BlockingQueue.getSize (Worker.pendingTasks w) =? 0) then Ret (v, Quiet)
        else
          match BlockingQueue.dequeue (Worker.pendingTasks w) with
          | Ret (q, task) =>
              let p := ThreadPool.mk (<[j := Worker.mk q (Worker.isStopped w)]> (ThreadPool.workers p))
                         (ThreadPool.memdb_thread_pool_counter p) in
              Ret (set_activity j (Received task) (set_pool p v), Taken task)
          | Throw interrupted | Blocked => Ret (v, Quiet)
          | Throw e => Throw e
          | Undef => Undef
          | NoFuel => NoFuel
          end
    | Received task =>
        let! received := TCPServer.receive configuration task.2 in
        let request := received.2 in
        if negb received.1 then answer j task (TCPServer.authError request) v
        else Ret (set_activity j (Executing task (Request.requestNumber request) (execute request)) v, Quiet)
    | Executing task requestNumber (Return response) =>
        answer j task (TCPServer.set_requestNumber requestNumber response) v
    | Executing task requestNumber (Step f k) =>
        match f (state v) with
        | Ret (s, b) => Ret (set_activity j (Executing task requestNumber (k b)) (set_state s v), Ran task)
        | Blocked => Ret (v, Quiet)
        | Throw e => Throw e
        | Undef => Undef
        | NoFuel => NoFuel
        end
    | Writing task (b :: l) =>
        let! cr := at_undef (connections v) task.1 in
        let! (c, _) := Connection.socket_async_write_some b cr.1 in
        Ret (set_activity j (Writing task l) (set_connection task.1 (c, cr.2) v), Wrote j task b)
    | Writing task [] => Ret (set_activity j Waiting v, Finished task)
    end.

Definition step (configuration : Configuration.t) (threadHash : Z) (e : event) : stM t effect :=
  match e with
  | Accept c => accept configuration c
  | Arrive i => arrive threadHash i
  | Work j => work configuration j
  end.

(** [TCPServer::run]: the events of a run, with what each did. *)
Fixpoint run (configuration : Configuration.t) (threadHash : Z) (events : list event) : stM t (list effect) :=
  match events with
  | [] => mret []
  | e :: events =>
      x ← step configuration threadHash e;
      l ← run configuration threadHash events;
      mret (x :: l)
  end.


End service.
Arguments activity : clear implicits.

(** ** What happened *)

Definition finished (l : list effect) : list task := omap (λ x, match x with Finished t => Some t | _ => None end) l.


End TCPService.

(** ** The queues of the pool *)







(** ** Keeping account of tasks, answers and writes *)


Section account.
Context {S : Type} {X : Executor S} {P : Platform} (conf : Configuration.t).
Implicit Types (v : TCPService.t (S := S)) (acc : list Connection.t) (x : list TCPService.effect).
Import TCPService.










(** *** Writes *)




(** What a connection has open and started. *)
Definition same_writes (c d : Connection.t) : Prop :=
  Connection.asyncWrites c = Connection.asyncWrites d ∧ Connection.open c = Connection.open d.


#[global] Instance same_writes_equivalence : Equivalence same_writes.
Proof. unfold same_writes. split; [done|by intros ?? []|]. intros ??? [] []. split; congruence. Qed.
#[global] Instance readWithTimeout_writes n : Respects same_writes (Connection.readWithTimeout n).
Proof. intros c c' b. unfold Connection.readWithTimeout. destruct (negb _); [by intros [= <- <-]|]. case_decide; by intros [= <- <-]. Qed.
#[global] Instance readHeader_writes : Respects same_writes Connection.readHeader.
Proof.
  unfold Connection.readHeader. apply respects_bind; [apply _..|]. intros [[|? []]|]; [apply _| |apply _..].
  apply respects_bind; [apply _| |apply _]. by apply respects_modify.
Qed.
#[global] Instance readPacketContent_writes fuel : Respects same_writes (Connection.readPacketContent fuel).
Proof. induction fuel as [|fuel IH]; [done|]. cbn [Connection.readPacketContent]. apply _. Qed.
#[global] Instance readFragmented_writes fuel : ∀ result, Respects same_writes (Connection.readFragmentedPacket fuel result).
Proof. induction fuel as [|fuel IH]; [done|]. intros result. cbn [Connection.readFragmentedPacket]. apply _. Qed.
#[global] Instance readPacket_writes ty : Respects same_writes (Connection.readPacket ty).
Proof. unfold Connection.readPacket. apply _. Qed.


(** *** The steps of the server *)











End account.


(** ** A request over the wire *)

Section wire.
Context {S : Type} {X : Executor S} {P : Platform}.
Implicit Types v : TCPService.t (S := S).
Import TCPService.

Lemma run_app conf hash l l' v v1 v2 x y :
  run conf hash l v = Ret (v1, x) → run conf hash l' v1 = Ret (v2, y) → run conf hash (l ++ l') v = Ret (v2, x ++ y).
Proof.
  revert v x. induction l as [|e l IH]; intros v x E1 E2; [by injection E1 as <- <-|]. cbn [app run] in *.
  apply stM_bind_inv in E1 as (v' & z & Ez & E1). apply stM_bind_inv in E1 as (v'' & x' & Ex & E1). injection E1 as <- <-.
  erewrite stM_bind_Ret by exact Ez. cbn beta. by erewrite stM_bind_Ret by (by apply IH).
Qed.

Lemma run_work conf hash j v v' e : work conf j v = Ret (v', e) → run conf hash [Work j] v = Ret (v', [e]).
Proof. intros E. cbn [run step]. by erewrite stM_bind_Ret by exact E. Qed.

(** Worker [j] is running and doing [a]. *)
Definition doing j a v : Prop := (∃ w, ThreadPool.workers (connectionThreadPool v) !! j = Some w) ∧ activities v !! j = Some a.

Lemma doing_set j a a' v : doing j a v → doing j a' (set_activity j a' v).
Proof.
  intros [Hw Ha]. split; [done|]. cbn [activities set_activity]. apply list_lookup_insert_eq. by eapply lookup_lt_Some.
Qed.

Lemma set_activity_twice j a a' v : set_activity j a (set_activity j a' v) = set_activity j a v.
Proof. unfold set_activity. cbn. by rewrite list_insert_insert_eq. Qed.

(** A worker nobody interrupts executes its thread. *)
Lemma work_alone conf hash j t n (c : thread S Response.t) : ∀ v s' a,
  doing j (Executing t n c) v → alone c (state v) = Ret (s', a) →
  ∃ k, run conf hash (replicate k (Work j)) v
       = Ret (set_activity j (Executing t n (Return a)) (set_state s' v), replicate k (Ran t)).
Proof.
  induction c as [r|B f k IH]; intros v s' a [[w Hw] Ha] E.
  - injection E as <- <-. exists 0%nat. cbn. unfold set_activity, set_state. cbn. rewrite list_insert_id by done. by destruct v.
  - cbn [alone] in E. apply stM_bind_inv in E as (s1 & b & Ef & E).
    set (v1 := set_activity j (Executing t n (k b)) (set_state s1 v)).
    destruct (IH b v1 s' a) as [m Em]; [|done|].
    { split; [by exists w|]. cbn. apply list_lookup_insert_eq. by eapply lookup_lt_Some. }
    exists (Datatypes.S m). cbn [replicate run step].
    erewrite stM_bind_Ret by (unfold work, at_undef; rewrite Hw; cbn [obind]; rewrite Ha; cbn [obind]; rewrite Ef; reflexivity).
    cbn beta. fold v1. erewrite stM_bind_Ret by exact Em. unfold v1.
    assert (∀ a0 a1, set_activity j a0 (set_state s' (set_activity j a1 (set_state s1 v))) = set_activity j a0 (set_state s' v)) as ->; [|done].
    intros a0 a1. unfold set_activity, set_state. cbn. by rewrite list_insert_insert_eq.
Qed.

(** A worker nobody interrupts writes its answer. *)
Lemma work_writes conf hash j t l : ∀ v c r,
  doing j (Writing t l) v → connections v !! t.1 = Some (c, r) → Connection.open c = true →
  run conf hash (replicate (length l + 1) (Work j)) v
  = Ret (set_activity j Waiting (set_connection t.1 (started l c, r) v), (Wrote j t <$> l) ++ [Finished t]).
Proof.
  induction l as [|b l IH]; intros v c r [[w Hw] Ha] Hc Ho; cbn [length Nat.add replicate].
  - apply run_work. unfold work, at_undef. rewrite Hw. cbn [obind]. rewrite Ha. cbn [obind].
    rewrite (dv_nil _ _ _ async_delivers). unfold set_connection. rewrite list_insert_id by done. by destruct v.
  - cbn [run step]. erewrite stM_bind_Ret.
    2:{ unfold work, at_undef. rewrite Hw. cbn [obind]. rewrite Ha. cbn [obind]. rewrite Hc. cbn [obind fst].
        rewrite (dv_send _ _ _ async_delivers) by done. reflexivity. }
    cbn beta. erewrite stM_bind_Ret.
    2:{ apply (IH _ (started [b] c) r); [|cbn; by apply list_lookup_insert_eq; eapply lookup_lt_Some|done].
        split; [by exists w|]. cbn. apply list_lookup_insert_eq. by eapply lookup_lt_Some. }
    rewrite (dv_app _ _ _ async_delivers). cbn [app fmap list_fmap]. unfold set_activity, set_connection. cbn.
    by rewrite !list_insert_insert_eq.
Qed.

(** A fresh pool of at least one thread takes a task. *)
Lemma fresh_submit {A} n hash (a : A) :
  1 ≤ n ≤ 2 ^ 30 →
  ∃ p j q, ThreadPool.submit hash a (ThreadPool.make n) = Ret (p, ()) ∧
    ThreadPool.workers p !! j = Some (Worker.mk q false) ∧ holds q [a].
Proof.
  intros Hn. destruct (roundUpPowerOfTwo_pow2 64 n) as (k & Hk & Ek & Hle); [lia..|].
  assert (2 ^ k < 2 ^ 31) as Hp by lia. assert (0 < 2 ^ k) as Hpos by lia.
  unfold ThreadPool.submit, ThreadPool.make. cbn [ThreadPool.workers ThreadPool.memdb_thread_pool_counter].
  rewrite Ek, sext_small by (unfold sfits; lia). rewrite length_replicate, Z2Nat.id, optimizedModule_mod by lia.
  set (j := Z.to_nat (_ mod 2 ^ k)).
  assert (replicate (Z.to_nat (2 ^ k)) (Worker.make (A := A)) !! j = Some Worker.make) as Ej.
  { apply lookup_replicate_2. unfold j. pose proof (Z.mod_pos_bound (u64 (if 0 =? 0 then hash else 0 + 1)) (2 ^ k) Hpos).
    apply Z2Nat.inj_lt; [|lia|]; apply Z.mod_pos_bound; lia. }
  unfold at_undef. rewrite Ej. cbn [obind]. unfold Worker.enqueue. cbn [Worker.isStopped Worker.make Worker.pendingTasks].
  destruct (enqueue_ok BlockingQueue.empty [] a holds_empty) as (q & Eq & Hq & _); [simpl; lia|]. rewrite Eq. cbn [obind].
  eexists _, j, q. split; [reflexivity|]. split; [|exact Hq]. cbn [ThreadPool.workers].
  apply list_lookup_insert_eq. by eapply lookup_lt_Some.
Qed.


(** The packet a client framed is submitted when it arrives. *)
Lemma arrive_frame hash s n m rest acts :
  1 ≤ n ≤ 2 ^ 30 → (0 < length m)%nat → Z.of_nat (length m) < 2 ^ 32 → (length m < 1024)%nat ∨ (length m mod 1024 ≠ 0)%nat →
  ∃ c p j q, arrive hash 0 (mk s [(receiver (frame m ++ rest), true)] (ThreadPool.make n) acts)
      = Ret (mk (S := S) s [(c, true)] p acts, Submitted (0%nat, m)) ∧
    same_writes (receiver []) c ∧ ThreadPool.workers p !! j = Some (Worker.mk q false) ∧ holds q [(0%nat, m)] ∧
    length (ThreadPool.workers p) = length (ThreadPool.workers (ThreadPool.make (A := task) n)).
Proof.
  intros Hn Hp Hb Hcase. destruct (frame_read m rest Hp Hb Hcase) as (c & Er & _).
  destruct (fresh_submit n hash (0%nat, m) Hn) as (p & j & q & Es & Ej & Hq). exists c, p, j, q.
  unfold Connection.readSync in Er. apply stM_bind_inv in Er as (c1 & ok & Eh & Er). destruct ok; [|done].
  apply stM_bind_inv in Er as (c2 & c3 & [= <- <-] & Er).
  split; [|split; [|split; [done|split; [done|]]]].
  - unfold arrive, at_undef. cbn [connections lookup list_lookup obind snd fst negb]. rewrite Eh. cbn [obind].
    rewrite Er. cbn [obind connectionThreadPool set_connection]. rewrite Es. reflexivity.
  - transitivity (receiver (frame m ++ rest)); [done|]. transitivity c1; [exact (readHeader_writes _ _ _ Eh)|].
    exact (readPacket_writes _ _ _ _ Er).
  - unfold ThreadPool.submit in Es. destruct (at_undef _ _) as [w| | | |]; [|done..].
    cbn [obind] in Es. destruct (Worker.enqueue _ w) as [[]| | | |]; [|done..]. cbn [obind] in Es.
    injection Es as <-. cbn [ThreadPool.workers]. by rewrite length_insert.
Qed.

(** A worker nobody interrupts handles the packet it holds. *)
Lemma handle_request conf hash v j q t r s' response b c rr :
  ThreadPool.workers (connectionThreadPool v) !! j = Some (Worker.mk q false) → holds q [t] →
  activities v !! j = Some Waiting → connections v !! t.1 = Some (c, rr) → Connection.open c = true →
  TCPServer.receive conf t.2 = Ret (true, r) → alone (execute r) (state v) = Ret (s', response) →
  ResponseCodec.serialize (TCPServer.set_requestNumber (Request.requestNumber r) response) = Ret b →
  ∃ k v' x, run conf hash (replicate k (Work j)) v = Ret (v', x) ∧ finished x = [t] ∧ state v' = s' ∧
    connections v' = <[t.1 := (started (packets b) c, rr)]> (connections v).
Proof.
  intros Hw Hq Ha Hc Ho Er Ex Eb. destruct (dequeue_ok q _ _ Hq) as (q' & Edq & _ & _).
  pose proof (lookup_lt_Some _ _ _ Ha) as Hj. pose proof (lookup_lt_Some _ _ _ Hw) as Hj'.
  set (p := ThreadPool.mk (<[j := Worker.mk q' false]> (ThreadPool.workers (connectionThreadPool v)))
              (ThreadPool.memdb_thread_pool_counter (connectionThreadPool v))).
  set (v1 := set_activity j (Received t) (set_pool p v)).
  assert (ThreadPool.workers (connectionThreadPool v1) !! j = Some (Worker.mk q' false)) as Hw1 by (by apply list_lookup_insert_eq).
  assert (∀ a, doing j a (set_activity j a v1)) as Hd.
  { intros a. split; [by eexists|]. cbn. apply list_lookup_insert_eq. by rewrite length_insert. }
  assert (work conf j v = Ret (v1, Taken t)) as E1
    by (unfold work, at_undef; rewrite Hw; cbn [obind]; rewrite Ha; cbn [obind Worker.isStopped andb Worker.pendingTasks]; by rewrite Edq).
  set (v2 := set_activity j (Executing t (Request.requestNumber r) (execute r)) v1).
  assert (work conf j v1 = Ret (v2, Quiet)) as E2.
  { assert (activities v1 !! j = Some (Received t)) as Ha1 by (by apply list_lookup_insert_eq).
    unfold work, at_undef. rewrite Hw1. cbn [obind]. rewrite Ha1. cbn [obind]. rewrite Er. reflexivity. }
  destruct (work_alone conf hash j t _ _ v2 s' response (Hd _) Ex) as [k E3].
  set (v3 := set_activity j (Executing t (Request.requestNumber r) (Return response)) (set_state s' v1)).
  set (v4 := set_activity j (Writing t (packets b)) (set_state s' v1)).
  assert (set_activity j (Executing t (Request.requestNumber r) (Return response)) (set_state s' v2) = v3) as E3'
    by (change (set_activity j (Executing t (Request.requestNumber r) (Return response))
          (set_activity j (Executing t (Request.requestNumber r) (execute r)) (set_state s' v1)) = v3); by rewrite set_activity_twice).
  rewrite E3' in E3.
  assert (work conf j v3 = Ret (v4, Answered j t (TCPServer.set_requestNumber (Request.requestNumber r) response))) as E4.
  { assert (activities v3 !! j = Some (Executing t (Request.requestNumber r) (Return response))) as Ha3
      by (apply list_lookup_insert_eq; cbn; by rewrite length_insert).
    unfold work, at_undef. change (connectionThreadPool v3) with (connectionThreadPool v1). rewrite Hw1. cbn [obind].
    rewrite Ha3. cbn [obind]. unfold answer, at_undef. change (connections v3) with (connections v).
    rewrite Hc. cbn [obind fst]. unfold Connection.isOpen. rewrite Ho, Eb. cbn [obind].
    unfold v4, v3. by rewrite set_activity_twice. }
  pose proof (work_writes conf hash j t (packets b) v4 c rr) as E5. set (k5 := (length (packets b) + 1)%nat) in E5.
  eexists (1 + (1 + (k + (1 + k5))))%nat, _, _. split; [|split].
  - rewrite !replicate_add. eapply run_app; [by apply run_work|]. eapply run_app; [by apply run_work|].
    eapply run_app; [exact E3|]. eapply run_app; [by apply run_work|]. apply E5; [|done|done].
    split; [by eexists|]. cbn. apply list_lookup_insert_eq. by rewrite length_insert.
  - unfold finished. rewrite !omap_app. cbn [omap list_omap app].
    assert (∀ n, finished (replicate n (Ran t)) = []) as Hr by (induction n; done).
    assert (∀ l, finished (Wrote j t <$> l) = []) as Hwr by (induction l; done).
    unfold finished in Hr, Hwr. by rewrite Hr, Hwr.
  - done.
Qed.

(** C22: A remote call is a call.  A client that connects to a fresh server and sends a
    well-formed request under one of the configured keys (the node key when it claims to be a
    node), its packet not a positive multiple of 1024 bytes long, has it executed by the worker
    it lands on as the dispatcher executes it when no other thread interrupts it.  What the
    server hands to the connection is an answer a client can read: from these bytes, when their
    number allows it (again, no positive multiple of 1024), it reads one packet, which decodes
    to the response of the call with the number of the request.  That the socket sends all of
    them is up to the system and is not promised by the code. *)
Theorem remote_call conf user node threads timeout hash s v0 r args ty m s' response :
  Configuration.get conf ConfigurationKeys.AUTH_API_USER_KEY = Ret user →
  Configuration.get conf ConfigurationKeys.AUTH_NODE_KEY = Ret node →
  Configuration.getUint 32 conf ConfigurationKeys.SERVER_THREADS = Ret threads → 1 ≤ threads ≤ 2 ^ 30 →
  Configuration.getUint 64 conf ConfigurationKeys.NODE_REQUEST_TIMEOUT_MS = Ret timeout → make conf s = Ret v0 →
  request_ok r args → RequestSerializer.serialize r = Ret m →
  (length m < 1024)%nat ∨ (length m mod 1024 ≠ 0)%nat →
  key_type (bytes_of_string user) (bytes_of_string node) (AuthenticationBody.authKey (Request.authentication r)) = Some ty →
  (ty ≠ NODE → AuthenticationBody.flag1 (Request.authentication r) = false) →
  alone (execute (TCPServer.set_authenticationType ty (request_read r args))) s = Ret (s', response) →
  let answer := TCPServer.set_requestNumber (Request.requestNumber r) response in
  response_ok answer →
  let n := (19 + length (SimpleString.data (Response.responseValue answer)))%nat in
  Z.of_nat n < 2 ^ 32 → (n < 1024)%nat ∨ (n mod 1024 ≠ 0)%nat →
  ∃ j k v x c b c',
    run conf hash (Accept (receiver (frame m)) :: Arrive 0 :: replicate k (Work j)) v0
      = Ret (v, Quiet :: Submitted (0%nat, m) :: x) ∧
    finished x = [(0%nat, m)] ∧ state v = s' ∧ connections v = [(c, true)] ∧
    Connection.readSync (receiver (concat (Connection.asyncWrites c))) = Ret (c', Some b) ∧
    ResponseCodec.deserialize b = Ret (Some answer).
Proof.
  intros Hu Hn Hth Rth Hto Em Hr Es Hm Hk Hfl Ed answer Ha n Hn32 Hlen.
  pose proof (response_layout answer (po_value _ Ha)) as Eb. set (b := be_bytes 4 _ ++ _) in Eb.
  assert (length b = n) as Lb by (unfold b, n; rewrite !length_app, !length_be_bytes; simpl; lia).
  pose proof (request_layout_ok r args m Hr Es) as Er.
  assert ((0 < length m)%nat ∧ Z.of_nat (length m) < 2 ^ 32) as [Hm0 Hmb].
  { rewrite (serialize_layout r args (ro_op _ _ Hr)) in Es. apply Ret_inj in Es as <-. pose proof (ro_size _ _ Hr).
    pose proof (ro_key _ _ Hr). rewrite op_bytes_head, !length_app, length_be_bytes, length_op_head. cbn [length].
    case_match; lia. }
  assert (TCPServer.receive conf m = Ret (true, TCPServer.set_authenticationType ty (request_read r args))) as Ec.
  { rewrite (receive_ok conf user node m _ Hu Hn Er).
    change (Request.authentication (request_read r args)) with (Request.authentication r). rewrite Hk.
    destruct (bool_decide_reflect (ty ≠ NODE)); [by rewrite Hfl|done]. }
  unfold make in Em. destruct (Configuration.getUint 16 _ _); [|done..]. rewrite Hth in Em. cbn [obind] in Em.
  rewrite sext_small, wrap_small in Em by (unfold ufits, sfits; lia). injection Em as <-.
  set (acts := replicate _ Waiting).
  destruct (arrive_frame hash s threads m [] acts Rth Hm0 Hmb Hm) as (c & p & j & q & Ea & [Sc So] & Ej & Hq & Lp). rewrite app_nil_r in Ea.
  destruct (handle_request conf hash (mk s [(c, true)] p acts) j q (0%nat, m) (TCPServer.set_authenticationType ty (request_read r args))
    s' response b c true) as (k & v & x & Ew & Ef & Ev & Ecs); [done|done| |done|by rewrite <- So|done|done|exact Eb|].
  { pose proof (lookup_lt_Some _ _ _ Ej) as Hj. rewrite Lp in Hj. by apply lookup_replicate_2. }
  destruct (frame_read b []) as (c' & Erd & _); [unfold n in Lb; lia|lia|by rewrite Lb|]. rewrite app_nil_r in Erd.
  exists j, k, v, x, (started (packets b) c), b, c'. split; [|split; [exact Ef|split; [exact Ev|split; [exact Ecs|split]]]].
  - cbn [run step]. erewrite stM_bind_Ret by (unfold accept; rewrite Hto; reflexivity). cbn beta.
    erewrite stM_bind_Ret; [reflexivity|]. erewrite stM_bind_Ret by exact Ea. cbn beta. by erewrite stM_bind_Ret by exact Ew.
  - cbn. rewrite <- Sc. exact Erd.
  - by apply response_layout_ok.
Qed.

End wire.

(** With a dispatcher that is one step, a worker nobody interrupts does what
    [TCPServer::onNewRequest] does. *)
Lemma uninterrupted {S : Type} (D : Dispatcher S) {P : Platform} conf hash (v : TCPService.t (S := S)) j q t r s' response b c rr :
  ThreadPool.workers (TCPService.connectionThreadPool v) !! j = Some (Worker.mk q false) → holds q [t] →
  TCPService.activities v !! j = Some TCPService.Waiting →
  TCPService.connections v !! t.1 = Some (c, rr) → Connection.open c = true →
  TCPServer.receive conf t.2 = Ret (true, r) → dispatch r (TCPService.state v) = Ret (s', response) →
  ResponseCodec.serialize (TCPServer.set_requestNumber (Request.requestNumber r) response) = Ret b →
  ∃ k v' x c', TCPService.run (X := one_step D) conf hash (replicate k (TCPService.Work j)) v = Ret (v', x) ∧
    TCPServer.onNewRequest conf t.2 (TCPService.state v, c) = Ret ((TCPService.state v', c'), ()) ∧
    TCPService.connections v' = <[t.1 := (c', rr)]> (TCPService.connections v).
Proof.
  intros Hw Hq Ha Hc Ho Er Ed Eb.
  destruct (handle_request (X := one_step D) conf hash v j q t r s' response b c rr) as (k & v' & x & E & _ & <- & Ec); try done.
  { etransitivity; [apply alone_one_step|exact Ed]. }
  exists k, v', x, (started (packets b) c). split; [done|]. split; [|done].
  rewrite (onNewRequest_runs conf t.2 r _ _ c response b Er Ed Eb). unfold answered. by rewrite Ho.
Qed.

(** ** One client, one worker *)

Definition one_thread : Configuration.t :=
  Configuration.mk (<[ConfigurationKeys.SERVER_THREADS := "1"%string]> DefaultConfig_get) (λ _, None).
Definition client_request : Request.t :=
  Request.mk (AuthenticationBody.mk [49; 50; 51] false false)
    (OperationBody.mk (Some [SimpleString.of_bytes [107]; SimpleString.of_bytes [7]]) 0 1 1 false false) 9 USER.

(** A node that counts requests in two steps, between which other threads may run. *)
Definition careful : Executor nat := λ _,
  Step get_st (λ n, Step (modify (λ _, S n)) (λ _, Return (Response.success (LamportClock.mk 5 1)))).

Definition fresh_server : TCPService.t (S := nat) :=
  TCPService.mk 7%nat [] (ThreadPool.make 1) [TCPService.Waiting].

Definition client : Connection.t := receiver (frame (raw client_request)).


Lemma remote_call_witness :
  ∃ j k v x c b c',
    TCPService.run (X := careful) (P := masking_target) one_thread 5
      (TCPService.Accept client :: TCPService.Arrive 0 :: replicate k (TCPService.Work j)) fresh_server
      = Ret (v, TCPService.Quiet :: TCPService.Submitted (0%nat, raw client_request) :: x) ∧
    TCPService.finished x = [(0%nat, raw client_request)] ∧
    TCPService.state v = 8%nat ∧ TCPService.connections v = [(c, true)] ∧
    Connection.readSync (receiver (concat (Connection.asyncWrites c))) = Ret (c', Some b) ∧
    ResponseCodec.deserialize (H := masking_target) b
      = Ret (Some (TCPServer.set_requestNumber 9 (Response.success (LamportClock.mk 5 1)))).
Proof.
  apply (remote_call (X := careful) (P := masking_target) one_thread "123" "456" 1 5000 5 7%nat
    fresh_server client_request [SimpleString.of_bytes [107]; SimpleString.of_bytes [7]] USER (raw client_request) 8%nat
    (Response.success (LamportClock.mk 5 1))).
  - reflexivity.
  - reflexivity.
  - vm_compute. reflexivity.
  - lia.
  - vm_compute. reflexivity.
  - vm_compute. reflexivity.
  - split; [split; simpl; lia|simpl; lia| |vm_compute; reflexivity].
    split; [reflexivity| |split; simpl; lia|split; simpl; lia|split; simpl; lia].
    repeat constructor; simpl; try (vm_compute; reflexivity); unfold byte_ok; try lia.
  - vm_compute. reflexivity.
  - left. apply Nat.ltb_lt. vm_compute. reflexivity.
  - vm_compute. reflexivity.
  - done.
  - reflexivity.
  - split; simpl; try lia; try (split; simpl; lia). split; [reflexivity|constructor].
  - vm_compute. reflexivity.
  - left. apply Nat.ltb_lt. vm_compute. reflexivity.
Defined.
