(* ===== verification/Ring.v ===== *)
(** * The hash ring

    Models [cluster/partitions/RingEntries.cpp]: the circular doubly linked list of the
    nodes' ring entries, over a heap, and the index of its nodes by node identifier.  A
    [RingEntryNode] is created with [next] and [back] uninitialised; reading such a pointer
    is undefined. *)

From stdpp Require Import sorting.
From S2P Require Import Prelude.

(** [RingEntry]. *)
Record RingEntry := mk_entry { nodeId : Z; ringPosition : Z }.

#[global] Instance RingEntry_eq_dec : EqDecision RingEntry.
Proof. solve_decision. Defined.

Module RingEntries.

(** A pointer field: never written, null, or a node. *)
Inductive ptr := Uninit | Null | Addr (l : nat).

#[global] Instance ptr_eq_dec : EqDecision ptr.
Proof. solve_decision. Defined.

(** [RingEntryNode]. *)
Record RingEntryNode := mk_node { entry : RingEntry; next : ptr; back : ptr }.

Record t := mk {
  heap : gmap nat RingEntryNode;
  fresh_loc : nat;
  head : ptr;
  indexByNodeId : gmap Z nat;
}.

(** The default-constructed ring. *)
Definition empty : t := mk ∅ 0 Null ∅.

Definition size (r : t) : Z := u32 (Z.of_nat (base.size (indexByNodeId r))).

(** Reading a pointer, and the node behind it. *)
Definition read (p : ptr) : outcome ptr := match p with Uninit => Undef | p => Ret p end.
Definition deref (r : t) (p : ptr) : outcome (nat * RingEntryNode) :=
  match p with
  | Addr l => match heap r !! l with Some n => Ret (l, n) | None => Undef end
  | _ => Undef
  end.

Definition set_heap (h : gmap nat RingEntryNode) (r : t) : t := mk h (fresh_loc r) (head r) (indexByNodeId r).
Definition set_next (p q : ptr) : stM t () :=
  λ r, let! (l, n) := deref r p in Ret (set_heap (<[l:=mk_node (entry n) q (back n)]> (heap r)) r, ()).
Definition set_back (p q : ptr) : stM t () :=
  λ r, let! (l, n) := deref r p in Ret (set_heap (<[l:=mk_node (entry n) (next n) q]> (heap r)) r, ()).
Definition set_head (p : ptr) : stM t () :=
  modify (λ r, mk (heap r) (fresh_loc r) p (indexByNodeId r)).

(** [p->next], [p->back] and [p->entry]. *)
Definition get_next (p : ptr) : stM t ptr := λ r, let! (_, n) := deref r p in let! q := read (next n) in Ret (r, q).
Definition get_back (p : ptr) : stM t ptr := λ r, let! (_, n) := deref r p in let! q := read (back n) in Ret (r, q).
Definition get_entry (p : ptr) : stM t RingEntry := λ r, let! (_, n) := deref r p in Ret (r, entry n).
Definition get_head : stM t ptr := λ r, Ret (r, head r).

(** [new RingEntryNode(entry)]. *)
Definition new_node (e : RingEntry) : stM t ptr :=
  λ r, Ret (mk (<[fresh_loc r:=mk_node e Uninit Uninit]> (heap r)) (S (fresh_loc r)) (head r) (indexByNodeId r),
            Addr (fresh_loc r)).

(** [indexByNodeId.at]. *)
Definition index_at (id : Z) : stM t ptr :=
  λ r, let! l := of_option out_of_range (indexByNodeId r !! id) in Ret (r, Addr l).

(** The scan of [RingEntries::add] for the two entries around the new one; [size + 1]
    iterations. *)
Fixpoint add_loop (k : nat) (newRingEntry : ptr) (position : Z) (actual nextToActual : ptr) : stM t bool :=
  match k with
  | O => mret false
  | S k =>
      a ← get_entry actual;
      n ← (if ringPosition a <? position then get_entry nextToActual else mret a);
      if (ringPosition a <? position) && (position <? ringPosition n) then
        _ ← set_next actual newRingEntry;
        _ ← set_back newRingEntry actual;
        _ ← set_back nextToActual newRingEntry;
        _ ← set_next newRingEntry nextToActual;
        mret true
      else
        nextToNext ← get_next nextToActual;
        add_loop k newRingEntry position nextToActual nextToNext
  end.

(** [RingEntries::add]. *)
Definition add (ringEntryToAdd : RingEntry) : stM t () :=
  r ← get_st;
  match indexByNodeId r !! nodeId ringEntryToAdd with
  | Some _ => mret ()
  | None =>
      let size := size r in
      newRingEntry ← new_node ringEntryToAdd;
      _ ← modify (λ r', mk (heap r') (fresh_loc r') (head r')
                          (<[nodeId ringEntryToAdd := fresh_loc r]> (indexByNodeId r')));
      if size =? 0 then set_head newRingEntry
      else if size =? 1 then
        prevHeadNode ← get_head;
        h ← get_entry prevHeadNode;
        if ringPosition ringEntryToAdd <? ringPosition h then
          _ ← set_head newRingEntry;
          _ ← set_next prevHeadNode newRingEntry;
          _ ← set_back prevHeadNode newRingEntry;
          _ ← set_next newRingEntry prevHeadNode;
          set_back newRingEntry prevHeadNode
        else
          _ ← set_next prevHeadNode newRingEntry;
          _ ← set_back prevHeadNode newRingEntry;
          _ ← set_next newRingEntry prevHeadNode;
          set_back newRingEntry prevHeadNode
      else
        head ← get_head;
        nextToActual ← get_next head;
        placed ← add_loop (S (Z.to_nat size)) newRingEntry (ringPosition ringEntryToAdd) head nextToActual;
        if (placed : bool) then mret ()
        else
          oldBackToHead ← get_back head;
          _ ← set_back head newRingEntry;
          _ ← set_next oldBackToHead newRingEntry;
          _ ← set_next newRingEntry head;
          set_back newRingEntry oldBackToHead
  end.

(** The order of the index and the order [fromEntries] sorts by. *)
Definition by_id (a b : Z * nat) : Prop := a.1 ≤ b.1.
Definition by_position (a b : RingEntry) : Prop := ringPosition a ≤ ringPosition b.
#[global] Instance by_id_dec : RelDecision by_id.
Proof. intros a b. unfold by_id. apply _. Defined.
#[global] Instance by_position_dec : RelDecision by_position.
Proof. intros a b. unfold by_position. apply _. Defined.

(** [RingEntries::getAll]: the index is ordered by node identifier. *)
Definition getAll (r : t) : outcome (list RingEntry) :=
  ofoldl (λ out kv, let! (_, n) := deref r (Addr kv.2) in Ret (out ++ [entry n])) []
    (merge_sort by_id (map_to_list (indexByNodeId r))).

(** [RingEntries::deleteByNodeId]. *)
Definition deleteByNodeId (id : Z) : stM t () :=
  ringEntryDeleted ← index_at id;
  b ← get_back ringEntryDeleted;
  n ← get_next ringEntryDeleted;
  _ ← set_next b n;
  n ← get_next ringEntryDeleted;
  b ← get_back ringEntryDeleted;
  _ ← set_back n b;
  modify (λ r, mk (heap r) (fresh_loc r) (head r) (delete id (indexByNodeId r))).

(** The loop of [getNeighborsClockwise] (and, with [get_back], of
    [getNeighborsCounterClockwise], which tests [next] for null too). *)
Fixpoint neighbors_loop (move : ptr → stM t ptr) (k : nat) (first : bool) (started ptr_ : ptr)
    (neighbors : list RingEntry) : stM t (list RingEntry) :=
  match k with
  | O => mret neighbors
  | S k =>
      stop ← (if first then mret false
              else m ← move ptr_; mret (bool_decide (m = started)));
      if (stop : bool) then mret neighbors
      else
        n ← get_next ptr_;
        if decide (n = Null) then mret neighbors
        else
          m ← move ptr_;
          e ← get_entry m;
          neighbors_loop move k false started m (neighbors ++ [e])
  end.

(** [RingEntries::getNeighborsClockwise]. *)
Definition getNeighborsClockwise (id : Z) (numberNeighbors : Z) : stM t (list RingEntry) :=
  p ← index_at id; neighbors_loop get_next (Z.to_nat numberNeighbors) true p p [].

(** [RingEntries::getNeighborsCounterClockwise]. *)
Definition getNeighborsCounterClockwise (id : Z) (numberNeighbors : Z) : stM t (list RingEntry) :=
  p ← index_at id; neighbors_loop get_back (Z.to_nat numberNeighbors) true p p [].

Definition neighbor (move : ptr → stM t ptr) (id : Z) : stM t (option RingEntry) :=
  r ← get_st;
  match indexByNodeId r !! id with
  | None => mret None
  | Some l =>
      p ← move (Addr l);
      if decide (p = Null) then mret None else e ← get_entry p; mret (Some e)
  end.

(** [RingEntries::getNeighborCounterClockwise] and [RingEntries::getNeighborClockwise]. *)
Definition getNeighborCounterClockwise (id : Z) : stM t (option RingEntry) := neighbor get_back id.
Definition getNeighborClockwise (id : Z) : stM t (option RingEntry) := neighbor get_next id.

(** The loop of [getRingEntryBelongsToPosition]. *)
Fixpoint belongs_loop (k : nat) (position : Z) (actualPointer : ptr) : stM t (option RingEntry) :=
  match k with
  | O => mret None
  | S k =>
      nextToActualPointer ← get_next actualPointer;
      a ← get_entry actualPointer;
      if decide (nextToActualPointer = Null) then mret (Some a)
      else
        n ← (if ringPosition a <=? position then get_entry nextToActualPointer else mret a);
        if (ringPosition a <=? position) && (position <? ringPosition n) then mret (Some a)
        else
          h ← get_head;
          if decide (nextToActualPointer = h) then mret (Some a)
          else belongs_loop k position nextToActualPointer
  end.

(** [RingEntries::getRingEntryBelongsToPosition]. *)
Definition getRingEntryBelongsToPosition (position : Z) : stM t RingEntry :=
  r ← get_st;
  found ← belongs_loop (S (Z.to_nat (size r))) position (head r);
  match found with
  | Some e => mret e
  | None => get_entry (head r)
  end.

(** The loop of [RingEntries::getDistance], [k] iterations to go. *)
Fixpoint distance_loop (k : nat) (iterations : Z) (nodeA nodeB : Z) (a b : ptr) : stM t Z :=
  match k with
  | O =>
      eb ← get_entry b;
      mret (if nodeId eb =? nodeA then iterations * -1 else iterations)
  | S k =>
      ea ← get_entry a;
      if nodeId ea =? nodeB then mret iterations
      else
        eb ← get_entry b;
        if nodeId eb =? nodeA then mret (- iterations)
        else
          a ← get_next a;
          b ← get_next b;
          distance_loop k (iterations + 1) nodeA nodeB a b
  end.

(** [RingEntries::getDistance]. *)
Definition getDistance (nodeA nodeB : Z) : stM t Z :=
  r ← get_st;
  a ← index_at nodeA;
  b ← index_at nodeB;
  distance_loop (S (Z.to_nat (size r))) 0 nodeA nodeB a b.

(** [RingEntries::getDistanceCounterClockwise]. *)
Definition getDistanceCounterClockwise (nodeA nodeB : Z) : stM t Z :=
  r ← get_st;
  distance ← getDistance nodeA nodeB;
  mret (u32 (if 0 <? distance then Z.of_nat (base.size (indexByNodeId r)) - distance else Z.abs distance)).

(** [RingEntries::getDistanceClockwise]. *)
Definition getDistanceClockwise (nodeA nodeB : Z) : stM t Z :=
  r ← get_st;
  distance ← getDistance nodeA nodeB;
  mret (u32 (if distance <? 0 then Z.of_nat (base.size (indexByNodeId r)) - Z.abs distance else distance)).

(** [RingEntries::getByNodeId]. *)
Definition getByNodeId (id : Z) : stM t RingEntry := p ← index_at id; get_entry p.

(** One iteration of the loop of [fromEntries]; the local [head] and [prev] are null before
    the first one. *)
Definition link (n : nat) (i : nat) (e : RingEntry) (head_ prev : ptr) : stM t (ptr * ptr) :=
  ringEntryNode ← new_node e;
  head_ ← (if decide (i = 0)%nat then mret ringEntryNode
           else if decide (i = n - 1)%nat then
             _ ← set_back ringEntryNode prev;
             _ ← set_next prev ringEntryNode;
             _ ← set_back head_ ringEntryNode;
             _ ← set_next ringEntryNode head_;
             mret head_
           else
             _ ← set_back ringEntryNode prev;
             _ ← set_next prev ringEntryNode;
             mret head_);
  _ ← modify (λ r, mk (heap r) (fresh_loc r) (head r)
        (match indexByNodeId r !! nodeId e, ringEntryNode with
         | None, Addr l => <[nodeId e := l]> (indexByNodeId r)
         | _, _ => indexByNodeId r
         end));
  mret (head_, ringEntryNode).

Fixpoint link_all (n i : nat) (entries : list RingEntry) (head_ prev : ptr) : stM t ptr :=
  match entries with
  | [] => mret head_
  | e :: entries =>
      hp ← link n i e head_ prev;
      link_all n (S i) entries hp.1 hp.2
  end.

(** [RingEntries::fromEntries]; entries with equal positions keep the order of the merge
    sort, [std::sort] leaves it open. *)
Definition fromEntries (entries : list RingEntry) : outcome t :=
  let entries := merge_sort by_position entries in
  let! (r, h) := link_all (length entries) 0 entries Null Null empty in
  Ret (mk (heap r) (fresh_loc r) h (indexByNodeId r)).

End RingEntries.
