(* ===== verification/RingProofs.v ===== *)
(** * The hash ring: circular lists and consistent hashing

    Relates the linked list of [Ring.v] to a list of entries: what [fromEntries] builds,
    who owns a position, distances and neighbours in both directions, and what [add]
    does. *)

From stdpp Require Import sorting.
From S2P Require Import Prelude.
From S2P Require Import Ring.

Import RingEntries.

#[global] Instance RingEntry_inhabited : Inhabited RingEntry := populate (mk_entry 0 0).

(** ** Doubly linked segments *)

(** The nodes [xs] hold the entries [es]; the first one points back to [p], the last one
    forward to [q]. *)
Fixpoint linked (h : gmap nat RingEntryNode) (p : nat) (xs : list nat) (es : list RingEntry) (q : nat) : Prop :=
  match xs, es with
  | [], [] => True
  | x :: xs, e :: es => h !! x = Some (mk_node e (Addr (hd q xs)) (Addr p)) ∧ linked h x xs es q
  | _, _ => False
  end.

Definition last_loc (p : nat) (xs : list nat) : nat := default p (last xs).

Lemma last_loc_cons p x xs : last_loc p (x :: xs) = last_loc x xs.
Proof. unfold last_loc. rewrite last_cons. by destruct (last xs). Qed.

Lemma linked_length h p xs es q : linked h p xs es q → length xs = length es.
Proof.
  revert p es. induction xs as [|x xs IH]; intros p [|e es]; simpl; try done.
  intros [_ H]. f_equal. eauto.
Qed.

Lemma linked_app h p xs es ys fs q :
  length xs = length es →
  linked h p (xs ++ ys) (es ++ fs) q
  ↔ linked h p xs es (hd q ys) ∧ linked h (last_loc p xs) ys fs q.
Proof.
  revert p es. induction xs as [|x xs IH]; intros p [|e es] Hl; simpl in *; try done.
  - by split; [intros|intros [_ ?]].
  - rewrite IH by lia. rewrite last_loc_cons.
    assert (hd q (xs ++ ys) = hd (hd q ys) xs) as -> by (by destruct xs). tauto.
Qed.

Lemma linked_frame h x n p xs es q : x ∉ xs → linked h p xs es q → linked (<[x:=n]> h) p xs es q.
Proof.
  revert p es. induction xs as [|y xs IH]; intros p [|e es]; simpl; try done.
  intros [Hne Hx]%not_elem_of_cons [Hy H]. rewrite lookup_insert_ne by done. auto.
Qed.

Lemma linked_dom h p xs es q x : linked h p xs es q → x ∈ xs → is_Some (h !! x).
Proof.
  revert p es. induction xs as [|y xs IH]; intros p [|e es]; simpl; try done.
  - by intros _ ?%not_elem_of_nil.
  - intros [Hy H] [->|Hx]%elem_of_cons; eauto.
Qed.

(** What a node of the segment holds. *)
Lemma linked_lookup h p xs es q i x :
  linked h p xs es q → xs !! i = Some x →
  ∃ e, es !! i = Some e ∧
    h !! x = Some (mk_node e (Addr (default q (xs !! S i)))
                     (Addr (match i with O => p | S j => default p (xs !! j) end))).
Proof.
  revert p es i. induction xs as [|y xs IH]; intros p [|e es] i H Hi; simpl in *; try done.
  destruct H as [Hy H]. destruct i as [|i]; simpl in Hi.
  - injection Hi as ->. exists e. split; [done|]. by destruct xs.
  - destruct (IH y es i H Hi) as (e' & He & Hh). exists e'. split; [done|]. rewrite Hh.
    do 2 f_equal. destruct i as [|i]; [done|]. simpl.
    assert (is_Some (xs !! i)) as [z Hz].
    { apply lookup_lt_is_Some. apply lookup_lt_Some in Hi. lia. }
    by rewrite Hz.
Qed.

Lemma linked_intro h p xs es q :
  length xs = length es →
  (∀ i x e, xs !! i = Some x → es !! i = Some e →
     h !! x = Some (mk_node e (Addr (default q (xs !! S i)))
                     (Addr (match i with O => p | S j => default p (xs !! j) end)))) →
  linked h p xs es q.
Proof.
  revert p es. induction xs as [|y xs IH]; intros p [|e es] Hl H; simpl in *; try done. split.
  - rewrite (H 0%nat y e eq_refl eq_refl). by destruct xs.
  - apply IH; [lia|]. intros i x e' Hx He. rewrite (H (S i) x e' Hx He). do 2 f_equal.
    destruct i as [|i]; [done|]. simpl. assert (is_Some (xs !! i)) as [z Hz].
    { apply lookup_lt_is_Some. apply lookup_lt_Some in Hx. lia. }
    by rewrite Hz.
Qed.

(** ** Rings *)

(** The circular list of the nodes [xs] with entries [es]. *)
Definition circular (h : gmap nat RingEntryNode) (xs : list nat) (es : list RingEntry) : Prop :=
  linked h (last_loc 0 xs) xs es (hd 0%nat xs).

(** The ring holds the entries [es], clockwise from the head. *)
Record ring_ok (r : t) (xs : list nat) (es : list RingEntry) : Prop := {
  ro_two : (2 ≤ length es)%nat;
  ro_bound : Z.of_nat (length es) < 2 ^ 31;
  ro_nodup : NoDup xs;
  ro_ids : NoDup (nodeId <$> es);
  ro_circular : circular (heap r) xs es;
  ro_head : head r = Addr (hd 0%nat xs);
  ro_index : indexByNodeId r = list_to_map (zip (nodeId <$> es) xs);
  ro_fresh : ∀ x, (fresh_loc r ≤ x)%nat → heap r !! x = None;
}.

Section ring.
Context {r : t} {xs : list nat} {es : list RingEntry} (R : ring_ok r xs es).

Lemma ring_length : length xs = length es.
Proof using R. eapply linked_length, R. Qed.

Lemma ring_size : size r = Z.of_nat (length es) ∧ base.size (indexByNodeId r) = length es.
Proof using R.
  pose proof ring_length as Hl. pose proof (ro_bound _ _ _ R).
  assert (base.size (indexByNodeId r) = length es) as E.
  { rewrite (ro_index _ _ _ R), map_size_list_to_map.
    - rewrite length_zip, length_fmap. lia.
    - rewrite fst_zip by (rewrite length_fmap; lia). apply R. }
  split; [|done]. unfold size. rewrite E. apply wrap_small. split; lia.
Qed.

Lemma ring_lookup i :
  (i < length es)%nat → ∃ x e, xs !! i = Some x ∧ es !! i = Some e.
Proof using R.
  intros Hi. pose proof ring_length.
  destruct (lookup_lt_is_Some_2 xs i) as [x Hx]; [lia|].
  destruct (lookup_lt_is_Some_2 es i) as [e He]; [lia|]. eauto.
Qed.

(** Positions on the ring wrap around. *)
Lemma mod_wrap i n : (0 < n → i < 2 * n → i mod n = if decide (i < n) then i else i - n)%nat.
Proof.
  intros Hn Hi. destruct (decide (i < n)%nat); [by apply Nat.mod_small|].
  replace i with (i - n + 1 * n)%nat at 1 by lia. rewrite Nat.Div0.mod_add. apply Nat.mod_small. lia.
Qed.

(** The node at position [i]: its entry and its neighbours. *)
Lemma ring_node i x e :
  xs !! i = Some x → es !! i = Some e →
  ∃ y z, xs !! ((i + 1) mod length es)%nat = Some y ∧
    xs !! ((i + length es - 1) mod length es)%nat = Some z ∧
    heap r !! x = Some (mk_node e (Addr y) (Addr z)).
Proof using R.
  intros Hx He. pose proof (lookup_lt_Some _ _ _ He) as Hi. pose proof ring_length as Hl.
  pose proof (ro_two _ _ _ R). destruct (linked_lookup _ _ _ _ _ _ _ (ro_circular _ _ _ R) Hx) as (e' & He' & Hh).
  assert (e' = e) as -> by congruence.
  rewrite !mod_wrap by lia. eexists _, _. split; [|split; [|exact Hh]].
  - destruct (decide (i + 1 < length es)%nat).
    + replace (i + 1)%nat with (S i) by lia.
      destruct (lookup_lt_is_Some_2 xs (S i)) as [y Hy]; [lia|]. by rewrite Hy.
    + assert (xs !! S i = None) as -> by (apply lookup_ge_None; lia). simpl.
      replace (i + 1 - length es)%nat with 0%nat by lia. destruct xs; [done|]. done.
  - destruct i as [|i].
    + rewrite decide_True by lia. unfold last_loc. rewrite last_lookup, Hl.
      replace (0 + length es - 1)%nat with (Nat.pred (length es)) by lia.
      destruct (lookup_lt_is_Some_2 xs (Nat.pred (length es))) as [y Hy]; [lia|]. by rewrite Hy.
    + rewrite decide_False by lia. replace (S i + length es - 1 - length es)%nat with i by lia.
      destruct (lookup_lt_is_Some_2 xs i) as [y Hy]; [lia|]. by rewrite Hy.
Qed.

Lemma ring_index i x e : xs !! i = Some x → es !! i = Some e → indexByNodeId r !! nodeId e = Some x.
Proof using R.
  intros Hx He. rewrite (ro_index _ _ _ R). apply elem_of_list_to_map_1.
  - rewrite fst_zip by (rewrite length_fmap, ring_length; lia). apply R.
  - apply elem_of_lookup_zip_with. exists i, (nodeId e), x. split; [done|]. split; [|done].
    by rewrite list_lookup_fmap, He.
Qed.

Lemma ring_ids i j e f : es !! i = Some e → es !! j = Some f → nodeId e = nodeId f → i = j.
Proof using R.
  intros He Hf E. eapply (NoDup_lookup (nodeId <$> es)); [apply R| |]; rewrite list_lookup_fmap.
  - by rewrite He.
  - by rewrite Hf, E.
Qed.

(** The reads of the code at position [i]. *)
Lemma get_entry_at i x e : xs !! i = Some x → es !! i = Some e → get_entry (Addr x) r = Ret (r, e).
Proof using R.
  intros Hx He. destruct (ring_node i x e Hx He) as (y & z & _ & _ & Hh).
  unfold get_entry, deref. by rewrite Hh.
Qed.

Lemma get_next_at i x :
  xs !! i = Some x → ∃ y, xs !! ((i + 1) mod length es)%nat = Some y ∧ get_next (Addr x) r = Ret (r, Addr y).
Proof using R.
  intros Hx. destruct (ring_lookup i) as (x' & e & Hx' & He).
  { rewrite <- ring_length. by eapply lookup_lt_Some. }
  destruct (ring_node i x e Hx He) as (y & z & Hy & _ & Hh). exists y. split; [done|].
  unfold get_next, deref. by rewrite Hh.
Qed.

Lemma get_back_at i x :
  xs !! i = Some x →
  ∃ y, xs !! ((i + length es - 1) mod length es)%nat = Some y ∧ get_back (Addr x) r = Ret (r, Addr y).
Proof using R.
  intros Hx. destruct (ring_lookup i) as (x' & e & Hx' & He).
  { rewrite <- ring_length. by eapply lookup_lt_Some. }
  destruct (ring_node i x e Hx He) as (y & z & _ & Hz & Hh). exists z. split; [done|].
  unfold get_back, deref. by rewrite Hh.
Qed.

Lemma index_at_ok i x e : xs !! i = Some x → es !! i = Some e → index_at (nodeId e) r = Ret (r, Addr x).
Proof using R. intros Hx He. unfold index_at. by rewrite (ring_index i x e Hx He). Qed.

End ring.

(** ** Who owns a position *)

(** Consistent hashing: the owner of [p] has the greatest position not above [p], or the
    greatest of all when every position is above [p]. *)
Definition owns (es : list RingEntry) (p : Z) (e : RingEntry) : Prop :=
  e ∈ es ∧
  ((ringPosition e ≤ p ∧ ∀ e', e' ∈ es → ringPosition e' ≤ p → ringPosition e' ≤ ringPosition e) ∨
   ((∀ e', e' ∈ es → p < ringPosition e') ∧ ∀ e', e' ∈ es → ringPosition e' ≤ ringPosition e)).

(** Entries in the order of their positions. *)
Definition ordered (es : list RingEntry) : Prop :=
  ∀ i j e f, es !! i = Some e → es !! j = Some f → (i ≤ j)%nat → ringPosition e ≤ ringPosition f.

Section queries.
Context {r : t} {xs : list nat} {es : list RingEntry} (R : ring_ok r xs es).

Lemma hd_lookup : xs !! 0%nat = Some (hd 0%nat xs).
Proof using R.
  pose proof (ring_length R). pose proof (ro_two _ _ _ R). destruct xs; simpl in *; [lia|done].
Qed.

Lemma next_is_head i y :
  (i < length es)%nat → xs !! ((i + 1) mod length es)%nat = Some y →
  y = hd 0%nat xs ↔ i = (length es - 1)%nat.
Proof using R.
  intros Hi Hy. pose proof (ro_two _ _ _ R). rewrite mod_wrap in Hy by lia. split.
  - intros ->. pose proof (NoDup_lookup _ _ _ _ (ro_nodup _ _ _ R) Hy hd_lookup) as E.
    destruct (decide (i + 1 < length es)%nat); lia.
  - intros ->. rewrite decide_False in Hy by lia.
    replace (length es - 1 + 1 - length es)%nat with 0%nat in Hy by lia.
    rewrite hd_lookup in Hy. by injection Hy.
Qed.

Lemma belongs_loop_ok p k : ∀ i x,
  ordered es → (length es - i ≤ k)%nat → xs !! i = Some x →
  (∀ e f, es !! i = Some e → es !! 0%nat = Some f → ringPosition e ≤ p ∨ p < ringPosition f) →
  ∃ e, belongs_loop k p (Addr x) r = Ret (r, Some e) ∧ owns es p e.
Proof using R.
  pose proof (ring_length R) as Hl. pose proof (ro_two _ _ _ R) as H2.
  induction k as [|k IH]; intros i x Hs Hk Hx Hinv.
  { apply lookup_lt_Some in Hx. lia. }
  pose proof (lookup_lt_Some _ _ _ Hx) as Hi. rewrite Hl in Hi.
  destruct (lookup_lt_is_Some_2 es i) as [e He]; [lia|].
  destruct (lookup_lt_is_Some_2 es 0) as [f Hf]; [lia|].
  specialize (Hinv e f He Hf). cbn [belongs_loop].
  destruct (get_next_at R i x Hx) as (y & Hy & En). erewrite stM_bind_Ret by exact En. cbn beta.
  erewrite stM_bind_Ret by (exact (get_entry_at R i x e Hx He)). cbn beta. rewrite decide_False by done.
  destruct (lookup_lt_is_Some_2 es ((i + 1) mod length es)) as [g Hg]; [apply Nat.mod_upper_bound; lia|].
  assert ((if ringPosition e <=? p then get_entry (Addr y) else mret e) r
          = Ret (r, if ringPosition e <=? p then g else e)) as Eg.
  { destruct (ringPosition e <=? p); [exact (get_entry_at R _ y g Hy Hg)|done]. }
  erewrite stM_bind_Ret by exact Eg. cbn beta. rewrite mod_wrap in Hy, Hg by lia.
  destruct (Z.leb_spec (ringPosition e) p) as [Hle|Hgt]; cbn [andb].
  - destruct (Z.ltb_spec p (ringPosition g)) as [Hlt|Hge].
    + exists e. split; [done|]. split; [by eapply list_elem_of_lookup_2|]. left. split; [done|].
      intros e' [j Hj]%list_elem_of_lookup He'p. destruct (decide (j ≤ i)%nat); [by eapply Hs|].
      destruct (decide (i + 1 < length es)%nat).
      * assert (ringPosition g ≤ ringPosition e') by (eapply Hs; [exact Hg|exact Hj|lia]). lia.
      * apply lookup_lt_Some in Hj. lia.
    + erewrite stM_bind_Ret by reflexivity. cbn beta. rewrite (ro_head _ _ _ R).
      destruct (decide (Addr y = Addr (hd 0%nat xs))) as [[= E]|Hne].
      * exists e. split; [done|]. split; [by eapply list_elem_of_lookup_2|]. left. split; [done|].
        assert (i = length es - 1)%nat.
        { apply (next_is_head i y); [lia| |done]. by rewrite mod_wrap by lia. }
        intros e' [j Hj]%list_elem_of_lookup _. eapply Hs; [exact Hj|exact He|]. apply lookup_lt_Some in Hj. lia.
      * destruct (decide (i + 1 < length es)%nat).
        -- apply (IH (i + 1)%nat y Hs); [lia|done|]. intros e0 f0 He0 Hf0. left. congruence.
        -- exfalso. apply Hne. f_equal. apply (next_is_head i y); [lia| |lia].
           rewrite mod_wrap by lia. by rewrite decide_False by lia.
  - erewrite stM_bind_Ret by reflexivity. cbn beta. rewrite (ro_head _ _ _ R).
    destruct (decide (Addr y = Addr (hd 0%nat xs))) as [[= E]|Hne].
    + exists e. split; [done|]. split; [by eapply list_elem_of_lookup_2|]. right.
      assert (i = length es - 1)%nat.
      { apply (next_is_head i y); [lia| |done]. by rewrite mod_wrap by lia. }
      split; intros e' [j Hj]%list_elem_of_lookup.
      * assert (ringPosition f ≤ ringPosition e') by (eapply Hs; [exact Hf|exact Hj|lia]). lia.
      * eapply Hs; [exact Hj|exact He|]. apply lookup_lt_Some in Hj. lia.
    + destruct (decide (i + 1 < length es)%nat).
      * apply (IH (i + 1)%nat y Hs); [lia|done|]. intros e0 f0 He0 Hf0. right.
        assert (f0 = f) as -> by congruence. lia.
      * exfalso. apply Hne. f_equal. apply (next_is_head i y); [lia| |lia].
        rewrite mod_wrap by lia. by rewrite decide_False by lia.
Qed.

Lemma getRingEntryBelongsToPosition_ok p :
  ordered es → ∃ e, getRingEntryBelongsToPosition p r = Ret (r, e) ∧ owns es p e.
Proof using R.
  intros Hs. unfold getRingEntryBelongsToPosition. erewrite stM_bind_Ret by reflexivity. cbn beta.
  destruct (ring_size R) as [-> _]. rewrite (ro_head _ _ _ R).
  destruct (belongs_loop_ok p (S (Z.to_nat (Z.of_nat (length es)))) 0 (hd 0%nat xs) Hs) as (e & E & Ho).
  - lia.
  - apply hd_lookup.
  - intros e f He Hf. assert (e = f) as -> by congruence. lia.
  - exists e. split; [|done]. by erewrite stM_bind_Ret by exact E.
Qed.

(** ** Distances *)

(** Steps clockwise from position [i] to position [j]. *)
Definition steps (n i j : nat) : nat := ((j + n - i) mod n)%nat.

Lemma steps_spec n i j k :
  (i < n → j < n → k < n → ((i + k) mod n = j ↔ k = steps n i j))%nat.
Proof.
  intros Hi Hj Hk. unfold steps. rewrite !mod_wrap by lia.
  destruct (decide (i + k < n)%nat), (decide (j + n - i < n)%nat); lia.
Qed.

Lemma steps_lt n i j : (0 < n → steps n i j < n)%nat.
Proof. intros Hn. unfold steps. apply Nat.mod_upper_bound. lia. Qed.

Lemma steps_sum n i j :
  (i < n → j < n → steps n i j + steps n j i = if decide (i = j) then 0 else n)%nat.
Proof.
  intros Hi Hj. unfold steps. rewrite !mod_wrap by lia.
  destruct (decide (j + n - i < n)%nat), (decide (i + n - j < n)%nat), (decide (i = j)); lia.
Qed.

(** The signed distance: positive clockwise, ties clockwise. *)
Definition shortest (n i j : nat) : Z :=
  if decide (steps n i j ≤ steps n j i)%nat then Z.of_nat (steps n i j) else - Z.of_nat (steps n j i).

Lemma distance_loop_ok i j ei ej : es !! i = Some ei → es !! j = Some ej → ∀ m k a b,
  (m + k = Nat.min (steps (length es) i j) (steps (length es) j i))%nat →
  xs !! ((i + k) mod length es)%nat = Some a → xs !! ((j + k) mod length es)%nat = Some b → ∀ fuel,
  (m < fuel)%nat →
  distance_loop fuel (Z.of_nat k) (nodeId ei) (nodeId ej) (Addr a) (Addr b) r
  = Ret (r, shortest (length es) i j).
Proof using R.
  intros Hi Hj. pose proof (ro_two _ _ _ R) as H2. pose proof (ring_length R) as Hl.
  pose proof (lookup_lt_Some _ _ _ Hi) as Hi'. pose proof (lookup_lt_Some _ _ _ Hj) as Hj'.
  pose proof (steps_lt (length es) i j ltac:(lia)). pose proof (steps_lt (length es) j i ltac:(lia)).
  induction m as [|m IH]; intros k a b Hm Ha Hb [|fuel] Hf; try lia; cbn [distance_loop];
    assert (k < length es)%nat as Hk by lia;
    pose proof (steps_spec (length es) i j k Hi' Hj' Hk) as Sij;
    pose proof (steps_spec (length es) j i k Hj' Hi' Hk) as Sji;
    (destruct (lookup_lt_is_Some_2 es ((i + k) mod length es)) as [ea Hea]; [apply Nat.mod_upper_bound; lia|]);
    (destruct (lookup_lt_is_Some_2 es ((j + k) mod length es)) as [eb Heb]; [apply Nat.mod_upper_bound; lia|]);
    assert (nodeId ea = nodeId ej ↔ ((i + k) mod length es)%nat = j) as Ia
      by (split; [intros E; by eapply (ring_ids R)|intros E; congruence]);
    assert (nodeId eb = nodeId ei ↔ ((j + k) mod length es)%nat = i) as Ib
      by (split; [intros E; by eapply (ring_ids R)|intros E; congruence]);
    erewrite stM_bind_Ret by (exact (get_entry_at R _ a ea Ha Hea)); cbn beta;
    destruct (Z.eqb_spec (nodeId ea) (nodeId ej)) as [Ea|Ea].
  - apply Ia, Sij in Ea. unfold shortest. rewrite decide_True by lia. by rewrite Ea.
  - erewrite stM_bind_Ret by (exact (get_entry_at R _ b eb Hb Heb)). cbn beta.
    assert (k = steps (length es) j i) as Ek.
    { destruct (decide (k = steps (length es) i j)) as [E|E]; [|lia]. exfalso. apply Ea, Ia, Sij. done. }
    destruct (Z.eqb_spec (nodeId eb) (nodeId ei)) as [Eb|Eb]; [|exfalso; apply Eb, Ib, Sji; done].
    unfold shortest. rewrite decide_False; [by rewrite <- Ek|].
    intros Hle. apply Ea, Ia, Sij. lia.
  - apply Ia, Sij in Ea. lia.
  - erewrite stM_bind_Ret by (exact (get_entry_at R _ b eb Hb Heb)). cbn beta.
    destruct (Z.eqb_spec (nodeId eb) (nodeId ei)) as [Eb|Eb]; [apply Ib, Sji in Eb; lia|].
    destruct (get_next_at R _ a Ha) as (a' & Ha' & Ena). destruct (get_next_at R _ b Hb) as (b' & Hb' & Enb).
    erewrite stM_bind_Ret by exact Ena. cbn beta. erewrite stM_bind_Ret by exact Enb. cbn beta.
    replace (Z.of_nat k + 1) with (Z.of_nat (k + 1)) by lia.
    rewrite Nat.Div0.add_mod_idemp_l, <- Nat.add_assoc in Ha', Hb'.
    apply IH; [lia|done|done|lia].
Qed.

Lemma getDistance_ok i j ei ej :
  es !! i = Some ei → es !! j = Some ej →
  getDistance (nodeId ei) (nodeId ej) r = Ret (r, shortest (length es) i j).
Proof using R.
  intros Hi Hj. pose proof (ro_two _ _ _ R) as H2. pose proof (ring_length R) as Hl.
  pose proof (lookup_lt_Some _ _ _ Hi) as Hi'. pose proof (lookup_lt_Some _ _ _ Hj) as Hj'.
  destruct (lookup_lt_is_Some_2 xs i) as [a Ha]; [lia|]. destruct (lookup_lt_is_Some_2 xs j) as [b Hb]; [lia|].
  unfold getDistance. erewrite stM_bind_Ret by reflexivity. cbn beta.
  erewrite stM_bind_Ret by (exact (index_at_ok R i a ei Ha Hi)). cbn beta.
  erewrite stM_bind_Ret by (exact (index_at_ok R j b ej Hb Hj)). cbn beta.
  destruct (ring_size R) as [-> _]. pose proof (steps_lt (length es) i j ltac:(lia)).
  apply (distance_loop_ok i j ei ej Hi Hj
    (Nat.min (steps (length es) i j) (steps (length es) j i)) 0); [lia| | |lia].
  - by rewrite Nat.add_0_r, Nat.mod_small by lia.
  - by rewrite Nat.add_0_r, Nat.mod_small by lia.
Qed.

Lemma getDistanceClockwise_ok i j ei ej :
  es !! i = Some ei → es !! j = Some ej →
  getDistanceClockwise (nodeId ei) (nodeId ej) r = Ret (r, Z.of_nat (steps (length es) i j)) ∧
  getDistanceCounterClockwise (nodeId ei) (nodeId ej) r = Ret (r, Z.of_nat (steps (length es) j i)).
Proof using R.
  intros Hi Hj. pose proof (ro_two _ _ _ R) as H2. pose proof (ro_bound _ _ _ R) as Hb.
  pose proof (lookup_lt_Some _ _ _ Hi) as Hi'. pose proof (lookup_lt_Some _ _ _ Hj) as Hj'.
  pose proof (steps_sum (length es) i j Hi' Hj') as Hsum.
  pose proof (steps_lt (length es) i j ltac:(lia)). pose proof (steps_lt (length es) j i ltac:(lia)).
  destruct (ring_size R) as [_ Hs]. unfold getDistanceClockwise, getDistanceCounterClockwise.
  split; erewrite stM_bind_Ret by reflexivity; cbn beta;
    erewrite stM_bind_Ret by (exact (getDistance_ok i j ei ej Hi Hj)); cbn beta;
    unfold mret, stM_ret; rewrite Hs; do 2 f_equal; unfold shortest;
    (destruct (decide (steps (length es) i j ≤ steps (length es) j i)%nat);
     match goal with |- wrap 32 ?v = _ => rewrite (wrap_small 32 v) end);
    repeat case_decide; repeat match goal with |- context [?a <? ?b] => destruct (Z.ltb_spec a b) end;
    try unfold ufits; try lia.
Qed.

(** ** Neighbours *)

(** [pos c] is the position after [c] moves; the walk comes back after a whole turn only. *)
Lemma neighbors_loop_ok move pos :
  (∀ c x, xs !! pos c = Some x → ∃ y, xs !! pos (S c) = Some y ∧ move (Addr x) r = Ret (r, Addr y)) →
  (∀ c, (0 < c < length es)%nat → pos c ≠ pos 0%nat) → pos (length es) = pos 0%nat →
  ∀ k c x s acc, (c < length es)%nat → xs !! pos 0%nat = Some s → xs !! pos c = Some x →
  neighbors_loop move k (bool_decide (c = 0)%nat) (Addr s) (Addr x) acc r
  = Ret (r, acc ++ ((λ j, es !!! pos (c + 1 + j)%nat) <$> seq 0 (Nat.min k (length es - 1 - c)))).
Proof using R.
  intros Hmove Hne Hback. pose proof (ring_length R) as Hl. pose proof (ro_two _ _ _ R) as H2.
  induction k as [|k IH]; intros c x s acc Hc Hs Hx; cbn [neighbors_loop]; [by rewrite app_nil_r|].
  destruct (Hmove c x Hx) as (y & Hy & Em).
  assert (y = s ↔ c = (length es - 1)%nat) as Hstop.
  { split.
    - intros ->. pose proof (NoDup_lookup _ _ _ _ (ro_nodup _ _ _ R) Hy Hs) as E.
      destruct (decide (S c < length es)%nat); [|lia]. exfalso. by apply (Hne (S c)); [lia|].
    - intros ->. replace (S (length es - 1)) with (length es) in Hy by lia. rewrite Hback in Hy. congruence. }
  assert ((if bool_decide (c = 0)%nat then mret false
           else m ← move (Addr x); mret (bool_decide (m = Addr s)) : stM t bool) r
          = Ret (r, bool_decide (c = (length es - 1)%nat))) as Estop.
  { destruct (decide (c = 0)%nat) as [->|Hc0].
    - rewrite bool_decide_true, bool_decide_false by lia. done.
    - rewrite (bool_decide_false (c = 0)%nat) by done. erewrite stM_bind_Ret by exact Em.
      unfold mret, stM_ret. do 2 f_equal. apply bool_decide_ext. rewrite <- Hstop. split; congruence. }
  erewrite stM_bind_Ret by exact Estop. cbn beta. destruct (decide (c = length es - 1)%nat) as [E|E].
  - rewrite bool_decide_true by done. rewrite E.
    replace (length es - 1 - (length es - 1))%nat with 0%nat by lia. rewrite Nat.min_0_r. simpl.
    by rewrite app_nil_r.
  - rewrite bool_decide_false by done.
    destruct (get_next_at R _ x Hx) as (z & _ & En). erewrite stM_bind_Ret by exact En. cbn beta.
    rewrite decide_False by done. erewrite stM_bind_Ret by exact Em. cbn beta.
    destruct (lookup_lt_is_Some_2 es (pos (S c))) as [e He]; [rewrite <- Hl; by eapply lookup_lt_Some|].
    erewrite stM_bind_Ret by (exact (get_entry_at R _ y e Hy He)). cbn beta.
    pose proof (IH (S c) y s (acc ++ [e]) ltac:(lia) Hs Hy) as E'.
    rewrite bool_decide_false in E' by lia. rewrite E', <- app_assoc. do 3 f_equal.
    replace (length es - 1 - c)%nat with (S (length es - 1 - S c)) by lia.
    rewrite <- Nat.succ_min_distr. cbn [seq fmap list_fmap app]. f_equal.
    + replace (c + 1 + 0)%nat with (S c) by lia. symmetry. by apply list_lookup_total_correct.
    + rewrite <- fmap_S_seq, <- list_fmap_compose. apply list_fmap_ext. intros ? j _. simpl.
      do 2 f_equal. lia.
Qed.

Lemma getNeighborsClockwise_ok i e k :
  es !! i = Some e →
  getNeighborsClockwise (nodeId e) (Z.of_nat k) r
  = Ret (r, (λ j, es !!! ((i + (1 + j)) mod length es)%nat) <$> seq 0 (Nat.min k (length es - 1))).
Proof using R.
  intros He. pose proof (ring_length R) as Hl. pose proof (ro_two _ _ _ R) as H2.
  pose proof (lookup_lt_Some _ _ _ He) as Hi. destruct (lookup_lt_is_Some_2 xs i) as [x Hx]; [lia|].
  unfold getNeighborsClockwise. erewrite stM_bind_Ret by (exact (index_at_ok R i x e Hx He)). cbn beta.
  rewrite Nat2Z.id. pose proof (neighbors_loop_ok get_next (λ c, (i + c) mod length es)%nat) as L.
  cbn beta in L. rewrite Nat.add_0_r, (Nat.mod_small i) in L by lia.
  rewrite (L) with (c := 0%nat) (x := x) (s := x) (acc := []); try done.
  - by rewrite Nat.sub_0_r.
  - intros c y Hy. destruct (get_next_at R _ y Hy) as (z & Hz & En). exists z. split; [|done].
    rewrite Nat.Div0.add_mod_idemp_l in Hz. by replace (i + S c)%nat with (i + c + 1)%nat by lia.
  - intros c Hc E. apply (steps_spec (length es) i i c) in E; [|lia..]. unfold steps in E.
    rewrite mod_wrap in E by lia. rewrite decide_False in E by lia. lia.
  - rewrite mod_wrap by lia. rewrite decide_False by lia. lia.
  - lia.
  - by rewrite Nat.add_0_r, Nat.mod_small by lia.
Qed.

End queries.

(** ** Building a ring *)

(** The node at [x] when the first [j] of the entries are linked. *)
Definition partial_node (es : list RingEntry) (j x : nat) : option RingEntryNode :=
  if decide (x < j)%nat
  then Some (mk_node (es !!! x) (if decide (x + 1 < j)%nat then Addr (x + 1) else Uninit)
               (if decide (x = 0)%nat then Uninit else Addr (x - 1)))
  else None.

Definition partial_ring (es : list RingEntry) (j : nat) (r : t) : Prop :=
  fresh_loc r = j ∧ (∀ x, heap r !! x = partial_node es j x) ∧
  indexByNodeId r = list_to_map (zip (nodeId <$> take j es) (seq 0 j)).

(** Adding one entry to the index. *)
Lemma index_snoc (es : list RingEntry) (e : RingEntry) (xs : list nat) l :
  length xs = length es → NoDup (nodeId <$> es ++ [e]) →
  (<[nodeId e := l]> (list_to_map (zip (nodeId <$> es) xs)) : gmap Z nat)
  = list_to_map (zip (nodeId <$> es ++ [e]) (xs ++ [l])) ∧
  (list_to_map (zip (nodeId <$> es) xs) : gmap Z nat) !! nodeId e = None.
Proof.
  intros Hl Hnd. rewrite fmap_app in *. assert (nodeId e ∉ nodeId <$> es) as Hne.
  { apply NoDup_app in Hnd as (_ & Hnd & _). intros Hin. apply (Hnd _ Hin). by apply list_elem_of_singleton. }
  rewrite zip_with_app by (by rewrite length_fmap). split.
  - change (zip (nodeId <$> [e]) [l]) with [(nodeId e, l)].
    rewrite (list_to_map_snoc (M := gmap Z)); [done|]. by rewrite fst_zip by (rewrite length_fmap; lia).
  - apply not_elem_of_list_to_map_1. by rewrite fst_zip by (rewrite length_fmap; lia).
Qed.

Lemma insert_lookup {V} (m : gmap nat V) i j v :
  <[i:=v]> m !! j = if decide (i = j) then Some v else m !! j.
Proof. case_decide as E; [subst; apply lookup_insert_eq|by apply lookup_insert_ne]. Qed.

(** Evaluate lookups in updated heaps by cases on the locations. *)
Ltac heap_cases :=
  repeat (rewrite insert_lookup; case_decide; subst; try lia); unfold partial_node in *;
  repeat (case_decide; try lia).

(** The heap after a pointer of the node [l] is written. *)
Lemma set_next_ok r l n q :
  heap r !! l = Some n →
  set_next (Addr l) q r = Ret (set_heap (<[l:=mk_node (entry n) q (back n)]> (heap r)) r, ()).
Proof. intros E. unfold set_next, deref. by rewrite E. Qed.
Lemma set_back_ok r l n q :
  heap r !! l = Some n →
  set_back (Addr l) q r = Ret (set_heap (<[l:=mk_node (entry n) (next n) q]> (heap r)) r, ()).
Proof. intros E. unfold set_back, deref. by rewrite E. Qed.

Section building.
Context (es : list RingEntry) (Hids : NoDup (nodeId <$> es)) (H2 : (2 ≤ length es)%nat).

Lemma index_step r j e :
  es !! j = Some e → indexByNodeId r = list_to_map (zip (nodeId <$> take j es) (seq 0 j)) →
  match indexByNodeId r !! nodeId e with None => <[nodeId e := j]> (indexByNodeId r) | Some _ => indexByNodeId r end
  = list_to_map (zip (nodeId <$> take (S j) es) (seq 0 (S j))).
Proof using Hids H2.
  intros He Ei. pose proof (lookup_lt_Some _ _ _ He).
  destruct (index_snoc (take j es) e (seq 0 j) j) as [E1 E2].
  - rewrite length_seq, length_take. lia.
  - rewrite <- (take_S_r _ _ _ He), fmap_take. rewrite <- (take_drop (S j) (nodeId <$> es)) in Hids.
    by apply NoDup_app in Hids as (? & _).
  - rewrite <- Ei in E1, E2. rewrite E2, E1, (take_S_r _ _ _ He), seq_S. done.
Qed.

Lemma link_first e r :
  es !! 0%nat = Some e → r = empty →
  ∃ r', link (length es) 0 e Null Null r = Ret (r', (Addr 0%nat, Addr 0%nat)) ∧ partial_ring es 1 r'.
Proof using Hids H2.
  intros He ->. unfold link. erewrite stM_bind_Ret by reflexivity. cbn beta. rewrite decide_True by done.
  erewrite stM_bind_Ret by reflexivity. cbn beta. erewrite stM_bind_Ret by reflexivity.
  eexists. split; [reflexivity|]. split; [done|]. split.
  - intros x. cbn [heap empty fresh_loc]. rewrite insert_lookup. unfold partial_node.
    case_decide; subst; repeat case_decide; try lia; [|apply lookup_empty].
    by rewrite (list_lookup_total_correct _ _ _ He).
  - cbn [indexByNodeId]. by rewrite <- (index_step empty 0 e He eq_refl).
Qed.

Lemma link_middle j e r :
  (0 < j < length es - 1)%nat → es !! j = Some e → partial_ring es j r →
  ∃ r', link (length es) j e (Addr 0%nat) (Addr (j - 1)%nat) r = Ret (r', (Addr 0%nat, Addr j)) ∧
        partial_ring es (S j) r'.
Proof using Hids H2.
  intros Hj He (Hf & Hh & Hi). unfold link. erewrite stM_bind_Ret by reflexivity. cbn beta. rewrite Hf.
  rewrite !decide_False by lia.
  set (h0 := <[j:=mk_node e Uninit Uninit]> (heap r)).
  set (h1 := <[j:=mk_node e Uninit (Addr (j - 1)%nat)]> h0).
  set (n0 := mk_node (es !!! (j - 1)%nat) Uninit (if decide (j - 1 = 0)%nat then Uninit else Addr (j - 1 - 1)%nat)).
  assert (h1 !! (j - 1)%nat = Some n0) as Ep.
  { unfold h1, h0. rewrite !lookup_insert_ne, Hh by lia. unfold partial_node. rewrite decide_True by lia.
    rewrite decide_False by lia. done. }
  set (h2 := <[(j - 1)%nat:=mk_node (entry n0) (Addr j) (back n0)]> h1).
  assert ((_ ← set_back (Addr j) (Addr (j - 1)%nat); _ ← set_next (Addr (j - 1)%nat) (Addr j); mret (Addr 0%nat))
            (mk h0 (S j) (head r) (indexByNodeId r))
          = Ret (mk h2 (S j) (head r) (indexByNodeId r), Addr 0%nat)) as E.
  { erewrite stM_bind_Ret by (apply set_back_ok; apply lookup_insert_eq). cbn beta.
    erewrite stM_bind_Ret by (apply set_next_ok; exact Ep). done. }
  erewrite stM_bind_Ret by exact E. cbn beta. erewrite stM_bind_Ret by reflexivity.
  eexists. split; [reflexivity|]. split; [done|]. split.
  - intros x. cbn [heap]. unfold h2, h1, h0. rewrite !insert_lookup, Hh. unfold partial_node, n0. cbn [entry back].
    rewrite <- (list_lookup_total_correct _ _ _ He).
    repeat (case_decide; subst; try lia); try done; repeat f_equal; lia.
  - cbn [indexByNodeId]. by rewrite <- (index_step r j e He Hi).
Qed.

Lemma link_last j e r :
  j = (length es - 1)%nat → es !! j = Some e → partial_ring es j r →
  ∃ r', link (length es) j e (Addr 0%nat) (Addr (j - 1)%nat) r = Ret (r', (Addr 0%nat, Addr j)) ∧
    fresh_loc r' = length es ∧ (∀ x, (length es ≤ x)%nat → heap r' !! x = None) ∧
    circular (heap r') (seq 0 (length es)) es ∧
    indexByNodeId r' = list_to_map (zip (nodeId <$> es) (seq 0 (length es))).
Proof using Hids H2.
  intros -> He (Hf & Hh & Hi). set (j := (length es - 1)%nat) in *. unfold link.
  erewrite stM_bind_Ret by reflexivity. cbn beta. rewrite Hf.
  rewrite decide_False, decide_True by lia.
  set (h0 := <[j:=mk_node e Uninit Uninit]> (heap r)).
  set (h1 := <[j:=mk_node e Uninit (Addr (j - 1)%nat)]> h0).
  set (n0 := mk_node (es !!! (j - 1)%nat) Uninit (if decide (j - 1 = 0)%nat then Uninit else Addr (j - 1 - 1)%nat)).
  assert (h1 !! (j - 1)%nat = Some n0) as Ep.
  { unfold h1, h0. rewrite !lookup_insert_ne, Hh by lia. unfold partial_node. rewrite decide_True by lia.
    rewrite decide_False by lia. done. }
  set (h2 := <[(j - 1)%nat:=mk_node (entry n0) (Addr j) (back n0)]> h1).
  set (n1 := mk_node (es !!! 0%nat) (Addr 1%nat) Uninit).
  assert (h2 !! 0%nat = Some n1) as E0.
  { unfold h2, h1, h0. rewrite !insert_lookup, Hh. unfold partial_node, n0, n1. cbn [entry back].
    repeat (case_decide; try lia); try done; repeat f_equal; lia. }
  set (h3 := <[0%nat:=mk_node (entry n1) (next n1) (Addr j)]> h2).
  assert (h3 !! j = Some (mk_node e Uninit (Addr (j - 1)%nat))) as Ej.
  { unfold h3, h2, h1. rewrite !lookup_insert_ne, lookup_insert_eq by lia. done. }
  assert ((_ ← set_back (Addr j) (Addr (j - 1)%nat); _ ← set_next (Addr (j - 1)%nat) (Addr j);
           _ ← set_back (Addr 0%nat) (Addr j); _ ← set_next (Addr j) (Addr 0%nat); mret (Addr 0%nat))
            (mk h0 (S j) (head r) (indexByNodeId r))
          = Ret (mk (<[j:=mk_node e (Addr 0%nat) (Addr (j - 1)%nat)]> h3) (S j) (head r) (indexByNodeId r), Addr 0%nat)) as E.
  { erewrite stM_bind_Ret by (apply set_back_ok; apply lookup_insert_eq). cbn beta.
    erewrite stM_bind_Ret by (apply set_next_ok; exact Ep). cbn beta.
    erewrite stM_bind_Ret by (apply set_back_ok; exact E0). cbn beta.
    erewrite stM_bind_Ret by (apply set_next_ok; exact Ej). done. }
  erewrite stM_bind_Ret by exact E. cbn beta. erewrite stM_bind_Ret by reflexivity.
  assert (S j = length es) as Hn by lia.
  eexists. split; [reflexivity|]. cbn [fresh_loc heap indexByNodeId]. split; [done|]. split; [|split].
  - intros x Hx. unfold h3, h2, h1, h0. rewrite !insert_lookup, Hh. unfold partial_node.
    repeat (case_decide; subst; try lia). done.
  - apply linked_intro; [by rewrite length_seq|]. intros i x f Hx Hf'.
    apply lookup_seq in Hx as [-> Hi']. rewrite Nat.add_0_l in *.
    assert (last_loc 0 (seq 0 (length es)) = j) as ->.
    { unfold last_loc. rewrite last_lookup, length_seq, lookup_seq_lt by lia. simpl. lia. }
    assert (hd 0%nat (seq 0 (length es)) = 0%nat) as -> by (by destruct (length es)).
    assert (default 0%nat (seq 0 (length es) !! S i) = if decide (i = j) then 0 else i + 1)%nat as ->.
    { case_decide.
      - assert (seq 0 (length es) !! S i = None) as -> by (apply lookup_ge_None; rewrite length_seq; lia). done.
      - rewrite lookup_seq_lt by lia. simpl. lia. }
    assert (match i with O => j | S k => default j (seq 0 (length es) !! k) end
            = if decide (i = 0) then j else i - 1)%nat as ->.
    { destruct i as [|i]; [done|]. rewrite lookup_seq_lt by lia. simpl. lia. }
    unfold h3, h2, h1, h0. rewrite !insert_lookup, Hh. unfold partial_node, n0, n1. cbn [entry back next].
    rewrite <- (list_lookup_total_correct _ _ _ Hf'), <- (list_lookup_total_correct _ _ _ He).
    repeat (case_decide; subst; try lia); try done; repeat f_equal; lia.
  - pose proof (index_step r j e He Hi) as Ei. rewrite Hn, firstn_all in Ei. by rewrite <- Ei.
Qed.

Lemma link_all_ok l : ∀ j r,
  (0 < j)%nat → drop j es = l → l ≠ [] → partial_ring es j r →
  ∃ r', link_all (length es) j l (Addr 0%nat) (Addr (j - 1)%nat) r = Ret (r', Addr 0%nat) ∧
    fresh_loc r' = length es ∧ (∀ x, (length es ≤ x)%nat → heap r' !! x = None) ∧
    circular (heap r') (seq 0 (length es)) es ∧
    indexByNodeId r' = list_to_map (zip (nodeId <$> es) (seq 0 (length es))).
Proof using Hids H2.
  induction l as [|e l IH]; intros j r Hj Hl Hne Hp; [done|]. cbn [link_all].
  assert (es !! j = Some e) as He.
  { rewrite <- (Nat.add_0_r j), <- lookup_drop, Hl. done. }
  assert (drop (S j) es = l) as Hl' by (rewrite <- Nat.add_1_r, <- drop_drop, Hl; done).
  pose proof (lookup_lt_Some _ _ _ He).
  destruct l as [|f l].
  - assert (j = length es - 1)%nat as Ej.
    { apply (f_equal length) in Hl'. rewrite length_drop in Hl'. simpl in Hl'. lia. }
    destruct (link_last j e r Ej He Hp) as (r' & E & H'). exists r'.
    split; [|done]. by erewrite stM_bind_Ret by exact E.
  - assert (j < length es - 1)%nat as Hlt.
    { apply (f_equal length) in Hl'. rewrite length_drop in Hl'. simpl in Hl'. lia. }
    destruct (link_middle j e r ltac:(lia) He Hp) as (r' & E & Hp').
    erewrite stM_bind_Ret by exact E. cbn [fst snd].
    pose proof (IH (S j) r' ltac:(lia) Hl' ltac:(done) Hp') as H'.
    replace (S j - 1)%nat with j in H' by lia. exact H'.
Qed.

End building.

Lemma merge_sort_ordered l : ordered (merge_sort by_position l).
Proof.
  assert (Total by_position) as Ht by (intros a b; unfold by_position; lia).
  assert (Transitive by_position) as Htr by (intros a b c; unfold by_position; lia).
  pose proof (StronglySorted_merge_sort by_position l) as Hs. unfold ordered. revert Hs. generalize (merge_sort by_position l).
  intros k Hs. induction Hs as [|a k Hk IH Ha]; intros i j e f He Hf Hij; [done|].
  destruct i as [|i], j as [|j]; simpl in *; try lia.
  - injection He as ->. injection Hf as ->. lia.
  - injection He as ->. eapply Forall_lookup in Ha; [|exact Hf]. exact Ha.
  - by apply (IH i j); [..|lia].
Qed.

Lemma fromEntries_ok l :
  (2 ≤ length l)%nat → Z.of_nat (length l) < 2 ^ 31 → NoDup (nodeId <$> l) →
  let es := merge_sort by_position l in
  es ≡ₚ l ∧ ordered es ∧ ∃ r, fromEntries l = Ret r ∧ ring_ok r (seq 0 (length es)) es.
Proof.
  intros H2 Hb Hnd es. assert (es ≡ₚ l) as Hp by apply merge_sort_Permutation.
  assert (NoDup (nodeId <$> es)) as Hids by (by rewrite Hp).
  assert (length es = length l) as Hl by (by rewrite Hp).
  split; [done|]. split; [apply merge_sort_ordered|]. unfold fromEntries. fold es.
  destruct es as [|e0 es'] eqn:Ees; [simpl in Hl; lia|]. rewrite <- Ees in *.
  assert (es !! 0%nat = Some e0) as He0 by (by rewrite Ees).
  destruct (link_first es Hids ltac:(lia) e0 empty He0 eq_refl) as (r1 & E1 & Hp1).
  destruct (link_all_ok es Hids ltac:(lia) es' 1 r1) as (r & E & Hf & Hh & Hc & Hi);
    [lia|by rewrite Ees| |done|].
  { intros ->. rewrite Ees in Hl. simpl in Hl. lia. }
  assert (link_all (length es) 0 es Null Null empty
          = (hp ← link (length es) 0 e0 Null Null; link_all (length es) 1 es' hp.1 hp.2) empty) as ->
    by (rewrite Ees at 2; done).
  erewrite stM_bind_Ret by exact E1. cbn [fst snd].
  change (1 - 1)%nat with 0%nat in E. rewrite E. cbn [obind]. eexists. split; [reflexivity|].
  constructor; cbn [heap head indexByNodeId fresh_loc]; try done; [lia|lia|apply NoDup_seq| |].
  - by destruct (length es).
  - intros x Hx. apply Hh. lia.
Qed.

(** ** Adding an entry *)

(** Linking the new node [z] between the last node and the first one. *)
Lemma circular_snoc h h' b mid a z eb em ea e :
  circular h (b :: mid ++ [a]) (eb :: em ++ [ea]) → length mid = length em →
  NoDup (b :: mid ++ [a]) → z ∉ b :: mid ++ [a] →
  (∀ x, x ≠ a → x ≠ b → x ≠ z → h' !! x = h !! x) →
  (∀ n, h !! a = Some n → h' !! a = Some (mk_node (entry n) (Addr z) (back n))) →
  (∀ n, h !! b = Some n → h' !! b = Some (mk_node (entry n) (next n) (Addr z))) →
  h' !! z = Some (mk_node e (Addr b) (Addr a)) →
  circular h' ((b :: mid ++ [a]) ++ [z]) ((eb :: em ++ [ea]) ++ [e]).
Proof.
  intros Hc Hl Hnd Hz Hother Ha Hb Ez. unfold circular in *.
  assert (∀ y l, last_loc 0 ((y :: l) ++ [z]) = z) as El by (intros; unfold last_loc; by rewrite last_snoc).
  rewrite El. unfold last_loc in Hc. change (b :: mid ++ [a]) with ((b :: mid) ++ [a]) in Hc at 1.
  rewrite last_snoc in Hc. cbn [default] in Hc. cbn [app hd linked] in *. destruct Hc as [Eb Hc].
  apply linked_app in Hc as [Hm [Ea _]]; [|done].
  apply NoDup_cons in Hnd as [Hbm Hnd]. apply NoDup_app in Hnd as (Hnm & Hma & _).
  assert (a ∉ mid) as Hma' by (intros Hin; apply (Hma a Hin); by apply list_elem_of_singleton).
  apply not_elem_of_cons in Hz as [Hzb Hz]. apply not_elem_of_app in Hz as [Hzm Hza].
  apply not_elem_of_app in Hbm as [Hbm _].
  split.
  - rewrite (Hb _ Eb). do 2 f_equal. cbn [next]. by destruct mid.
  - rewrite <- !app_assoc. cbn [app]. apply linked_app; [done|]. split; [|split].
    + clear -Hm Hma' Hbm Hzm Hother. revert Hm. generalize b at 1 3. generalize em.
      induction mid as [|m mid IH]; intros es p; destruct es as [|f es]; simpl; try done.
      intros [Em Hm]. apply not_elem_of_cons in Hma' as [? ?]. apply not_elem_of_cons in Hbm as [? ?].
      apply not_elem_of_cons in Hzm as [? ?]. split; [|by apply IH]. by rewrite Hother by congruence.
    + cbn [hd] in Ea. rewrite (Ha _ Ea). done.
    + cbn [linked]. split; [|done]. by rewrite Ez.
Qed.

(** A circular list can start at any of its nodes. *)
Lemma circular_swap h xs ys es fs :
  xs ≠ [] → ys ≠ [] → length xs = length es →
  circular h (xs ++ ys) (es ++ fs) → circular h (ys ++ xs) (fs ++ es).
Proof.
  intros Hx Hy Hl Hc. pose proof (linked_length _ _ _ _ _ Hc) as Hlen. rewrite !length_app in Hlen.
  unfold circular in *. rewrite linked_app in Hc |- * by lia.
  assert (∀ p (l k : list nat), k ≠ [] → last_loc p (l ++ k) = last_loc 0 k) as El.
  { intros p l k Hk. unfold last_loc. destruct k as [|y k _] using rev_ind; [done|].
    by rewrite app_assoc, !last_snoc. }
  assert (∀ p (l k : list nat), l ≠ [] → hd p (l ++ k) = hd 0%nat l) as Eh by (by intros p [|]).
  assert (∀ p (l : list nat), l ≠ [] → last_loc p l = last_loc 0 l) as El0 by (intros p l; apply (El p [] l)).
  assert (∀ p (l : list nat), l ≠ [] → hd p l = hd 0%nat l) as Eh0 by (by intros p [|]).
  rewrite !El, !Eh in * by done. destruct Hc as [H1 H2].
  rewrite (El0 _ xs Hx), (Eh0 _ ys Hy) in *. rewrite (El0 _ ys Hy), (Eh0 _ xs Hx). done.
Qed.

(** The index and the identifiers of a ring with one more entry. *)
Lemma index_insert es fs e xs ys z :
  length xs = length es → length ys = length fs → NoDup (nodeId <$> es ++ e :: fs) →
  (<[nodeId e := z]> (list_to_map (zip (nodeId <$> es ++ fs) (xs ++ ys))) : gmap Z nat)
  = list_to_map (zip (nodeId <$> es ++ e :: fs) (xs ++ z :: ys)).
Proof.
  intros Hl Hl' Hnd. rewrite !fmap_app in *. rewrite fmap_cons in *.
  rewrite !zip_with_app by (by rewrite length_fmap).
  change (<[nodeId e:=z]> (list_to_map ?l)) with (list_to_map ((nodeId e, z) :: l) : gmap Z nat).
  cbn [zip_with]. apply list_to_map_proper; [|by rewrite Permutation_middle].
  rewrite fmap_cons, fmap_app, !fst_zip by (rewrite length_fmap; lia).
  rewrite Permutation_middle. done.
Qed.

Section adding.
Context {r : t} {xs : list nat} {es : list RingEntry} (R : ring_ok r xs es).
Context (e : RingEntry) (Hnew : nodeId e ∉ nodeId <$> es) (Hroom : Z.of_nat (length es) + 1 < 2 ^ 31).

Let z : nat := fresh_loc r.

(** The state once the new node is allocated and indexed. *)
Let s0 : t := mk (<[z:=mk_node e Uninit Uninit]> (heap r)) (S z) (head r) (<[nodeId e:=z]> (indexByNodeId r)).

(** The state once the new node is linked between [a] and [b]. *)
Definition linked_in (s : t) (a b : nat) : Prop :=
  fresh_loc s = S z ∧ head s = head r ∧ indexByNodeId s = <[nodeId e:=z]> (indexByNodeId r) ∧
  (∀ x, x ≠ a → x ≠ b → x ≠ z → heap s !! x = heap r !! x) ∧
  (∀ n, heap r !! a = Some n → heap s !! a = Some (mk_node (entry n) (Addr z) (back n))) ∧
  (∀ n, heap r !! b = Some n → heap s !! b = Some (mk_node (entry n) (next n) (Addr z))) ∧
  heap s !! z = Some (mk_node e (Addr b) (Addr a)).

Lemma z_fresh : z ∉ xs ∧ heap r !! z = None.
Proof using R.
  split; [|apply R; lia]. intros Hz. destruct (linked_dom _ _ _ _ _ _ (ro_circular _ _ _ R) Hz) as [n Hn].
  by rewrite (ro_fresh _ _ _ R) in Hn by lia.
Qed.

(** [z] linked after the node at position [k]. *)
Lemma linked_in_ring s k a b :
  xs !! k = Some a → xs !! ((k + 1) mod length es)%nat = Some b → linked_in s a b →
  ring_ok s (take (k + 1) xs ++ z :: drop (k + 1) xs) (take (k + 1) es ++ e :: drop (k + 1) es).
Proof using R Hnew Hroom.
  intros Ha Hb (Hf & Hh & Hi & Hother & Ea & Eb & Ez). destruct z_fresh as [Hz _].
  pose proof (ring_length R) as Hl. pose proof (ro_two _ _ _ R) as H2.
  pose proof (lookup_lt_Some _ _ _ Ha) as Hk. rewrite mod_wrap in Hb by lia.
  set (ys := take (k + 1) xs) in *. set (zs := drop (k + 1) xs) in *.
  set (fs := take (k + 1) es). set (gs := drop (k + 1) es).
  assert (xs = ys ++ zs) as Exs by (symmetry; apply take_drop). assert (es = fs ++ gs) as Ees by (symmetry; apply take_drop).
  assert (length ys = length fs) as Hl1 by (unfold ys, fs; rewrite !length_take; lia).
  assert (length zs = length gs) as Hl2 by (unfold zs, gs; rewrite !length_drop; lia).
  assert (NoDup (nodeId <$> fs ++ e :: gs)) as Hids.
  { rewrite fmap_app, fmap_cons, <- Permutation_middle, <- fmap_app, <- Ees.
    apply NoDup_cons. split; [done|apply R]. }
  assert (circular (heap r) (zs ++ ys) (gs ++ fs)) as Hc.
  { pose proof (ro_circular _ _ _ R) as Hc. rewrite Exs, Ees in Hc. destruct zs as [|y zs'] eqn:Ez'.
    - destruct gs; [|simpl in Hl2; lia]. by rewrite !app_nil_r in Hc.
    - rewrite <- Ez' in *. apply circular_swap; try done; [|by rewrite Ez'].
      intros E. apply (f_equal length) in E. unfold ys in E. rewrite length_take in E. simpl in E. lia. }
  assert (NoDup (zs ++ ys)) as Hnd by (rewrite Permutation_app_comm, <- Exs; apply R).
  assert (z ∉ zs ++ ys) as Hz' by (rewrite Permutation_app_comm, <- Exs; done).
  assert (∃ mid em eb ea, zs ++ ys = b :: mid ++ [a] ∧ gs ++ fs = eb :: em ++ [ea] ∧ length mid = length em) as
    (mid & em & eb & ea & E1 & E2 & Hlm).
  { assert (ys = take k xs ++ [a]) as Eys by (unfold ys; rewrite Nat.add_1_r; by apply take_S_r).
    destruct (lookup_lt_is_Some_2 es k) as [ea Hea]; [lia|].
    assert (fs = take k es ++ [ea]) as Efs by (unfold fs; rewrite Nat.add_1_r; by apply take_S_r).
    destruct (decide (k + 1 < length es)%nat) as [Hlt|Hge].
    - destruct (lookup_lt_is_Some_2 es (k + 1)) as [eb Heb]; [lia|].
      exists (drop (S (k + 1)) xs ++ take k xs), (drop (S (k + 1)) es ++ take k es), eb, ea.
      unfold zs, gs. rewrite (drop_S _ _ _ Hb), (drop_S _ _ _ Heb), Eys, Efs.
      cbn [app]. rewrite !app_assoc. split; [done|]. split; [done|].
      rewrite !length_app, !length_drop, !length_take. lia.
    - unfold zs, gs. rewrite !drop_ge by lia. cbn [app]. rewrite Eys, Efs.
      replace (k + 1 - length es)%nat with 0%nat in Hb by lia.
      destruct (lookup_lt_is_Some_2 es 0) as [eb Heb]; [lia|].
      exists (drop 1 (take k xs)), (drop 1 (take k es)), eb, ea.
      rewrite <- (take_drop 1 (take k xs)) at 1. rewrite <- (take_drop 1 (take k es)) at 1.
      rewrite !take_take, !Nat.min_l by lia.
      rewrite (take_S_r _ 0 b), (take_S_r _ 0 eb) by done. rewrite !take_0. cbn [app].
      split; [done|]. split; [done|]. rewrite !length_drop, !length_take. lia. }
  constructor.
  - rewrite length_app. cbn [length]. rewrite Ees, length_app in H2. lia.
  - rewrite length_app. cbn [length]. rewrite Ees, length_app in Hroom. lia.
  - rewrite <- Permutation_middle, <- Exs. apply NoDup_cons. split; [done|apply R].
  - done.
  - destruct zs as [|y zs'] eqn:Ezs.
    + destruct gs; [|simpl in Hl2; lia]. cbn [app] in E1, E2. rewrite E1, E2.
      eapply circular_snoc; [cbn [app] in Hc; rewrite <- E1, <- E2; exact Hc|done|by rewrite <- E1|by rewrite <- E1|done..].
    + rewrite <- Ezs in *. change (z :: zs) with ([z] ++ zs). change (e :: gs) with ([e] ++ gs).
      rewrite !app_assoc. apply circular_swap; [by rewrite Ezs|by destruct ys|lia|].
      rewrite !app_assoc, E1, E2. rewrite E1 in Hnd, Hz'. rewrite E1, E2 in Hc. by eapply circular_snoc.
  - rewrite Hh, (ro_head _ _ _ R). f_equal. rewrite Exs. unfold ys.
    destruct xs as [|x xs']; [simpl in *; lia|]. rewrite Nat.add_1_r. done.
  - rewrite Hi, (ro_index _ _ _ R), Exs, Ees. by apply index_insert.
  - intros x Hx. rewrite Hf in Hx. rewrite Hother; [apply R; lia|..]; intros ->; [| |lia].
    + destruct (linked_dom _ _ _ _ _ a (ro_circular _ _ _ R)) as [n Hn]; [by eapply list_elem_of_lookup_2|].
      by rewrite (ro_fresh _ _ _ R) in Hn by lia.
    + destruct (linked_dom _ _ _ _ _ b (ro_circular _ _ _ R)) as [n Hn].
      { by eapply list_elem_of_lookup_2, Hb. }
      by rewrite (ro_fresh _ _ _ R) in Hn by lia.
Qed.

(** Reads of the old nodes in the new state. *)
Lemma reads_s0 i x f :
  xs !! i = Some x → es !! i = Some f →
  get_entry (Addr x) s0 = Ret (s0, f) ∧
  (∃ y, xs !! ((i + 1) mod length es)%nat = Some y ∧ get_next (Addr x) s0 = Ret (s0, Addr y)) ∧
  (∃ y, xs !! ((i + length es - 1) mod length es)%nat = Some y ∧ get_back (Addr x) s0 = Ret (s0, Addr y)).
Proof using R.
  intros Hx Hf. destruct (ring_node R i x f Hx Hf) as (y & w & Hy & Hw & Hh).
  assert (heap s0 !! x = Some (mk_node f (Addr y) (Addr w))) as Hh0.
  { cbn [heap s0]. rewrite lookup_insert_ne; [done|]. intros E. destruct z_fresh as [Hz _].
    apply Hz, (list_elem_of_lookup_2 _ i). by rewrite E. }
  unfold get_entry, get_next, get_back, deref. rewrite Hh0. cbn [obind read next back].
  split; [done|]. split; [exists y|exists w]; done.
Qed.

Lemma fresh_neq i x : xs !! i = Some x → x ≠ z.
Proof using R.
  intros Hx E. destruct z_fresh as [Hz _]. apply Hz, (list_elem_of_lookup_2 _ i). by rewrite <- E.
Qed.

(** The two orders in which the code writes the four pointers. *)
Lemma link_between a b i j :
  xs !! i = Some a → xs !! j = Some b → a ≠ b →
  (∃ s, (_ ← set_next (Addr a) (Addr z); _ ← set_back (Addr z) (Addr a);
         _ ← set_back (Addr b) (Addr z); _ ← set_next (Addr z) (Addr b); mret true) s0 = Ret (s, true) ∧
        linked_in s a b) ∧
  (∃ s, (_ ← set_back (Addr b) (Addr z); _ ← set_next (Addr a) (Addr z);
         _ ← set_next (Addr z) (Addr b); set_back (Addr z) (Addr a)) s0 = Ret (s, ()) ∧
        linked_in s a b).
Proof using R.
  intros Ha Hb Hab. pose proof (fresh_neq i a Ha) as Hza. pose proof (fresh_neq j b Hb) as Hzb.
  destruct (linked_dom _ _ _ _ _ a (ro_circular _ _ _ R)) as [na Ea]; [by eapply list_elem_of_lookup_2|].
  destruct (linked_dom _ _ _ _ _ b (ro_circular _ _ _ R)) as [nb Eb]; [by eapply list_elem_of_lookup_2|].
  split.
  - eexists. split.
    + erewrite stM_bind_Ret by (apply (set_next_ok _ _ na); cbn [heap s0]; by rewrite lookup_insert_ne). cbn beta.
      erewrite stM_bind_Ret by (apply (set_back_ok _ _ (mk_node e Uninit Uninit)); cbn [heap s0 set_heap];
        by rewrite lookup_insert_ne, lookup_insert_eq). cbn beta.
      erewrite stM_bind_Ret by (apply (set_back_ok _ _ nb); cbn [heap s0 set_heap];
        by rewrite !lookup_insert_ne by done). cbn beta.
      erewrite stM_bind_Ret by (apply (set_next_ok _ _ (mk_node e Uninit (Addr a))); cbn [heap s0 set_heap];
        by rewrite lookup_insert_ne, lookup_insert_eq). cbn beta. reflexivity.
    + unfold linked_in. cbn [heap s0 set_heap fresh_loc head indexByNodeId entry next back].
      do 3 (split; [done|]). split; [|split; [|split]].
      * intros x H1 H2 H3. by rewrite !lookup_insert_ne by done.
      * intros n Hn. assert (n = na) as -> by congruence.
        rewrite !insert_lookup. repeat (case_decide; try congruence).
      * intros n Hn. assert (n = nb) as -> by congruence.
        rewrite !insert_lookup. repeat (case_decide; try congruence).
      * by rewrite lookup_insert_eq.
  - eexists. split.
    + erewrite stM_bind_Ret by (apply (set_back_ok _ _ nb); cbn [heap s0]; by rewrite lookup_insert_ne). cbn beta.
      erewrite stM_bind_Ret by (apply (set_next_ok _ _ na); cbn [heap s0 set_heap];
        by rewrite !lookup_insert_ne by done). cbn beta.
      erewrite stM_bind_Ret by (apply (set_next_ok _ _ (mk_node e Uninit Uninit)); cbn [heap s0 set_heap];
        by rewrite !lookup_insert_ne, lookup_insert_eq by done). cbn beta.
      apply (set_back_ok _ _ (mk_node e (Addr b) Uninit)). cbn [heap s0 set_heap]. by rewrite lookup_insert_eq.
    + unfold linked_in. cbn [heap s0 set_heap fresh_loc head indexByNodeId entry next back].
      do 3 (split; [done|]). split; [|split; [|split]].
      * intros x H1 H2 H3. by rewrite !lookup_insert_ne by done.
      * intros n Hn. assert (n = na) as -> by congruence.
        rewrite !insert_lookup. repeat (case_decide; try congruence).
      * intros n Hn. assert (n = nb) as -> by congruence.
        rewrite !insert_lookup. repeat (case_decide; try congruence).
      * by rewrite lookup_insert_eq.
Qed.

(** The new position is strictly between those of position [i] and the next one. *)
Definition between (i : nat) : Prop :=
  ∃ f g, es !! i = Some f ∧ es !! ((i + 1) mod length es)%nat = Some g ∧
    ringPosition f < ringPosition e < ringPosition g.

Lemma succ_neq i a b :
  xs !! i = Some a → xs !! ((i + 1) mod length es)%nat = Some b → a ≠ b.
Proof using R.
  intros Ha Hb ->. pose proof (NoDup_lookup _ _ _ _ (ro_nodup _ _ _ R) Ha Hb) as E.
  pose proof (ring_length R). pose proof (ro_two _ _ _ R). pose proof (lookup_lt_Some _ _ _ Ha).
  rewrite mod_wrap in E by lia. destruct (decide (i + 1 < length es)%nat); lia.
Qed.

(** The scan of [add] from position [i]. *)
Lemma add_loop_ok k : ∀ i a b,
  xs !! i = Some a → xs !! ((i + 1) mod length es)%nat = Some b →
  ((∀ j, (j < length es)%nat → ¬ between j) →
   add_loop k (Addr z) (ringPosition e) (Addr a) (Addr b) s0 = Ret (s0, false)) ∧
  (∀ m, (i ≤ m < length es)%nat → (m - i < k)%nat → between m → (∀ j, (i ≤ j < m)%nat → ¬ between j) →
   ∃ s a' b', add_loop k (Addr z) (ringPosition e) (Addr a) (Addr b) s0 = Ret (s, true) ∧
     xs !! m = Some a' ∧ xs !! ((m + 1) mod length es)%nat = Some b' ∧ linked_in s a' b').
Proof using R.
  pose proof (ring_length R) as Hl. pose proof (ro_two _ _ _ R) as H2.
  induction k as [|k IH]; intros i a b Ha Hb; [split; [done|lia]|].
  pose proof (lookup_lt_Some _ _ _ Ha) as Hi. rewrite Hl in Hi.
  destruct (lookup_lt_is_Some_2 es i) as [f Hf]; [lia|].
  destruct (lookup_lt_is_Some_2 es ((i + 1) mod length es)) as [g Hg]; [apply Nat.mod_upper_bound; lia|].
  destruct (reads_s0 i a f Ha Hf) as [Ef _].
  destruct (reads_s0 _ b g Hb Hg) as (Eg & (c & Hc & En) & _).
  assert ((if ringPosition f <? ringPosition e then get_entry (Addr b) else mret f) s0
          = Ret (s0, if ringPosition f <? ringPosition e then g else f)) as Efg
    by (destruct (_ <? _); done).
  assert ((ringPosition f <? ringPosition e) &&
          (ringPosition e <? ringPosition (if ringPosition f <? ringPosition e then g else f)) = true ↔ between i) as Hbt.
  { unfold between. rewrite andb_true_iff. split.
    - intros [H1 H3]. rewrite H1 in H3. exists f, g. split; [done|]. split; [done|]. lia.
    - intros (f' & g' & Hf' & Hg' & ? & ?). assert (f' = f) as -> by congruence. assert (g' = g) as -> by congruence.
      assert (ringPosition f <? ringPosition e = true) as -> by lia. split; [done|lia]. }
  cbn [add_loop]. erewrite stM_bind_Ret by exact Ef. cbn beta. erewrite stM_bind_Ret by exact Efg. cbn beta.
  destruct (_ && _).
  - assert (between i) as Hbi by (by apply Hbt). split; [intros Hno; by destruct (Hno i)|].
    intros m Hm _ Hbm Hno. assert (m = i) as ->.
    { destruct (decide (m = i)); [done|]. exfalso. apply (Hno i); [lia|done]. }
    destruct (link_between a b i _ Ha Hb (succ_neq i a b Ha Hb)) as [(s & Es & Hs) _]. by exists s, a, b.
  - assert (¬ between i) as Hbi by (intros [=]%Hbt).
    split.
    + intros Hno. erewrite stM_bind_Ret by exact En. cbn beta.
      by apply (IH _ b c Hb Hc).
    + intros m Hm Hk Hbm Hno. assert (m ≠ i) by (intros ->; done).
      erewrite stM_bind_Ret by exact En. cbn beta.
      assert (((i + 1) mod length es)%nat = (i + 1)%nat) as E by (apply Nat.mod_small; lia).
      rewrite E in *. apply (IH _ b c Hb Hc); [lia|lia|done|]. intros j Hj. apply Hno. lia.
Qed.

Lemma index_new : indexByNodeId r !! nodeId e = None.
Proof using R Hnew.
  rewrite (ro_index _ _ _ R). apply not_elem_of_list_to_map_1.
  rewrite fst_zip by (rewrite length_fmap, (ring_length R); lia). done.
Qed.

(** What [add] does to a ring of two or more entries. *)
Lemma add_ok :
  (∀ m, (m < length es)%nat → between m → (∀ j, (j < m)%nat → ¬ between j) →
   ∃ s, add e r = Ret (s, ()) ∧
     ring_ok s (take (m + 1) xs ++ z :: drop (m + 1) xs) (take (m + 1) es ++ e :: drop (m + 1) es)) ∧
  ((∀ j, (j < length es)%nat → ¬ between j) →
   ∃ s, add e r = Ret (s, ()) ∧ ring_ok s (xs ++ [z]) (es ++ [e])).
Proof using R Hnew Hroom.
  pose proof (ring_length R) as Hl. pose proof (ro_two _ _ _ R) as H2. pose proof (hd_lookup R) as Hh.
  destruct (ring_size R) as [Hs _]. destruct (lookup_lt_is_Some_2 es 0) as [f Hf]; [lia|].
  destruct (reads_s0 0 _ f Hh Hf) as (_ & (b & Hb & En) & (c & Hc & Eb)).
  assert (add e r = (placed ← add_loop (S (length es)) (Addr z) (ringPosition e) (Addr (hd 0%nat xs)) (Addr b);
    if (placed : bool) then mret ()
    else oldBackToHead ← get_back (Addr (hd 0%nat xs));
         _ ← set_back (Addr (hd 0%nat xs)) (Addr z);
         _ ← set_next oldBackToHead (Addr z);
         _ ← set_next (Addr z) (Addr (hd 0%nat xs));
         set_back (Addr z) oldBackToHead) s0) as Eadd.
  { unfold add. erewrite stM_bind_Ret by reflexivity. cbn beta. rewrite index_new. cbv zeta.
    erewrite stM_bind_Ret by reflexivity. cbn beta. erewrite stM_bind_Ret by reflexivity. cbn beta.
    rewrite Hs. destruct (Z.eqb_spec (Z.of_nat (length es)) 0); [lia|].
    destruct (Z.eqb_spec (Z.of_nat (length es)) 1); [lia|].
    assert (get_head s0 = Ret (s0, Addr (hd 0%nat xs))) as Eh
      by (unfold get_head; do 2 f_equal; apply (ro_head _ _ _ R)).
    erewrite stM_bind_Ret by exact Eh. cbn beta.
    erewrite stM_bind_Ret by exact En. cbn beta. by rewrite Nat2Z.id. }
  destruct (add_loop_ok (S (length es)) 0 _ b Hh Hb) as [Lno Lyes]. rewrite Eadd. split.
  - intros m Hm Hbm Hno. destruct (Lyes m) as (s & a' & b' & Es & Ha' & Hb' & Hlink);
      [lia|lia|done|intros j Hj; apply Hno; lia|].
    exists s. split; [by erewrite stM_bind_Ret by exact Es|]. by eapply linked_in_ring.
  - intros Hno. erewrite stM_bind_Ret by exact (Lno Hno). cbn iota.
    erewrite stM_bind_Ret by exact Eb. cbn beta. rewrite mod_wrap in Hc by lia. rewrite decide_True in Hc by lia.
    replace (0 + length es - 1)%nat with (length es - 1)%nat in Hc by lia.
    assert (xs !! ((length es - 1 + 1) mod length es)%nat = Some (hd 0%nat xs)) as Hh'.
    { rewrite mod_wrap by lia. rewrite decide_False by lia.
      by replace (length es - 1 + 1 - length es)%nat with 0%nat by lia. }
    destruct (link_between c (hd 0%nat xs) (length es - 1) 0 Hc Hh) as [_ (s & Es & Hlink)].
    { by eapply succ_neq. }
    exists s. split; [exact Es|].
    pose proof (linked_in_ring s (length es - 1) c (hd 0%nat xs) Hc Hh' Hlink) as Hring.
    replace (length es - 1 + 1)%nat with (length es) in Hring by lia.
    rewrite <- Hl in Hring at 1 2. rewrite !firstn_all, !drop_all in Hring. exact Hring.
Qed.

End adding.

(** ** The order after an insertion *)

Lemma ordered_tail x es : ordered (x :: es) → ordered es.
Proof. intros H i j e f He Hf Hij. apply (H (S i) (S j)); [done..|lia]. Qed.

(** The entries below and above a position that no entry has. *)
Lemma ordered_split es p :
  ordered es → (∀ e, e ∈ es → ringPosition e ≠ p) →
  ∃ k, (k ≤ length es)%nat ∧ (∀ i e, es !! i = Some e → (i < k)%nat → ringPosition e < p) ∧
    (∀ i e, es !! i = Some e → (k ≤ i)%nat → p < ringPosition e).
Proof.
  induction es as [|x es IH]; intros Ho Hne; [exists 0%nat; done|].
  destruct IH as (k & Hk & Hlo & Hhi).
  { by eapply ordered_tail. } { intros e He. apply Hne. by apply elem_of_cons; right. }
  assert (ringPosition x ≠ p) as Hx by (apply Hne; by apply elem_of_cons; left).
  destruct (decide (ringPosition x < p)).
  - exists (S k). split; [simpl; lia|]. split; intros [|i] e He Hi; simpl in He; try lia.
    + injection He as <-. done.
    + apply (Hlo i e He). lia.
    + apply (Hhi i e He). lia.
  - exists 0%nat. split; [lia|]. split; [lia|]. intros i e He _.
    assert (ringPosition x ≤ ringPosition e) by (apply (Ho 0%nat i); [done|done|lia]). lia.
Qed.

Lemma insert_ordered es e k :
  ordered es → (k ≤ length es)%nat →
  (∀ i f, es !! i = Some f → (i < k)%nat → ringPosition f < ringPosition e) →
  (∀ i f, es !! i = Some f → (k ≤ i)%nat → ringPosition e < ringPosition f) →
  ordered (take k es ++ e :: drop k es).
Proof.
  intros Ho Hk Hlo Hhi.
  assert (∀ i f, (take k es ++ e :: drop k es) !! i = Some f →
    ((i < k)%nat ∧ es !! i = Some f) ∨ (i = k ∧ f = e) ∨ ((k < i)%nat ∧ es !! (i - 1)%nat = Some f)) as L.
  { intros i f Hf. assert (length (take k es) = k) as Ht by (rewrite length_take; lia).
    destruct (decide (i < k)%nat).
    - left. split; [done|]. rewrite lookup_app_l, lookup_take_lt in Hf by lia. done.
    - right. rewrite lookup_app_r, Ht in Hf by lia. destruct (i - k)%nat as [|d] eqn:Ed; simpl in Hf.
      + left. split; [lia|congruence].
      + right. split; [lia|]. rewrite lookup_drop in Hf. rewrite <- Hf. f_equal. lia. }
  intros i j f g Hf Hg Hij. apply L in Hf as [[? Hf]|[[? ->]|[? Hf]]]; apply L in Hg as [[? Hg]|[[? ->]|[? Hg]]]; try lia.
  - by apply (Ho i j).
  - pose proof (Hlo i f Hf). lia.
  - apply (Ho i (j - 1)%nat); [done|done|lia].
  - pose proof (Hhi (j - 1)%nat g Hg). lia.
  - apply (Ho (i - 1)%nat (j - 1)%nat); [done|done|lia].
Qed.

(** Where the new entry goes, when [k] entries lie below it. *)
Lemma add_placed {r xs es} (R : ring_ok r xs es) e k :
  nodeId e ∉ nodeId <$> es → Z.of_nat (length es) + 1 < 2 ^ 31 → (k ≤ length es)%nat →
  (∀ i f, es !! i = Some f → (i < k)%nat → ringPosition f < ringPosition e) →
  (∀ i f, es !! i = Some f → (k ≤ i)%nat → ringPosition e < ringPosition f) →
  ∃ s xs', add e r = Ret (s, ()) ∧
    ring_ok s xs' (if decide (0 < k)%nat then take k es ++ e :: drop k es else es ++ [e]).
Proof.
  intros Hnew Hroom Hk Hlo Hhi. pose proof (ro_two _ _ _ R) as H2.
  destruct (add_ok R e Hnew Hroom) as [Ayes Ano].
  assert (∀ j, (j < length es)%nat → between (es := es) e j → (0 < k < length es)%nat ∧ j = (k - 1)%nat) as Hbt.
  { intros j Hj (f & g & Hf & Hg & Hlt & Hgt). rewrite mod_wrap in Hg by lia.
    assert (j < k)%nat. { destruct (decide (j < k)%nat); [done|]. pose proof (Hhi j f Hf). lia. }
    destruct (decide (j + 1 < length es)%nat).
    - destruct (decide (k ≤ j + 1)%nat); [lia|]. pose proof (Hlo _ g Hg). lia.
    - pose proof (Hlo _ g Hg). lia. }
  destruct (decide (0 < k < length es)%nat) as [Hk0|Hk0].
  - rewrite decide_True by lia. destruct (Ayes (k - 1)%nat) as (s & Es & Rs).
    + lia.
    + destruct (lookup_lt_is_Some_2 es (k - 1)) as [f Hf]; [lia|].
      destruct (lookup_lt_is_Some_2 es k) as [g Hg]; [lia|]. exists f, g.
      split; [done|]. split; [rewrite Nat.mod_small by lia; by replace (k - 1 + 1)%nat with k by lia|].
      pose proof (Hlo _ f Hf). pose proof (Hhi _ g Hg). lia.
    + intros j Hj Hbj. destruct (Hbt j ltac:(lia) Hbj) as [_ ->]. lia.
    + replace (k - 1 + 1)%nat with k in Rs by lia. eauto.
  - destruct Ano as (s & Es & Rs); [intros j Hj Hbj; by destruct (Hbt j Hj Hbj)|].
    eexists s, _. split; [done|]. destruct (decide (0 < k)%nat); [|exact Rs].
    assert (k = length es) as -> by lia. rewrite firstn_all, drop_all. exact Rs.
Qed.

(** When every position is at most [q] the scan ends at the last entry. *)
Lemma belongs_all_below {r xs es} (R : ring_ok r xs es) q k : ∀ i x f,
  (∀ e, e ∈ es → ringPosition e ≤ q) → (length es - i ≤ k)%nat →
  xs !! i = Some x → last es = Some f →
  belongs_loop k q (Addr x) r = Ret (r, Some f).
Proof.
  pose proof (ring_length R) as Hl. pose proof (ro_two _ _ _ R) as H2.
  induction k as [|k IH]; intros i x f Hall Hk Hx Hf.
  { apply lookup_lt_Some in Hx. lia. }
  pose proof (lookup_lt_Some _ _ _ Hx) as Hi. rewrite Hl in Hi.
  destruct (lookup_lt_is_Some_2 es i) as [e He]; [lia|]. cbn [belongs_loop].
  destruct (get_next_at R i x Hx) as (y & Hy & En). erewrite stM_bind_Ret by exact En. cbn beta.
  erewrite stM_bind_Ret by (exact (get_entry_at R i x e Hx He)). cbn beta. rewrite decide_False by done.
  destruct (lookup_lt_is_Some_2 es ((i + 1) mod length es)) as [g Hg]; [apply Nat.mod_upper_bound; lia|].
  assert (ringPosition e ≤ q) as Hle by (apply Hall; by eapply list_elem_of_lookup_2).
  assert (ringPosition g ≤ q) as Hlg by (apply Hall; by eapply list_elem_of_lookup_2).
  destruct (Z.leb_spec (ringPosition e) q); [|lia].
  erewrite stM_bind_Ret by (exact (get_entry_at R _ y g Hy Hg)). cbn beta.
  destruct (Z.ltb_spec q (ringPosition g)); [lia|]. cbn [andb].
  erewrite stM_bind_Ret by reflexivity. cbn beta. rewrite (ro_head _ _ _ R).
  pose proof (next_is_head R i y Hi Hy) as Hn.
  destruct (decide (Addr y = Addr (hd 0%nat xs))) as [[= E]|Hne].
  - apply Hn in E. rewrite last_lookup in Hf. replace (Nat.pred (length es)) with i in Hf by lia.
    by assert (e = f) as -> by congruence.
  - rewrite mod_wrap in Hy by lia. destruct (decide (i + 1 < length es)%nat).
    + apply (IH (i + 1)%nat); [done|lia|done|done].
    + exfalso. apply Hne. f_equal. apply Hn. lia.
Qed.

Lemma owns_perm es l p e : es ≡ₚ l → owns es p e → owns l p e.
Proof. intros Hp. unfold owns. setoid_rewrite Hp. done. Qed.

(** ** Properties *)

(** C13: the ring that [RingEntries::fromEntries] builds from two or more entries with
    distinct nodes is a consistent-hashing ring: for every position,
    [getRingEntryBelongsToPosition] returns the entry with the greatest position not above
    it, or the one with the greatest position of all when it lies below every entry. *)
Theorem ring_owner (l : list RingEntry) :
  (2 ≤ length l)%nat → Z.of_nat (length l) < 2 ^ 31 → NoDup (nodeId <$> l) →
  ∃ r, RingEntries.fromEntries l = Ret r ∧
    ∀ p, ∃ e, RingEntries.getRingEntryBelongsToPosition p r = Ret (r, e) ∧ owns l p e.
Proof.
  intros H2 Hb Hnd. destruct (fromEntries_ok l H2 Hb Hnd) as (Hp & Ho & r & E & R).
  exists r. split; [done|]. intros p. destruct (getRingEntryBelongsToPosition_ok R p Ho) as (e & Ee & He).
  exists e. split; [done|]. by eapply owns_perm.
Qed.

Definition sample_entries : list RingEntry := [mk_entry 1 40; mk_entry 2 10; mk_entry 3 25].

Lemma ring_owner_witness :
  ∃ r, RingEntries.fromEntries sample_entries = Ret r ∧
    ∀ p, ∃ e, RingEntries.getRingEntryBelongsToPosition p r = Ret (r, e) ∧ owns sample_entries p e.
Proof.
  apply (ring_owner sample_entries); [simpl; lia|simpl; lia|].
  apply (bool_decide_unpack _). vm_compute. done.
Defined.

(** On a ring built by [fromEntries], [getDistanceClockwise] and
    [getDistanceCounterClockwise] are the numbers of steps between two nodes in the two
    directions around the ring, [getDistance] is the shorter of them with its sign
    (clockwise on a tie), and [getNeighborsClockwise] lists the next nodes, at most once
    each. *)
Theorem ring_distances (l : list RingEntry) :
  (2 ≤ length l)%nat → Z.of_nat (length l) < 2 ^ 31 → NoDup (nodeId <$> l) →
  ∃ r es, RingEntries.fromEntries l = Ret r ∧ es ≡ₚ l ∧ ordered es ∧
    ∀ i j a b, es !! i = Some a → es !! j = Some b →
      let n := length es in
      RingEntries.getDistanceClockwise (nodeId a) (nodeId b) r = Ret (r, Z.of_nat (steps n i j)) ∧
      RingEntries.getDistanceCounterClockwise (nodeId a) (nodeId b) r = Ret (r, Z.of_nat (steps n j i)) ∧
      RingEntries.getDistance (nodeId a) (nodeId b) r
        = Ret (r, if decide (steps n i j ≤ steps n j i)%nat then Z.of_nat (steps n i j) else - Z.of_nat (steps n j i)) ∧
      ∀ k, RingEntries.getNeighborsClockwise (nodeId a) (Z.of_nat k) r
        = Ret (r, (λ s, es !!! ((i + (1 + s)) mod n)%nat) <$> seq 0 (Nat.min k (n - 1))).
Proof.
  intros H2 Hb Hnd. destruct (fromEntries_ok l H2 Hb Hnd) as (Hp & Ho & r & E & R).
  exists r, (merge_sort by_position l). do 3 (split; [done|]). intros i j a b Ha Hb' n.
  destruct (getDistanceClockwise_ok R i j a b Ha Hb') as [E1 E2]. split; [done|]. split; [done|].
  split; [by apply (getDistance_ok R)|]. intros k. by apply (getNeighborsClockwise_ok R).
Qed.

Lemma ring_distances_witness :
  ∃ r es, RingEntries.fromEntries sample_entries = Ret r ∧ es ≡ₚ sample_entries ∧ ordered es.
Proof.
  destruct (ring_distances sample_entries) as (r & es & E & Hp & Ho & _); [simpl; lia|simpl; lia| |by exists r, es].
  apply (bool_decide_unpack _). vm_compute. done.
Defined.

(** [RingEntries::add] of a new node keeps the ring a consistent-hashing ring when some
    entry lies below the new one; when the new position is the smallest, the head is not
    moved and the new node takes over every position from the greatest entry on, which it
    does not own. *)
Theorem ring_add (l : list RingEntry) (e : RingEntry) (r : RingEntries.t) :
  (2 ≤ length l)%nat → Z.of_nat (length l) + 1 < 2 ^ 31 → NoDup (nodeId <$> e :: l) →
  (∀ f, f ∈ l → ringPosition f ≠ ringPosition e) →
  RingEntries.fromEntries l = Ret r →
  ∃ s, RingEntries.add e r = Ret (s, ()) ∧
    ((∃ f, f ∈ l ∧ ringPosition f < ringPosition e) →
     ∀ p, ∃ o, RingEntries.getRingEntryBelongsToPosition p s = Ret (s, o) ∧ owns (e :: l) p o) ∧
    ((∀ f, f ∈ l → ringPosition e < ringPosition f) →
     ∀ q, (∀ f, f ∈ l → ringPosition f ≤ q) →
       RingEntries.getRingEntryBelongsToPosition q s = Ret (s, e) ∧ ¬ owns (e :: l) q e).
Proof.
  intros H2 Hb Hnd Hne E. rewrite fmap_cons in Hnd. apply NoDup_cons in Hnd as [Hnew Hnd].
  destruct (fromEntries_ok l H2 ltac:(lia) Hnd) as (Hp & Ho & r' & E' & R).
  assert (r' = r) as -> by congruence. set (es := merge_sort by_position l) in *.
  assert (length es = length l) as Hl by (by rewrite Hp).
  destruct (ordered_split es (ringPosition e) Ho) as (k & Hk & Hlo & Hhi).
  { intros f Hf. apply Hne. by rewrite <- Hp. }
  assert (nodeId e ∉ nodeId <$> es) as Hnew' by (by rewrite Hp).
  destruct (add_placed R e k Hnew' ltac:(lia) Hk Hlo Hhi) as (s & xs' & Es & Rs).
  exists s. split; [done|]. split.
  - intros (f & Hf & Hlt) p. rewrite decide_True in Rs.
    2: { destruct (decide (0 < k)%nat); [done|]. rewrite <- Hp in Hf. apply list_elem_of_lookup in Hf as [i Hi].
         pose proof (Hhi i f Hi). lia. }
    destruct (getRingEntryBelongsToPosition_ok Rs p) as (o & Eo & Hown); [by apply insert_ordered|].
    exists o. split; [done|]. eapply owns_perm, Hown. by rewrite <- Permutation_middle, take_drop, Hp.
  - intros Hall q Hq. assert (k = 0%nat) as ->.
    { destruct (decide (k = 0)%nat); [done|]. destruct (lookup_lt_is_Some_2 es 0) as [f Hf]; [lia|].
      assert (f ∈ l) as Hfl by (rewrite <- Hp; by eapply list_elem_of_lookup_2).
      pose proof (Hlo 0%nat f Hf). pose proof (Hall f Hfl). lia. }
    rewrite decide_False in Rs by lia.
    assert (∃ f, f ∈ l) as [f Hf] by (destruct l as [|f ?]; [simpl in H2; lia|]; exists f; by left).
    split.
    + unfold getRingEntryBelongsToPosition. erewrite stM_bind_Ret by reflexivity. cbn beta.
      destruct (ring_size Rs) as [-> _]. rewrite (ro_head _ _ _ Rs).
      rewrite (stM_bind_Ret _ _ s s (Some e)); [reflexivity|].
      apply (belongs_all_below Rs q _ 0 _ e); [|lia|apply (hd_lookup Rs)|by rewrite last_snoc].
      intros g [Hg| ->%list_elem_of_singleton]%elem_of_app; [apply Hq; by rewrite <- Hp|].
      pose proof (Hall f Hf). pose proof (Hq f Hf). lia.
    + pose proof (Hall f Hf). pose proof (Hq f Hf).
      intros [_ [[_ Hmax]|[Hmin _]]].
      * pose proof (Hmax f ltac:(by apply elem_of_cons; right) ltac:(done)). lia.
      * pose proof (Hmin f ltac:(by apply elem_of_cons; right)). lia.
Qed.

Lemma ring_add_witness :
  match RingEntries.fromEntries sample_entries with
  | Ret r => ∃ s, RingEntries.add (mk_entry 4 5) r = Ret (s, ()) ∧
      RingEntries.getRingEntryBelongsToPosition 50 s = Ret (s, mk_entry 4 5) ∧
      ¬ owns (mk_entry 4 5 :: sample_entries) 50 (mk_entry 4 5)
  | _ => False
  end.
Proof.
  destruct (RingEntries.fromEntries sample_entries) as [r| | | |] eqn:E; try discriminate E.
  destruct (ring_add sample_entries (mk_entry 4 5) r) as (s & Es & _ & H);
    [simpl; lia|simpl; lia|apply (bool_decide_unpack _); vm_compute; done| |done|].
  { intros f Hf. repeat (apply elem_of_cons in Hf as [->|Hf]; [simpl; lia|]). by apply not_elem_of_nil in Hf. }
  exists s. split; [done|]. apply H.
  - intros f Hf. repeat (apply elem_of_cons in Hf as [->|Hf]; [simpl; lia|]). by apply not_elem_of_nil in Hf.
  - intros f Hf. repeat (apply elem_of_cons in Hf as [->|Hf]; [simpl; lia|]). by apply not_elem_of_nil in Hf.
Defined.
