(* ===== verification/Partitions.v ===== *)
(** * Partitions

    Models [cluster/partitions/Partitions.cpp]: which keys a node holds, its neighbours on
    the ring and the numbering of operation logs between nodes.  OpenSSL's MD5 is a
    parameter.  Partition [k] of a node is the one whose first node lies [k] steps
    counter-clockwise (the loops of [PartitionNeighborsNodesSetter]). *)

From stdpp Require Import sorting.
From S2P Require Import Prelude.
From S2P Require Import Utils.
From S2P Require Import Config.
From S2P Require Import Ring.
From S2P Require Import RingProofs.

Module Partitions.

Record t := mk {
  ringEntries : RingEntries.t;
  selfEntry : RingEntry;
  nodesPerPartition : Z;
  maxSize : Z;
  configuration : Configuration.t;
}.

(** Running a method of [RingEntries] that only reads. *)
Definition on_ring {A} (p : t) (m : stM RingEntries.t A) : outcome A :=
  let! (_, a) := m (ringEntries p) in Ret a.

(** Running one that changes the ring. *)
Definition update_ring {A} (m : stM RingEntries.t A) : stM t A :=
  λ p, let! (r, a) := m (ringEntries p) in
       Ret (mk r (selfEntry p) (nodesPerPartition p) (maxSize p) (configuration p), a).

(** [Partitions::Partitions]. *)
Definition make (allRingEntries : list RingEntry) (nodesPerPartition maxSize : Z)
    (configuration : Configuration.t) : outcome t :=
  let! r := RingEntries.fromEntries allRingEntries in
  let! id := Configuration.getUint 16 configuration ConfigurationKeys.NODE_ID in
  let! (_, selfEntry) := RingEntries.getByNodeId id r in
  Ret (mk r selfEntry nodesPerPartition maxSize configuration).

Definition getMaxSize (p : t) : Z := maxSize p.
Definition getAll (p : t) : outcome (list RingEntry) := RingEntries.getAll (ringEntries p).

(** [Partitions::getDistanceClockwise] and [Partitions::getDistanceCounterClockwise]. *)
Definition getDistanceClockwise (p : t) (nodeB : Z) : outcome Z :=
  on_ring p (RingEntries.getDistanceClockwise (nodeId (selfEntry p)) nodeB).
Definition getDistanceCounterClockwise (p : t) (nodeB : Z) : outcome Z :=
  on_ring p (RingEntries.getDistanceCounterClockwise (nodeId (selfEntry p)) nodeB).

(** [Partitions::isClockwiseNeighbor]. *)
Definition isClockwiseNeighbor (p : t) (nodeB : Z) : outcome bool :=
  let! d := on_ring p (RingEntries.getDistanceClockwise (nodeId (selfEntry p)) nodeB) in
  Ret (d <? nodesPerPartition p).

(** [Partitions::getOplogIdOfOtherNodeBySelfOplogId]. *)
Definition getOplogIdOfOtherNodeBySelfOplogId (p : t) (otherNodeId selfOplogId : Z) : outcome Z :=
  let! usePartitions := Configuration.getBoolean (configuration p) ConfigurationKeys.USE_PARTITIONS in
  if negb usePartitions then Ret 0
  else
    let! clockwise := isClockwiseNeighbor p otherNodeId in
    if (clockwise : bool) then
      let! d := getDistanceClockwise p otherNodeId in
      let oplogId := u32 (selfOplogId + d) in
      Ret (if nodesPerPartition p <=? oplogId then 0 else oplogId)
    else
      let! d := getDistanceCounterClockwise p otherNodeId in
      let otherOplogId := i32 selfOplogId - i32 d in
      if decide (sfits 32 otherOplogId) then
        Ret (if otherOplogId <=? 0 then u32 (nodesPerPartition p - 1) else u32 otherOplogId)
      else Undef.

(** [Partitions::getRingPositionByKey]; the remainder by zero is undefined. *)
Definition getRingPositionByKey (MD5 : bytes → bytes) (p : t) (key : SimpleString.t) : outcome Z :=
  let! s := SimpleString.toString key in
  if maxSize p =? 0 then Undef else Ret (u32 (HashCalculator.calculateMD5 MD5 s mod maxSize p)).

(** [Partitions::getNeighborsClockwise], with its default of [-1]. *)
Definition getNeighborsClockwise (p : t) (numberNeighbors : Z) : outcome (list RingEntry) :=
  on_ring p (RingEntries.getNeighborsClockwise (nodeId (selfEntry p))
    (u32 (if numberNeighbors =? -1 then nodesPerPartition p - 1 else numberNeighbors))).

(** [Partitions::getNeighborsClockwiseByNodeId] and
    [Partitions::getNeighborsCounterClockwiseByNodeId]. *)
Definition getNeighborsClockwiseByNodeId (p : t) (id : Z) : outcome (list RingEntry) :=
  on_ring p (RingEntries.getNeighborsClockwise id (u32 (nodesPerPartition p - 1))).
Definition getNeighborsCounterClockwiseByNodeId (p : t) (id : Z) : outcome (list RingEntry) :=
  on_ring p (RingEntries.getNeighborsCounterClockwise id (u32 (nodesPerPartition p - 1))).

(** [Partitions::getNeighbors]. *)
Definition getNeighbors (p : t) : outcome (list RingEntry) :=
  let! neighboursCounterClockwise := getNeighborsCounterClockwiseByNodeId p (nodeId (selfEntry p)) in
  let! neighboursClockWise := getNeighborsClockwise p (-1) in
  Ret (Utils.concat neighboursCounterClockwise neighboursClockWise).

(** [Partitions::getNeighborCounterClockwiseByNodeId] and
    [Partitions::getNeighborClockwiseByNodeId]. *)
Definition getNeighborCounterClockwiseByNodeId (p : t) (id : Z) : outcome (option RingEntry) :=
  on_ring p (RingEntries.getNeighborCounterClockwise id).
Definition getNeighborClockwiseByNodeId (p : t) (id : Z) : outcome (option RingEntry) :=
  on_ring p (RingEntries.getNeighborClockwise id).

(** [Partitions::getRingPositionByNodeId]. *)
Definition getRingPositionByNodeId (p : t) (id : Z) : outcome Z :=
  let! e := on_ring p (RingEntries.getByNodeId id) in Ret (ringPosition e).

(** [Partitions::getDistanceOfKey]. *)
Definition getDistanceOfKey (MD5 : bytes → bytes) (p : t) (key : SimpleString.t) : outcome Z :=
  let! position := getRingPositionByKey MD5 p key in
  let! owner := on_ring p (RingEntries.getRingEntryBelongsToPosition position) in
  let! d := on_ring p (RingEntries.getDistance (nodeId (selfEntry p)) (nodeId owner)) in
  Ret (u32 (Z.abs d)).

(** [Partitions::canHoldKey]. *)
Definition canHoldKey (MD5 : bytes → bytes) (p : t) (key : SimpleString.t) : outcome bool :=
  let! d := getDistanceOfKey MD5 p key in Ret (d <? nodesPerPartition p).

(** [Partitions::getDistance] and [Partitions::isNeighbor]. *)
Definition getDistance (p : t) (nodeB : Z) : outcome Z :=
  on_ring p (RingEntries.getDistance (nodeId (selfEntry p)) nodeB).
Definition isNeighbor (p : t) (otherNode : Z) : outcome bool :=
  let! d := getDistance p otherNode in Ret (u32 (Z.abs d) <? nodesPerPartition p).

(** [Partitions::deleteByNodeId], [Partitions::add] and [Partitions::addByNode]. *)
Definition deleteByNodeId (id : Z) : stM t () := update_ring (RingEntries.deleteByNodeId id).
Definition add (e : RingEntry) : stM t () := update_ring (RingEntries.add e).
Definition addByNode (MD5 : bytes → bytes) (id_string : bytes) (id : Z) : stM t RingEntry :=
  p ← get_st;
  position ← lift (if maxSize p =? 0 then Undef
                   else Ret (u32 (HashCalculator.calculateMD5 MD5 id_string mod maxSize p)));
  let e := mk_entry id position in
  _ ← add e;
  mret e.

Definition getNodesPerPartition (p : t) : Z := nodesPerPartition p.
Definition getByNodeId (p : t) (id : Z) : outcome RingEntry := on_ring p (RingEntries.getByNodeId id).
Definition getSelfEntry (p : t) : RingEntry := selfEntry p.

End Partitions.

(** ** Partitions of a well-formed ring *)

(** The node is at position [i] of the ring of the entries [es]. *)
Record partitions_ok (p : Partitions.t) (es : list RingEntry) (i : nat) : Prop := {
  po_ring : ∃ xs, ring_ok (Partitions.ringEntries p) xs es;
  po_ordered : ordered es;
  po_self : es !! i = Some (Partitions.selfEntry p);
  po_nodes : 2 ≤ Partitions.nodesPerPartition p ≤ Z.of_nat (length es);
}.

(** The position of the first node of partition [k] of the node at position [i]. *)
Definition partition_head (n i k : nat) : nat := ((i + n - k) mod n)%nat.

Section partitions.
Context {p : Partitions.t} {es : list RingEntry} {i : nat} (P : partitions_ok p es i).

Lemma distances j e :
  es !! j = Some e →
  Partitions.getDistanceClockwise p (nodeId e) = Ret (Z.of_nat (steps (length es) i j)) ∧
  Partitions.getDistanceCounterClockwise p (nodeId e) = Ret (Z.of_nat (steps (length es) j i)) ∧
  Partitions.getDistance p (nodeId e) = Ret (shortest (length es) i j).
Proof using P.
  intros He. destruct P as [[xs R] _ Hs _].
  unfold Partitions.getDistanceClockwise, Partitions.getDistanceCounterClockwise,
    Partitions.getDistance, Partitions.on_ring.
  destruct (getDistanceClockwise_ok R i j _ e Hs He) as [-> ->].
  by rewrite (getDistance_ok R i j _ e Hs He).
Qed.

Lemma steps_bound j : Z.of_nat (steps (length es) i j) < 2 ^ 31 ∧ Z.of_nat (steps (length es) j i) < 2 ^ 31.
Proof using P.
  destruct P as [[xs R] _ _ _]. pose proof (ro_two _ _ _ R). pose proof (ro_bound _ _ _ R).
  pose proof (steps_lt (length es) i j ltac:(lia)). pose proof (steps_lt (length es) j i ltac:(lia)). lia.
Qed.

Lemma abs_shortest j :
  Z.abs (shortest (length es) i j) = Z.of_nat (Nat.min (steps (length es) i j) (steps (length es) j i)).
Proof. unfold shortest. case_decide; lia. Qed.

(** The first nodes of the partitions of two nodes [d] steps apart. *)
Lemma partition_head_shift n a b k d :
  (a < n → b < n → k < n → d < n → k + d < n → (a + d) mod n = b →
   partition_head n b (k + d) = partition_head n a k)%nat.
Proof.
  intros Ha Hb Hk Hd Hkd E. unfold partition_head. rewrite mod_wrap in E by lia. rewrite !mod_wrap by lia.
  destruct (decide (a + d < n)%nat), (decide (b + n - (k + d) < n)%nat), (decide (a + n - k < n)%nat); lia.
Qed.

End partitions.

(** ** Properties *)

(** What the code answers, in the steps between the two nodes. *)
Lemma oplog_answer (p : Partitions.t) (es : list RingEntry) (i j k : nat) (e : RingEntry) :
  partitions_ok p es i → es !! j = Some e →
  Configuration.getBoolean (Partitions.configuration p) ConfigurationKeys.USE_PARTITIONS = Ret true →
  Z.of_nat k < Partitions.nodesPerPartition p →
  let npp := Partitions.nodesPerPartition p in
  let d := steps (length es) i j in
  let c := steps (length es) j i in
  Partitions.getOplogIdOfOtherNodeBySelfOplogId p (nodeId e) (Z.of_nat k) = Ret (
    if decide (Z.of_nat d < npp) then (if decide (npp ≤ Z.of_nat (k + d)) then 0 else Z.of_nat (k + d))
    else (if decide (k ≤ c)%nat then npp - 1 else Z.of_nat (k - c))).
Proof.
  intros P He Hc Hk npp d c. destruct (distances P j e He) as (Ecw & Eccw & _). fold d in Ecw. fold c in Eccw.
  pose proof (steps_bound P j) as [Hb1 Hb2]. fold d in Hb1. fold c in Hb2. pose proof (po_nodes _ _ _ P) as Hnpp. fold npp in Hnpp, Hk.
  pose proof (po_ring _ _ _ P) as [xs R]. pose proof (ro_bound _ _ _ R) as Hbn.
  unfold Partitions.getOplogIdOfOtherNodeBySelfOplogId, Partitions.isClockwiseNeighbor.
  rewrite Hc. cbn [obind negb]. fold (Partitions.getDistanceClockwise p (nodeId e)). rewrite Ecw. cbn [obind]. fold npp.
  case_decide as Hd.
  - destruct (Z.ltb_spec (Z.of_nat d) npp); [|lia]. cbn [obind]. rewrite wrap_small by (split; lia).
    case_decide; destruct (Z.leb_spec npp (Z.of_nat k + Z.of_nat d)); try lia; f_equal; lia.
  - destruct (Z.ltb_spec (Z.of_nat d) npp); [lia|]. rewrite Eccw. cbn [obind].
    rewrite !sext_small by (try split; simpl; lia). rewrite decide_True by (split; simpl; lia).
    case_decide; destruct (Z.leb_spec (Z.of_nat k - Z.of_nat c) 0); try lia; rewrite wrap_small by (split; lia); f_equal; lia.
Qed.

(** C24: translating the number [k] of an operation log to the node [d] steps clockwise.  On the
    other node, partition [k] is number [(k + d) mod n] of a ring of [n] nodes, and it holds that
    partition when this is below [nodesPerPartition].  The code always answers; for a node that
    holds the partition its answer is the right number but for exactly two cases: the other node
    is fewer than [nodesPerPartition] steps clockwise and the partition starts after it
    ([n < k + d]), where it answers 0; or the other node is further away clockwise and is the
    first of the partition ([k + d = n]), where the number is 0 and it answers
    [nodesPerPartition - 1].  For a node that does not hold the partition it answers one of these
    two numbers all the same. *)
Theorem oplog_translation (p : Partitions.t) (es : list RingEntry) (i j k : nat) (e : RingEntry) :
  partitions_ok p es i → es !! j = Some e →
  Configuration.getBoolean (Partitions.configuration p) ConfigurationKeys.USE_PARTITIONS = Ret true →
  Z.of_nat k < Partitions.nodesPerPartition p →
  let n := length es in
  let npp := Partitions.nodesPerPartition p in
  let d := steps n i j in
  let q := ((k + d) mod n)%nat in
  let near := Z.of_nat d < npp in
  ∃ a, Partitions.getOplogIdOfOtherNodeBySelfOplogId p (nodeId e) (Z.of_nat k) = Ret a ∧
    partition_head n j q = partition_head n i k ∧
    (Z.of_nat q < npp → (a = Z.of_nat q ↔ ¬ (near ∧ (n < k + d)%nat) ∧ ¬ (¬ near ∧ (k + d = n)%nat))) ∧
    (near → (n < k + d)%nat → a = 0) ∧
    (¬ near → (k + d = n)%nat → a = npp - 1) ∧
    (npp ≤ Z.of_nat q → a = if decide near then 0 else npp - 1).
Proof.
  intros P He Hc Hk n npp d q near. pose proof (po_nodes _ _ _ P) as Hnpp. fold npp n in Hnpp. fold npp in Hk.
  pose proof (lookup_lt_Some _ _ _ (po_self _ _ _ P)) as Hi. pose proof (lookup_lt_Some _ _ _ He) as Hj. fold n in Hi, Hj.
  pose proof (steps_lt n i j ltac:(lia)) as Hd. fold d in Hd.
  pose proof (proj2 (steps_spec n i j d Hi Hj Hd) eq_refl) as Sij. pose proof (steps_sum n i j Hi Hj) as Hsum. fold d in Hsum.
  assert (q = if decide (k + d < n)%nat then k + d else k + d - n)%nat as Eq by (unfold q; apply mod_wrap; lia).
  assert (i = j → d = 0)%nat as Hself by (intros ->; unfold d, steps; replace (j + n - j)%nat with n by lia; apply Nat.Div0.mod_same).
  eexists. split; [exact (oplog_answer p es i j k e P He Hc Hk)|]. fold n d npp. cbv zeta. set (c := steps n j i) in *.
  assert (i = j ∨ (i ≠ j ∧ c = n - d))%nat as Hcd by (destruct (decide (i = j)) in Hsum; [by left|right; lia]).
  split; [|unfold near; rewrite Eq; repeat split; intros; repeat case_decide; try lia].
  rewrite Eq. case_decide as Hkd; [by apply partition_head_shift; lia|].
  unfold partition_head. rewrite mod_wrap in Sij by lia. rewrite !mod_wrap by lia. repeat case_decide; lia.
Qed.

(** A node at position 2 of a ring of three, two nodes per partition. *)
Definition sample_config : Configuration.t :=
  Configuration.mk (<[ConfigurationKeys.USE_PARTITIONS := "true"%string]>
    (<[ConfigurationKeys.NODE_ID := "1"%string]> DefaultConfig_get)) (λ _, None).

Definition sample_partitions : Partitions.t :=
  match RingEntries.fromEntries sample_entries with
  | Ret r => Partitions.mk r (mk_entry 1 40) 2 64 sample_config
  | _ => Partitions.mk RingEntries.empty (mk_entry 0 0) 0 0 sample_config
  end.

Definition sorted_entries : list RingEntry := [mk_entry 2 10; mk_entry 3 25; mk_entry 1 40].

Lemma sample_partitions_ok : partitions_ok sample_partitions sorted_entries 2.
Proof.
  assert (NoDup (nodeId <$> sample_entries)) as Hnd by (apply (bool_decide_unpack _); vm_compute; done).
  destruct (fromEntries_ok sample_entries ltac:(simpl; lia) ltac:(simpl; lia) Hnd) as (_ & Ho & r & E & R).
  assert (merge_sort RingEntries.by_position sample_entries = sorted_entries) as Es by (vm_compute; done).
  rewrite Es in Ho, R. constructor; [|done|vm_compute; done|vm_compute; intuition discriminate].
  exists (seq 0 3). unfold sample_partitions. rewrite E. exact R.
Qed.

Lemma oplog_translation_witness :
  (∃ a, Partitions.getOplogIdOfOtherNodeBySelfOplogId sample_partitions 3 1 = Ret a ∧
     partition_head 3 1 0 = partition_head 3 2 1 ∧ a = 1) ∧
  (∃ a, Partitions.getOplogIdOfOtherNodeBySelfOplogId sample_partitions 2 0 = Ret a ∧
     partition_head 3 0 1 = partition_head 3 2 0 ∧ a = 1).
Proof.
  split.
  - destruct (oplog_translation sample_partitions sorted_entries 2 1 1 (mk_entry 3 25) sample_partitions_ok)
      as (a & Ea & Hq & _ & _ & Hw & _); [done|vm_compute; done|vm_compute; done|].
    exists a. split; [exact Ea|]. split; [exact Hq|]. by apply Hw; vm_compute.
  - destruct (oplog_translation sample_partitions sorted_entries 2 0 0 (mk_entry 2 10) sample_partitions_ok)
      as (a & Ea & Hq & Hr & _); [done|vm_compute; done|vm_compute; done|].
    exists a. split; [exact Ea|]. split; [exact Hq|]. apply Hr; [by vm_compute|]. split; [intros [_ H]|intros [H _]].
    + vm_compute in H. lia.
    + by apply H; vm_compute.
Defined.

(** A node accepts a key exactly when it is fewer than [nodesPerPartition] steps from the
    key's owner in either direction, and the partition number it files the key under is the
    smaller of the two distances; the owner is the one of consistent hashing. *)
Theorem canHoldKey_distance (MD5 : bytes → bytes) (p : Partitions.t) (es : list RingEntry) (i : nat)
    (key : SimpleString.t) (pos : Z) :
  partitions_ok p es i → Partitions.getRingPositionByKey MD5 p key = Ret pos →
  ∃ j owner, es !! j = Some owner ∧ owns es pos owner ∧
    let n := length es in
    let d := Nat.min (steps n i j) (steps n j i) in
    Partitions.getDistanceOfKey MD5 p key = Ret (Z.of_nat d) ∧
    (Partitions.canHoldKey MD5 p key = Ret true ↔
       Z.of_nat (steps n i j) < Partitions.nodesPerPartition p ∨
       Z.of_nat (steps n j i) < Partitions.nodesPerPartition p).
Proof.
  intros P Hpos. pose proof (po_ring _ _ _ P) as [xs R].
  destruct (getRingEntryBelongsToPosition_ok R pos (po_ordered _ _ _ P)) as (owner & Eo & Ho).
  pose proof (proj1 Ho) as [j Hj]%list_elem_of_lookup. exists j, owner. split; [done|]. split; [done|]. intros n d.
  destruct (distances P j owner Hj) as (_ & _ & Ed). pose proof (steps_bound P j) as [Hb1 Hb2].
  assert (Partitions.getDistanceOfKey MD5 p key = Ret (Z.of_nat d)) as E.
  { unfold Partitions.getDistanceOfKey. rewrite Hpos. cbn [obind]. unfold Partitions.on_ring at 1. rewrite Eo.
    cbn [obind]. fold (Partitions.getDistance p (nodeId owner)). rewrite Ed. cbn [obind].
    rewrite abs_shortest, wrap_small by (split; lia). done. }
  split; [done|]. unfold Partitions.canHoldKey. rewrite E. cbn [obind]. 
  destruct (Z.ltb_spec (Z.of_nat d) (Partitions.nodesPerPartition p)); split; intros Hd; try done; unfold d, n in *; lia.
Qed.

Lemma canHoldKey_distance_witness :
  ∃ j owner, sorted_entries !! j = Some owner ∧ owns sorted_entries 5 owner ∧
    Partitions.getDistanceOfKey (λ _, [0; 0; 0; 0; 0; 0; 0; 5]) sample_partitions (SimpleString.mk [107] 1)
    = Ret (Z.of_nat (Nat.min (steps 3 2 j) (steps 3 j 2))).
Proof.
  destruct (canHoldKey_distance (λ _, [0; 0; 0; 0; 0; 0; 0; 5]) sample_partitions sorted_entries 2
    (SimpleString.mk [107] 1) 5 sample_partitions_ok) as (j & owner & H1 & H2 & H3 & _);
    [vm_compute; done|]. by exists j, owner.
Defined.
