(* ===== verification/Files.v ===== *)
(** * Files

    Models [utils/files/FileUtils.cpp] (the POSIX side of its conditionals).  The file system
    is the set of directories and the contents of the regular files; a file can be opened
    for writing when its directory exists.  Directories are compared after collapsing
    repeated slashes (which [mkdirAll] produces); the code spells the path of a file in one
    way only, so files are compared literally.  Stream operations that fail set a flag nobody
    reads, so they do nothing; [tellg] on a file that cannot be opened is -1. *)

From Stdlib Require Import Ascii.
From S2P Require Import Prelude.
From S2P Require Import Config.

(** ** Paths *)

(** The directory part of a path; [None] for a plain name. *)
Fixpoint dirname (p : string) : option string :=
  match p with
  | EmptyString => None
  | String c p =>
      match dirname p with
      | Some d => Some (String c d)
      | None => if decide (c = "/"%char) then Some EmptyString else None
      end
  end.

(** The last component. *)
Fixpoint basename (p : string) : string :=
  match p with
  | EmptyString => EmptyString
  | String c q =>
      match dirname p with
      | Some _ => basename q
      | None => p
      end
  end.

(** A path without repeated slashes. *)
Fixpoint canon (p : string) : string :=
  match p with
  | EmptyString => EmptyString
  | String c q =>
      match q with
      | String c' _ =>
          if bool_decide (c = "/"%char) && bool_decide (c' = "/"%char) then canon q else String c (canon q)
      | EmptyString => p
      end
  end.

Fixpoint no_slash (s : string) : Prop :=
  match s with EmptyString => True | String c s => c ≠ "/"%char ∧ no_slash s end.

Definition path (dir name : string) : string := dir +:+ String "/" name.

Record fs := mk_fs { files : gmap string bytes; dirs : gset string }.

Definition set_files (f : gmap string bytes) (s : fs) : fs := mk_fs f (dirs s).

(** Can a file be created or opened for writing at [p]? *)
Definition writable (p : string) (s : fs) : bool :=
  bool_decide (canon p ∉ dirs s) &&
  match dirname (canon p) with
  | None => true
  | Some EmptyString => true
  | Some d => bool_decide (d ∈ dirs s)
  end.

Module FileUtils.

(** [FileUtils::getFileInPath]. *)
Definition getFileInPath (basePath fileName : string) : string := path basePath fileName.

(** [FileUtils::exists]. *)
Definition exists_ (p : string) (s : fs) : bool :=
  bool_decide (canon p ∈ dirs s) || bool_decide (canon p = "/"%string) || bool_decide (is_Some (files s !! p)).

(** [FileUtils::createDirectory]: [mkdir], whose error is ignored. *)
Definition createDirectory (p : string) (s : fs) : fs :=
  if negb (exists_ p s) && writable p s then mk_fs (files s) ({[canon p]} ∪ dirs s) else s.

(** The loop of [FileUtils::mkdirAll]. *)
Fixpoint mkdirAll_loop (first : bool) (lastPathChecked : string) (l : list string) (s : fs) : fs :=
  match l with
  | [] => s
  | component :: l =>
      let lastPathChecked := if first then lastPathChecked else path lastPathChecked component in
      if decide (lastPathChecked = EmptyString) then mkdirAll_loop false "/" l s
      else
        mkdirAll_loop false lastPathChecked l
          (if exists_ lastPathChecked s then s else createDirectory lastPathChecked s)
  end.

(** [FileUtils::mkdirAll]. *)
Definition mkdirAll (p : string) : stM fs () :=
  λ s,
    let spplitedByFileSep := StringUtils.split p "/"%char in
    let! lastPathChecked := at_undef spplitedByFileSep 0 in
    Ret (mkdirAll_loop true lastPathChecked spplitedByFileSep s, ()).

(** [FileUtils::createFile]. *)
Definition createFile (p name : string) : stM fs () :=
  λ s,
    let! (s, _) := mkdirAll p s in
    let fullPath := path p name in
    if writable fullPath s then Ret (set_files (<[fullPath:=[]]> (files s)) s, ())
    else Throw runtime_error.

(** [FileUtils::appendBytes]: creates the file when it is missing. *)
Definition appendBytes (p : string) (b : bytes) (s : fs) : fs :=
  if writable p s then set_files (<[p := default [] (files s !! p) ++ b]> (files s)) s else s.

(** [FileUtils::writeBytes(path, bytes)]. *)
Definition writeBytes (p : string) (b : bytes) : stM fs () :=
  λ s, if writable p s then Ret (set_files (<[p:=b]> (files s)) s, ()) else Throw runtime_error.

(** [FileUtils::writeBytes(path, ptr, bytes)]: the file is opened with [trunc], so what was
    before [ptr] becomes a hole of zeros. *)
Definition writeBytesAt (p : string) (ptr : nat) (b : bytes) : stM fs () :=
  λ s,
    if writable p s
    then Ret (set_files (<[p := match b with [] => [] | _ => replicate ptr 0 ++ b end]> (files s)) s, ())
    else Throw runtime_error.

(** [FileUtils::deleteTopBytes]: cuts bytes off the end; seeking before the start fails. *)
Definition deleteTopBytes (p : string) (nBytesToDelete : nat) : stM fs () :=
  λ s,
    match files s !! p with
    | None => Throw runtime_error
    | Some b =>
        if decide (nBytesToDelete ≤ length b)%nat
        then Ret (set_files (<[p := take (length b - nBytesToDelete) b]> (files s)) s, ())
        else Throw runtime_error
    end.

(** [FileUtils::seekBytes]: what cannot be read stays zero. *)
Definition seekBytes (p : string) (ptr total : Z) (s : fs) : outcome bytes :=
  if 2 ^ 63 - 1 <? total then Throw length_error
  else
    let contents := default [] (files s !! p) in
    let read := take (Z.to_nat total) (drop (Z.to_nat ptr) contents) in
    Ret (read ++ replicate (Z.to_nat total - length read) 0).

(** [FileUtils::readBytes]. *)
Definition readBytes (p : string) (s : fs) : bytes := default [] (files s !! p).

(** [FileUtils::size]: a missing file has size [-1], as a [uint64_t]. *)
Definition size (basePath fileName : string) (s : fs) : Z :=
  match files s !! path basePath fileName with
  | Some b => Z.of_nat (length b)
  | None => u64 (-1)
  end.

(** [FileUtils::clear]: the file is truncated, then removed. *)
Definition clear (p : string) (s : fs) : fs := set_files (delete p (files s)) s.

(** [FileUtils::ls]: the regular files of a directory. *)
Definition ls (p : string) (s : fs) : outcome (list string) :=
  if bool_decide (canon p ∈ dirs s)
  then Ret (basename <$> filter (λ f, dirname f = Some p) (elements (dom (files s))))
  else Throw runtime_error.

End FileUtils.

(** ** Lemmas *)

Lemma dirname_no_slash s : no_slash s → dirname s = None.
Proof.
  induction s as [|c s IH]; simpl; [done|]. intros [Hc Hs]. rewrite (IH Hs). by rewrite decide_False.
Qed.

Lemma dirname_path d n : no_slash n → dirname (path d n) = Some d.
Proof.
  intros Hn. unfold path. induction d as [|c d IH].
  - change (dirname (String "/" n) = Some EmptyString). cbn [dirname]. rewrite dirname_no_slash by done.
    by rewrite decide_True.
  - change (dirname (String c (d +:+ String "/" n)) = Some (String c d)). cbn [dirname]. by rewrite IH.
Qed.

Section lemmas.
Implicit Types (s : fs) (p q : string) (b : bytes).
Import FileUtils.

(** A file of an existing directory that is not itself a directory. *)
Definition file_at s p : Prop := writable p s = true ∧ is_Some (files s !! p).

Lemma appendBytes_lookup s p b : writable p s = true → files (appendBytes p b s) !! p = Some (default [] (files s !! p) ++ b).
Proof. intros H. unfold appendBytes. rewrite H. simpl. apply lookup_insert_eq. Qed.

Lemma appendBytes_lookup_ne s p q b : p ≠ q → files (appendBytes p b s) !! q = files s !! q.
Proof. intros H. unfold appendBytes. destruct (writable p s); [|done]. simpl. by apply lookup_insert_ne. Qed.

Lemma appendBytes_dirs s p b : dirs (appendBytes p b s) = dirs s.
Proof. unfold appendBytes. by destruct (writable p s). Qed.

Lemma appendBytes_writable s p q b : writable q (appendBytes p b s) = writable q s.
Proof. unfold writable. by rewrite appendBytes_dirs. Qed.

Lemma seekBytes_inside s p ptr total b :
  files s !! p = Some b → (ptr + total ≤ length b)%nat → Z.of_nat total < 2 ^ 63 →
  seekBytes p (Z.of_nat ptr) (Z.of_nat total) s = Ret (take total (drop ptr b)).
Proof.
  intros Hf Hl Ht. unfold seekBytes. destruct (Z.ltb_spec (2 ^ 63 - 1) (Z.of_nat total)); [lia|].
  rewrite Hf. simpl. rewrite !Nat2Z.id. rewrite length_take, length_drop.
  replace (total - _)%nat with 0%nat by lia. by rewrite app_nil_r.
Qed.

Lemma size_file s d n b : files s !! path d n = Some b → size d n s = Z.of_nat (length b).
Proof. unfold size. by intros ->. Qed.

End lemmas.
