(* ===== verification/Compaction.v ===== *)
(** * Compaction of the operation log

    Models [SimpleString::operator<], [persistence/compaction/] and
    [persistence/utils/OperationLogUtils.cpp], [OperationLogInvalidator.cpp].  The keys of a
    [std::map] are compared by [strcmp] on buffers that need not end in a zero byte: running
    past the end of a buffer is undefined.  A [std::map] is its sorted list of entries,
    searched from the front. *)

From stdpp Require Import sorting.
From S2P Require Import Prelude.
From S2P Require Import Utils.
From S2P Require Import Messages.

(** ** The order of keys *)

(** [std::strcmp]: the sign of the first difference. *)
Fixpoint strcmp (a b : bytes) : outcome Z :=
  match a, b with
  | x :: a, y :: b => if x =? y then if x =? 0 then Ret 0 else strcmp a b else Ret (x - y)
  | _, _ => Undef
  end.

(** [SimpleString::operator<]. *)
Definition SimpleString_lt (a b : SimpleString.t) : outcome bool :=
  let! c := strcmp (SimpleString.data a) (SimpleString.data b) in Ret (c <? 0).

(** ** [std::map] over such keys *)

Module KeyMap.
Section map.
Context {V : Type}.
Implicit Types (k : SimpleString.t) (m : list (SimpleString.t * V)).

(** [std::map::contains] and [std::map::at]. *)
Fixpoint find k m : outcome (option V) :=
  match m with
  | [] => Ret None
  | (k', v) :: m =>
      let! less := SimpleString_lt k' k in
      if (less : bool) then find k m
      else let! greater := SimpleString_lt k k' in
           Ret (if (greater : bool) then None else Some v)
  end.

(** [m[k] = v]; an existing entry keeps its key. *)
Fixpoint assign k (v : V) m : outcome (list (SimpleString.t * V)) :=
  match m with
  | [] => Ret [(k, v)]
  | (k', v') :: m =>
      let! less := SimpleString_lt k' k in
      if (less : bool) then let! m := assign k v m in Ret ((k', v') :: m)
      else let! greater := SimpleString_lt k k' in
           Ret (if (greater : bool) then (k, v) :: (k', v') :: m else (k', v) :: m)
  end.

End map.
End KeyMap.

(** ** [SingleThreadedLogCompacter] *)

Module SingleThreadedLogCompacter.

Abbreviation timestampsByKeysMap_t := (list (SimpleString.t * Z)).
Abbreviation compacted_t := (list (SimpleString.t * OperationBody.t)).

(** The key of an operation: its first argument. *)
Definition actualOperationKey (op : OperationBody.t) : outcome SimpleString.t :=
  let! args := OperationBody.the_args op in at_undef args 0.

(** One operation of the loop. *)
Definition compact_step (s : compacted_t * timestampsByKeysMap_t) (actualOperation : OperationBody.t) :
    outcome (compacted_t * timestampsByKeysMap_t) :=
  let '(compactedToReturn, timestampsByKeys) := s in
  let! key := actualOperationKey actualOperation in
  let actualTimestamp := OperationBody.timestamp actualOperation in
  let! known := KeyMap.find key timestampsByKeys in
  match known with
  | Some t =>
      if t <? actualTimestamp
      then let! m := KeyMap.assign key actualOperation compactedToReturn in Ret (m, timestampsByKeys)
      else Ret (compactedToReturn, timestampsByKeys)
  | None =>
      let! timestampsByKeys := KeyMap.assign key actualTimestamp timestampsByKeys in
      let! m := KeyMap.assign key actualOperation compactedToReturn in
      Ret (m, timestampsByKeys)
  end.

(** [SingleThreadedLogCompacter::compact]: from the last operation to the first.  The
    values are appended to [compacted], and the keys' timestamps recorded, through the
    caller's references; both are returned. *)
Definition compact (uncompacted compacted : list OperationBody.t) (timestampsByKeys : timestampsByKeysMap_t) :
    outcome (list OperationBody.t * timestampsByKeysMap_t) :=
  let! (m, ts) := ofoldl compact_step ([], timestampsByKeys) (rev uncompacted) in
  Ret (compacted ++ m.*2, ts).

End SingleThreadedLogCompacter.

(** ** [MultiThreadedLogCompactor] *)

Module MultiThreadedLogCompactor.

(** [MultiThreadedCompactionBlock]: the first phase holds operations, other blocks have two
    children. *)
Inductive Block :=
| leaf_block (operationsFirstPhase : list OperationBody.t)
| inner (left_ right_ : Block).

(** [MultiThreadedCompactionBlock::leaf]: the [numberBlock]-th of [totalBlocks] slices, the
    last one up to the end. *)
Definition leaf (uncompacted : list OperationBody.t) (numberBlock totalBlocks : nat) : Block :=
  let logsPerBlock := (length uncompacted / totalBlocks)%nat in
  let beginPtr := (logsPerBlock * numberBlock)%nat in
  let endPtr := if decide (numberBlock + 1 = totalBlocks)%nat then length uncompacted
                else (logsPerBlock * (numberBlock + 1))%nat in
  leaf_block (take (endPtr - beginPtr) (drop beginPtr uncompacted)).

(** Blocks of the tree: [MultiThreadedLogCompactor::createBlocksByPhaseMap] creates [2 ^ p]
    blocks in phase [p], leaves in the last one, and [fillTreeChilds] makes the blocks [2 i]
    and [2 i + 1] of the next phase the children of block [i]. *)
Fixpoint subtree (phasesLeft i : nat) (uncompacted : list OperationBody.t) (totalBlocks : nat) : Block :=
  match phasesLeft with
  | O => leaf uncompacted i totalBlocks
  | S phasesLeft =>
      inner (subtree phasesLeft (2 * i) uncompacted totalBlocks)
            (subtree phasesLeft (2 * i + 1) uncompacted totalBlocks)
  end.

(** [MultiThreadedLogCompactor::createCompactionTree]; the height depends on the number of
    hardware threads, and the logarithm of 0 has no conversion to an integer. *)
Definition createCompactionTree (numberThreads : nat) (uncompacted : list OperationBody.t) : outcome Block :=
  if decide (numberThreads = 0)%nat then Undef
  else
    let height := (Nat.log2 numberThreads + 2)%nat in
    Ret (subtree (height - 1) 0 uncompacted (2 ^ (height - 1))).

(** [MultiThreadedCompactionBlock::get] and [mergeAndCompactAsync]: the right child first. *)
Fixpoint get (b : Block) : outcome (list OperationBody.t) :=
  match b with
  | leaf_block ops => Ret ops
  | inner lb rb =>
      let! l := get lb in
      let! r := get rb in
      let! (compacted, timestampsByKeys) := SingleThreadedLogCompacter.compact r [] [] in
      let! (compacted, _) := SingleThreadedLogCompacter.compact l compacted timestampsByKeys in
      Ret compacted
  end.

(** [MultiThreadedLogCompactor::compact]. *)
Definition compact (numberThreads : nat) (uncompacted : list OperationBody.t) : outcome (list OperationBody.t) :=
  let! tree := createCompactionTree numberThreads uncompacted in get tree.

End MultiThreadedLogCompactor.

(** [OperationLogCompacter::compact]: the threshold is written [10.000], the number ten. *)
Definition OperationLogCompacter_compact (numberThreads : nat) (uncompacted : list OperationBody.t) :
    outcome (list OperationBody.t) :=
  if decide (10 < length uncompacted)%nat
  then MultiThreadedLogCompactor.compact numberThreads uncompacted
  else let! (r, _) := SingleThreadedLogCompacter.compact uncompacted [] [] in Ret r.

(** ** Deletions that undo a log *)

(** [OperationLogUtils::getUniqueKeys]; [setSimpleString_t] hashes and compares the bytes, in
    an order of its own ([iteration]). *)
Definition getUniqueKeys (iteration : list SimpleString.t → list SimpleString.t) (l : list OperationBody.t) :
    outcome (list SimpleString.t) :=
  let! keys := ofoldl (λ seen op,
    let! key := OperationBody.getArg op 0 in
    Ret (if decide (key ∈ seen) then seen else seen ++ [key])) [] l in
  Ret (iteration keys).

(** [OperationLogInvalidator::createDeleteKeyOperation]: the vector holding the key is never
    stored in the operation. *)
Definition createDeleteKeyOperation (key : SimpleString.t) : OperationBody.t :=
  OperationBody.mk None 0 0 3 false false.

(** [OperationLogInvalidator::getInvalidationOperations]. *)
Definition getInvalidationOperations (iteration : list SimpleString.t → list SimpleString.t)
    (toInvalidate : list OperationBody.t) : outcome (list OperationBody.t) :=
  let! keys := getUniqueKeys iteration toInvalidate in
  Ret (createDeleteKeyOperation <$> keys).

(** ** Zero-terminated keys are totally ordered *)

Definition terminated (k : SimpleString.t) : Prop := 0 ∈ SimpleString.data k ∧ Forall byte_ok (SimpleString.data k).

(** The string up to its terminator. *)
Fixpoint cstr (b : bytes) : bytes :=
  match b with [] => [] | x :: b => if x =? 0 then [] else x :: cstr b end.

Abbreviation ckey k := (cstr (SimpleString.data k)).

Fixpoint lexcmp (a b : bytes) : Z :=
  match a, b with
  | [], [] => 0
  | [], y :: _ => - y
  | x :: _, [] => x
  | x :: a, y :: b => if x =? y then lexcmp a b else x - y
  end.

Lemma strcmp_lex a b : 0 ∈ a → 0 ∈ b → strcmp a b = Ret (lexcmp (cstr a) (cstr b)).
Proof.
  revert b. induction a as [|x a IH]; intros b Ha Hb; [by apply not_elem_of_nil in Ha|].
  destruct b as [|y b]; [by apply not_elem_of_nil in Hb|]. cbn [strcmp cstr].
  destruct (Z.eqb_spec x y) as [->|Hne].
  - destruct (Z.eqb_spec y 0) as [->|Hy]; [done|]. cbn [lexcmp]. rewrite Z.eqb_refl.
    apply IH; [apply elem_of_cons in Ha as [|]; [lia|done]|apply elem_of_cons in Hb as [|]; [lia|done]].
  - destruct (Z.eqb_spec x 0) as [->|Hx], (Z.eqb_spec y 0) as [->|Hy]; cbn [lexcmp]; try (f_equal; lia).
    destruct (Z.eqb_spec x y); [lia|done].
Qed.

Lemma lexcmp_antisym a b : lexcmp b a = - lexcmp a b.
Proof.
  revert b. induction a as [|x a IH]; intros [|y b]; cbn [lexcmp]; try lia.
  destruct (Z.eqb_spec y x), (Z.eqb_spec x y); try lia. apply IH.
Qed.

Abbreviation positive_bytes := (Forall (λ x, 0 < x)).

Lemma cstr_positive k : terminated k → positive_bytes (ckey k).
Proof.
  intros [_ Hk]. induction Hk as [|x b [Hx _] _ IH]; cbn; [done|].
  destruct (Z.eqb_spec x 0); constructor; [lia|done].
Qed.

Lemma lexcmp_eq a b : positive_bytes a → positive_bytes b → lexcmp a b = 0 → a = b.
Proof.
  intros Ha. revert b. induction Ha as [|x a Hx _ IH]; intros b Hb; destruct Hb as [|y b Hy Hb]; cbn [lexcmp]; try lia; [done|].
  destruct (Z.eqb_spec x y) as [->|]; [|lia]. intros E. f_equal. by apply IH.
Qed.

Lemma lexcmp_refl a : lexcmp a a = 0.
Proof. induction a as [|x a IH]; cbn; [done|]. by rewrite Z.eqb_refl. Qed.

Lemma lexcmp_trans a b c :
  positive_bytes a → positive_bytes b → positive_bytes c → lexcmp a b < 0 → lexcmp b c < 0 → lexcmp a c < 0.
Proof.
  intros Ha. revert b c. induction Ha as [|x a Hx _ IH]; intros b c Hb Hc;
    destruct Hb as [|y b Hy Hb], Hc as [|z c Hz Hc]; cbn [lexcmp]; try lia.
  destruct (Z.eqb_spec x y), (Z.eqb_spec y z), (Z.eqb_spec x z); try lia. by apply IH.
Qed.

Lemma SimpleString_lt_lex a b :
  terminated a → terminated b → SimpleString_lt a b = Ret (lexcmp (ckey a) (ckey b) <? 0).
Proof. intros [Ha _] [Hb _]. unfold SimpleString_lt. by rewrite strcmp_lex. Qed.

(** ** The sorted list as a finite map *)

Section keymap.
Context {V : Type}.
Implicit Types (k : SimpleString.t) (m : list (SimpleString.t * V)).

Definition below (a b : bytes) : Prop := lexcmp a b < 0.

Record map_ok m : Prop := {
  mo_keys : Forall terminated m.*1;
  mo_sorted : StronglySorted below ((λ e, ckey e.1) <$> m);
}.

Definition contents m : gmap bytes V := list_to_map ((λ e, (ckey e.1, e.2)) <$> m).

Lemma contents_above m c : Forall (below c) ((λ e, ckey e.1) <$> m) → contents m !! c = None.
Proof.
  intros H. apply not_elem_of_list_to_map. intros Hin.
  rewrite <- list_fmap_compose in Hin. rewrite Forall_forall in H.
  apply H in Hin. unfold below in Hin. rewrite lexcmp_refl in Hin. lia.
Qed.

Lemma map_ok_cons k v m : map_ok ((k, v) :: m) → terminated k ∧ map_ok m ∧ Forall (below (ckey k)) ((λ e, ckey e.1) <$> m).
Proof.
  intros [Hk Hs]. apply Forall_cons in Hk as [Hk1 Hk2]. apply StronglySorted_inv in Hs as [Hs1 Hs2].
  split; [done|]. split; [by split|done].
Qed.

Lemma below_trans a b l :
  positive_bytes a → positive_bytes b → Forall positive_bytes l → below a b → Forall (below b) l → Forall (below a) l.
Proof.
  intros Ha Hb Hl Hab H. rewrite Forall_forall in H, Hl |- *. intros c Hc.
  by eapply (lexcmp_trans a b c); [..|apply H]; auto.
Qed.

Lemma map_ok_positive m : map_ok m → Forall positive_bytes ((λ e, ckey e.1) <$> m).
Proof.
  intros [Hk _]. apply Forall_fmap. rewrite Forall_fmap in Hk. eapply Forall_impl; [exact Hk|].
  intros e He. by apply cstr_positive.
Qed.

Lemma find_contents k m : map_ok m → terminated k → KeyMap.find k m = Ret (contents m !! ckey k).
Proof.
  intros Hm Hk. induction m as [|[k' v] m IH]; [done|].
  pose proof (map_ok_cons _ _ _ Hm) as (Hk' & Hm' & Hab). cbn [KeyMap.find].
  rewrite !SimpleString_lt_lex by done. cbn [obind].
  unfold contents in *. cbn [fmap list_fmap list_to_map foldr fst snd].
  destruct (Z.ltb_spec (lexcmp (ckey k') (ckey k)) 0) as [Hlt|Hge].
  - rewrite IH by done. rewrite lookup_insert_ne; [done|]. intros E. rewrite E, lexcmp_refl in Hlt. lia.
  - destruct (Z.ltb_spec (lexcmp (ckey k) (ckey k')) 0) as [Hlt|Hge'].
    + rewrite lookup_insert_ne by (intros E; rewrite E, lexcmp_refl in Hlt; lia).
      f_equal. symmetry. apply contents_above.
      eapply below_trans; [..|exact Hab]; auto using cstr_positive, map_ok_positive.
    + rewrite lexcmp_antisym in Hge'. assert (ckey k' = ckey k) as ->.
      { apply lexcmp_eq; [by apply cstr_positive..|lia]. }
      by rewrite lookup_insert_eq.
Qed.

Lemma assign_contents k v m :
  map_ok m → terminated k →
  ∃ m', KeyMap.assign k v m = Ret m' ∧ map_ok m' ∧ contents m' = <[ckey k:=v]> (contents m)
        ∧ ∀ c, c ∈ ((λ e, ckey e.1) <$> m') → c = ckey k ∨ c ∈ ((λ e, ckey e.1) <$> m).
Proof.
  intros Hm Hk. induction m as [|[k' v'] m IH].
  { exists [(k, v)]. split; [done|]. split; [|split; [done|]].
    - split; [by constructor|]. constructor; constructor.
    - intros c Hc. left. cbn in Hc. by apply list_elem_of_singleton in Hc. }
  pose proof (map_ok_cons _ _ _ Hm) as (Hk' & Hm' & Hab). cbn [KeyMap.assign].
  rewrite !SimpleString_lt_lex by done. cbn [obind].
  destruct (Z.ltb_spec (lexcmp (ckey k') (ckey k)) 0) as [Hlt|Hge].
  - destruct (IH Hm') as (m' & -> & Hok & Hc & Hkeys). cbn [obind]. exists ((k', v') :: m').
    split; [done|]. split; [|split].
    + split; [constructor; [done|apply Hok]|]. cbn. constructor; [apply Hok|].
      apply Forall_forall. intros c [->|Hin]%Hkeys; [done|]. rewrite Forall_forall in Hab. auto.
    + unfold contents in *. cbn. rewrite Hc. apply insert_insert_ne.
      intros E. rewrite E, lexcmp_refl in Hlt. lia.
    + intros c. cbn. rewrite !elem_of_cons. intros [->|[->|Hin]%Hkeys]; auto.
  - destruct (Z.ltb_spec (lexcmp (ckey k) (ckey k')) 0) as [Hlt|Hge'].
    + eexists. split; [done|]. split; [|split; [done|]].
      * split; [constructor; [done|apply Hm]|]. cbn. constructor; [apply Hm|]. constructor; [done|].
        eapply below_trans; [..|exact Hab]; auto using cstr_positive, map_ok_positive.
      * intros c. cbn. rewrite !elem_of_cons. tauto.
    + rewrite lexcmp_antisym in Hge'. assert (ckey k' = ckey k) as E.
      { apply lexcmp_eq; [by apply cstr_positive..|lia]. }
      eexists. split; [done|]. split; [|split].
      * split; [constructor; [done|apply Hm']|]. cbn. constructor; [apply Hm'|done].
      * unfold contents. cbn. rewrite E. by rewrite insert_insert_eq.
      * intros c. cbn. rewrite !elem_of_cons. tauto.
Qed.

(** The values of the list are the values of the map. *)
Lemma contents_values m : map_ok m → m.*2 ≡ₚ (map_to_list (contents m)).*2.
Proof.
  intros [_ Hs]. unfold contents. rewrite map_to_list_to_map.
  - by rewrite <- list_fmap_compose.
  - rewrite <- list_fmap_compose. change (NoDup ((λ e, ckey e.1) <$> m)). revert Hs.
    induction ((λ e, ckey e.1) <$> m) as [|c l IH]; intros Hs; [constructor|].
    apply StronglySorted_inv in Hs as [Hs Hf]. constructor; [|by apply IH].
    intros Hin. rewrite Forall_forall in Hf. apply Hf in Hin. unfold below in Hin.
    rewrite lexcmp_refl in Hin. lia.
Qed.

End keymap.

(** ** The last operation of each key *)

Section last_operations.
Implicit Types (op : OperationBody.t) (l r : list OperationBody.t).
Import SingleThreadedLogCompacter.

Abbreviation time := OperationBody.timestamp.

Definition op_key op : bytes :=
  match OperationBody.args op with Some (k :: _) => ckey k | _ => [] end.

(** An operation on a zero-terminated key. *)
Definition keyed op : Prop := ∃ k args, OperationBody.args op = Some (k :: args) ∧ terminated k.

(** The operations of one key are in the order of their timestamps. *)
Fixpoint key_sorted l : Prop :=
  match l with
  | [] => True
  | op :: l => (∀ op', op' ∈ l → op_key op' = op_key op → time op ≤ time op') ∧ key_sorted l
  end.

Fixpoint last_op l : gmap bytes OperationBody.t :=
  match l with [] => ∅ | op :: l => last_op l ∪ {[op_key op := op]} end.

Abbreviation values m := ((map_to_list m).*2).

Lemma last_op_app l r : last_op (l ++ r) = last_op r ∪ last_op l.
Proof.
  induction l as [|op l IH]; simpl; [by rewrite map_union_empty|]. by rewrite IH, map_union_assoc.
Qed.

Lemma last_op_elem l c op : last_op l !! c = Some op → op ∈ l ∧ op_key op = c.
Proof.
  induction l as [|op' l IH]; simpl; [by rewrite lookup_empty|].
  intros [H|[_ [<- <-]%lookup_singleton_Some]]%lookup_union_Some_raw; [|by split; [left|]].
  destruct (IH H). split; [by right|done].
Qed.

Lemma last_op_Some l op : op ∈ l → is_Some (last_op l !! op_key op).
Proof.
  induction l as [|op' l IH]; [by intros ?%not_elem_of_nil|].
  simpl. rewrite lookup_union_is_Some. intros [->|Hin]%elem_of_cons; [right|left; auto].
  rewrite lookup_singleton_eq. eauto.
Qed.

Lemma key_sorted_app l r :
  key_sorted (l ++ r) ↔
  key_sorted l ∧ key_sorted r ∧ ∀ a b, a ∈ l → b ∈ r → op_key b = op_key a → time a ≤ time b.
Proof.
  induction l as [|op l IH]; simpl.
  - split; [|tauto]. intros. split_and!; [done..|]. by intros a b ?%not_elem_of_nil.
  - rewrite IH. split.
    + intros (H1 & H2 & H3 & H4). split_and!; [|done..|].
      * intros op' Hin. apply H1. set_solver.
      * intros a b [->|Ha]%elem_of_cons Hb E; [apply H1; set_solver|by apply H4].
    + intros ([H1 H2] & H3 & H4). split_and!; [|done..|].
      * intros op' [Hin|Hin]%elem_of_app E; [by apply H1|]. apply H4; [set_solver|done..].
      * intros a b Ha. apply H4. set_solver.
Qed.

(** Lists in which no key repeats are sorted by key. *)
Lemma key_sorted_NoDup l : NoDup (op_key <$> l) → key_sorted l.
Proof.
  induction l as [|op l IH]; [done|]. intros [Hn Hd]%NoDup_cons. split; [|auto].
  intros op' Hin E. destruct Hn. rewrite <- E. by apply list_elem_of_fmap_2.
Qed.

(** So are lists in timestamp order. *)
Lemma key_sorted_times l : StronglySorted (λ a b, time a ≤ time b) l → key_sorted l.
Proof.
  induction 1 as [|op l _ IH Hf]; [done|]. split; [|done].
  intros op' Hin _. rewrite Forall_forall in Hf. auto.
Qed.

(** One step of the loop on finite maps. *)
Definition spec_step (s : gmap bytes OperationBody.t * gmap bytes Z) op : gmap bytes OperationBody.t * gmap bytes Z :=
  match s.2 !! op_key op with
  | Some t => if t <? time op then (<[op_key op := op]> s.1, s.2) else s
  | None => (<[op_key op := op]> s.1, <[op_key op := time op]> s.2)
  end.

Lemma compact_loop_spec l m ts :
  map_ok m → map_ok ts → Forall keyed l →
  ∃ m' ts', ofoldl compact_step (m, ts) l = Ret (m', ts') ∧ map_ok m' ∧ map_ok ts' ∧
            (contents m', contents ts') = foldl spec_step (contents m, contents ts) l.
Proof.
  intros Hm Hts Hl. revert m ts Hm Hts.
  induction Hl as [|op l (k & args & Ha & Hk) _ IH]; intros m ts Hm Hts; [by exists m, ts|].
  cbn [ofoldl foldl]. unfold compact_step at 1, spec_step at 2.
  assert (op_key op = ckey k) as -> by (unfold op_key; by rewrite Ha).
  assert (actualOperationKey op = Ret k) as ->
    by (unfold actualOperationKey, OperationBody.the_args; by rewrite Ha).
  cbn [obind fst snd]. rewrite (find_contents k ts Hts Hk). cbn [obind].
  destruct (assign_contents k op m Hm Hk) as (m1 & E1 & Hm1 & Hc1 & _).
  destruct (contents ts !! ckey k) as [t|] eqn:Et.
  - destruct (t <? time op); [rewrite E1; cbn [obind]; rewrite <- Hc1|]; apply IH; done.
  - destruct (assign_contents k (time op) ts Hts Hk) as (ts1 & E2 & Hts1 & Hc2 & _).
    rewrite E2. cbn [obind]. rewrite E1. cbn [obind]. rewrite <- Hc1, <- Hc2. by apply IH.
Qed.

(** On a log sorted by key, and not newer than the timestamps already known, the loop keeps
    the last operation of every new key. *)
Lemma spec_loop_last l (T : gmap bytes Z) c :
  key_sorted l → (∀ op t, op ∈ l → T !! op_key op = Some t → time op ≤ t) →
  let s := foldl spec_step (∅, T) (rev l) in
  s.1 !! c = (match T !! c with Some _ => None | None => last_op l !! c end) ∧
  s.2 !! c = (match T !! c with Some t => Some t | None => time <$> last_op l !! c end).
Proof.
  revert c. induction l as [|op l IH]; intros c Hs HT; cbn [rev last_op foldl].
  { split; [rewrite lookup_empty|cbn; rewrite lookup_empty]; by destruct (T !! c). }
  destruct Hs as [Ho Hs]. rewrite foldl_app. cbn [foldl].
  assert (∀ op t, op ∈ l → T !! op_key op = Some t → time op ≤ t) as HT' by (intros; apply (HT op0); [by right|done]).
  pose proof (λ c, IH c Hs HT') as IHc. clear IH. cbn zeta in IHc. set (s := foldl spec_step (∅, T) (rev l)) in *.
  assert (∀ t, s.2 !! op_key op = Some t → time op ≤ t) as Hle.
  { intros t Ht. rewrite (proj2 (IHc (op_key op))) in Ht. destruct (T !! op_key op) as [t'|] eqn:ET.
    - injection Ht as ->. apply (HT op); [by left|done].
    - destruct (last_op l !! op_key op) as [op'|] eqn:EL; [|done]. injection Ht as <-.
      apply last_op_elem in EL as [Hin E]. by apply Ho. }
  rewrite lookup_union. unfold spec_step. destruct (s.2 !! op_key op) as [t|] eqn:Et.
  - destruct (Z.ltb_spec t (time op)); [specialize (Hle t eq_refl); lia|]. rewrite (proj1 (IHc c)), (proj2 (IHc c)).
    rewrite (proj2 (IHc (op_key op))) in Et.
    destruct (decide (op_key op = c)) as [<-|Hne].
    + destruct (T !! op_key op); [done|]. destruct (last_op l !! op_key op); [|done]. by rewrite union_Some_l.
    + rewrite lookup_singleton_ne by done. by destruct (T !! c), (last_op l !! c).
  - cbn [fst snd]. destruct (decide (op_key op = c)) as [<-|Hne].
    + rewrite !lookup_insert_eq, lookup_singleton_eq. rewrite (proj2 (IHc (op_key op))) in Et.
      destruct (T !! op_key op); [done|]. destruct (last_op l !! op_key op); [done|]. done.
    + rewrite !lookup_insert_ne, lookup_singleton_ne by done. rewrite (proj1 (IHc c)), (proj2 (IHc c)).
      by destruct (T !! c), (last_op l !! c).
Qed.

(** What one call of [compact] appends and records. *)
Lemma compact_last l out ts :
  map_ok ts → Forall keyed l → key_sorted l →
  (∀ op t, op ∈ l → contents ts !! op_key op = Some t → time op ≤ t) →
  ∃ m ts', compact l out ts = Ret (out ++ m.*2, ts') ∧ map_ok m ∧ map_ok ts' ∧
    (∀ c, contents m !! c = match contents ts !! c with Some _ => None | None => last_op l !! c end) ∧
    (∀ c, contents ts' !! c = match contents ts !! c with Some t => Some t | None => time <$> last_op l !! c end).
Proof.
  intros Hts Hk Hs HT. unfold compact.
  destruct (compact_loop_spec (rev l) [] ts) as (m & ts' & E & Hm & Hts' & Ec).
  { by split; [constructor|constructor]. } { done. } { apply Forall_rev. done. }
  rewrite E. cbn [obind]. exists m, ts'. split_and!; [done..| |];
    intros c; destruct (spec_loop_last l (contents ts) c Hs HT) as [H1 H2];
    change (contents []) with (∅ : gmap bytes OperationBody.t) in Ec; rewrite <- Ec in H1, H2; done.
Qed.

Lemma map_ok_nil {V} : map_ok ([] : list (SimpleString.t * V)).
Proof. by split; constructor. Qed.

Lemma contents_nil {V} c : contents ([] : list (SimpleString.t * V)) !! c = None.
Proof. apply lookup_empty. Qed.

(** The single-threaded compaction of a log. *)
Lemma compact_single l :
  Forall keyed l → key_sorted l → ∃ res ts, compact l [] [] = Ret (res, ts) ∧ res ≡ₚ values (last_op l).
Proof.
  intros Hk Hs. destruct (compact_last l [] [] map_ok_nil Hk Hs) as (m & ts & E & Hm & _ & Hc & _).
  { intros op t _. by rewrite contents_nil. }
  exists m.*2, ts. split; [done|]. rewrite contents_values by done.
  assert (contents m = last_op l) as ->; [|done]. apply map_eq. intros c. rewrite Hc. by rewrite contents_nil.
Qed.

Lemma values_union (m1 m2 : gmap bytes OperationBody.t) :
  m1 ##ₘ m2 → values (m1 ∪ m2) ≡ₚ values m1 ++ values m2.
Proof.
  intros Hd. rewrite <- fmap_app. apply fmap_Permutation. apply NoDup_Permutation.
  - apply NoDup_map_to_list.
  - apply NoDup_app. split_and!; [apply NoDup_map_to_list| |apply NoDup_map_to_list].
    intros [c op] H1%elem_of_map_to_list H2%elem_of_map_to_list. by eapply map_disjoint_spec in Hd.
  - intros [c op]. rewrite elem_of_app, !elem_of_map_to_list. by apply lookup_union_Some.
Qed.

(** Compacting the right half, then the left half against it. *)
Lemma merge_last l r :
  Forall keyed (l ++ r) → key_sorted (l ++ r) →
  ∃ res, (let! (compacted, ts) := compact r [] [] in
          let! (compacted, _) := compact l compacted ts in Ret compacted) = Ret res ∧
         res ≡ₚ values (last_op (l ++ r)).
Proof.
  intros [Hkl Hkr]%Forall_app (Hsl & Hsr & Hlr)%key_sorted_app.
  destruct (compact_last r [] [] map_ok_nil Hkr Hsr) as (mr & tsr & Er & Hmr & Htsr & Hcr & Htr).
  { intros op t _. by rewrite contents_nil. }
  assert (contents mr = last_op r) as Emr by (apply map_eq; intros c; by rewrite Hcr, contents_nil).
  assert (∀ c, contents tsr !! c = time <$> last_op r !! c) as Etr by (intros c; by rewrite Htr, contents_nil).
  destruct (compact_last l ([] ++ mr.*2) tsr Htsr Hkl Hsl) as (ml & tsl & El & Hml & _ & Hcl & _).
  { intros op t Hin. rewrite Etr. intros (op' & Ht & E)%fmap_Some. subst t.
    apply last_op_elem in Ht as [Hin' E']. by apply Hlr. }
  eexists. split; [rewrite Er; cbn [obind]; rewrite El; cbn [obind]; reflexivity|].
  rewrite last_op_app, app_nil_l, !contents_values, Emr by done.
  assert (last_op r ##ₘ contents ml) as Hd.
  { apply map_disjoint_spec. intros c a b Ha Hb. rewrite Hcl, Etr, Ha in Hb. done. }
  rewrite <- values_union by done. f_equiv. apply reflexive_eq. f_equal. apply map_eq. intros c.
  rewrite !lookup_union, Hcl, Etr. by destruct (last_op r !! c), (last_op l !! c).
Qed.

(** A permutation of the last operations has the same last operations. *)
Lemma last_op_values l r : l ≡ₚ values (last_op r) → last_op l = last_op r ∧ key_sorted l ∧ ∀ op, op ∈ l → op ∈ r.
Proof.
  intros Hp.
  assert (∀ op, op ∈ l ↔ last_op r !! op_key op = Some op) as Hin.
  { intros op. rewrite Hp, list_elem_of_fmap. split.
    - intros ([c op'] & -> & Hc%elem_of_map_to_list). simpl. by destruct (last_op_elem _ _ _ Hc) as [_ ->].
    - intros Hc. exists (op_key op, op). split; [done|]. by apply elem_of_map_to_list. }
  split_and!.
  - apply map_eq. intros c. apply option_eq. intros op. split.
    + intros [Ho <-]%last_op_elem. by apply Hin.
    + intros Hc. destruct (last_op_elem _ _ _ Hc) as [_ <-]. apply Hin in Hc.
      destruct (last_op_Some _ _ Hc) as [op' E]. rewrite E.
      apply last_op_elem in E as [Ho E]. apply Hin in Ho. rewrite E in Ho. apply Hin in Hc. congruence.
  - apply key_sorted_NoDup.
    assert (op_key <$> l ≡ₚ (map_to_list (last_op r)).*1) as ->; [|apply NoDup_fst_map_to_list].
    rewrite Hp, <- list_fmap_compose. apply reflexive_eq, list_fmap_ext. intros i [c op] Hi.
    apply list_elem_of_lookup_2, elem_of_map_to_list, last_op_elem in Hi as [_ Hi]. done.
  - intros op Ho%Hin. by apply last_op_elem in Ho as [? _].
Qed.

(** ** The tree of blocks *)

Import MultiThreadedLogCompactor.

Section tree.
Context (u : list OperationBody.t) (total : nat).

(** The boundary before block [j], and the operations of the blocks from [i] up to [j]. *)
Definition bound (j : nat) : nat :=
  if decide (j = total) then length u else (length u / total * j)%nat.
Definition blocks (i j : nat) : list OperationBody.t := take (bound j - bound i) (drop (bound i) u).

Lemma bound_mono i j : (0 < total)%nat → (i ≤ j ≤ total)%nat → (bound i ≤ bound j)%nat.
Proof.
  intros Ht Hij. unfold bound. pose proof (Nat.Div0.mul_div_le (length u) total).
  destruct (decide (i = total)), (decide (j = total)); nia.
Qed.

Lemma blocks_app i j k :
  (0 < total)%nat → (i ≤ j)%nat → (j ≤ k ≤ total)%nat → blocks i j ++ blocks j k = blocks i k.
Proof.
  intros Ht Hij Hjk. unfold blocks.
  pose proof (bound_mono i j Ht ltac:(lia)). pose proof (bound_mono j k Ht ltac:(lia)).
  replace (bound k - bound i)%nat with ((bound j - bound i) + (bound k - bound j))%nat by lia.
  rewrite <- take_take_drop, drop_drop. do 3 f_equal. lia.
Qed.

(** What a subtree computes, from the operations [seg] of its leaves. *)
Record computes (seg res : list OperationBody.t) : Prop := {
  cp_last : last_op res = last_op seg;
  cp_sorted : key_sorted res;
  cp_sub : ∀ op, op ∈ res → op ∈ seg;
}.

Lemma get_inner b1 b2 l1 l2 seg1 seg2 :
  get b1 = Ret l1 → get b2 = Ret l2 → computes seg1 l1 → computes seg2 l2 →
  Forall keyed (seg1 ++ seg2) → key_sorted (seg1 ++ seg2) →
  ∃ res, get (inner b1 b2) = Ret res ∧ res ≡ₚ values (last_op (seg1 ++ seg2)).
Proof.
  intros E1 E2 [Hl1 Hs1 Hsub1] [Hl2 Hs2 Hsub2] Hk (_ & _ & H12)%key_sorted_app.
  destruct (merge_last l1 l2) as (res & E & Hres).
  - rewrite Forall_forall in Hk |- *. intros op [Hin|Hin]%elem_of_app; apply Hk; set_solver.
  - apply key_sorted_app. split_and!; [done..|]. intros a b Ha Hb. apply H12; auto.
  - exists res. split; [|by rewrite Hres, !last_op_app, Hl1, Hl2].
    cbn [get]. rewrite E1, E2. exact E.
Qed.

Lemma subtree_computes p i :
  (0 < total)%nat → ((i + 1) * 2 ^ p ≤ total)%nat → Forall keyed u → key_sorted u →
  let seg := blocks (i * 2 ^ p) ((i + 1) * 2 ^ p) in
  ∃ res, get (subtree p i u total) = Ret res ∧ computes seg res ∧ (p ≠ 0%nat → res ≡ₚ values (last_op seg)).
Proof.
  intros Ht Hle Hk Hs. revert i Hle. induction p as [|p IH]; intros i Hle.
  - exists (blocks i (i + 1)). rewrite Nat.pow_0_r in *. rewrite !Nat.mul_1_r. split; [|split; [|done]].
    + cbn [subtree]. unfold leaf, blocks, bound. cbn [get]. rewrite (decide_False (P := i = total)) by lia.
      by destruct (decide (i + 1 = total)%nat).
    + split; [done| |done]. unfold blocks.
      rewrite <- (take_drop (bound i) u) in Hs. apply key_sorted_app in Hs as (_ & Hs & _).
      rewrite <- (take_drop (bound (i + 1) - bound i) (drop (bound i) u)) in Hs.
      by apply key_sorted_app in Hs as [Hs _].
  - cbn [subtree].
    assert (2 ^ S p = 2 * 2 ^ p)%nat as Ep by (simpl; lia).
    assert (0 < 2 ^ p)%nat by (apply Nat.neq_0_lt_0, Nat.pow_nonzero; lia).
    destruct (IH (2 * i)%nat) as (l1 & E1 & C1 & _); [nia|].
    destruct (IH (2 * i + 1)%nat) as (l2 & E2 & C2 & _); [nia|].
    replace ((2 * i + 1 + 1) * 2 ^ p)%nat with ((i + 1) * 2 ^ S p)%nat in C2 by nia.
    replace (2 * i * 2 ^ p)%nat with (i * 2 ^ S p)%nat in C1 by nia.
    pose proof (blocks_app (i * 2 ^ S p) ((2 * i + 1) * 2 ^ p) ((i + 1) * 2 ^ S p) Ht ltac:(nia) ltac:(nia)) as Eb.
    assert (u = take (bound (i * 2 ^ S p)) u ++ blocks (i * 2 ^ S p) ((i + 1) * 2 ^ S p)
                ++ drop (bound ((i + 1) * 2 ^ S p)) u) as Eu.
    { unfold blocks. pose proof (bound_mono (i * 2 ^ S p) ((i + 1) * 2 ^ S p) Ht ltac:(nia)).
      rewrite <- (take_drop (bound (i * 2 ^ S p)) u) at 1. f_equal.
      rewrite <- (take_drop (bound ((i + 1) * 2 ^ S p) - bound (i * 2 ^ S p)) (drop _ u)) at 1.
      f_equal. rewrite drop_drop. f_equal. lia. }
    rewrite Eu in Hk, Hs. apply Forall_app in Hk as [_ [Hk _]%Forall_app].
    apply key_sorted_app in Hs as (_ & (Hs & _ & _)%key_sorted_app & _).
    rewrite <- Eb in Hk, Hs |- *.
    destruct (get_inner _ _ _ _ _ _ E1 E2 C1 C2 Hk Hs) as (res & E & Hp).
    exists res. split; [done|]. split; [|done].
    by destruct (last_op_values _ _ Hp) as (? & ? & ?).
Qed.

End tree.

(** The operations kept by the parallel compaction. *)
Lemma compact_multi n l :
  (0 < n)%nat → Forall keyed l → key_sorted l →
  ∃ res, MultiThreadedLogCompactor.compact n l = Ret res ∧ res ≡ₚ values (last_op l).
Proof.
  intros Hn Hk Hs. unfold MultiThreadedLogCompactor.compact, createCompactionTree.
  rewrite decide_False by lia. cbn [obind].
  replace (Nat.log2 n + 2 - 1)%nat with (S (Nat.log2 n)) by lia. set (p := S (Nat.log2 n)).
  assert (0 < 2 ^ p)%nat as Hp by (apply Nat.neq_0_lt_0, Nat.pow_nonzero; lia).
  destruct (subtree_computes l (2 ^ p) p 0) as (res & E & _ & Hres); [done|lia|done..|].
  exists res. split; [done|]. rewrite Hres by done. rewrite Nat.mul_0_l, Nat.mul_1_l.
  assert (blocks l (2 ^ p) 0 (2 ^ p) = l) as ->; [|done].
  unfold blocks, bound. rewrite decide_True by done. rewrite decide_False by lia.
  rewrite Nat.mul_0_r, Nat.sub_0_r. apply firstn_all.
Qed.

End last_operations.

(** C10: Compaction.  On a log whose keys end in a zero byte and whose operations on one key
    are in the order of their timestamps, the compaction keeps, for every key, exactly its
    last operation; the parallel compaction keeps the same operations as the sequential one,
    for any number of hardware threads and on either side of the threshold. *)
Theorem compaction_keeps_last n l :
  (0 < n)%nat → Forall keyed l → key_sorted l →
  ∃ single multi compacted ts,
    SingleThreadedLogCompacter.compact l [] [] = Ret (single, ts) ∧
    MultiThreadedLogCompactor.compact n l = Ret multi ∧
    OperationLogCompacter_compact n l = Ret compacted ∧
    single ≡ₚ (map_to_list (last_op l)).*2 ∧ multi ≡ₚ single ∧ compacted ≡ₚ single.
Proof.
  intros Hn Hk Hs. destruct (compact_single l Hk Hs) as (single & ts & E1 & P1).
  destruct (compact_multi n l Hn Hk Hs) as (multi & E2 & P2).
  exists single, multi, (if decide (10 < length l)%nat then multi else single), ts.
  unfold OperationLogCompacter_compact. rewrite E1, E2. cbn [obind].
  split_and!; [done..| |by rewrite P1|by rewrite P2, P1|]; destruct (decide _); try done; by rewrite P2, P1.
Qed.

(** A SET of the key "k" (with its terminator) at a timestamp. *)
Definition set_k (t : Z) : OperationBody.t :=
  OperationBody.mk (Some [SimpleString.of_bytes [107; 0]; SimpleString.of_bytes [t]]) t 1 1 false false.

Lemma set_k_keyed t : keyed (set_k t).
Proof.
  eexists _, _. split; [reflexivity|]. split; [simpl; set_solver|]. repeat constructor; lia.
Qed.

Lemma compaction_keeps_last_witness :
  ∃ multi, MultiThreadedLogCompactor.compact 4 (set_k <$> [1; 2; 3; 4; 5; 6; 7; 8; 9; 10; 11; 12]) = Ret multi ∧ multi ≡ₚ [set_k 12].
Proof.
  destruct (compaction_keeps_last 4 (set_k <$> [1; 2; 3; 4; 5; 6; 7; 8; 9; 10; 11; 12])) as (single & multi & _ & _ & _ & E & _ & P1 & P2 & _).
  - lia.
  - simpl. repeat constructor; apply set_k_keyed.
  - apply key_sorted_times. simpl. repeat (constructor; simpl); lia.
  - exists multi. split; [done|]. by rewrite P2, P1.
Defined.

(** Out of order, the newest operation of a key can be lost: the loop compares with the
    timestamp of the last operation of the log only, so of the timestamps 9, 5, 3 the one
    kept is 9, and of 5, 9, 3 it is 5. *)
Theorem compaction_out_of_order :
  OperationLogCompacter_compact 4 [set_k 9; set_k 5; set_k 3] = Ret [set_k 9] ∧
  OperationLogCompacter_compact 4 [set_k 5; set_k 9; set_k 3] = Ret [set_k 5].
Proof. split; reflexivity. Qed.
