(* ===== verification/Segments.v ===== *)
(** * Segments of the operation log

    Models [persistence/segments/] (descriptors and their (de)serializers, the index reader
    and writer, the index with its binary search by timestamp) and
    [utils/compression/Compressor.cpp].  zlib and boost's CRC are the class [Zlib]. *)

From stdpp Require Import sorting.
From S2P Require Import Prelude.
From S2P Require Import Utils.
From S2P Require Import Messages.
From S2P Require Import Codec.
From S2P Require Import Config.
From S2P Require Import Files.
From S2P Require Import Compaction.

(** ** Compression and checksums *)

(** [compress] and [uncompress] of zlib ([None] for an error code), and [boost::crc_32_type]. *)
Class Zlib := {
  compress : bytes → option bytes;
  uncompress : bytes → option bytes;
  crc_32 : bytes → Z;
}.

(** What zlib and the checksum document. *)
Class ZlibSpec `{Zlib} : Prop := {
  compress_uncompress b c : compress b = Some c → uncompress c = Some b;
  crc_32_range b : ufits 32 (crc_32 b);
  compress_bound b c : compress b = Some c →
    let n := Z.of_nat (length b) in Z.of_nat (length c) ≤ n + n / 4096 + n / 16384 + n / 33554432 + 13;
}.

Module Compressor.
Section compressor.
Context `{Zlib}.

(** [Compressor::compressBytes]. *)
Definition compressBytes (uncompressed : bytes) : option bytes := compress uncompressed.

(** [Compressor::uncompressBytes]: a buffer of the original size, too small an error. *)
Definition uncompressBytes (compressed : bytes) (originalSize : nat) : option bytes :=
  match uncompress compressed with
  | Some b => if decide (length b ≤ originalSize)%nat then Some (b ++ replicate (originalSize - length b) 0) else None
  | None => None
  end.

End compressor.
End Compressor.

(** ** Descriptors *)

Module OplogIndexSegmentDescriptor.

Record t := mk {
  min : Z;
  max : Z;
  ptr : Z;
  crc : Z;
  size : Z;
  uncompressedSize : Z;
  flags : Z;
}.

(** [sizeof(OplogIndexSegmentDescriptor)]. *)
Definition sizeof : Z := 40.

(** [OplogIndexSegmentDescriptorSerializer::serialize]. *)
Definition serialize (d : t) : bytes :=
  let bytes := Utils.appendToBuffer 8 (min d) [] in
  let bytes := Utils.appendToBuffer 8 (max d) bytes in
  let bytes := Utils.appendToBuffer 8 (ptr d) bytes in
  let bytes := Utils.appendToBuffer 4 (crc d) bytes in
  let bytes := Utils.appendToBuffer 4 (size d) bytes in
  let bytes := Utils.appendToBuffer 4 (uncompressedSize d) bytes in
  Utils.appendToBuffer 4 (flags d) bytes.

(** [OplogIndexSegmentDescriptorDeserializer::deserializeFromPtr]. *)
Definition deserializeFromPtr (ptr : bytes) : outcome t :=
  let! min := Utils.parse 8 false ptr in
  let! max := Utils.parse 8 false (drop 8 ptr) in
  let! p := Utils.parse 8 false (drop 16 ptr) in
  let! crc := Utils.parse 4 false (drop 24 ptr) in
  let! size := Utils.parse 4 false (drop 28 ptr) in
  let! uncompressedSize := Utils.parse 4 false (drop 32 ptr) in
  let! flags := Utils.parse 4 false (drop 36 ptr) in
  Ret (mk min max p crc size uncompressedSize flags).

(** [OplogIndexSegmentDescriptorDeserializer::deserialize]. *)
Definition deserialize (b : bytes) : outcome t := deserializeFromPtr b.

(** [OplogIndexSegmentDescriptorDeserializer::deserializeAll]. *)
Definition deserializeAll (b : bytes) : outcome (list t) :=
  ofoldl (λ deserialized i, let! d := deserializeFromPtr (drop (40 * i) b) in Ret (deserialized ++ [d]))
    [] (seq 0 (length b / 40)).

End OplogIndexSegmentDescriptor.
Abbreviation descriptor := OplogIndexSegmentDescriptor.t.

Module OplogIndexSegment.
Section files.
Context `{Platform} `{Zlib}.
(** The directory of the log, and the number of hardware threads. *)
Context (partitionPath : string) (numberThreads : nat).

Definition INDEX_FILE_NAME : string := "oplog-index".
Definition DATA_FILE_NAME : string := "oplog-data".
Definition fullPathIndex : string := path partitionPath INDEX_FILE_NAME.
Definition fullPathData : string := path partitionPath DATA_FILE_NAME.

(** ** [OplogIndexSegmentReader] *)

(** [OplogIndexSegmentReader::readIndexAt]. *)
Definition readIndexAt (ptr : Z) (s : fs) : outcome descriptor :=
  let! b := FileUtils.seekBytes fullPathIndex ptr OplogIndexSegmentDescriptor.sizeof s in
  OplogIndexSegmentDescriptor.deserialize b.

(** [OplogIndexSegmentReader::readAllIndexBetween]. *)
Definition readAllIndexBetween (fromPtr toPtr : Z) (s : fs) : outcome (list descriptor) :=
  if fromPtr =? toPtr then
    let! b := FileUtils.seekBytes fullPathIndex fromPtr OplogIndexSegmentDescriptor.sizeof s in
    OplogIndexSegmentDescriptor.deserializeAll b
  else if (toPtr <? fromPtr) || (toPtr - fromPtr <? OplogIndexSegmentDescriptor.sizeof) then Ret []
  else
    let toPtr := u64 (toPtr + OplogIndexSegmentDescriptor.sizeof) in
    let! b := FileUtils.seekBytes fullPathIndex fromPtr (u64 (toPtr - fromPtr)) s in
    OplogIndexSegmentDescriptor.deserializeAll b.

(** [OplogIndexSegmentReader::readAllIndexFrom]. *)
Definition readAllIndexFrom (ptr : Z) (s : fs) : outcome (list descriptor) :=
  let totalToRead := u64 (FileUtils.size partitionPath INDEX_FILE_NAME s - ptr) in
  let! b := FileUtils.seekBytes fullPathIndex ptr totalToRead s in
  OplogIndexSegmentDescriptor.deserializeAll b.

(** [OplogIndexSegmentReader::readAllIndex]. *)
Definition readAllIndex (s : fs) : outcome (list descriptor) :=
  OplogIndexSegmentDescriptor.deserializeAll (FileUtils.readBytes fullPathIndex s).

(** [OplogIndexSegmentReader::readBytesDataByDescriptor]; [None] is the error result. *)
Definition readBytesDataByDescriptor (d : descriptor) (s : fs) : outcome (option bytes) :=
  let! b := FileUtils.seekBytes fullPathData (OplogIndexSegmentDescriptor.ptr d) (OplogIndexSegmentDescriptor.size d) s in
  Ret (if crc_32 b =? OplogIndexSegmentDescriptor.crc d then Some b else None).

(** ** [OplogIndexSegmentWriter] *)

(** [std::sort] by timestamp; its order of equal timestamps is unspecified, here the stable one. *)
Definition by_timestamp (a b : OperationBody.t) : Prop := OperationBody.timestamp a ≤ OperationBody.timestamp b.
#[global] Instance by_timestamp_dec : RelDecision by_timestamp.
Proof. unfold by_timestamp. intros a b. apply _. Defined.

(** [OplogIndexSegmentWriter::write].  [writeLock], which [compacted.at(0)] leaves locked when it
    throws on an empty log, is not part of the state. *)
Definition write (toWrite : bytes) : stM fs () :=
  λ s,
    let! operations := OperationLogCodec.deserializeAll toWrite in
    let! compacted := OperationLogCompacter_compact numberThreads operations in
    let compacted := merge_sort by_timestamp compacted in
    let! compactedSerialized := OperationLogCodec.serializeAll compacted in
    let! compactedCompressedSerialized := of_option runtime_error (Compressor.compressBytes compactedSerialized) in
    let! first := at_throw compacted 0 in
    let! last := at_throw compacted (length compacted - 1) in
    let descriptorSerialized := OplogIndexSegmentDescriptor.serialize (OplogIndexSegmentDescriptor.mk
      (OperationBody.timestamp first) (OperationBody.timestamp last)
      (FileUtils.size partitionPath DATA_FILE_NAME s)
      (crc_32 compactedCompressedSerialized)
      (u32 (Z.of_nat (length compactedCompressedSerialized)))
      (u32 (Z.of_nat (length compactedSerialized))) 0) in
    let s := FileUtils.appendBytes fullPathData compactedCompressedSerialized s in
    let s := FileUtils.appendBytes fullPathIndex descriptorSerialized s in
    Ret (s, ()).

(** [OplogIndexSegmentWriter::updateCorruptedSegment]. *)
Definition writer_updateCorruptedSegment (uncompressedSize : Z) (indexSegmentDescriptorPtr : nat)
    (corruptedDescriptor : descriptor) (uncorruptedBytes : bytes) : stM fs () :=
  λ s,
    let d := OplogIndexSegmentDescriptor.mk
      (OplogIndexSegmentDescriptor.min corruptedDescriptor) (OplogIndexSegmentDescriptor.max corruptedDescriptor)
      (FileUtils.size partitionPath DATA_FILE_NAME s) (crc_32 uncorruptedBytes)
      (u32 (Z.of_nat (length uncorruptedBytes))) uncompressedSize
      (OplogIndexSegmentDescriptor.flags corruptedDescriptor) in
    let s := FileUtils.appendBytes fullPathData uncorruptedBytes s in
    FileUtils.writeBytesAt fullPathIndex indexSegmentDescriptorPtr (OplogIndexSegmentDescriptor.serialize d) s.

(** ** [OplogIndexSegment] *)

(** [OplogIndexSegment::save], [getAll], [getDataByDescriptorBytes]. *)
Definition save (toSave : bytes) : stM fs () := write toSave.
Definition getAll (s : fs) : outcome (list descriptor) := readAllIndex s.
Definition getDataByDescriptorBytes (d : descriptor) (s : fs) : outcome (option bytes) := readBytesDataByDescriptor d s.

(** The condition of the search loop, and whether the timestamp is higher. *)
Definition isHigher (timestamp : Z) (d : descriptor) : bool :=
  (OplogIndexSegmentDescriptor.min d <? timestamp) && (OplogIndexSegmentDescriptor.max d <? timestamp).
Definition isLower (timestamp : Z) (d : descriptor) : bool :=
  (timestamp <? OplogIndexSegmentDescriptor.min d) && (timestamp <? OplogIndexSegmentDescriptor.max d).

Definition halfUp (n : Z) : Z := if n mod 2 =? 0 then n / 2 else n / 2 + 1.

(** The loop of [OplogIndexSegment::binarySearchByTimestamp]. *)
Fixpoint search_loop (fuel : nat) (timestamp low high actual : Z) (actualDesc : descriptor) (s : fs) : outcome Z :=
  match fuel with
  | O => NoFuel
  | S fuel =>
      if negb (high =? low) && (isHigher timestamp actualDesc || isLower timestamp actualDesc) then
        let higher := isHigher timestamp actualDesc in
        let low := if higher then actual else low in
        let high := if higher then high else actual in
        let nDescriptors := u64 (high - low) / 40 in
        let nDescriptorHalf := u64 (low / 40 + (if nDescriptors =? 1 then 0 else halfUp nDescriptors)) in
        let actual := u64 (nDescriptorHalf * 40) in
        let! actualDesc := readIndexAt actual s in
        search_loop fuel timestamp low high actual actualDesc s
      else Ret actual
  end.

(** [OplogIndexSegment::binarySearchByTimestamp]; [None] when nothing is found. *)
Definition binarySearchByTimestamp (fuel : nat) (timestamp : Z) (s : fs) : outcome (option Z) :=
  let indexFileSize := FileUtils.size partitionPath INDEX_FILE_NAME s in
  if (indexFileSize =? 0) || (timestamp =? 0) then Ret None
  else
    let nDescriptorHalf := halfUp (indexFileSize / 40) in
    let actual := u64 (nDescriptorHalf * 40 - 40) in
    let! actualDesc := readIndexAt actual s in
    let! ptr := search_loop fuel timestamp 0 indexFileSize actual actualDesc s in
    Ret (Some ptr).

(** [OplogIndexSegment::getByAfterTimestamp]: the descriptors and the position of the first. *)
Definition getByAfterTimestamp (fuel : nat) (timestamp : Z) (s : fs) : outcome (list descriptor * Z) :=
  let! searchResult := binarySearchByTimestamp fuel timestamp s in
  let ptrToRead := default 0 searchResult in
  let! descriptors := readAllIndexFrom ptrToRead s in
  Ret (descriptors, ptrToRead).

(** [OplogSegmentBetweenTimestampsSearchResult]: exactly one of the three flags is set. *)
Inductive BetweenTimestamps :=
| resultsOnlyInIntermediate
| resultsInDescriptorsAndIntermediate (descriptorInitPtr : Z) (descriptors : list descriptor)
| resultsOnlyInSegments (descriptorInitPtr : Z) (descriptors : list descriptor).

(** [OplogIndexSegment::getBetweenTimestamps]. *)
Definition segment_getBetweenTimestamps (fuel : nat) (fromTimestamp toTimestamp : Z) (s : fs) : outcome BetweenTimestamps :=
  let! fromResult := binarySearchByTimestamp fuel fromTimestamp s in
  let! toResult := binarySearchByTimestamp fuel toTimestamp s in
  match fromResult, toResult with
  | None, None => Ret resultsOnlyInIntermediate
  | Some from, None => let! l := readAllIndexFrom from s in Ret (resultsInDescriptorsAndIntermediate from l)
  | Some from, Some to => let! l := readAllIndexBetween from to s in Ret (resultsOnlyInSegments from l)
  | None, Some _ => Throw runtime_error
  end.

(** [OplogIndexSegment::updateCorruptedSegment]. *)
Definition updateCorruptedSegment (uncorruptedBytes : bytes) (uncompressedSize : Z) (indexSegmentDescriptorPtr : nat) :
    stM fs () :=
  λ s,
    let! corruptedDescriptor := readIndexAt (Z.of_nat indexSegmentDescriptorPtr) s in
    writer_updateCorruptedSegment uncompressedSize indexSegmentDescriptorPtr corruptedDescriptor uncorruptedBytes s.

(** [OplogIndexSegment::clearAll]. *)
Definition clearAll (s : fs) : fs := FileUtils.clear fullPathData (FileUtils.clear fullPathIndex s).

(** [OplogIndexSegment::initializeFiles]. *)
Definition initializeFiles (memdDbBasePath : string) : stM fs () :=
  λ s,
    let s := if FileUtils.exists_ memdDbBasePath s then s else FileUtils.createDirectory memdDbBasePath s in
    let s := if FileUtils.exists_ partitionPath s then s else FileUtils.createDirectory partitionPath s in
    let! (s, _) := if FileUtils.exists_ fullPathIndex s then Ret (s, ())
                   else FileUtils.createFile partitionPath INDEX_FILE_NAME s in
    if FileUtils.exists_ fullPathData s then Ret (s, ())
    else FileUtils.createFile partitionPath DATA_FILE_NAME s.

End files.
End OplogIndexSegment.

(** ** Reading the index *)

Section index.
Context (dir : string).
Implicit Types (d : descriptor) (ds : list descriptor) (s : fs).
Import OplogIndexSegmentDescriptor.

Record desc_ok d : Prop := {
  do_min : ufits 64 (min d);
  do_max : ufits 64 (max d);
  do_ptr : ufits 64 (ptr d);
  do_crc : ufits 32 (crc d);
  do_size : ufits 32 (size d);
  do_uncompressed : ufits 32 (uncompressedSize d);
  do_flags : ufits 32 (flags d);
}.

Lemma serialize_bytes d :
  serialize d = be_bytes 8 (min d) ++ be_bytes 8 (max d) ++ be_bytes 8 (ptr d) ++ be_bytes 4 (crc d)
                ++ be_bytes 4 (size d) ++ be_bytes 4 (uncompressedSize d) ++ be_bytes 4 (flags d).
Proof. unfold serialize. rewrite !appendToBuffer_be, app_nil_l. by rewrite <- !app_assoc. Qed.

Lemma length_serialize d : length (serialize d) = 40%nat.
Proof. rewrite serialize_bytes. by rewrite !length_app, !length_be_bytes. Qed.

Lemma parse_word n pre v post b k :
  b = pre ++ be_bytes n v ++ post → k = length pre → (0 < n)%nat → ufits (8 * Z.of_nat n) v →
  Utils.parse n false (drop k b) = Ret v.
Proof.
  intros -> -> Hn Hv. rewrite drop_app_length, parse_be_bytes by done. unfold Utils.to_T. by rewrite wrap_small.
Qed.

Lemma deserialize_serialize d rest : desc_ok d → deserializeFromPtr (serialize d ++ rest) = Ret d.
Proof.
  intros D. rewrite serialize_bytes, <- !app_assoc. unfold deserializeFromPtr.
  set (b := be_bytes 8 (min d) ++ _).
  pose proof (λ n pre v post k, parse_word n pre v post b k) as P.
  rewrite <- (drop_0 b) at 1.
  erewrite (P 8%nat [] (min d)) by (reflexivity || lia || apply D). cbn [obind].
  erewrite (P 8%nat (be_bytes 8 (min d)) (max d)) by (reflexivity || lia || apply D). cbn [obind].
  erewrite (P 8%nat (be_bytes 8 (min d) ++ be_bytes 8 (max d)) (ptr d));
    [|unfold b; by rewrite <- !app_assoc|done|lia|apply D]. cbn [obind].
  erewrite (P 4%nat (be_bytes 8 (min d) ++ be_bytes 8 (max d) ++ be_bytes 8 (ptr d)) (crc d));
    [|unfold b; by rewrite <- !app_assoc|done|lia|apply D]. cbn [obind].
  erewrite (P 4%nat (be_bytes 8 (min d) ++ be_bytes 8 (max d) ++ be_bytes 8 (ptr d) ++ be_bytes 4 (crc d)) (size d));
    [|unfold b; by rewrite <- !app_assoc|done|lia|apply D]. cbn [obind].
  erewrite (P 4%nat (be_bytes 8 (min d) ++ be_bytes 8 (max d) ++ be_bytes 8 (ptr d) ++ be_bytes 4 (crc d)
      ++ be_bytes 4 (size d)) (uncompressedSize d));
    [|unfold b; by rewrite <- !app_assoc|done|lia|apply D]. cbn [obind].
  erewrite (P 4%nat (be_bytes 8 (min d) ++ be_bytes 8 (max d) ++ be_bytes 8 (ptr d) ++ be_bytes 4 (crc d)
      ++ be_bytes 4 (size d) ++ be_bytes 4 (uncompressedSize d)) (flags d));
    [|unfold b; by rewrite <- !app_assoc|done|lia|apply D]. cbn [obind]. by destruct d.
Qed.

Abbreviation index_bytes ds := (concat (serialize <$> ds)).

Lemma length_index ds : length (index_bytes ds) = (40 * length ds)%nat.
Proof.
  induction ds as [|d ds IH]; [done|]. cbn [fmap list_fmap concat]. rewrite length_app, length_serialize, IH. simpl. lia.
Qed.

Lemma drop_index ds i : (i ≤ length ds)%nat → drop (40 * i) (index_bytes ds) = index_bytes (drop i ds).
Proof.
  revert i. induction ds as [|d ds IH]; intros [|i] Hi; simpl in Hi; [done|lia|done|].
  cbn [fmap list_fmap concat drop]. rewrite <- (IH i) by lia.
  replace (40 * S i)%nat with (length (serialize d) + 40 * i)%nat by (rewrite length_serialize; lia).
  by rewrite drop_app_add.
Qed.

(** All the descriptors of a whole number of records. *)
Lemma deserializeAll_index ds : Forall desc_ok ds → deserializeAll (index_bytes ds) = Ret ds.
Proof.
  intros Hds. unfold deserializeAll. rewrite length_index, (Nat.mul_comm 40), Nat.div_mul by done.
  assert (∀ k acc, (k ≤ length ds)%nat → 
    ofoldl (λ deserialized i, let! d := deserializeFromPtr (drop (40 * i) (index_bytes ds)) in Ret (deserialized ++ [d]))
      acc (seq (length ds - k) k) = Ret (acc ++ drop (length ds - k) ds)) as G.
  { induction k as [|k IH]; intros acc Hk.
    - rewrite Nat.sub_0_r, drop_all, app_nil_r. done.
    - cbn [seq ofoldl]. rewrite drop_index by lia.
      destruct (lookup_lt_is_Some_2 ds (length ds - S k)) as [d Hd]; [lia|].
      rewrite (drop_S _ _ _ Hd). cbn [fmap list_fmap concat].
      rewrite deserialize_serialize by (by rewrite Forall_lookup in Hds; eapply Hds). cbn [obind].
      replace (S (length ds - S k)) with (length ds - k)%nat by lia. rewrite IH by lia. by rewrite <- app_assoc. }
  specialize (G (length ds) [] (le_n _)). by rewrite Nat.sub_diag in G.
Qed.

Definition has_index s ds : Prop :=
  files s !! OplogIndexSegment.fullPathIndex dir = Some (index_bytes ds) ∧ Forall desc_ok ds
  ∧ 40 * Z.of_nat (length ds) < 2 ^ 63.

Lemma readIndexAt_ok s ds i d :
  has_index s ds → ds !! i = Some d → OplogIndexSegment.readIndexAt dir (40 * Z.of_nat i) s = Ret d.
Proof.
  intros (Hf & Hds & Hsz) Hd. unfold OplogIndexSegment.readIndexAt, sizeof.
  pose proof (lookup_lt_Some _ _ _ Hd) as Hi.
  replace (40 * Z.of_nat i) with (Z.of_nat (40 * i)) by lia. change 40 with (Z.of_nat 40).
  rewrite (seekBytes_inside _ _ _ _ _ Hf); [|rewrite length_index; lia|lia]. cbn [obind].
  rewrite drop_index by lia. rewrite (drop_S _ _ _ Hd). cbn [fmap list_fmap concat].
  rewrite take_app_le by (rewrite length_serialize; lia).
  rewrite firstn_all2 by (rewrite length_serialize; lia). unfold deserialize.
  rewrite <- (app_nil_r (serialize d)). apply deserialize_serialize. rewrite Forall_lookup in Hds. eauto.
Qed.

Lemma readAllIndex_ok s ds : has_index s ds → OplogIndexSegment.readAllIndex dir s = Ret ds.
Proof.
  intros (Hf & Hds & _). unfold OplogIndexSegment.readAllIndex, FileUtils.readBytes. rewrite Hf.
  by apply deserializeAll_index.
Qed.

Lemma readAllIndexFrom_ok s ds i :
  has_index s ds → (i ≤ length ds)%nat → OplogIndexSegment.readAllIndexFrom dir (40 * Z.of_nat i) s = Ret (drop i ds).
Proof.
  intros (Hf & Hds & Hsz) Hi. unfold OplogIndexSegment.readAllIndexFrom.
  rewrite (size_file _ _ _ _ Hf), length_index, wrap_small by (unfold ufits; lia).
  replace (Z.of_nat (40 * length ds) - 40 * Z.of_nat i) with (Z.of_nat (40 * (length ds - i))) by lia.
  replace (40 * Z.of_nat i) with (Z.of_nat (40 * i)) by lia.
  rewrite (seekBytes_inside _ _ _ _ _ Hf); [|rewrite length_index; lia|lia]. cbn [obind].
  rewrite drop_index by done. rewrite firstn_all2 by (rewrite length_index, length_drop; lia).
  apply deserializeAll_index. by apply Forall_drop.
Qed.

End index.

(** ** The binary search *)

(** The record probed next, from the bounds [L] and [H]. *)
Definition probe (L H : Z) : Z := L + (if H - L =? 1 then 0 else OplogIndexSegment.halfUp (H - L)).

Lemma halfUp_range x : 2 ≤ x → 1 ≤ OplogIndexSegment.halfUp x < x.
Proof.
  intros Hx. unfold OplogIndexSegment.halfUp. pose proof (Z.div_mod x 2 ltac:(lia)). pose proof (Z.mod_pos_bound x 2 ltac:(lia)).
  destruct (Z.eqb_spec (x mod 2) 0); lia.
Qed.

Lemma halfUp_0 : OplogIndexSegment.halfUp 0 = 0.
Proof. done. Qed.

(** The probe stays inside, strictly unless the bounds are adjacent. *)
Lemma probe_range L H : L < H → L ≤ probe L H < H ∧ (L + 1 < H → L < probe L H).
Proof.
  intros HLH. unfold probe. destruct (Z.eqb_spec (H - L) 1); [lia|]. pose proof (halfUp_range (H - L)). lia.
Qed.

Lemma probe_empty L : probe L L = L.
Proof. unfold probe. rewrite Z.sub_diag. cbn. rewrite halfUp_0. lia. Qed.

Section search.
Context (dir : string) (s : fs) (ds : list descriptor) (I : has_index dir s ds).
Implicit Types (L H A : Z) (d : descriptor).
Import OplogIndexSegmentDescriptor OplogIndexSegment.

Let n : Z := Z.of_nat (length ds).

(** Segments are in time order: each ends before the next begins. *)
Definition segments_sorted : Prop :=
  (∀ i d, ds !! i = Some d → min d ≤ max d) ∧
  (∀ i j d e, (i < j)%nat → ds !! i = Some d → ds !! j = Some e → max d < min e).

Lemma desc_at A : 0 ≤ A < n → ∃ d, ds !! Z.to_nat A = Some d ∧ readIndexAt dir (40 * A) s = Ret d.
Proof.
  intros HA. destruct (lookup_lt_is_Some_2 ds (Z.to_nat A)) as [d Hd]; [unfold n in *; lia|].
  exists d. split; [done|]. rewrite <- (readIndexAt_ok dir s ds (Z.to_nat A) d I Hd). f_equal. lia.
Qed.

(** One iteration on record numbers. *)
Lemma search_step fuel ts L H A d :
  0 ≤ L ≤ H → H ≤ n → 0 ≤ A < n → (isHigher ts d = true → A ≤ H) → (isLower ts d = true → L ≤ A) →
  H ≠ L → isHigher ts d || isLower ts d = true →
  let L' := if isHigher ts d then A else L in
  let H' := if isHigher ts d then H else A in
  probe L' H' < n →
  ∃ d', ds !! Z.to_nat (probe L' H') = Some d' ∧
    search_loop dir (S fuel) ts (40 * L) (40 * H) (40 * A) d s
    = search_loop dir fuel ts (40 * L') (40 * H') (40 * probe L' H') d' s.
Proof.
  intros HL HH HA Hhi Hlo Hne Hc L' H' Hp.
  assert (0 ≤ L' ≤ H' ∧ H' ≤ n) as [HL' HH'].
  { unfold L', H'. destruct (isHigher ts d) eqn:E; [specialize (Hhi eq_refl); lia|].
    simpl in Hc. specialize (Hlo Hc). lia. }
  assert (0 ≤ probe L' H') as Hp0.
  { destruct (decide (L' = H')) as [->|]; [rewrite probe_empty; lia|]. pose proof (probe_range L' H'). lia. }
  destruct (desc_at (probe L' H') ltac:(lia)) as (d' & Hd' & Er).
  pose proof I as (_ & _ & Hsz). fold n in Hsz.
  exists d'. split; [done|]. cbn [search_loop].
  destruct (Z.eqb_spec (40 * H) (40 * L)); [lia|]. rewrite Hc. cbn [negb andb].
  assert ((if isHigher ts d then 40 * A else 40 * L) = 40 * L') as -> by (unfold L'; by destruct (isHigher ts d)).
  assert ((if isHigher ts d then 40 * H else 40 * A) = 40 * H') as -> by (unfold H'; by destruct (isHigher ts d)).
  rewrite (wrap_small 64 (40 * H' - 40 * L')) by (unfold ufits; lia).
  replace (40 * H' - 40 * L') with ((H' - L') * 40) by lia. rewrite Z.div_mul by lia.
  replace (40 * L' / 40) with L' by (rewrite Z.mul_comm, Z.div_mul; lia). fold (probe L' H').
  rewrite (wrap_small 64 (probe L' H')) by (unfold ufits; lia).
  rewrite (Z.mul_comm (probe L' H')). rewrite wrap_small by (unfold ufits; lia). by rewrite Er.
Qed.

Lemma search_stop fuel ts L H A d :
  H = L ∨ isHigher ts d || isLower ts d = false →
  search_loop dir (S fuel) ts (40 * L) (40 * H) (40 * A) d s = Ret (40 * A).
Proof.
  intros Hs. cbn [search_loop]. destruct (Z.eqb_spec (40 * H) (40 * L)); [done|]. cbn [negb andb].
  destruct Hs as [-> | ->]; [lia|done].
Qed.

Context (Sd : segments_sorted) (ts : Z).

Lemma position i d : ds !! i = Some d →
  (max d < ts → isHigher ts d = true) ∧ (ts < min d → isHigher ts d = false ∧ isLower ts d = true) ∧
  (min d ≤ ts ≤ max d → isHigher ts d || isLower ts d = false).
Proof.
  intros Hd. apply Sd in Hd. unfold isHigher, isLower. repeat split; intros; 
    repeat match goal with |- context [?a <? ?b] => destruct (Z.ltb_spec a b) end; simpl; lia || done.
Qed.

(** The order of the records decides the side of a probe. *)
Lemma record_order i j d e : ds !! i = Some d → ds !! j = Some e → (i < j)%nat → min d ≤ max d ∧ max d < min e ∧ min e ≤ max e.
Proof. intros Hd He Hij. pose proof (proj1 Sd _ _ Hd). pose proof (proj1 Sd _ _ He). pose proof (proj2 Sd _ _ _ _ Hij Hd He). lia. Qed.

(** A timestamp inside record [t]: once the probe is strictly inside the bounds. *)
Lemma search_inside fuel (t : nat) d L H A e :
  ds !! t = Some d → min d ≤ ts ≤ max d → ds !! Z.to_nat A = Some e → 0 ≤ A →
  0 ≤ L ≤ Z.of_nat t → Z.of_nat t < H ≤ n → A = Z.of_nat t ∨ L < A < H → H - L < Z.of_nat fuel →
  search_loop dir fuel ts (40 * L) (40 * H) (40 * A) e s = Ret (40 * Z.of_nat t).
Proof.
  intros Hd Hts. revert L H A e. induction fuel as [|fuel IH]; intros L H A e He HA HL HH Hin Hf; [lia|].
  pose proof (lookup_lt_Some _ _ _ He). pose proof (position _ _ He) as (Hhi & Hlo & Hmid).
  destruct (Z.lt_trichotomy A (Z.of_nat t)) as [Hlt|[->|Hgt]].
  - assert (isHigher ts e = true) as Eh.
    { apply Hhi. pose proof (record_order (Z.to_nat A) t e d He Hd ltac:(lia)). lia. }
    destruct (probe_range A H) as [Hpr Hpr2]; [lia|].
    destruct (search_step fuel ts L H A e) as (e' & He' & ->); rewrite ?Eh; simpl; try done; try (unfold n in *; lia).
    rewrite Eh in He'. apply IH; [done|lia|lia|lia|lia|lia].
  - rewrite Nat2Z.id in He. rewrite Hd in He. injection He as ->. rewrite search_stop by (right; auto). done.
  - pose proof (record_order t (Z.to_nat A) d e Hd He ltac:(lia)) as Ho.
    destruct Hlo as [Eh El]; [lia|]. destruct (probe_range L A) as [Hpr Hpr2]; [lia|].
    destruct (search_step fuel ts L H A e) as (e' & He' & ->); rewrite ?Eh, ?El; simpl; try done; try (unfold n in *; lia).
    rewrite Eh in He'. apply IH; [done|lia|lia|lia| |lia].
    destruct (decide (A = L + 1)); [left; unfold probe; replace (A - L) with 1 by lia; simpl; lia|lia].
Qed.

(** A timestamp before the first record: the bounds close on record 0. *)
Lemma search_before fuel H A e :
  (∀ i d, ds !! i = Some d → ts < min d) → ds !! Z.to_nat A = Some e → 0 ≤ A → 0 ≤ H ≤ n →
  (H = 0 → A = 0) → A + 1 < Z.of_nat fuel →
  search_loop dir fuel ts (40 * 0) (40 * H) (40 * A) e s = Ret 0.
Proof using I Sd.
  intros Hall. revert H A e. induction fuel as [|fuel IH]; intros H A e He HA HH H0 Hf; [lia|].
  pose proof (lookup_lt_Some _ _ _ He).
  destruct (decide (H = 0)) as [->|HH0]; [rewrite search_stop by (by left); rewrite H0; done|].
  destruct (position _ _ He) as (_ & Hlo & _). destruct Hlo as [Eh El]; [eauto|].
  assert (probe 0 A < n ∧ 0 ≤ probe 0 A ∧ (A = 0 → probe 0 A = 0) ∧ (0 < A → probe 0 A < A)) as (Hp1 & Hp0 & Hp2 & Hp3).
  { destruct (decide (A = 0)) as [->|]; [rewrite probe_empty; unfold n; lia|].
    pose proof (probe_range 0 A). unfold n in *. lia. }
  destruct (search_step fuel ts 0 H A e) as (e' & He' & ->); rewrite ?Eh, ?El; simpl; try done; try (unfold n in *; lia).
  rewrite Eh in He'. destruct (decide (A = 0)) as [->|].
  - rewrite Hp2 by done. destruct fuel; [lia|]. by rewrite search_stop by (by left).
  - apply IH; [done|unfold n in *; lia..].
Qed.

(** A timestamp after record [t] and before the next one, if any: the bounds never meet. *)
Lemma search_gap fuel (t : nat) d L H A e :
  ds !! t = Some d → max d < ts → (∀ i e, (t < i)%nat → ds !! i = Some e → ts < min e) →
  ds !! Z.to_nat A = Some e → 0 ≤ A → 0 ≤ L ≤ Z.of_nat t → Z.of_nat t < H ≤ n → L ≤ A ≤ H →
  search_loop dir fuel ts (40 * L) (40 * H) (40 * A) e s = NoFuel.
Proof using I Sd.
  intros Hd Hts Hnext. revert L H A e. induction fuel as [|fuel IH]; intros L H A e He HA HL HH Hin; [done|].
  pose proof (lookup_lt_Some _ _ _ He). pose proof (lookup_lt_Some _ _ _ Hd).
  destruct (position _ _ He) as (Hhi & Hlo & _).
  destruct (decide (A ≤ Z.of_nat t)) as [HAt|HAt].
  - assert (isHigher ts e = true) as Eh.
    { apply Hhi. destruct (decide (A = Z.of_nat t)) as [->|].
      - rewrite Nat2Z.id, Hd in He. injection He as ->. done.
      - pose proof (record_order (Z.to_nat A) t e d He Hd ltac:(lia)). lia. }
    destruct (probe_range A H) as [Hpr Hpr2]; [lia|].
    destruct (search_step fuel ts L H A e) as (e' & He' & ->); rewrite ?Eh; simpl; try done; try (unfold n in *; lia).
    rewrite Eh in He'. apply IH; [done|lia..].
  - destruct Hlo as [Eh El]; [eapply Hnext; [|done]; lia|]. destruct (probe_range L A) as [Hpr Hpr2]; [lia|].
    destruct (search_step fuel ts L H A e) as (e' & He' & ->); rewrite ?Eh, ?El; simpl; try done; try (unfold n in *; lia).
    rewrite Eh in He'. apply IH; [done|lia..].
Qed.

(** The first probe, of a non-empty index. *)
Lemma search_start fuel :
  ds ≠ [] → ts ≠ 0 →
  ∃ A d, 0 ≤ A < n ∧ ds !! Z.to_nat A = Some d ∧
    binarySearchByTimestamp dir fuel ts s
    = (let! ptr := search_loop dir fuel ts (40 * 0) (40 * n) (40 * A) d s in Ret (Some ptr)).
Proof using I.
  intros Hne Hts. pose proof I as (Hf & _ & Hsz). fold n in Hsz.
  assert (0 < n) as Hn by (unfold n; destruct ds; [done|simpl; lia]).
  assert (1 ≤ halfUp n ≤ n) as Hh.
  { destruct (decide (n = 1)) as [E1|]; [rewrite E1; vm_compute; split; discriminate|].
    pose proof (halfUp_range n). lia. }
  destruct (desc_at (halfUp n - 1) ltac:(lia)) as (d & Hd & Er).
  exists (halfUp n - 1), d. split; [lia|]. split; [done|].
  unfold binarySearchByTimestamp. rewrite (size_file _ _ _ _ Hf), length_index.
  replace (Z.of_nat (40 * length ds)) with (n * 40) by (unfold n; lia).
  destruct (Z.eqb_spec (n * 40) 0); [lia|]. destruct (Z.eqb_spec ts 0); [done|]. cbn [orb].
  rewrite Z.div_mul by lia. rewrite wrap_small by (unfold ufits; lia).
  replace (halfUp n * 40 - 40) with (40 * (halfUp n - 1)) by lia. rewrite Er. cbn [obind].
  by rewrite (Z.mul_comm n).
Qed.

End search.

(** C17: The binary search by timestamp over an index of segments in time order.  A timestamp
    inside a segment finds that segment, one before the first segment finds the beginning,
    within as many iterations as there are segments and two; but a timestamp between two
    segments, or after the last one, makes the loop run for ever. *)
Theorem binary_search_outcome dir s ds ts :
  has_index dir s ds → segments_sorted ds → 0 < ts →
  let search fuel := OplogIndexSegment.binarySearchByTimestamp dir fuel ts s in
  (∀ t d fuel, ds !! t = Some d →
     OplogIndexSegmentDescriptor.min d ≤ ts ≤ OplogIndexSegmentDescriptor.max d → (length ds + 2 ≤ fuel)%nat →
     search fuel = Ret (Some (40 * Z.of_nat t))) ∧
  (∀ fuel, ds ≠ [] → (∀ i d, ds !! i = Some d → ts < OplogIndexSegmentDescriptor.min d) → (length ds + 2 ≤ fuel)%nat →
     search fuel = Ret (Some 0)) ∧
  (∀ t d fuel, ds !! t = Some d → OplogIndexSegmentDescriptor.max d < ts →
     (∀ i e, (t < i)%nat → ds !! i = Some e → ts < OplogIndexSegmentDescriptor.min e) → search fuel = NoFuel).
Proof.
  intros I Sd Hts search. split_and!.
  - intros t d fuel Hd Hin Hf. pose proof (lookup_lt_Some _ _ _ Hd) as Ht.
    destruct (search_start dir s ds I ts fuel) as (A & e & HA & He & E); [by destruct ds|lia|].
    unfold search. rewrite E. destruct fuel as [|fuel]; [lia|].
    pose proof (position ds Sd ts _ _ He) as (Hhi & Hlo & _).
    destruct (Z.lt_trichotomy A (Z.of_nat t)) as [Hlt|[->|Hgt]].
    + assert (isHigherE : OplogIndexSegment.isHigher ts e = true).
      { apply Hhi. pose proof (record_order ds Sd (Z.to_nat A) t e d He Hd ltac:(lia)). lia. }
      destruct (probe_range A (Z.of_nat (length ds))) as [Hpr Hpr2]; [lia|].
      destruct (search_step dir s ds I fuel ts 0 (Z.of_nat (length ds)) A e) as (e' & He' & ->);
        rewrite ?isHigherE; simpl; try done; try lia.
      rewrite isHigherE in He'. erewrite (search_inside dir s ds I Sd ts fuel t d); [done|done|done|done|lia..].
    + erewrite (search_inside dir s ds I Sd ts (S fuel) t d); [done|done|done|done|lia..].
    + pose proof (record_order ds Sd t (Z.to_nat A) d e Hd He ltac:(lia)) as Ho. destruct Hlo as [Eh El]; [lia|].
      destruct (probe_range 0 A) as [Hpr Hpr2]; [lia|].
      destruct (search_step dir s ds I fuel ts 0 (Z.of_nat (length ds)) A e) as (e' & He' & ->);
        rewrite ?Eh, ?El; simpl; try done; try lia.
      rewrite Eh in He'. erewrite (search_inside dir s ds I Sd ts fuel t d); [done|done|done|done|lia|lia|lia| |lia].
      destruct (decide (A = 1)) as [->|]; [left; unfold probe; simpl; lia|lia].
  - intros fuel Hne Hall Hf. destruct (search_start dir s ds I ts fuel) as (A & e & HA & He & E); [done|lia|].
    unfold search. rewrite E. by erewrite (search_before dir s ds I Sd ts fuel) by (done || lia).
  - intros t d fuel Hd Hmax Hnext. pose proof (lookup_lt_Some _ _ _ Hd) as Ht.
    destruct (search_start dir s ds I ts fuel) as (A & e & HA & He & E); [by destruct ds|lia|].
    unfold search. rewrite E. by erewrite (search_gap dir s ds I Sd ts fuel t d) by (done || lia).
Qed.

(** ** Writing a segment and reading it back *)

Section store.
Context `{Platform} `{ZL : Zlib} {ZS : ZlibSpec} (dir : string).
Implicit Types (s : fs) (d : descriptor) (p : list (OperationBody.t * list SimpleString.t)).
Import OplogIndexSegmentDescriptor.

Abbreviation logged p := (Forall (λ q, log_op_ok q.1 q.2) p).

(** The operations read back from the records of [p]. *)
Definition read_ops p : list OperationBody.t := (λ q, op_read q.1 q.2 false) <$> p.

(** The data file [D] holds the records [p] where the descriptor says. *)
Record segment_ok (D : bytes) (seg : descriptor * list (OperationBody.t * list SimpleString.t)) : Prop := {
  so_logged : logged seg.2;
  so_length : Z.of_nat (length (log_bytes seg.2)) < 2 ^ 31;
  so_inside : ptr seg.1 + size seg.1 ≤ Z.of_nat (length D);
  so_data : ∃ c, take (Z.to_nat (size seg.1)) (drop (Z.to_nat (ptr seg.1)) D) = c ∧
                 crc_32 c = crc seg.1 ∧ uncompress c = Some (log_bytes seg.2);
  so_size : uncompressedSize seg.1 = Z.of_nat (length (log_bytes seg.2));
}.

(** The files of the log hold the segments [l]. *)
Record stores s (D : bytes) (l : list (descriptor * list (OperationBody.t * list SimpleString.t))) : Prop := {
  st_index : has_index dir s l.*1;
  st_data : files s !! OplogIndexSegment.fullPathData dir = Some D;
  st_segments : Forall (segment_ok D) l;
  st_writable : writable (OplogIndexSegment.fullPathIndex dir) s = true ∧ writable (OplogIndexSegment.fullPathData dir) s = true;
}.

(** Fetching a segment and decoding its operations, as readers of the log do. *)
Definition read_segment d s : outcome (list OperationBody.t) :=
  let! b := OplogIndexSegment.getDataByDescriptorBytes dir d s in
  let! b := of_option runtime_error b in
  let! b := of_option runtime_error (Compressor.uncompressBytes b (Z.to_nat (uncompressedSize d))) in
  OperationLogCodec.deserializeAll b.

(** The bytes of a stored segment. *)
Lemma fetch_segment_ok s D l seg :
  stores s D l → seg ∈ l →
  ∃ c, OplogIndexSegment.getDataByDescriptorBytes dir seg.1 s = Ret (Some c) ∧
       Compressor.uncompressBytes c (Z.to_nat (uncompressedSize seg.1)) = Some (log_bytes seg.2).
Proof.
  intros St Hin. pose proof (st_segments _ _ _ St) as Hall. rewrite Forall_forall in Hall.
  destruct (Hall _ Hin) as [Hl Hlen Hins (c & Hc & Hcrc & Hu) Hsz]. exists c.
  assert (desc_ok seg.1) as Dd.
  { destruct (st_index _ _ _ St) as (_ & Hds & _). rewrite Forall_forall in Hds. apply Hds. by apply list_elem_of_fmap_2. }
  pose proof (do_ptr _ Dd). pose proof (do_size _ Dd). unfold ufits in *.
  unfold OplogIndexSegment.getDataByDescriptorBytes, OplogIndexSegment.readBytesDataByDescriptor.
  rewrite <- (Z2Nat.id (ptr seg.1)), <- (Z2Nat.id (size seg.1)) by lia.
  rewrite (seekBytes_inside _ _ _ _ _ (st_data _ _ _ St)) by lia. cbn [obind].
  rewrite Hc, Hcrc, Z.eqb_refl. split; [done|].
  unfold Compressor.uncompressBytes. rewrite Hu, Hsz, Nat2Z.id. rewrite decide_True by done.
  by rewrite Nat.sub_diag, app_nil_r.
Qed.

Lemma read_segment_ok s D l seg :
  stores s D l → seg ∈ l → read_segment seg.1 s = Ret (read_ops seg.2).
Proof.
  intros St Hin. destruct (fetch_segment_ok s D l seg St Hin) as (c & Ef & Eu). unfold read_segment.
  rewrite Ef. cbn [of_option obind]. rewrite Eu. cbn [of_option obind].
  pose proof (st_segments _ _ _ St) as Hall. rewrite Forall_forall in Hall. destruct (Hall _ Hin).
  by apply deserializeAll_ok.
Qed.

Lemma log_bytes_submseteq p q : p ⊆+ q → (length (log_bytes p) ≤ length (log_bytes q))%nat.
Proof.
  intros (k & Hk)%submseteq_Permutation.
  assert (∀ l1 l2, l1 ≡ₚ l2 → length (log_bytes l1) = length (log_bytes l2)) as G.
  { unfold log_bytes. induction 1; cbn [fmap list_fmap concat]; rewrite ?length_app in *; lia. }
  rewrite (G _ _ Hk). unfold log_bytes. rewrite fmap_app, concat_app, length_app. lia.
Qed.

(** Appending a segment keeps the segments already there. *)
Lemma segment_ok_app D c seg : segment_ok D seg → ufits 64 (ptr seg.1) → ufits 32 (size seg.1) → segment_ok (D ++ c) seg.
Proof.
  intros [Hl Hlen Hin (c' & Hc & Hr) Hs] Hp Hz. unfold ufits in *. split; [done..| | |done].
  - rewrite length_app. lia.
  - exists c'. split; [|done]. rewrite drop_app_le by lia. rewrite take_app_le by (rewrite length_drop; lia). done.
Qed.

Lemma paths_differ : OplogIndexSegment.fullPathData dir ≠ OplogIndexSegment.fullPathIndex dir.
Proof.
  unfold OplogIndexSegment.fullPathData, OplogIndexSegment.fullPathIndex, path. intros E.
  assert (∀ d a b : string, d +:+ a = d +:+ b → a = b) as G.
  { clear. intros d a b E. induction d as [|c d IH]; [done|]. apply IH. by injection E. }
  apply G in E. discriminate.
Qed.

(** The records of operations that were read from the log. *)
Definition records (l : list OperationBody.t) : list (OperationBody.t * list SimpleString.t) :=
  (λ op, (op, default [] (OperationBody.args op))) <$> l.

Lemma read_op_logged p op : logged p → op ∈ read_ops p → log_op_ok op (default [] (OperationBody.args op)) ∧ OperationBody.nodeId op = 1.
Proof.
  intros Hp (q & -> & Hq)%list_elem_of_fmap. rewrite Forall_forall in Hp. destruct (Hp _ Hq) as [[Ha He Hn Ht Hd] Hs].
  split; [|done]. unfold op_read. cbn. split; [split; try done; unfold ufits; simpl; lia|done].
Qed.

Lemma read_ops_records p l : logged p → (∀ op, op ∈ l → op ∈ read_ops p) → logged (records l) ∧ read_ops (records l) = l ∧ (records l).*1 = l.
Proof.
  intros Hp Hl. split_and!.
  - unfold records. apply Forall_fmap, Forall_forall. intros op Hop. by eapply read_op_logged, Hl.
  - unfold read_ops, records. rewrite <- list_fmap_compose. rewrite <- (list_fmap_id l) at 2.
    apply list_fmap_ext. intros i op Hi. apply list_elem_of_lookup_2 in Hi.
    destruct (read_op_logged p op Hp (Hl _ Hi)) as [[[Ha _ _ _ _] _] Hn].
    cbn. unfold op_read. rewrite <- Ha. destruct op; simpl in *. by rewrite Hn.
  - unfold records. rewrite <- list_fmap_compose. apply list_fmap_id.
Qed.

Lemma log_bytes_read p : logged p → log_bytes (records (read_ops p)) = log_bytes p.
Proof.
  intros Hp. unfold log_bytes, records, read_ops. by rewrite <- !list_fmap_compose.
Qed.

(** What the writer keeps: the last operation of every key, in timestamp order. *)
Lemma written_operations n p :
  (0 < n)%nat → logged p → p ≠ [] → Forall keyed (read_ops p) → key_sorted (read_ops p) →
  ∃ kept sorted, OperationLogCompacter_compact n (read_ops p) = Ret kept ∧
    sorted = merge_sort OplogIndexSegment.by_timestamp kept ∧ sorted ≠ [] ∧
    sorted ≡ₚ (map_to_list (last_op (read_ops p))).*2 ∧ Sorted OplogIndexSegment.by_timestamp sorted ∧
    logged (records sorted) ∧ (length (log_bytes (records sorted)) ≤ length (log_bytes p))%nat.
Proof.
  intros Hn Hp Hne Hk Hs.
  destruct (compact_single _ Hk Hs) as (single & ts & E1 & P1). destruct (compact_multi n _ Hn Hk Hs) as (multi & E2 & P2).
  set (kept := if decide (10 < length (read_ops p))%nat then multi else single).
  assert (OperationLogCompacter_compact n (read_ops p) = Ret kept) as Ek.
  { unfold OperationLogCompacter_compact, kept. rewrite E1, E2. by destruct (decide _). }
  assert (merge_sort OplogIndexSegment.by_timestamp kept ≡ₚ (map_to_list (last_op (read_ops p))).*2) as Pk.
  { rewrite merge_sort_Permutation. unfold kept. by destruct (decide _). }
  destruct (last_op_values _ _ Pk) as (_ & _ & Hsub).
  destruct (read_ops_records p _ Hp Hsub) as (Hlog & _ & _).
  exists kept, (merge_sort OplogIndexSegment.by_timestamp kept). split_and!; [done..| |done| |done|].
  - intros E. rewrite E in Pk. destruct p as [|q p]; [done|].
    destruct (last_op_Some (read_ops (q :: p)) (op_read q.1 q.2 false)) as [op Hop]; [unfold read_ops; cbn; left|].
    symmetry in Pk. apply Permutation_nil_r in Pk. apply fmap_nil_inv in Pk.
    assert ((_, op) ∈ map_to_list (last_op (read_ops (q :: p)))) as Hin by (by apply elem_of_map_to_list).
    rewrite Pk in Hin. by apply not_elem_of_nil in Hin.
  - apply Sorted_merge_sort. intros a b. unfold OplogIndexSegment.by_timestamp. lia.
  - rewrite <- (log_bytes_read p Hp). apply log_bytes_submseteq. unfold records. apply fmap_submseteq.
    apply NoDup_submseteq; [|auto]. rewrite Pk.
    apply NoDup_fmap_2_strong; [|apply NoDup_map_to_list].
    intros [c a] [c' b] H1%elem_of_map_to_list H2%elem_of_map_to_list E. simpl in E. subst b.
    apply last_op_elem in H1 as [_ <-]. apply last_op_elem in H2 as [_ <-]. done.
Qed.

Lemma segment_written s D l n p :
  stores s D l → (∀ b, is_Some (compress b)) → (0 < n)%nat → logged p → p ≠ [] →
  Forall keyed (read_ops p) → key_sorted (read_ops p) →
  Z.of_nat (length (log_bytes p)) < 2 ^ 31 → Z.of_nat (length D) < 2 ^ 62 → 40 * Z.of_nat (length l + 1) < 2 ^ 63 →
  ∃ s' d sorted first final c,
    OplogIndexSegment.write dir n (log_bytes p) s = Ret (s', ()) ∧
    sorted ≡ₚ (map_to_list (last_op (read_ops p))).*2 ∧ Sorted OplogIndexSegment.by_timestamp sorted ∧
    head sorted = Some first ∧ list.last sorted = Some final ∧
    min d = OperationBody.timestamp first ∧ max d = OperationBody.timestamp final ∧
    read_ops (records sorted) = sorted ∧ stores s' (D ++ c) (l ++ [(d, records sorted)]).
Proof using ZS.
  intros St Hz Hn Hp Hne Hk Hs Hlen HD Hl.
  destruct (written_operations n p Hn Hp Hne Hk Hs) as (kept & sorted & Ek & Es & Hsne & Psort & Hsort & Hlog & Hle).
  destruct (last_op_values _ _ Psort) as (_ & _ & Hsub).
  destruct (read_ops_records p _ Hp Hsub) as (_ & Hro & Hrf).
  destruct (Hz (log_bytes (records sorted))) as [c Hc].
  pose proof (compress_bound _ _ Hc) as Hcb. cbn zeta in Hcb.
  assert (Z.of_nat (length c) < 2 ^ 32) as Hc32.
  { set (m := Z.of_nat (length (log_bytes (records sorted)))) in *.
    pose proof (Z.div_le_upper_bound m 4096 (m / 4096)). pose proof (Z.mul_div_le m 4096).
    pose proof (Z.mul_div_le m 16384). pose proof (Z.mul_div_le m 33554432). lia. }
  destruct sorted as [|first rest] eqn:Esort; [done|]. rewrite <- Esort in *.
  destruct (last_is_Some sorted) as [_ [final Hfin]]; [by rewrite Esort|].
  assert (sorted !! 0%nat = Some first) as H0 by (by rewrite Esort).
  assert (sorted !! (length sorted - 1)%nat = Some final) as H1.
  { rewrite last_lookup in Hfin. by rewrite <- Nat.sub_1_r in Hfin. }
  assert (∀ op, op ∈ sorted → ufits 64 (OperationBody.timestamp op)) as Hfit.
  { intros op Hop. destruct (read_op_logged p op Hp (Hsub _ Hop)) as [[[_ _ _ Ht _] _] _]. unfold ufits. lia. }
  set (d := mk (OperationBody.timestamp first) (OperationBody.timestamp final) (Z.of_nat (length D)) (crc_32 c)
              (Z.of_nat (length c)) (Z.of_nat (length (log_bytes (records sorted)))) 0).
  assert (desc_ok d) as Dd.
  { split; cbn; try (unfold ufits; lia); try (by apply Hfit; eapply list_elem_of_lookup_2). apply crc_32_range. }
  destruct (st_index _ _ _ St) as (Hif & Hid & Hisz). destruct (st_writable _ _ _ St) as [Wi Wd].
  set (s1 := FileUtils.appendBytes (OplogIndexSegment.fullPathData dir) c s).
  set (s' := FileUtils.appendBytes (OplogIndexSegment.fullPathIndex dir) (serialize d) s1).
  assert (OplogIndexSegment.write dir n (log_bytes p) s = Ret (s', ())) as Ew.
  { unfold OplogIndexSegment.write. rewrite (deserializeAll_ok p Hp Hlen). cbn [obind]. fold (read_ops p). rewrite Ek. cbn [obind].
    rewrite <- Es. rewrite <- Hrf at 1. rewrite (serializeAll_layout _ Hlog). cbn [obind].
    unfold Compressor.compressBytes. rewrite Hc. cbn [of_option obind].
    rewrite (at_throw_Some _ _ _ H0), (at_throw_Some _ _ _ H1). cbn [obind].
    rewrite (size_file _ _ _ _ (st_data _ _ _ St)).
    rewrite !(wrap_small 32) by (unfold ufits; lia). reflexivity. }
  assert (stores s' (D ++ c) (l ++ [(d, records sorted)])) as St'.
  { pose proof paths_differ as Hpd. split.
    - unfold has_index. rewrite fmap_app, fmap_app, concat_app. unfold s'. rewrite appendBytes_lookup.
      2: { unfold s1. by rewrite appendBytes_writable. }
      unfold s1. rewrite appendBytes_lookup_ne by done. rewrite Hif. cbn [default].
      split_and!; [cbn [fmap list_fmap concat fst]; by rewrite app_nil_r|apply Forall_app; split; [done|by constructor]|].
      rewrite length_app, length_fmap. cbn [length fmap list_fmap]. lia.
    - unfold s'. rewrite appendBytes_lookup_ne by done. unfold s1. rewrite appendBytes_lookup by done.
      by rewrite (st_data _ _ _ St).
    - apply Forall_app. split.
      + pose proof (st_segments _ _ _ St) as Hsg. rewrite Forall_forall in Hsg. rewrite Forall_forall in Hid.
        apply Forall_forall. intros seg Hin.
        assert (seg.1 ∈ l.*1) as Hin1 by (by apply list_elem_of_fmap_2). destruct (Hid _ Hin1).
        by apply segment_ok_app; [apply Hsg| |].
      + constructor; [|done]. split; cbn [fst snd]; [done|lia|unfold d; cbn [ptr size]; rewrite length_app; lia| |done].
        exists c. unfold d. cbn [ptr size crc]. rewrite !Nat2Z.id, drop_app_length. split; [apply firstn_all|]. split; [done|]. by apply compress_uncompress.
    - unfold s'. rewrite !appendBytes_writable. unfold s1. by rewrite !appendBytes_writable. }
  exists s', d, sorted, first, final, c. split_and!; try done. by rewrite Esort.
Qed.

(** C16: A segment written to the log is read back.  Flushing the bytes of a log whose keys end
    in a zero byte and whose operations on one key are in the order of their timestamps (the
    condition of the compaction) appends one segment, when zlib compresses: its descriptor
    carries the first and the last timestamp, its data decode to the last operation of every key
    in timestamp order, and every segment written before still decodes to its operations. *)
Theorem segment_write_read s D l n p :
  stores s D l → (∀ b, is_Some (compress b)) → (0 < n)%nat → logged p → p ≠ [] →
  Forall keyed (read_ops p) → key_sorted (read_ops p) →
  Z.of_nat (length (log_bytes p)) < 2 ^ 31 → Z.of_nat (length D) < 2 ^ 62 → 40 * Z.of_nat (length l + 1) < 2 ^ 63 →
  ∃ s' d sorted first final,
    OplogIndexSegment.write dir n (log_bytes p) s = Ret (s', ()) ∧
    sorted ≡ₚ (map_to_list (last_op (read_ops p))).*2 ∧ Sorted OplogIndexSegment.by_timestamp sorted ∧
    head sorted = Some first ∧ list.last sorted = Some final ∧
    min d = OperationBody.timestamp first ∧ max d = OperationBody.timestamp final ∧
    OplogIndexSegment.getAll dir s' = Ret (l.*1 ++ [d]) ∧
    read_segment d s' = Ret sorted ∧
    (∀ seg, seg ∈ l → read_segment seg.1 s' = Ret (read_ops seg.2)) ∧
    ∃ D', stores s' D' (l ++ [(d, records sorted)]).
Proof using ZS.
  intros St Hz Hn Hp Hne Hk Hs Hlen HD Hl.
  destruct (segment_written s D l n p St Hz Hn Hp Hne Hk Hs Hlen HD Hl)
    as (s' & d & sorted & first & final & c & Ew & Psort & Hsort & Hh & Hf & Hmin & Hmax & Hro & St').
  exists s', d, sorted, first, final. split_and!; try done.
  - unfold OplogIndexSegment.getAll. rewrite (readAllIndex_ok dir s' _ (st_index _ _ _ St')). by rewrite fmap_app.
  - pose proof (read_segment_ok s' _ _ (d, records sorted) St' ltac:(set_solver)) as Er.
    cbn [fst snd] in Er. by rewrite Er, Hro.
  - intros seg Hin. apply (read_segment_ok s' _ _ seg St'). set_solver.
  - eauto.
Qed.

End store.

(** ** Repairing a corrupted segment *)

Section repair.
Context `{Zlib} {ZS : ZlibSpec} (dir : string).
Import OplogIndexSegmentDescriptor.

Definition zero_descriptor : descriptor := mk 0 0 0 0 0 0 0.

Lemma zero_index i : concat (serialize <$> replicate i zero_descriptor) = replicate (40 * i) 0.
Proof.
  induction i as [|i IH]; [done|]. cbn [replicate fmap list_fmap concat]. rewrite IH.
  replace (40 * S i)%nat with (40 + 40 * i)%nat by lia. by rewrite replicate_add.
Qed.

(** Repairing a segment rewrites the index file from scratch: the descriptor of record
    [i] is updated to the new data, but every record before it becomes zeros and every record
    after it is gone. *)
Theorem repair_wipes_index s ds D i d fixed usize :
  has_index dir s ds → files s !! OplogIndexSegment.fullPathData dir = Some D →
  writable (OplogIndexSegment.fullPathIndex dir) s = true → writable (OplogIndexSegment.fullPathData dir) s = true →
  ds !! i = Some d → ufits 32 usize → Z.of_nat (length fixed) < 2 ^ 32 → Z.of_nat (length D) < 2 ^ 62 →
  ∃ s', OplogIndexSegment.updateCorruptedSegment dir fixed usize (40 * i) s = Ret (s', ()) ∧
    let d' := mk (min d) (max d) (Z.of_nat (length D)) (crc_32 fixed) (Z.of_nat (length fixed)) usize (flags d) in
    OplogIndexSegment.getAll dir s' = Ret (replicate i zero_descriptor ++ [d']) ∧
    OplogIndexSegment.getDataByDescriptorBytes dir d' s' = Ret (Some fixed).
Proof using ZS.
  intros I HD Wi Wd Hd Hu Hf Hsz. pose proof (readIndexAt_ok dir s ds i d I Hd) as Er.
  destruct I as (Hif & Hds & Hisz). rewrite Forall_lookup in Hds. destruct (Hds _ _ Hd).
  pose proof (lookup_lt_Some _ _ _ Hd) as Hi.
  set (d' := mk (min d) (max d) (Z.of_nat (length D)) (crc_32 fixed) (Z.of_nat (length fixed)) usize (flags d)).
  assert (desc_ok d') as Dd' by (split; try done; unfold ufits; cbn; try lia; apply crc_32_range).
  unfold OplogIndexSegment.updateCorruptedSegment. replace (Z.of_nat (40 * i)) with (40 * Z.of_nat i) by lia.
  rewrite Er. cbn [obind]. unfold OplogIndexSegment.writer_updateCorruptedSegment, FileUtils.writeBytesAt.
  rewrite appendBytes_writable, Wi, (size_file _ _ _ _ HD), wrap_small by (unfold ufits; lia).
  eexists. split; [reflexivity|]. cbn zeta. fold d'.
  assert ((match serialize d' with [] => [] | _ => replicate (40 * i) 0 ++ serialize d' end)
          = concat (serialize <$> (replicate i zero_descriptor ++ [d']))) as Ei.
  { rewrite fmap_app, concat_app, zero_index. cbn [fmap list_fmap concat]. rewrite app_nil_r.
    pose proof (length_serialize d'). by destruct (serialize d'). }
  split.
  - unfold OplogIndexSegment.getAll, OplogIndexSegment.readAllIndex, FileUtils.readBytes. cbn [files set_files].
    rewrite lookup_insert_eq. cbn [default]. rewrite Ei. apply deserializeAll_index. apply Forall_app. split; [|by constructor].
    apply Forall_replicate. split; done.
  - unfold OplogIndexSegment.getDataByDescriptorBytes, OplogIndexSegment.readBytesDataByDescriptor. unfold d'. cbn [ptr size crc].
    erewrite (seekBytes_inside _ _ _ _ (D ++ fixed)); [|..].
    + cbn [obind]. rewrite drop_app_length, firstn_all, Z.eqb_refl. done.
    + cbn [files set_files]. rewrite lookup_insert_ne by (apply not_eq_sym, paths_differ).
      rewrite appendBytes_lookup by done. by rewrite HD.
    + rewrite length_app. lia.
    + lia.
Qed.

End repair.

(** ** A concrete log *)

(** No compression, and the sum of the bytes as checksum. *)
#[export] Instance plain_zlib : Zlib :=
  {| compress b := Some b; uncompress b := Some b; crc_32 b := u32 (foldr Z.add 0 b) |}.
#[export] Instance plain_zlib_spec : ZlibSpec.
Proof.
  split.
  - by intros b c [= ->].
  - intros b. by apply wrap_ufits.
  - intros b c [= ->]. cbn zeta. pose proof (Z.div_pos (Z.of_nat (length c)) 4096).
    pose proof (Z.div_pos (Z.of_nat (length c)) 16384). pose proof (Z.div_pos (Z.of_nat (length c)) 33554432). lia.
Qed.

Definition two_segments : list descriptor :=
  [OplogIndexSegmentDescriptor.mk 10 20 0 0 4 4 0; OplogIndexSegmentDescriptor.mk 30 40 4 0 4 4 0].

Definition sample_fs (ds : list descriptor) : fs :=
  mk_fs {[ OplogIndexSegment.fullPathIndex "/d/0" := concat (OplogIndexSegmentDescriptor.serialize <$> ds);
           OplogIndexSegment.fullPathData "/d/0" := [] ]} {[ "/d"%string; "/d/0"%string ]}.

Lemma sample_has_index : has_index "/d/0" (sample_fs two_segments) two_segments.
Proof.
  split; [vm_compute; reflexivity|]. split; [|vm_compute; reflexivity]. repeat constructor; unfold ufits; simpl; lia.
Qed.

Lemma two_segments_sorted : segments_sorted two_segments.
Proof.
  split.
  - intros [|[|[]]] d; simpl; intros [= <-]; simpl; lia.
  - intros [|[|[]]] [|[|[]]] d e Hij; simpl; intros [= <-] [= <-]; simpl in *; lia.
Qed.

Lemma binary_search_outcome_witness :
  OplogIndexSegment.binarySearchByTimestamp "/d/0" 4 35 (sample_fs two_segments) = Ret (Some 40) ∧
  OplogIndexSegment.binarySearchByTimestamp "/d/0" 4 5 (sample_fs two_segments) = Ret (Some 0) ∧
  OplogIndexSegment.binarySearchByTimestamp "/d/0" 1000 45 (sample_fs two_segments) = NoFuel.
Proof.
  split_and!.
  - apply (binary_search_outcome "/d/0" _ two_segments 35 sample_has_index two_segments_sorted ltac:(lia)) with
      (t := 1%nat) (d := OplogIndexSegmentDescriptor.mk 30 40 4 0 4 4 0); [done|simpl; lia|simpl; lia].
  - apply (binary_search_outcome "/d/0" _ two_segments 5 sample_has_index two_segments_sorted ltac:(lia)); [done| |simpl; lia].
    intros [|[|[]]] d; simpl; intros [= <-]; simpl; lia.
  - eapply (binary_search_outcome "/d/0" _ two_segments 45 sample_has_index two_segments_sorted ltac:(lia)) with
      (t := 1%nat); [done|simpl; lia|]. intros [|[|[]]] d Hi; simpl; (lia || done).
Defined.

Lemma segment_write_read_witness :
  ∃ s' d, OplogIndexSegment.write (H := masking_target) "/d/0" 2 (log_bytes (records [set_k 1; set_k 2])) (sample_fs []) = Ret (s', ())
  ∧ read_segment (H := masking_target) "/d/0" d s' = Ret [set_k 2].
Proof.
  destruct (segment_write_read (H := masking_target) "/d/0" (sample_fs []) [] [] 2 (records [set_k 1; set_k 2]))
    as (s' & d & sorted & first & final & Ew & P & _ & _ & _ & _ & _ & _ & Er & _).
  - split; [|vm_compute; reflexivity|constructor|split; vm_compute; reflexivity].
    split; [vm_compute; reflexivity|]. split; [constructor|simpl; lia].
  - eauto.
  - lia.
  - repeat constructor; simpl; try (vm_compute; reflexivity); unfold byte_ok; try lia.
  - done.
  - simpl. repeat constructor; apply set_k_keyed.
  - apply key_sorted_times. simpl. repeat (constructor; simpl); lia.
  - vm_compute. reflexivity.
  - simpl. lia.
  - simpl. lia.
  - exists s', d. split; [done|]. rewrite Er. f_equal.
    assert ((map_to_list (last_op (read_ops (records [set_k 1; set_k 2])))).*2 = [set_k 2]) as E by (vm_compute; reflexivity).
    rewrite E in P. by apply Permutation_singleton_r in P.
Defined.

Lemma repair_wipes_index_witness :
  ∃ s', OplogIndexSegment.updateCorruptedSegment "/d/0" [1; 2] 7 40 (sample_fs two_segments) = Ret (s', ()) ∧
    OplogIndexSegment.getAll "/d/0" s' = Ret [zero_descriptor; OplogIndexSegmentDescriptor.mk 30 40 0 3 2 7 0].
Proof.
  destruct (repair_wipes_index "/d/0" (sample_fs two_segments) two_segments [] 1
    (OplogIndexSegmentDescriptor.mk 30 40 4 0 4 4 0) [1; 2] 7 sample_has_index) as (s' & E & G & _);
    [reflexivity|reflexivity|reflexivity|reflexivity|unfold ufits; lia|simpl; lia|simpl; lia|].
  exists s'. split; [exact E|exact G].
Defined.
