(* ===== verification/Oplog.v ===== *)
(** * The operation log

    Models [persistence/OplogIterator.cpp], [persistence/intermediate/],
    [persistence/buffer/], [persistence/SingleOperationLog.cpp],
    [persistence/MultipleOperationLog.cpp], [persistence/utils/BackedDiskRequestBuffer.cpp]
    and [cluster/hints/].  The wait-free queue of the buffer is third-party code: a dequeue
    hands over the queued operations in some order. *)

From S2P Require Import Prelude.
From S2P Require Import Utils.
From S2P Require Import Messages.
From S2P Require Import Codec.
From S2P Require Import Config.
From S2P Require Import Files.
From S2P Require Import Compaction.
From S2P Require Import Segments.

(** ** [OplogIterator] *)

Module OplogIterator.

Record t := mk {
  descriptors : list descriptor;
  segmentOplogDescriptorInitDiskPtr : Z;
  intermediate : bytes;
  intermediateIterated : bool;
  compressed : bool;
  oplogId : Z;
  lastTimestampOfLastNext : option Z;
  actualIndexDescriptor : nat;
}.

(** [OplogIterator::OplogIterator]; [lastTimestampOfLastNext] has no initial value. *)
Definition make (descriptors : list descriptor) (initPtr : Z) (intermediate : bytes)
    (iterateOnlyDescriptors compressed : bool) (oplogId : Z) : t :=
  mk descriptors initPtr intermediate iterateOnlyDescriptors compressed oplogId None 0.

(** [OplogIterator::hasNext]. *)
Definition hasNext (i : t) : bool :=
  (intermediateIterated i && bool_decide (actualIndexDescriptor i < length (descriptors i))%nat) ||
  (negb (intermediateIterated i) && bool_decide (0 < length (intermediate i))%nat).

(** [OplogIterator::next]; [fetch] is the descriptor data fetcher, [None] an error result. *)
Definition next `{Zlib} (fetch : descriptor → outcome (option bytes)) : stM t (option bytes) :=
  λ i,
    if negb (intermediateIterated i) then
      let i := mk (descriptors i) (segmentOplogDescriptorInitDiskPtr i) (intermediate i) true (compressed i)
                 (oplogId i) (lastTimestampOfLastNext i) (actualIndexDescriptor i) in
      if compressed i
      then let! b := of_option runtime_error (Compressor.compressBytes (intermediate i)) in Ret (i, Some b)
      else Ret (i, Some (intermediate i))
    else
      let! actualDescriptor := at_throw (descriptors i) (actualIndexDescriptor i) in
      let i := mk (descriptors i) (segmentOplogDescriptorInitDiskPtr i) (intermediate i) true (compressed i)
                 (oplogId i) (Some (u32 (OplogIndexSegmentDescriptor.max actualDescriptor)))
                 (S (actualIndexDescriptor i)) in
      let! bytesFromDescriptorResult := fetch actualDescriptor in
      match bytesFromDescriptorResult with
      | Some b =>
          if negb (compressed i)
          then let! b := of_option runtime_error (Compressor.uncompressBytes b
                 (Z.to_nat (OplogIndexSegmentDescriptor.uncompressedSize actualDescriptor))) in Ret (i, Some b)
          else Ret (i, Some b)
      | None => Ret (i, None)
      end.

(** [OplogIterator::totalSize]. *)
Definition totalSize (i : t) : Z :=
  Z.of_nat (length (descriptors i)) + (if bool_decide (intermediate i = []) then 0 else 1).

(** [OplogIterator::getLastSegmentOplogDescriptorDiskPtr]. *)
Definition getLastSegmentOplogDescriptorDiskPtr (i : t) : Z :=
  match actualIndexDescriptor i with
  | O => segmentOplogDescriptorInitDiskPtr i
  | S k => u64 (segmentOplogDescriptorInitDiskPtr i + Z.of_nat k * OplogIndexSegmentDescriptor.sizeof)
  end.

(** [OplogIterator::getNextUncompressedSize] and [getLastUncompressedSize]. *)
Definition getNextUncompressedSize (i : t) : outcome Z :=
  if intermediateIterated i
  then let! d := at_throw (descriptors i) (actualIndexDescriptor i) in
       Ret (OplogIndexSegmentDescriptor.uncompressedSize d)
  else Ret (u32 (Z.of_nat (length (intermediate i)))).
Definition getLastUncompressedSize (i : t) : outcome Z :=
  match actualIndexDescriptor i with
  | O => Ret (u32 (Z.of_nat (length (intermediate i))))
  | S k => let! d := at_throw (descriptors i) k in Ret (OplogIndexSegmentDescriptor.uncompressedSize d)
  end.

(** [OplogIterator::getLastDescriptor]; at the start the index wraps and [at] throws. *)
Definition getLastDescriptor (i : t) : outcome descriptor :=
  match actualIndexDescriptor i with O => Throw out_of_range | S k => at_throw (descriptors i) k end.

(** [OplogIterator::getLastTimestampOfLastNext]: indeterminate until a segment was read. *)
Definition getLastTimestampOfLastNext (i : t) : outcome Z :=
  match lastTimestampOfLastNext i with Some t => Ret t | None => Undef end.

End OplogIterator.

(** The iterators a log hands out: [OplogIterator] and [NullIterator]. *)
Inductive bytesDiskIterator := oplog (i : OplogIterator.t) | null_iterator.

Definition hasNext (i : bytesDiskIterator) : bool :=
  match i with oplog i => OplogIterator.hasNext i | null_iterator => false end.

(** [NullIterator::next] throws. *)
Definition next `{Zlib} (fetch : descriptor → outcome (option bytes)) : stM bytesDiskIterator (option bytes) :=
  λ i, match i with
       | oplog i => let! (i, b) := OplogIterator.next fetch i in Ret (oplog i, b)
       | null_iterator => Throw runtime_error
       end.

(** ** One log on disk *)

(** [OperationLogOptions]. *)
Record OperationLogOptions := mk_options { operationLogId : Z; compressed_option : bool }.

Module SingleOperationLog.

(** The disk, the intermediate log's byte count, the buffer of operations not flushed yet
    and the flags of the flusher thread. *)
Record t := mk {
  disk : fs;
  bytesWritten : Z;
  buffer : list OperationBody.t;
  stopFlushingFlag : bool;
  flusherExited : bool;
}.

Definition set_disk (s : fs) (n : Z) (o : t) : t := mk s n (buffer o) (stopFlushingFlag o) (flusherExited o).

Section log.
Context `{Platform} `{Zlib}.
Context (configuration : Configuration.t) (memdbBasePath partitionPath : string) (numberThreads : nat).

Definition INTERMEDIATE_FILE_NAME : string := "oplog-intermediate".
Definition fullPath : string := path partitionPath INTERMEDIATE_FILE_NAME.

(** [IntermediateOplog::initializeFiles]. *)
Definition initializeIntermediateFiles : stM fs () :=
  λ s,
    let s := if FileUtils.exists_ memdbBasePath s then s else FileUtils.createDirectory memdbBasePath s in
    let s := if FileUtils.exists_ partitionPath s then s else FileUtils.createDirectory partitionPath s in
    if FileUtils.exists_ fullPath s then Ret (s, ())
    else FileUtils.createFile partitionPath INTERMEDIATE_FILE_NAME s.

(** [SingleOperationLog::initializeFiles]. *)
Definition initializeFiles (s : fs) : fs :=
  let s := if FileUtils.exists_ memdbBasePath s then s else FileUtils.createDirectory memdbBasePath s in
  if FileUtils.exists_ partitionPath s then s else FileUtils.createDirectory partitionPath s.

(** [SingleOperationLog::initialize]: the index segment, then the intermediate log. *)
Definition initialize (s : fs) : outcome t :=
  let! (s, _) := OplogIndexSegment.initializeFiles partitionPath memdbBasePath s in
  let! (s, _) := initializeIntermediateFiles s in
  let bytesWritten := FileUtils.size partitionPath INTERMEDIATE_FILE_NAME s in
  Ret (mk (initializeFiles s) bytesWritten [] false false).

(** [IntermediateOplog::getAllBytes] and [IntermediateOplog::clearAll]. *)
Definition getAllBytes (s : fs) : bytes := FileUtils.readBytes fullPath s.
Definition clearIntermediate (s : fs) : fs := FileUtils.clear fullPath s.

(** The size at which the intermediate log becomes a segment. *)
Definition segmentSize : outcome Z :=
  let! mb := Configuration.getUint 64 configuration ConfigurationKeys.PERSISTENCE_SEGMENT_SIZE_MB in
  Ret (u64 (u64 (mb * 1024) * 1024)).

(** [IntermediateOplog::addAll], with [OplogIndexSegment::save] as the flush callback. *)
Definition intermediate_addAll (operations : list OperationBody.t) : stM t () :=
  λ o,
    let! serialized := OperationLogCodec.serializeAll operations in
    let s := FileUtils.appendBytes fullPath serialized (disk o) in
    let bytesWritten := u64 (bytesWritten o + Z.of_nat (length serialized)) in
    let! limit := segmentSize in
    if limit <? bytesWritten then
      let! (s, _) := OplogIndexSegment.save partitionPath numberThreads (FileUtils.readBytes fullPath s) s in
      Ret (set_disk (FileUtils.clear fullPath s) 0 o, ())
    else Ret (set_disk s bytesWritten o, ()).

(** [SingleOperationLog::add] and [SingleOperationLog::addAll]: into the buffer. *)
Definition add (operation : OperationBody.t) (o : t) : t :=
  mk (disk o) (bytesWritten o) (buffer o ++ [operation]) (stopFlushingFlag o) (flusherExited o).
Definition addAll (operations : list OperationBody.t) (o : t) : t :=
  foldl (λ o operation, add operation o) o operations.

(** One round of the flusher thread; [dequeue] is the order of the wait-free queue. *)
Definition flusher_step (dequeue : list OperationBody.t → list OperationBody.t) : stM t () :=
  λ o,
    if flusherExited o then Ret (o, ())
    else if stopFlushingFlag o
    then Ret (mk (disk o) (bytesWritten o) (buffer o) true true, ())
    else intermediate_addAll (dequeue (buffer o)) (mk (disk o) (bytesWritten o) [] false false).

(** [OperationLogBufferFlusher::stopFlushing] returns once the flusher thread has left. *)
Definition stopFlushing (o : t) : t := mk (disk o) (bytesWritten o) (buffer o) true true.

(** [SingleOperationLog::clear]. *)
Definition clear (o : t) : t :=
  let o := stopFlushing o in
  set_disk (clearIntermediate (OplogIndexSegment.clearAll partitionPath (disk o))) (bytesWritten o) o.

(** [SingleOperationLog::readBytesByIndexSegmentDescriptor]. *)
Definition readBytesByIndexSegmentDescriptor (o : t) (d : descriptor) : outcome (option bytes) :=
  OplogIndexSegment.getDataByDescriptorBytes partitionPath d (disk o).

(** [SingleOperationLog::getAfterTimestamp]. *)
Definition getAfterTimestamp (fuel : nat) (after : Z) (options : OperationLogOptions) (o : t) : outcome OplogIterator.t :=
  let! (descriptors, initPtr) := OplogIndexSegment.getByAfterTimestamp partitionPath fuel after (disk o) in
  Ret (OplogIterator.make descriptors initPtr (getAllBytes (disk o)) false (compressed_option options)
         (operationLogId options)).

(** [SingleOperationLog::getBetweenTimestamps]. *)
Definition getBetweenTimestamps (fuel : nat) (fromTimestamp toTimestamp : Z) (options : OperationLogOptions) (o : t) :
    outcome OplogIterator.t :=
  let make := λ descriptors initPtr intermediate only,
    OplogIterator.make descriptors initPtr intermediate only (compressed_option options) (operationLogId options) in
  let! segmentsResult := OplogIndexSegment.segment_getBetweenTimestamps partitionPath fuel fromTimestamp toTimestamp (disk o) in
  match segmentsResult with
  | OplogIndexSegment.resultsOnlyInIntermediate => Ret (make [] 0 (getAllBytes (disk o)) false)
  | OplogIndexSegment.resultsInDescriptorsAndIntermediate initPtr l => Ret (make l initPtr (getAllBytes (disk o)) false)
  | OplogIndexSegment.resultsOnlyInSegments initPtr l => Ret (make l initPtr [] true)
  end.

(** [SingleOperationLog::getAll]. *)
Definition getAll (options : OperationLogOptions) (o : t) : outcome OplogIterator.t :=
  let! desc := OplogIndexSegment.getAll partitionPath (disk o) in
  Ret (OplogIterator.make desc 0 (getAllBytes (disk o)) false (compressed_option options) (operationLogId options)).

(** [SingleOperationLog::updateCorrupted]. *)
Definition updateCorrupted (uncorrupted : bytes) (uncompressedSize : Z) (ptr : nat) : stM t () :=
  λ o, let! (s, _) := OplogIndexSegment.updateCorruptedSegment partitionPath uncorrupted uncompressedSize ptr (disk o) in
       Ret (set_disk s (bytesWritten o) o, ()).

(** [SingleOperationLog::hasOplogFile] and [SingleOperationLog::getNumberOplogFiles]. *)
Definition hasOplogFile (o : t) : bool := true.
Definition getNumberOplogFiles (o : t) : Z := 1.

End log.
End SingleOperationLog.

(** ** The logs of the partitions *)

Module MultipleOperationLog.

Abbreviation t := (list SingleOperationLog.t).

Section log.
Context `{Platform} `{Zlib}.
Context (memdbBasePath : string) (partitionPath : nat → string).

(** [MultipleOperationLog::add]; [operator[]] out of range is undefined. *)
Definition add (oplogId : nat) (operation : OperationBody.t) : stM t () :=
  λ l, let! o := at_undef l oplogId in Ret (<[oplogId := SingleOperationLog.add operation o]> l, ()).

(** [MultipleOperationLog::addAll]. *)
Fixpoint addAll (oplogId : nat) (operations : list OperationBody.t) : stM t () :=
  match operations with
  | [] => mret ()
  | operation :: operations => _ ← add oplogId operation; addAll oplogId operations
  end.

(** [MultipleOperationLog::hasOplogFile]. *)
Definition hasOplogFile (oplogId : nat) (l : t) : outcome bool :=
  if decide (length l < oplogId)%nat
  then let! o := at_throw l oplogId in Ret (SingleOperationLog.hasOplogFile o)
  else Ret false.

(** [MultipleOperationLog::clear]. *)
Definition clear (oplogId : nat) : stM t () :=
  λ l,
    if decide (length l ≤ oplogId)%nat then Ret (l, ())
    else let! o := at_throw l oplogId in
         Ret (<[oplogId := SingleOperationLog.clear (partitionPath oplogId) o]> l, ()).

(** [MultipleOperationLog::updateCorrupted]. *)
Definition updateCorrupted (uncorrupted : bytes) (uncompressedSize : Z) (ptr : nat) (oplogId : nat) : stM t () :=
  λ l,
    if decide (length l ≤ oplogId)%nat then Ret (l, ())
    else let! o := at_undef l oplogId in
         let! (o, _) := SingleOperationLog.updateCorrupted (partitionPath oplogId) uncorrupted uncompressedSize ptr o in
         Ret (<[oplogId := o]> l, ()).

(** The iterator of one log, the null iterator out of range. *)
Definition iterator_of (oplogId : nat) (get : SingleOperationLog.t → outcome OplogIterator.t) (l : t) :
    outcome bytesDiskIterator :=
  if decide (length l ≤ oplogId)%nat then Ret null_iterator
  else let! o := at_undef l oplogId in let! i := get o in Ret (oplog i).

(** [MultipleOperationLog::getBetweenTimestamps], [getAfterTimestamp] and [getAll]. *)
Definition getBetweenTimestamps (fuel : nat) (fromTimestamp toTimestamp : Z) (options : OperationLogOptions) (l : t) :
    outcome bytesDiskIterator :=
  let id := Z.to_nat (operationLogId options) in
  iterator_of id (SingleOperationLog.getBetweenTimestamps (partitionPath id) fuel fromTimestamp toTimestamp options) l.
Definition getAfterTimestamp (fuel : nat) (timestamp : Z) (options : OperationLogOptions) (l : t) :
    outcome bytesDiskIterator :=
  let id := Z.to_nat (operationLogId options) in
  iterator_of id (SingleOperationLog.getAfterTimestamp (partitionPath id) fuel timestamp options) l.
Definition getAll (options : OperationLogOptions) (l : t) : outcome bytesDiskIterator :=
  let id := Z.to_nat (operationLogId options) in
  iterator_of id (SingleOperationLog.getAll (partitionPath id) options) l.

(** [MultipleOperationLog::getNumberOplogFiles]. *)
Definition getNumberOplogFiles (l : t) : Z := Z.of_nat (length l).

(** [MultipleOperationLog::initializeOplogs]; every log has a directory of its own. *)
Fixpoint initializeOplogs (numberOplogs i : nat) (s : fs) : outcome t :=
  match numberOplogs with
  | O => Ret []
  | S n =>
      let! o := SingleOperationLog.initialize memdbBasePath (partitionPath i) s in
      let! l := initializeOplogs n (S i) (SingleOperationLog.disk o) in
      Ret (o :: l)
  end.

End log.
End MultipleOperationLog.

(** ** Requests kept on disk *)

Module BackedDiskRequestBuffer.

Record t := mk { filePath : string; fileName : string; fullPath : string }.

Section buffer.
Context `{Platform}.

(** [BackedDiskRequestBuffer::BackedDiskRequestBuffer]. *)
Definition make (filePath fileName : string) : stM fs t :=
  λ s,
    let b := mk filePath fileName (path filePath fileName) in
    let! (s, _) := if FileUtils.exists_ (fullPath b) s then Ret (s, ()) else FileUtils.createFile filePath fileName s in
    Ret (s, b).

(** [BackedDiskRequestBuffer::add]: the request preceded by its length. *)
Definition add (b : t) (request : Request.t) : stM fs () :=
  λ s,
    let! serialized := RequestSerializer.serialize request in
    let serialized := Utils.appendBeginningToBuffer 4 (u32 (Z.of_nat (length serialized))) serialized in
    Ret (FileUtils.appendBytes (fullPath b) serialized s, ()).

(** [BackedDiskRequestBuffer::clear]. *)
Definition clear (b : t) (s : fs) : fs := FileUtils.clear (fullPath b) s.

(** [BackedDiskBufferIterator::hasNext]. *)
Definition hasNext (b : t) (s : fs) : bool := 4 <? FileUtils.size (filePath b) (fileName b) s.

(** [BackedDiskBufferIterator::next]: the length is read from the end of the file and the
    request from the directory [filePath], which reads as zeros. *)
Definition next (b : t) : stM fs Request.t :=
  λ s,
    let filePtr := FileUtils.size (filePath b) (fileName b) s - 4 in
    let! requestLengthBuffer := FileUtils.seekBytes (fullPath b) filePtr 4 s in
    let! requestLength := Utils.parseFromBuffer 4 requestLengthBuffer 0 in
    let! requestBuffer := FileUtils.seekBytes (filePath b) filePtr requestLength s in
    let! request := RequestDeserializer.deserialize requestBuffer in
    let! (s, _) := FileUtils.deleteTopBytes (fullPath b) (length requestBuffer + 4) s in
    Ret (s, request).

(** [BackedDiskBufferIterator::totalSize]. *)
Definition totalSize (b : t) : outcome Z := Throw runtime_error.

End buffer.
End BackedDiskRequestBuffer.

(** ** Hints for nodes that were down *)

Module HintsService.

Record t := mk {
  hintsByNodeId : gmap Z BackedDiskRequestBuffer.t;
  onGoingIterators : gset Z;
  pendingHints : gset Z;
  hintsNodesCheckedAtLeastOnce : gset Z;
  disk : fs;
}.

Definition set_disk (s : fs) (h : t) : t :=
  mk (hintsByNodeId h) (onGoingIterators h) (pendingHints h) (hintsNodesCheckedAtLeastOnce h) s.

Section hints.
Context `{Platform} (configuration : Configuration.t) (to_string : Z → string).

(** [HintsService::add]. *)
Definition add (nodeId : Z) (request : Request.t) : stM t () :=
  λ h,
    match hintsByNodeId h !! nodeId with
    | Some b =>
        let! (s, _) := BackedDiskRequestBuffer.add b request (disk h) in Ret (set_disk s h, ())
    | None =>
        let! dataPath := Configuration.get configuration ConfigurationKeys.DATA_PATH in
        let! (s, b) := BackedDiskRequestBuffer.make (dataPath +:+ "/hints") (to_string nodeId) (disk h) in
        let! (s, _) := BackedDiskRequestBuffer.add b request s in
        Ret (mk (<[nodeId:=b]> (hintsByNodeId h)) (onGoingIterators h) ({[nodeId]} ∪ pendingHints h)
               (hintsNodesCheckedAtLeastOnce h) s, ())
    end.

(** [HintsService::maybeHasPendingHints]. *)
Definition maybeHasPendingHints (nodeId : Z) (h : t) : bool :=
  if bool_decide (is_Some (hintsByNodeId h !! nodeId)) then true
  else
    let hintsNeverChecked := bool_decide (nodeId ∉ hintsNodesCheckedAtLeastOnce h) in
    let hasPendingHint := bool_decide (nodeId ∈ pendingHints h) in
    hintsNeverChecked || hasPendingHint.

(** [HintsService::iterator]: [Some] buffer to iterate, [None] for the null iterator. *)
Definition iterator (nodeId : Z) (h : t) : t * option BackedDiskRequestBuffer.t :=
  match hintsByNodeId h !! nodeId with
  | Some b =>
      if bool_decide (nodeId ∈ onGoingIterators h) then (h, None)
      else (mk (hintsByNodeId h) ({[nodeId]} ∪ onGoingIterators h) (pendingHints h)
              (hintsNodesCheckedAtLeastOnce h) (disk h), Some b)
  | None => (h, None)
  end.

(** [HintIterator::hasNext]: at the end the iterator is no longer ongoing. *)
Definition iterator_hasNext (nodeId : Z) (b : BackedDiskRequestBuffer.t) (h : t) : t * bool :=
  if BackedDiskRequestBuffer.hasNext b (disk h) then (h, true)
  else (mk (hintsByNodeId h) (onGoingIterators h ∖ {[nodeId]}) ({[nodeId]} ∪ pendingHints h)
          (hintsNodesCheckedAtLeastOnce h) (disk h), false).

(** [HintIterator::next]. *)
Definition iterator_next (b : BackedDiskRequestBuffer.t) : stM t Request.t :=
  λ h, let! (s, r) := BackedDiskRequestBuffer.next b (disk h) in Ret (set_disk s h, r).

(** [HintsService::clear]. *)
Definition clear (nodeId : Z) (h : t) : t :=
  match hintsByNodeId h !! nodeId with
  | Some b => set_disk (BackedDiskRequestBuffer.clear b (disk h)) h
  | None => h
  end.

End hints.
End HintsService.

(** ** Iterating over a log *)

Section iteration.
Context `{Platform} `{ZL : Zlib} {ZS : ZlibSpec} (dir : string).
Implicit Types (i : OplogIterator.t) (o : SingleOperationLog.t).
Import OplogIterator.

(** Reading an iterator to its end. *)
Fixpoint drain (fuel : nat) (fetch : descriptor → outcome (option bytes)) i : outcome (list (option bytes)) :=
  match fuel with
  | O => NoFuel
  | S fuel =>
      if OplogIterator.hasNext i
      then let! (i, b) := OplogIterator.next fetch i in let! l := drain fuel fetch i in Ret (b :: l)
      else Ret []
  end.

Lemma drain_segments fetch fuel i (data : list bytes) :
  intermediateIterated i = true → compressed i = false →
  Forall2 (λ d b, ∃ c, fetch d = Ret (Some c) ∧
     Compressor.uncompressBytes c (Z.to_nat (OplogIndexSegmentDescriptor.uncompressedSize d)) = Some b)
    (drop (actualIndexDescriptor i) (descriptors i)) data →
  (length data < fuel)%nat → drain fuel fetch i = Ret (Some <$> data).
Proof.
  revert i data. induction fuel as [|fuel IH]; intros i data Hi Hc Hf Hl; [lia|].
  cbn [drain]. unfold OplogIterator.hasNext. rewrite Hi. cbn [negb andb orb].
  destruct (drop (actualIndexDescriptor i) (descriptors i)) as [|d ds] eqn:Ed.
  - apply Forall2_nil_inv_l in Hf. subst data.
    rewrite bool_decide_false; [done|]. intros Hlt.
    assert (length (drop (actualIndexDescriptor i) (descriptors i)) = 0%nat) as E by (by rewrite Ed).
    rewrite length_drop in E. lia.
  - apply Forall2_cons_inv_l in Hf as (b & data' & (c & Hfe & Hu) & Hf & ->).
    assert (descriptors i !! actualIndexDescriptor i = Some d) as Hd.
    { rewrite <- (Nat.add_0_r (actualIndexDescriptor i)), <- lookup_drop. by rewrite Ed. }
    rewrite bool_decide_true by (by eapply lookup_lt_Some). cbn [orb].
    unfold OplogIterator.next. rewrite Hi. cbn [negb]. rewrite (at_throw_Some _ _ _ Hd). cbn [obind].
    rewrite Hfe, Hc. cbn [obind negb]. cbn. rewrite Hu. cbn [of_option obind].
    rewrite (IH _ data'); [done|done|done| |simpl in Hl; lia]. cbn.
    rewrite (drop_S _ _ _ Hd) in Ed. by injection Ed as ->.
Qed.

(** C27: Reading a log.  With a non-empty intermediate log, iterating over everything ends
    after one step per segment and one more, and yields the intermediate bytes followed by
    the operations of every segment; with an empty intermediate log (as a flush leaves it)
    the iterator ends at once and the segments are not read, whatever the log holds. *)
Theorem oplog_iteration o D l options fuel :
  stores dir (SingleOperationLog.disk o) D l → compressed_option options = false →
  let intermediate := SingleOperationLog.getAllBytes dir (SingleOperationLog.disk o) in
  ∃ i, SingleOperationLog.getAll dir options o = Ret i ∧
    (intermediate ≠ [] → (length l + 1 < fuel)%nat →
       drain fuel (SingleOperationLog.readBytesByIndexSegmentDescriptor dir o) i
       = Ret (Some intermediate :: ((λ seg, Some (log_bytes seg.2)) <$> l))) ∧
    (intermediate = [] → OplogIterator.hasNext i = false ∧ OplogIterator.totalSize i = Z.of_nat (length l)).
Proof using ZS.
  intros St Hc intermediate. unfold SingleOperationLog.getAll, OplogIndexSegment.getAll.
  rewrite (readAllIndex_ok dir _ _ (st_index _ _ _ _ St)). cbn [obind].
  eexists. split; [reflexivity|]. split.
  - intros Hne Hf. destruct fuel as [|fuel]; [lia|]. cbn [drain]. fold intermediate.
    unfold OplogIterator.hasNext, make. cbn [OplogIterator.intermediate intermediateIterated negb andb orb].
    rewrite bool_decide_true by (destruct intermediate; [done|simpl; lia]).
    unfold OplogIterator.next. cbn [OplogIterator.intermediate intermediateIterated negb compressed].
    rewrite Hc. cbn [obind].
    rewrite (drain_segments _ _ _ ((λ seg, log_bytes seg.2) <$> l)); [by rewrite <- list_fmap_compose|done|done| |rewrite length_fmap; lia].
    cbn [descriptors actualIndexDescriptor]. rewrite drop_0, Forall2_fmap_l, Forall2_fmap_r.
    apply Forall_Forall2_diag, Forall_forall. intros seg Hin. by eapply fetch_segment_ok.
  - intros E. unfold OplogIterator.hasNext, totalSize, make. fold intermediate. rewrite E.
    cbn [descriptors OplogIterator.intermediate intermediateIterated negb andb orb].
    rewrite bool_decide_false by (simpl; lia). rewrite bool_decide_true by done. rewrite length_fmap. split; [done|lia].
Qed.

End iteration.

(** A log with one segment and an operation in the intermediate file. *)
Definition one_segment : descriptor * list (OperationBody.t * list SimpleString.t) :=
  let b := log_bytes (records [set_k 2]) in
  (OplogIndexSegmentDescriptor.mk 2 2 0 (crc_32 b) (Z.of_nat (length b)) (Z.of_nat (length b)) 0, records [set_k 2]).

Definition one_segment_fs (intermediate : bytes) : fs :=
  mk_fs {[ OplogIndexSegment.fullPathIndex "/d/0" := OplogIndexSegmentDescriptor.serialize one_segment.1;
           OplogIndexSegment.fullPathData "/d/0" := log_bytes one_segment.2;
           SingleOperationLog.fullPath "/d/0" := intermediate ]} {[ "/d"%string; "/d/0"%string ]}.

Lemma one_segment_stores b : stores "/d/0" (one_segment_fs b) (log_bytes one_segment.2) [one_segment].
Proof.
  split; [|vm_compute; reflexivity| |split; vm_compute; reflexivity].
  - split; [vm_compute; reflexivity|]. split; [|vm_compute; reflexivity].
    constructor; [|constructor]. split; vm_compute; split; first [discriminate|reflexivity].
  - constructor; [|constructor]. split.
    + repeat constructor; simpl; try (vm_compute; reflexivity); unfold byte_ok; try lia.
    + vm_compute. reflexivity.
    + vm_compute. discriminate.
    + eexists. split; [reflexivity|]. split; vm_compute; reflexivity.
    + vm_compute. reflexivity.
Qed.

Lemma oplog_iteration_witness :
  let log b := SingleOperationLog.mk (one_segment_fs b) (Z.of_nat (length b)) [] false false in
  let options := mk_options 0 false in
  (∃ i, SingleOperationLog.getAll "/d/0" options (log [7]) = Ret i ∧
     drain 3 (SingleOperationLog.readBytesByIndexSegmentDescriptor "/d/0" (log [7])) i
     = Ret [Some [7]; Some (log_bytes one_segment.2)]) ∧
  (∃ i, SingleOperationLog.getAll "/d/0" options (log []) = Ret i ∧ OplogIterator.hasNext i = false).
Proof.
  intros log options. split.
  - destruct (oplog_iteration "/d/0" (log [7]) _ [one_segment] options 3 (one_segment_stores [7])) as (i & E & H1 & _); [done|].
    exists i. split; [exact E|]. apply H1; [discriminate|simpl; lia].
  - destruct (oplog_iteration "/d/0" (log []) _ [one_segment] options 3 (one_segment_stores [])) as (i & E & _ & H2); [done|].
    exists i. split; [exact E|]. by apply H2.
Defined.

(** No log is ever found: the test is the wrong way round, and throws past the end. *)
Lemma hasOplogFile_never l id : MultipleOperationLog.hasOplogFile id l = Ret false ∨
  MultipleOperationLog.hasOplogFile id l = Throw out_of_range.
Proof.
  unfold MultipleOperationLog.hasOplogFile. destruct (decide _) as [Hlt|]; [|by left].
  right. unfold at_throw. by rewrite lookup_ge_None_2 by lia.
Qed.
