(* ===== verification/Cluster.v ===== *)
(** * The other nodes of the cluster

    Models [cluster/NodeState.cpp], [cluster/Node.cpp], [cluster/othernodes/] (the nodes of
    each partition, quorum waiting, broadcasts) and [cluster/GetClusterConfigResponse.cpp].
    Reaching another node is an interface, [Network]; an error [std::result] carries a
    default-initialised [Response], whose [isSuccessful] is indeterminate, so reading it is
    undefined. *)

From Stdlib Require Import Ascii.
From stdpp Require Import sorting.
From S2P Require Import Prelude.
From S2P Require Import Utils.
From S2P Require Import Results.
From S2P Require Import Clock.
From S2P Require Import Messages.
From S2P Require Import Codec.
From S2P Require Import Config.
From S2P Require Import Connection.
From S2P Require Import Queues.
From S2P Require Import Ring.

(** [NodeState]. *)
Inductive NodeState := RUNNING | SHUTDOWN | BOOTING.

#[global] Instance NodeState_eq_dec : EqDecision NodeState.
Proof. solve_decision. Defined.

Module NodeStates.

(** [NodeStates::cantExecuteRequest]: true when the node can execute requests. *)
Definition cantExecuteRequest (state : NodeState) : bool := bool_decide (state = RUNNING).
Definition canAcceptRequest (state : NodeState) : bool := bool_decide (state ≠ SHUTDOWN).

(** [NodeStates::parseNodeStateToString] and [NodeStates::parseNodeStateFromString]. *)
Definition parseNodeStateToString (s : NodeState) : string :=
  match s with RUNNING => "RUNNING" | SHUTDOWN => "SHUTDOWN" | BOOTING => "BOOTING" end.
Definition parseNodeStateFromString (s : string) : outcome NodeState :=
  if decide (s = "RUNNING"%string) then Ret RUNNING
  else if decide (s = "SHUTDOWN"%string) then Ret SHUTDOWN
  else if decide (s = "BOOTING"%string) then Ret BOOTING
  else Throw runtime_error.

End NodeStates.

(** ** A connection to another node *)

Module Node.

Record t := mk { nodeId : Z; address : string; connection : option Connection.t }.

(** [Node::Node]. *)
Definition make (nodeId : Z) (address : string) : t := mk nodeId address None.

Section node.
Context `{Socket} `{Platform}.
(** Connecting a socket to an address and a port: the stream of the new connection. *)
Context (connectToSocket : string → string → option bytes).

(** [Node::isConnectionOpened]. *)
Definition isConnectionOpened (n : t) : bool :=
  match connection n with Some c => Connection.isOpen c | None => false end.

(** [Node::closeConnection]. *)
Definition closeConnection (n : t) : t :=
  if isConnectionOpened n
  then mk (nodeId n) (address n)
         ((λ c, Connection.mk (Connection.incoming c) (Connection.outgoing c) (Connection.asyncWrites c) false
             (Connection.typePacketHeaderBuffer c) (Connection.resetConnectionCallback c)) <$> connection n)
  else n.

(** [Node::openConnection]. *)
Definition openConnection : stM t bool :=
  λ n,
    if isConnectionOpened n then Ret (n, false)
    else
      let splitedAddress := StringUtils.split (address n) ":"%char in
      let! ip := at_undef splitedAddress 0 in
      let! port := at_undef splitedAddress 1 in
      match connectToSocket ip port with
      | None => Ret (n, false)
      | Some stream =>
          Ret (mk (nodeId n) (address n)
                 (Some (Connection.mk stream [] [] true 0 (connectToSocket ip port))), true)
      end.

(** [Node::openConnectionIfClosedOrThrow]; the result is whether it succeeded. *)
Definition openConnectionIfClosedOrThrow : stM t bool :=
  λ n, if negb (isConnectionOpened n) then openConnection n else Ret (n, true).

Definition on_connection {A} (m : stM Connection.t A) : stM t A :=
  λ n, match connection n with
       | Some c => let! (c, a) := m c in Ret (mk (nodeId n) (address n) (Some c), a)
       | None => Undef
       end.

(** [Node::writeSyncToConnection]: a failed write is retried once on a new connection, with
    what the first attempt left in the buffer. *)
Definition writeSyncToConnection (b : bytes) : stM t Z :=
  λ n, match on_connection (Connection.writeSync b) n with
       | Throw _ =>
           let! (n, opened) := openConnection n in
           if (opened : bool) then
             match on_connection (Connection.writeSync (Connection.left_in_buffer b)) n with
             | Throw _ => Ret (n, 0)
             | o => o
             end
           else Ret (n, 0)
       | o => o
       end.

(** [Node::readSyncFromConnection]: a failed read is retried once; an open connection is not
    opened again. *)
Definition readSyncFromConnection : stM t (option bytes) :=
  readResult ← on_connection Connection.readSync;
  match readResult with
  | Some b => mret (Some b)
  | None => _ ← openConnection; on_connection Connection.readSync
  end.

(** [Node::sendRequest]; [None] is the error result. *)
Definition sendRequest (request : Request.t) : stM t (option Response.t) :=
  opened ← openConnectionIfClosedOrThrow;
  if negb opened then mret None
  else
    serializedRequest ← lift (RequestSerializer.serialize request);
    bytesWritten ← writeSyncToConnection serializedRequest;
    if bytesWritten =? 0 then mret None
    else
      responseBytesResult ← on_connection Connection.readSync;
      match responseBytesResult with
      | None => mret None
      | Some b => lift (ResponseCodec.deserialize b)
      end.

End node.
End Node.

(** A write that is retried on a new connection is framed twice: the other end reads the packet
    with the headers of the first attempt before it. *)
Lemma retried_write_framed_twice `{Socket} `{Platform} connect n n1 c b :
  taken (frame (Connection.left_in_buffer b)) → Node.connection n = Some c → Connection.open c = false →
  Node.openConnection connect n = Ret (n1, true) → (length b < 1019)%nat →
  ∃ n2 w c2 c', Node.writeSyncToConnection connect b n = Ret (n2, w) ∧ Node.connection n2 = Some c2 ∧
    Connection.readSync (receiver (Connection.outgoing c2))
    = Ret (c', Some (0 :: be_bytes 4 (Z.of_nat (length b)) ++ b)).
Proof.
  intros Hf Hc Ho En Hb. set (p := 0 :: be_bytes 4 (Z.of_nat (length b)) ++ b).
  assert (Connection.left_in_buffer b = p) as Ep.
  { unfold Connection.left_in_buffer, Connection.FRAGMENT_MIN_SIZE. rewrite decide_True by lia.
    unfold Connection.addContentLengthHeader, Connection.addNoFragmentationHeader. by rewrite appendBeginningToBuffer_be. }
  assert (length p = 5 + length b)%nat as Lp by (unfold p; cbn [length]; rewrite length_app, length_be_bytes; lia).
  assert (∃ c1, Node.connection n1 = Some c1 ∧ Connection.open c1 = true ∧ Connection.outgoing c1 = []) as (c1 & E1 & O1 & Q1).
  { unfold Node.openConnection in En. destruct (Node.isConnectionOpened n); [done|]. inv_ret.
    destruct (connect _ _); [|done]. injection En as <-. eexists. split; [reflexivity|done]. }
  pose proof (frame_length p) as Hfl. pose proof (Nat.div_mod_eq (length p) 1024).
  assert (packets p = [frame p]) as Epk
    by (rewrite short_frame by lia; unfold packets; by rewrite decide_True by lia).
  pose proof (writeSync_whole p c1 O1) as Ew. rewrite Epk in Ew. rewrite Ep in Hf.
  specialize (Ew ltac:(by apply Forall_singleton) ltac:(lia)). rewrite Q1 in Ew. destruct (frame_read p []) as (c' & Er & _); [lia..|].
  rewrite app_nil_r in Er.
  exists (Node.mk (Node.nodeId n1) (Node.address n1) (Some (Connection.set_outgoing (frame p) c1))), (Z.of_nat (length (frame p))),
    (Connection.set_outgoing (frame p) c1), c'. split; [|split; [reflexivity|exact Er]].
  unfold Node.writeSyncToConnection. rewrite Ep. unfold Node.on_connection. rewrite Hc.
  assert (Connection.writeSync b c = Throw runtime_error) as ->.
  { unfold Connection.writeSync, Connection.FRAGMENT_MIN_SIZE. rewrite decide_True by lia.
    unfold mbind, stM_bind, Connection.socket_write_some. by rewrite Ho. }
  cbn [obind]. rewrite En. cbn [obind]. rewrite E1, Ew. reflexivity.
Qed.

(** ** Responses of several nodes *)

Module MultipleResponses.

Record t := mk {
  responses : gmap Z Response.t;
  successfulResponsesLatch : CounterLatch.t;
  nTotalRequest : Z;
}.

(** [MultipleResponses::MultipleResponses]. *)
Definition make (nTotalRequest : Z) : t := mk ∅ CounterLatch.make nTotalRequest.

(** [MultipleResponses::getResponses]. *)
Definition getResponses (m : t) : gmap Z Response.t := responses m.

(** The number of successes [MultipleResponses::waitForSuccessfulQuorum] waits for. *)
Definition minSuccesses (m : t) : Z :=
  let nTotalNodes := nTotalRequest m + 1 in
  let minQuorum := Z.quot nTotalNodes 2 + 1 in
  minQuorum - 1.

(** [MultipleResponses::waitForSuccessfulQuorum], on the states of the latch it sees. *)
Definition waitForSuccessfulQuorum (m : t) (seen : list CounterLatch.t) : bool :=
  CounterLatch.awaitMinOrEq (minSuccesses m) seen.

(** [MultipleResponses::allResponsesSuccessful]. *)
Definition allResponsesSuccessful (m : t) : bool :=
  bool_decide (map_Exists (λ _ r, Response.isSuccessful r = false) (responses m)).

(** [MultipleResponsesNotifier::addResponse]; [std::map::insert] keeps an older response.
    The callbacks are the caller's. *)
Definition addResponse (nodeId : Z) (response : Response.t) (m : t) : t :=
  mk (match responses m !! nodeId with Some _ => responses m | None => <[nodeId:=response]> (responses m) end)
     (if Response.isSuccessful response
      then CounterLatch.increase (successfulResponsesLatch m) else successfulResponsesLatch m)
     (nTotalRequest m).

End MultipleResponses.

(** ** The nodes by partition *)

(** A [std::result] as the option its users read. *)
Definition as_result {A} (o : option A) : Result.t A A := match o with Some a => Result.ok a | None => Result.no_value end.
Definition as_option {A} (r : Result.t A A) : option A := if Result.is_success r then Result._value r else None.

(** Reaching another node ([Node::sendRequest]); [W] is the state of the network and of the
    other nodes, kept when the request throws. *)
Class Network (W : Type) := node_sendRequest : Z → Request.t → W → W * outcome (option Response.t).

(** The connections of a cluster are such a network. *)
#[global] Instance node_network `{Socket} `{Platform} (connectToSocket : string → string → option bytes) :
    Network (gmap Z Node.t) :=
  λ id request w,
    match w !! id with
    | None => (w, Throw out_of_range)
    | Some n =>
        match Node.sendRequest connectToSocket request n with
        | Ret (n, r) => (<[id:=n]> w, Ret r)
        | Throw e => (w, Throw e)
        | Undef => (w, Undef)
        | Blocked => (w, Blocked)
        | NoFuel => (w, NoFuel)
        end
    end.

Module ClusterNodes.

(** [NodesInPartition]: an ordered set of node identifiers. *)
Abbreviation NodesInPartition := (gset Z).
Definition getAll (s : NodesInPartition) : list Z := merge_sort Z.le (elements s).

(** The addresses of all nodes, the nodes of each partition, and the hints kept for nodes
    that could not be reached. *)
Record t := mk {
  allNodesById : gmap Z string;
  nodesInPartitions : list NodesInPartition;
  hints : gmap Z (list Request.t);
  configuration : Configuration.t;
}.

Definition set_nodes (n : gmap Z string) (c : t) : t := mk n (nodesInPartitions c) (hints c) (configuration c).
Definition set_partitions (l : list NodesInPartition) (c : t) : t := mk (allNodesById c) l (hints c) (configuration c).

(** [operator[]] and [at] on the vector of partitions. *)
Definition alter_partition (e : outcome NodesInPartition) (i : nat) (f : NodesInPartition → NodesInPartition) :
    stM t () :=
  λ c, let! s := match nodesInPartitions c !! i with Some s => Ret s | None => e end in
       Ret (set_partitions (<[i:=f s]> (nodesInPartitions c)) c, ()).

(** [ClusterNodes::addNode] and [ClusterNodes::addNodes]. *)
Definition addNode (n : Z * string) (c : t) : t := set_nodes (<[n.1:=n.2]> (allNodesById c)) c.
Definition addNodes (l : list (Z * string)) (c : t) : t := foldl (λ c n, addNode n c) c l.

(** [ClusterNodes::addNodesInPartition]: the node's object replaces a known one. *)
Fixpoint addNodesInPartition (l : list (Z * string)) (partitionId : nat) : stM t () :=
  match l with
  | [] => mret ()
  | n :: l =>
      _ ← modify (λ c, addNode n (set_nodes (delete n.1 (allNodesById c)) c));
      _ ← alter_partition Undef partitionId (λ s, {[n.1]} ∪ s);
      addNodesInPartition l partitionId
  end.

(** [ClusterNodes::addNodeInPartition]. *)
Definition addNodeInPartition (n : Z * string) (partitionId : nat) : stM t () :=
  _ ← alter_partition Undef partitionId (λ s, {[n.1]} ∪ s);
  modify (addNode n).

(** [ClusterNodes::removeNodeFromPartition]. *)
Definition removeNodeFromPartition (nodeId : Z) (partitionId : nat) : stM t () :=
  alter_partition (Throw out_of_range) partitionId (λ s, s ∖ {[nodeId]}).

(** [ClusterNodes::deleteNodeById]. *)
Definition deleteNodeById (nodeId : Z) (c : t) : t :=
  mk (delete nodeId (allNodesById c)) ((λ s, s ∖ {[nodeId]}) <$> nodesInPartitions c) (hints c) (configuration c).

(** [ClusterNodes::setNumberPartitions]. *)
Definition setNumberPartitions (numberPartitions : nat) (c : t) : t :=
  set_partitions (nodesInPartitions c ++ replicate numberPartitions ∅) c.

(** [ClusterNodes::getAllNodes]: in the order of the identifiers. *)
Definition getAllNodes (c : t) : list Z := merge_sort Z.le (elements (dom (allNodesById c))).

Definition getSize (c : t) : Z := Z.of_nat (size (allNodesById c)).
Definition existsByNodeId (nodeId : Z) (c : t) : bool := bool_decide (is_Some (allNodesById c !! nodeId)).

(** [ClusterNodes::isEmtpy]. *)
Definition isEmtpy (partitionId : nat) (c : t) : bool :=
  match nodesInPartitions c !! partitionId with
  | None => true
  | Some s => bool_decide (size s = 0)%nat
  end.

(** [ClusterNodes::getByNodeId]: the address of a node, our own included. *)
Definition getByNodeId (nodeId : Z) (c : t) : outcome (option string) :=
  let! selfNodeId := Configuration.getUint 16 (configuration c) ConfigurationKeys.NODE_ID in
  if nodeId =? selfNodeId then
    let! address := Configuration.get (configuration c) ConfigurationKeys.ADDRESS in
    let! port := Configuration.get (configuration c) ConfigurationKeys.SERVER_PORT in
    Ret (Some (address +:+ ":" +:+ port))
  else Ret (allNodesById c !! nodeId).

(** [ClusterNodes::prepareRequest]. *)
Definition prepareRequest (operation : OperationBody.t) (c : t) : outcome Request.t :=
  let! key := Configuration.get (configuration c) ConfigurationKeys.AUTH_NODE_KEY in
  let! id := Configuration.getUint 16 (configuration c) ConfigurationKeys.NODE_ID in
  Ret (Request.mk (AuthenticationBody.mk (bytes_of_string key) true false)
        (OperationBody.mk (OperationBody.args operation) (OperationBody.timestamp operation) id
           (OperationBody.operatorNumber operation) (OperationBody.flag1 operation)
           (OperationBody.flag2 operation)) 0 USER).

(** [ClusterNodes::getRandomNode]; [rand i] is the [i]-th value of [std::rand].  The result
    is the node and the checked set. *)
Fixpoint getRandomNode (fuel : nat) (rand : nat → Z) (partitionId : nat) (alreadyCheckedNodesId : gset Z) (c : t) :
    outcome (option Z * gset Z) :=
  match fuel with
  | O => NoFuel
  | S fuel =>
      let! nodesIdInPartition := at_undef (nodesInPartitions c) partitionId in
      if decide (size alreadyCheckedNodesId ≠ size nodesIdInPartition) then
        if decide (size nodesIdInPartition = 0)%nat then Undef
        else
          let offset := u16 (Z.rem (rand fuel) (Z.of_nat (size nodesIdInPartition))) in
          if decide (offset ∈ alreadyCheckedNodesId)
          then getRandomNode fuel rand partitionId alreadyCheckedNodesId c
          else
            let! id := at_undef (getAll nodesIdInPartition) (Z.to_nat offset) in
            let! _ := of_option out_of_range (allNodesById c !! id) in
            Ret (Some id, {[id]} ∪ alreadyCheckedNodesId)
      else Ret (None, alreadyCheckedNodesId)
  end.

(** The number of attempts of a request, an [int]. *)
Definition numberRetries (c : t) : outcome nat :=
  let! n := Configuration.getUint 32 (configuration c) ConfigurationKeys.NODE_REQUEST_N_RETRIES in
  Ret (Z.to_nat (i32 n)).

(** Keeping a request for a node that could not be reached ([HintsService::add]). *)
Definition addHint (id : Z) (request : Request.t) (c : t) : t :=
  mk (allNodesById c) (nodesInPartitions c)
     (<[id := default [] (hints c !! id) ++ [request]]> (hints c)) (configuration c).

(** The nodes of a partition, each known by address ([forEachNodeInPartition]). *)
Definition nodesOfPartition (partitionId : nat) (c : t) : outcome (list Z) :=
  let! s := at_undef (nodesInPartitions c) partitionId in
  ofoldl (λ l id, let! _ := of_option out_of_range (allNodesById c !! id) in Ret (l ++ [id])) [] (getAll s).

Section network.
Context {W : Type} {N : Network W}.

(** Sending a request; an exception of the node propagates. *)
Definition send (id : Z) (request : Request.t) : stM W (option Response.t) :=
  λ w, let '(w, r) := node_sendRequest id request w in let! r := r in Ret (w, r).

(** [isSuccessful] of a result; indeterminate on an error. *)
Definition result_isSuccessful (r : option Response.t) : outcome bool :=
  match r with Some r => Ret (Response.isSuccessful r) | None => Undef end.

(** [ClusterNodes::sendRequestToAnyNode]; round [fuel] draws from its own random values. *)
Fixpoint sendRequestToAnyNode (fuel : nat) (rand : nat → nat → Z) (requiresSuccessfulResponse : bool)
    (partitionId : nat) (requestCreator : Z → outcome Request.t) (checked : gset Z) (c : t) :
    stM W (option Response.t) :=
  match fuel with
  | O => λ _, NoFuel
  | S fuel =>
      found ← lift (getRandomNode fuel (rand fuel) partitionId checked c);
      match found with
      | (None, _) => mret None
      | (Some id, checked) =>
          request ← lift (requestCreator id);
          response ← send id request;
          ok ← lift (result_isSuccessful response);
          if (ok : bool) && (negb requiresSuccessfulResponse || ok) then mret response
          else sendRequestToAnyNode fuel rand requiresSuccessfulResponse partitionId requestCreator checked c
      end
  end.

(** [Utils::retryNTimesAndGet]: an error and an exception both use up an attempt.  [attempt]
    may change the node's own state as well as the network's. *)
Fixpoint retryNTimesAndGet {S A} (numberAttempts : nat) (attempt : S → S * outcome (option A)) :
    stM S (option A) :=
  λ s,
    match numberAttempts with
    | O => Ret (s, None)
    | S n =>
        match attempt s with
        | (s, Ret (Some r)) => Ret (s, Some r)
        | (s, Ret None) | (s, Throw _) => retryNTimesAndGet n attempt s
        | (_, Undef) => Undef
        | (_, Blocked) => Blocked
        | (_, NoFuel) => NoFuel
        end
    end.

(** It is the helper of [Utils] on results. *)
Lemma retryNTimesAndGet_result {S A} n (attempt : S → S * outcome (option A)) s :
  retryNTimesAndGet n attempt s =
    let! (s, r) := Attempts.retryNTimesAndGet n (λ s, let '(s, o) := attempt s in (s, let! o := o in Ret (as_result o))) s in
    Ret (s, as_option r).
Proof.
  revert s. induction n as [|n IH]; intros s; simpl; [done|]. unfold Attempts.catching.
  destruct (attempt s) as [s1 [[a|]| | | |]]; simpl; auto.
Qed.

Definition retrySend (numberAttempts : nat) (id : Z) (request : Request.t) : stM W (option Response.t) :=
  retryNTimesAndGet numberAttempts (node_sendRequest id request).

(** [ClusterNodes::sendRequest]: retried until the node answers. *)
Fixpoint retryUntilSuccess (fuel : nat) (id : Z) (request : Request.t) : stM W Response.t :=
  λ w,
    match fuel with
    | O => NoFuel
    | S fuel =>
        match node_sendRequest id request w with
        | (w, Ret (Some r)) => Ret (w, r)
        | (w, Ret None) | (w, Throw _) => retryUntilSuccess fuel id request w
        | (_, Undef) => Undef
        | (_, Blocked) => Blocked
        | (_, NoFuel) => NoFuel
        end
    end.
Definition sendRequest (fuel : nat) (id : Z) (request : Request.t) (c : t) : stM W Response.t :=
  _ ← lift (of_option out_of_range (allNodesById c !! id));
  retryUntilSuccess fuel id request.

(** One attempt of [ClusterNodes::sendRequestToRandomNode]; the checked set is shared by the
    attempts. *)
Definition random_attempt (fuel : nat) (rand : nat → Z) (request : Request.t) (partitionId : nat) (c : t)
    (s : gset Z * W) : gset Z * W * outcome (option Response.t) :=
  match getRandomNode fuel rand partitionId s.1 c with
  | Ret (Some id, checked) =>
      match prepareRequest (Request.operation request) c with
      | Ret prepared => let '(w, r) := node_sendRequest id prepared s.2 in ((checked, w), r)
      | Throw e => ((checked, s.2), Throw e)
      | Undef => (s, Undef) | Blocked => (s, Blocked) | NoFuel => (s, NoFuel)
      end
  | Ret (None, checked) => ((checked, s.2), Throw runtime_error)
  | Throw e => (s, Throw e)
  | Undef => (s, Undef) | Blocked => (s, Blocked) | NoFuel => (s, NoFuel)
  end.

(** [ClusterNodes::sendRequestToRandomNode]. *)
Definition sendRequestToRandomNode (fuel : nat) (rand : nat → Z) (request : Request.t) (partitionId : nat) (c : t) :
    stM W (option Response.t) :=
  λ w,
    let! nRetries := numberRetries c in
    let! (s, r) := retryNTimesAndGet nRetries (random_attempt fuel rand request partitionId c) (∅, w) in
    Ret (s.2, r).

(** One task of [ClusterNodes::broadcast]. *)
Definition broadcast_task (nRetries : nat) (canBeStoredInHint : bool) (operation : OperationBody.t) (id : Z) :
    stM (t * W) () :=
  λ '(c, w),
    let! request := prepareRequest operation c in
    let! (w, result) := retrySend nRetries id request w in
    Ret ((match result with None => if canBeStoredInHint then addHint id request c else c | Some _ => c end, w), ()).

(** The tasks of a broadcast; [schedule] is the order in which the pool runs the tasks it was
    given. *)
Fixpoint run_tasks {A} (task : Z → A → stM (t * W) A) (order : list Z) (a : A) : stM (t * W) A :=
  match order with [] => mret a | id :: order => a ← task id a; run_tasks task order a end.

(** [ClusterNodes::broadcast]. *)
Definition broadcast (schedule : list Z → list Z) (canBeStoredInHint : bool) (operation : OperationBody.t)
    (partitionId : nat) : stM (t * W) () :=
  cw ← get_st;
  nRetries ← lift (numberRetries cw.1);
  ids ← lift (nodesOfPartition partitionId cw.1);
  run_tasks (λ id _, broadcast_task nRetries canBeStoredInHint operation id) (schedule ids) ().

(** [ClusterNodes::broadcastAll]: every known node. *)
Definition broadcastAll (schedule : list Z → list Z) (canBeStoredInHint : bool) (operation : OperationBody.t) :
    stM (t * W) () :=
  cw ← get_st;
  nRetries ← lift (numberRetries cw.1);
  run_tasks (λ id _, broadcast_task nRetries canBeStoredInHint operation id) (schedule (getAllNodes cw.1)) ().

(** Counting a response of a node. *)
Definition notify (id : Z) (ok : bool) (result : option Response.t) (m : MultipleResponses.t) : MultipleResponses.t :=
  match result with
  | Some r => if ok then MultipleResponses.addResponse id r m else m
  | None => m
  end.

Definition keep_hint (canBeStoredInHint : bool) (id : Z) (request : Request.t) (result : option Response.t) (c : t) : t :=
  match result with None => if canBeStoredInHint then addHint id request c else c | Some _ => c end.

(** One task of [ClusterNodes::broadcastAndWait]: a success is counted, a node that could
    not be reached gets a hint. *)
Definition broadcastAndWait_task (canBeStoredInHint : bool) (operation : OperationBody.t) (id : Z)
    (m : MultipleResponses.t) : stM (t * W) MultipleResponses.t :=
  λ '(c, w),
    let! request := prepareRequest operation c in
    let! (w, result) := send id request w in
    let! ok := result_isSuccessful result in
    Ret ((keep_hint canBeStoredInHint id request result c, w), notify id ok result m).

(** [ClusterNodes::broadcastAndWait]: the responses once the tasks ran. *)
Definition broadcastAndWait (schedule : list Z → list Z) (canBeStoredInHint : bool) (operation : OperationBody.t)
    (partitionId : nat) : stM (t * W) MultipleResponses.t :=
  cw ← get_st;
  s ← lift (at_undef (nodesInPartitions cw.1) partitionId);
  ids ← lift (nodesOfPartition partitionId cw.1);
  run_tasks (broadcastAndWait_task canBeStoredInHint operation) (schedule ids)
    (MultipleResponses.make (Z.of_nat (size s))).

(** One task of [ClusterNodes::broadcastForEachAndWait]: each node gets its own operation,
    sent with retries. *)
Definition broadcastForEach_task (nRetries : nat) (canBeStoredInHint : bool)
    (requestCreator : Z → stM W OperationBody.t) (id : Z) (m : MultipleResponses.t) :
    stM (t * W) MultipleResponses.t :=
  λ '(c, w),
    let! (w, operation) := requestCreator id w in
    let! request := prepareRequest operation c in
    let! (w, result) := retrySend nRetries id request w in
    let c := keep_hint canBeStoredInHint id request result c in
    let! ok := result_isSuccessful result in
    Ret ((c, w), notify id ok result m).

(** [ClusterNodes::broadcastForEachAndWait]. *)
Definition broadcastForEachAndWait (schedule : list Z → list Z) (canBeStoredInHint : bool)
    (requestCreator : Z → stM W OperationBody.t) (partitionId : nat) : stM (t * W) MultipleResponses.t :=
  cw ← get_st;
  s ← lift (at_undef (nodesInPartitions cw.1) partitionId);
  nRetries ← lift (numberRetries cw.1);
  ids ← lift (nodesOfPartition partitionId cw.1);
  run_tasks (broadcastForEach_task nRetries canBeStoredInHint requestCreator) (schedule ids)
    (MultipleResponses.make (Z.of_nat (size s))).

(** [ClusterNodes::sendHintedHandoff]: the hints of a node, in the order they are read. *)
Fixpoint sendHintedHandoff (fuel : nat) (hinted : list Request.t) (id : Z) (c : t) : stM W () :=
  match hinted with
  | [] => mret ()
  | request :: hinted => _ ← sendRequest fuel id request c; sendHintedHandoff fuel hinted id c
  end.

End network.
End ClusterNodes.

(** ** The cluster's configuration on the wire *)

Module GetClusterConfigResponse.

Record t := mk {
  nodesPerPartition : Z;
  maxPartitionSize : Z;
  nodes : list (Z * bytes);
  ringEntries : list RingEntry;
}.

(** [GetClusterConfigResponse::serialize]. *)
Definition serialize (r : t) : outcome bytes :=
  let serialized := Utils.appendToBuffer 4 (nodesPerPartition r) [] in
  let serialized := Utils.appendToBuffer 4 (maxPartitionSize r) serialized in
  let serialized := Utils.appendToBuffer 4 (u32 (Z.of_nat (length (nodes r)))) serialized in
  let! serialized := ofoldl (λ out node,
    let out := Utils.appendToBuffer 2 node.1 out in
    let out := Utils.appendToBuffer 4 (u32 (Z.of_nat (length node.2))) out in
    Utils.appendPtrToBuffer node.2 (length node.2) out) serialized (nodes r) in
  Ret (foldl (λ out e, Utils.appendToBuffer 4 (ringPosition e) (Utils.appendToBuffer 2 (nodeId e) out))
         serialized (ringEntries r)).

(** [GetClusterConfigResponse::getSerializedBytesSize]. *)
Definition getSerializedBytesSize (r : t) : Z :=
  let size := 4 + 4 in
  let size := size + 4 in
  let size := foldl (λ size node, u64 (size + (2 + 4 + Z.of_nat (length node.2)))) size (nodes r) in
  foldl (λ size _, u64 (size + (2 + 4))) size (ringEntries r).

Section deserializer.
Context `{Platform}.

(** A position of the buffer given by the [int] [offset]; a negative one is outside of it. *)
Definition position (offset : Z) : outcome nat := if offset <? 0 then Undef else Ret (Z.to_nat offset).

(** The loop of [GetClusterConfigResponse::getNodesFromGetClusterConfig], [k] nodes to go;
    [offset] is an [int], to which a [size_t] is added. *)
Fixpoint getNodes_loop (k : nat) (offset : Z) (b : bytes) : outcome (list (Z * bytes) * Z) :=
  match k with
  | O => Ret ([], offset)
  | S k =>
      let! i := position offset in
      let! nodeId := Utils.parseFromBuffer 2 b i in
      let! sizeAddress := Utils.parseFromBuffer 4 b (i + 2) in
      let! address := slice b (i + 2 + 4) (Z.to_nat sizeAddress) in
      let! (nodes, offset) := getNodes_loop k (i32 (offset + (2 + 4 + sizeAddress))) b in
      Ret ((nodeId, address) :: nodes, offset)
  end.

(** [GetClusterConfigResponse::getNodesFromGetClusterConfig]; the timeout of the connections is
    read first. *)
Definition getNodes (nNodesInCluster : Z) (offset : Z) (b : bytes) (configuration : Configuration.t) :
    outcome (list (Z * bytes) * Z) :=
  let! _ := Configuration.getUint 64 configuration ConfigurationKeys.NODE_REQUEST_TIMEOUT_MS in
  getNodes_loop (Z.to_nat nNodesInCluster) offset b.

(** [GetClusterConfigResponse::getRingEntriesFromGetClusterConfig], [k] entries to go. *)
Fixpoint getRingEntries (k : nat) (offset : Z) (b : bytes) : outcome (list RingEntry) :=
  match k with
  | O => Ret []
  | S k =>
      let! i := position offset in
      let! nodeId := Utils.parseFromBuffer 2 b i in
      let! ringPosition := Utils.parseFromBuffer 4 b (i + 2) in
      let! l := getRingEntries k (i32 (offset + (2 + 4))) b in
      Ret (mk_entry nodeId ringPosition :: l)
  end.

(** [GetClusterConfigResponse::deserialize]; the number of nodes is read as an [int], and the
    number of ring entries is that number as a [uint32_t]. *)
Definition deserialize (b : bytes) (configuration : Configuration.t) : outcome t :=
  let! nodesPerPartition := Utils.parseFromBuffer 4 b 0 in
  let! maxPartitionSize := Utils.parseFromBuffer 4 b 4 in
  let! n := Utils.parseFromBuffer 4 b 8 in
  let nNodesInCluster := i32 n in
  let! usingPartitions := Configuration.getBoolean configuration ConfigurationKeys.USE_PARTITIONS in
  let! (nodes, offset) := getNodes nNodesInCluster 12 b configuration in
  let! ringEntries :=
    (if (usingPartitions : bool) then getRingEntries (Z.to_nat (u32 nNodesInCluster)) offset b else Ret []) in
  Ret (mk nodesPerPartition maxPartitionSize nodes ringEntries).

End deserializer.
End GetClusterConfigResponse.

(** ** Quorums *)

Section quorum.
Context {W : Type} {N : Network W}.
Import ClusterNodes.
Implicit Types (m : MultipleResponses.t) (c : t) (w : W).

Abbreviation acks m := (dom (MultipleResponses.responses m)).
Abbreviation latch m := (MultipleResponses.successfulResponsesLatch m).

(** The latch counts the nodes whose response was kept. *)
Definition counted m : Prop := CounterLatch.counter (latch m) = Z.of_nat (size (acks m)).

Lemma notify_counted id ok r m :
  (ok = true → Response.isSuccessful <$> r = Some true ∨ r = None) →
  counted m → id ∉ acks m → Z.of_nat (size (acks m)) + 1 < 2 ^ 31 →
  let m' := notify id ok r m in
  counted m' ∧ acks m' ⊆ {[id]} ∪ acks m ∧
  MultipleResponses.nTotalRequest m' = MultipleResponses.nTotalRequest m.
Proof.
  intros Hok Hc Hid Hsz. unfold notify. destruct r as [r|], ok; simpl; try (split_and!; [done|set_solver|done]).
  destruct (Hok eq_refl) as [[= Hr]|]; [|done].
  unfold counted, MultipleResponses.addResponse in *. simpl. rewrite Hr.
  rewrite not_elem_of_dom in Hid. rewrite Hid. simpl. split_and!; [|set_solver|done].
  rewrite Hc, dom_insert_L, size_union by (apply disjoint_singleton_l; by apply not_elem_of_dom).
  rewrite size_singleton. rewrite sext_small by (unfold sfits; change (2 ^ (32 - 1)) with (2 ^ 31); lia). lia.
Qed.

Lemma broadcastAndWait_task_ack hint op id m s s' m' :
  broadcastAndWait_task hint op id m s = Ret (s', m') →
  ∃ ok r, m' = notify id ok r m ∧ (ok = true → Response.isSuccessful <$> r = Some true ∨ r = None).
Proof.
  destruct s as [c w]. unfold broadcastAndWait_task. intros E. inv_ret.
  eexists _, _. split; [done|].
  intros Hok. match goal with H : result_isSuccessful ?r = _ |- _ => destruct r; simpl in H; [|done] end.
  left. simpl. congruence.
Qed.

Lemma run_tasks_counted hint op order m s s' m' :
  run_tasks (broadcastAndWait_task hint op) order m s = Ret (s', m') →
  NoDup order → (∀ id, id ∈ order → id ∉ acks m) → counted m →
  Z.of_nat (size (acks m) + length order) < 2 ^ 31 →
  counted m' ∧ acks m' ⊆ list_to_set order ∪ acks m ∧
  MultipleResponses.nTotalRequest m' = MultipleResponses.nTotalRequest m.
Proof.
  revert m s. induction order as [|id order IH]; intros m s E Hnd Hnew Hc Hsz; simpl in E.
  - apply Ret_inj in E. injection E as <- <-. split_and!; [done|set_solver|done].
  - apply stM_bind_inv in E as (s1 & m1 & E1 & E2).
    apply NoDup_cons in Hnd as [Hid Hnd]. simpl in Hsz.
    apply broadcastAndWait_task_ack in E1 as (ok & r & -> & Hok).
    destruct (notify_counted id ok r m Hok Hc) as (Hc1 & Hsub & Ht); [apply Hnew; set_solver|lia|].
    assert (size (acks (notify id ok r m)) ≤ S (size (acks m)))%nat as Hsz1.
    { etrans; [by apply subseteq_size|]. rewrite size_union_alt, size_singleton.
      assert (size (acks m ∖ {[id]}) ≤ size (acks m))%nat; [apply subseteq_size; set_solver|lia]. }
    apply IH in E2 as (Hc2 & Hsub2 & Ht2); [|done| |done|lia].
    + split_and!; [done| |congruence]. etrans; [exact Hsub2|]. clear -Hsub. set_solver.
    + intros x Hx [->%elem_of_singleton|Hin]%Hsub%elem_of_union; [done|].
      by apply (Hnew x); [set_solver|].
Qed.

Lemma getAll_Permutation (s : gset Z) : getAll s ≡ₚ elements s.
Proof. unfold getAll. apply merge_sort_Permutation. Qed.

Lemma nodesOfPartition_ids p c s ids :
  nodesInPartitions c !! p = Some s → nodesOfPartition p c = Ret ids → ids ≡ₚ elements s.
Proof.
  intros Hs. unfold nodesOfPartition. rewrite (at_undef_Some _ _ _ Hs). cbn [obind].
  rewrite <- (getAll_Permutation s). generalize (getAll s) as l.
  assert (∀ l acc, ofoldl (λ l id, let! _ := of_option out_of_range (allNodesById c !! id) in Ret (l ++ [id])) acc l
                   = Ret ids → ids = acc ++ l) as G.
  { induction l as [|x l IH]; intros acc E; simpl in E; inv_ret; [by rewrite app_nil_r|].
    apply IH in E. by rewrite <- app_assoc in E. }
  intros l E. apply G in E. by subst.
Qed.

(** What the waiting coordinator learns: the nodes that acknowledged are nodes of the
    partition, and with itself they are more than half of its nodes. *)
Lemma broadcastAndWait_quorum schedule hint op p c w s' m seen (P : gset Z) a :
  (∀ l, schedule l ≡ₚ l) → a ∈ P → nodesInPartitions c !! p = Some (P ∖ {[a]}) →
  Z.of_nat (size P) < 2 ^ 31 →
  broadcastAndWait schedule hint op p (c, w) = Ret (s', m) →
  Forall (λ l, CounterLatch.counter l ≤ CounterLatch.counter (latch m)) seen →
  MultipleResponses.waitForSuccessfulQuorum m seen = true →
  {[a]} ∪ acks m ⊆ P ∧ (size P < 2 * size ({[a]} ∪ acks m))%nat.
Proof.
  intros Hsch Ha Hp Hsz E Hseen Hq.
  assert (size P = S (size (P ∖ {[a]})))%nat as HszP.
  { rewrite size_difference by set_solver. rewrite size_singleton.
    assert (size P ≠ 0)%nat by (rewrite size_non_empty_iff; set_solver). lia. }
  unfold broadcastAndWait in E. apply stM_bind_inv in E as (s1 & cw & [= <- <-] & E).
  apply stM_bind_inv in E as (s1 & s & E1 & E). simpl in E1. unfold lift in E1. simpl in E1.
  rewrite (at_undef_Some _ _ _ Hp) in E1. injection E1 as <- <-.
  apply stM_bind_inv in E as (s2 & ids & E1 & E). unfold lift in E1. inv_ret.
  pose proof (nodesOfPartition_ids p c _ ids Hp ltac:(done)) as Hids.
  assert (schedule ids ≡ₚ elements (P ∖ {[a]})) as Hord by (etrans; [apply Hsch|done]).
  apply run_tasks_counted in E as (Hc & Hsub & Ht); [| |set_solver|done|].
  - simpl in Hsub, Ht.
    assert (acks m ⊆ P ∖ {[a]}) as Hsub'.
    { intros x Hx%Hsub. rewrite dom_empty_L, union_empty_r_L, elem_of_list_to_set in Hx.
      rewrite Hord in Hx. by apply elem_of_elements. }
    split; [set_solver|].
    rewrite size_union, size_singleton by set_solver.
    unfold MultipleResponses.waitForSuccessfulQuorum, CounterLatch.awaitMinOrEq in Hq.
    apply existsb_exists in Hq as (l & Hl & Hmin%Z.leb_le).
    rewrite Forall_forall in Hseen. apply list_elem_of_In in Hl. apply Hseen in Hl.
    unfold MultipleResponses.minSuccesses in Hmin. rewrite Ht in Hmin. unfold counted in Hc.
    rewrite Z.quot_div_nonneg in Hmin by lia.
    pose proof (Z.mod_pos_bound (Z.of_nat (size (P ∖ {[a]})) + 1) 2 ltac:(lia)).
    pose proof (Z.div_mod (Z.of_nat (size (P ∖ {[a]})) + 1) 2 ltac:(lia)). lia.
  - rewrite Hord. apply NoDup_elements.
  - simpl. rewrite dom_empty_L, size_empty, Hord. simpl.
    change (length (elements (P ∖ {[a]}))) with (size (P ∖ {[a]})). lia.
Qed.

(** C9: Majorities.  The nodes of a partition are [P]; two coordinators [a] and [b] each
    broadcast an operation to the other nodes of the partition (in any order of the pool's
    tasks) and wait for a quorum.  If both waits succeed, some node takes part in both
    quorums, each coordinator counted in its own. *)
Theorem quorums_intersect sa sb ha hb opa opb pa pb ca cb wa wb ra rb ma mb seena seenb (P : gset Z) a b :
  (∀ l, sa l ≡ₚ l) → (∀ l, sb l ≡ₚ l) → a ∈ P → b ∈ P → Z.of_nat (size P) < 2 ^ 31 →
  nodesInPartitions ca !! pa = Some (P ∖ {[a]}) → nodesInPartitions cb !! pb = Some (P ∖ {[b]}) →
  broadcastAndWait sa ha opa pa (ca, wa) = Ret (ra, ma) →
  broadcastAndWait sb hb opb pb (cb, wb) = Ret (rb, mb) →
  Forall (λ l, CounterLatch.counter l ≤ CounterLatch.counter (latch ma)) seena →
  Forall (λ l, CounterLatch.counter l ≤ CounterLatch.counter (latch mb)) seenb →
  MultipleResponses.waitForSuccessfulQuorum ma seena = true →
  MultipleResponses.waitForSuccessfulQuorum mb seenb = true →
  ∃ n, n ∈ P ∧ (n = a ∨ is_Some (MultipleResponses.responses ma !! n))
         ∧ (n = b ∨ is_Some (MultipleResponses.responses mb !! n)).
Proof.
  intros Hsa Hsb Ha Hb Hsz Hpa Hpb Ea Eb Hseena Hseenb Hqa Hqb.
  destruct (broadcastAndWait_quorum _ _ _ _ _ _ _ _ _ P a Hsa Ha Hpa Hsz Ea Hseena Hqa) as [Hsuba Hna].
  destruct (broadcastAndWait_quorum _ _ _ _ _ _ _ _ _ P b Hsb Hb Hpb Hsz Eb Hseenb Hqb) as [Hsubb Hnb].
  destruct (decide (({[a]} ∪ acks ma) ∩ ({[b]} ∪ acks mb) = ∅)) as [Hemp|(n & Hn)%set_choose_L].
  - assert (size ({[a]} ∪ acks ma ∪ ({[b]} ∪ acks mb)) ≤ size P)%nat by (apply subseteq_size; set_solver).
    rewrite size_union in H by set_solver. lia.
  - exists n. apply elem_of_intersection in Hn as [H1 H2].
    pose proof (Hsuba _ H1). rewrite elem_of_union, elem_of_singleton, elem_of_dom in H1, H2. auto.
Qed.

End quorum.

(** A network in which only node 3 answers with a success. *)
Definition only_node_3 : Network () :=
  λ id _ w, (w, Ret (Some (if id =? 3 then Response.success (LamportClock.mk 0 3) else Response.error 5))).

Definition sample_nodes (others : gset Z) : ClusterNodes.t :=
  ClusterNodes.mk (list_to_map [(1, "a:1"%string); (2, "b:1"%string); (3, "c:1"%string)]) [others] ∅
    (Configuration.mk DefaultConfig_get (λ _, None)).

Definition sample_operation : OperationBody.t := OperationBody.mk (Some []) 0 1 1 false false.

Definition ack_3 (n : Z) : MultipleResponses.t :=
  MultipleResponses.mk {[ 3 := Response.success (LamportClock.mk 0 3) ]} (CounterLatch.mk 1) n.

Lemma quorums_intersect_witness :
  ∃ n, n ∈ ({[1; 2; 3]} : gset Z) ∧ (n = 1 ∨ is_Some (MultipleResponses.responses (ack_3 2) !! n))
     ∧ (n = 2 ∨ is_Some (MultipleResponses.responses (ack_3 2) !! n)).
Proof.
  eapply (quorums_intersect (N := only_node_3) (λ l, l) (@rev Z) false false sample_operation sample_operation 0 0
    (sample_nodes {[2; 3]}) (sample_nodes {[1; 3]}) () () _ _ (ack_3 2) (ack_3 2) [CounterLatch.mk 1] [CounterLatch.mk 1]);
    try (apply (bool_decide_unpack _); vm_compute; exact I); try (vm_compute; reflexivity); try done.
  intros l. symmetry. apply Permutation_rev.
Defined.


(** ** Asking any node of a partition *)

Section any_node.
Context {W : Type} {N : Network W}.
Import ClusterNodes.

Lemma getAll_lookup (s : gset Z) i : (i < size s)%nat → ∃ id, getAll s !! i = Some id ∧ id ∈ s.
Proof.
  intros Hi. pose proof (getAll_Permutation s) as Hp.
  destruct (lookup_lt_is_Some_2 (getAll s) i) as [id Hid].
  { by rewrite (Permutation_length Hp). }
  exists id. split; [done|]. apply elem_of_elements. rewrite <- Hp. by eapply list_elem_of_lookup_2.
Qed.

(** The offset of a draw. *)
Lemma offset_range r n : 0 ≤ r → 0 < n < 2 ^ 16 → u16 (Z.rem r n) = r mod n ∧ 0 ≤ r mod n < n.
Proof.
  intros Hr Hn. rewrite Z.rem_mod_nonneg by lia. pose proof (Z.mod_pos_bound r n).
  split; [apply wrap_small; unfold ufits; lia|lia].
Qed.

(** One draw succeeds when no checked identifier is mistaken for an offset. *)
Lemma getRandomNode_draws fuel rand p checked c s :
  (∀ n, 0 ≤ rand n) → nodesInPartitions c !! p = Some s → Z.of_nat (size s) < 2 ^ 16 →
  (∀ id, id ∈ s → is_Some (allNodesById c !! id)) →
  (size checked < size s)%nat → (∀ id, id ∈ checked → Z.of_nat (size s) ≤ id) →
  ∃ id, id ∈ s ∧ getRandomNode (S fuel) rand p checked c = Ret (Some id, {[id]} ∪ checked).
Proof.
  intros Hr Hp Hsz Hall Hlt Hch. cbn [getRandomNode]. rewrite (at_undef_Some _ _ _ Hp). cbn [obind].
  rewrite decide_True by lia. rewrite decide_False by lia.
  assert (0 < Z.of_nat (size s) < 2 ^ 16) as Hb by lia.
  destruct (offset_range (rand fuel) (Z.of_nat (size s)) (Hr fuel) Hb) as [-> Ho].
  rewrite decide_False by (intros Hin; apply Hch in Hin; lia).
  destruct (getAll_lookup s (Z.to_nat (rand fuel mod Z.of_nat (size s)))) as (id & Hid & Hs); [lia|].
  rewrite (at_undef_Some _ _ _ Hid). cbn [obind].
  destruct (Hall id Hs) as [a ->]. cbn. eauto.
Qed.

(** With node 1 checked in a partition of the nodes 1 and 2, offset 1 is skipped as if it
    were node 1 and offset 0 is node 1 again: node 2 is never drawn. *)
Lemma getRandomNode_repeats fuel rand p c :
  (∀ n, 0 ≤ rand n) → nodesInPartitions c !! p = Some {[1; 2]} → is_Some (allNodesById c !! 1) →
  getRandomNode fuel rand p {[1]} c = NoFuel ∨ getRandomNode fuel rand p {[1]} c = Ret (Some 1, {[1]}).
Proof.
  intros Hr Hp [a Ha]. induction fuel as [|fuel IH]; cbn [getRandomNode]; [by left|].
  rewrite (at_undef_Some _ _ _ Hp). cbn [obind].
  assert (size ({[1; 2]} : gset Z) = 2%nat) as -> by reflexivity.
  assert (size ({[1]} : gset Z) = 1%nat) as -> by reflexivity.
  rewrite decide_True by lia. rewrite decide_False by lia.
  destruct (offset_range (rand fuel) (Z.of_nat 2) (Hr _) ltac:(lia)) as [-> Ho].
  destruct (decide (rand fuel mod Z.of_nat 2 = 1)) as [E1|E1].
  - rewrite E1. rewrite decide_True by set_solver. apply IH.
  - replace (rand fuel mod Z.of_nat 2) with 0 by lia. rewrite decide_False by set_solver.
    rewrite (at_undef_Some (getAll {[1; 2]}) (Z.to_nat 0) 1) by reflexivity. cbn [obind].
    rewrite Ha. cbn [of_option obind]. right. do 2 f_equal.
Qed.

(** C39: Termination of [sendRequestToAnyNode].  A draw finds a node of the partition at once
    while no checked identifier is below the partition's size; but in a partition of the
    nodes 1 and 2, once node 1 was asked and keeps answering without success, the loop never
    returns and never asks node 2, whatever the random numbers. *)
Theorem any_node_termination c p s w :
  nodesInPartitions c !! p = Some s → (∀ id, id ∈ s → is_Some (allNodesById c !! id)) →
  Z.of_nat (size s) < 2 ^ 16 →
  (∀ fuel rand checked, (∀ n, 0 ≤ rand n) → (size checked < size s)%nat →
     (∀ id, id ∈ checked → Z.of_nat (size s) ≤ id) →
     ∃ id, id ∈ s ∧ getRandomNode (S fuel) rand p checked c = Ret (Some id, {[id]} ∪ checked)) ∧
  (∀ fuel rand required create, s = {[1; 2]} → (∀ i n, 0 ≤ rand i n) →
     (∃ req, create 1 = Ret req ∧ ∀ w, ∃ w' r, node_sendRequest 1 req w = (w', Ret (Some r)) ∧ Response.isSuccessful r = false) →
     sendRequestToAnyNode fuel rand required p create {[1]} c w = NoFuel).
Proof.
  intros Hp Hall Hsz. split; [eauto using getRandomNode_draws|].
  intros fuel rand required create -> Hr (req & Hreq & Hno).
  revert w. induction fuel as [|fuel IH]; intros w; [done|]. cbn [sendRequestToAnyNode].
  destruct (getRandomNode_repeats fuel (rand fuel) p c (Hr _) Hp (Hall 1 ltac:(set_solver))) as [E|E].
  { unfold mbind, stM_bind, lift. by rewrite E. }
  erewrite stM_bind_Ret by (unfold lift; rewrite E; reflexivity). cbn beta iota.
  erewrite stM_bind_Ret by (unfold lift; rewrite Hreq; reflexivity). cbn beta.
  destruct (Hno w) as (w' & r & Es & Hf).
  erewrite stM_bind_Ret by (unfold send; rewrite Es; reflexivity). cbn beta.
  erewrite stM_bind_Ret by reflexivity. cbn beta. rewrite Hf. apply IH.
Qed.

End any_node.

Lemma any_node_termination_witness :
  ClusterNodes.sendRequestToAnyNode (N := only_node_3) 100 (λ i j, Z.of_nat (i + 3 * j)) true 0
    (λ _, Ret (Request.mk (AuthenticationBody.mk [] true false) sample_operation 0 USER)) {[1]}
    (sample_nodes {[1; 2]}) () = NoFuel.
Proof.
  eapply (any_node_termination (N := only_node_3)); [reflexivity| |vm_compute; reflexivity|reflexivity|lia|].
  - intros id Hid. assert (id = 1 ∨ id = 2) as [->| ->] by set_solver; vm_compute; eauto.
  - eexists. split; [reflexivity|]. intros []. eauto.
Defined.

(** ** The configuration on the wire *)

Section config_roundtrip.
Context `{Platform}.
Import GetClusterConfigResponse.

Definition node_bytes (n : Z * bytes) : bytes :=
  be_bytes 2 n.1 ++ be_bytes 4 (Z.of_nat (length n.2)) ++ n.2.
Definition entry_bytes (e : RingEntry) : bytes := be_bytes 2 (nodeId e) ++ be_bytes 4 (ringPosition e).

Definition node_ok (n : Z * bytes) : Prop := ufits 16 n.1 ∧ Z.of_nat (length n.2) < 2 ^ 32.
Definition entry_ok (e : RingEntry) : Prop := ufits 16 (nodeId e) ∧ ufits 32 (ringPosition e).

(** What a node can send: 32-bit sizes, fewer than [2 ^ 31] nodes, one ring entry per node when
    partitions are used, none otherwise, and fewer than [2 ^ 31] bytes in all. *)
Record config_ok (usePartitions : bool) (r : t) : Prop := {
  co_per_partition : ufits 32 (nodesPerPartition r);
  co_max_size : ufits 32 (maxPartitionSize r);
  co_nodes : Forall node_ok (nodes r);
  co_entries : Forall entry_ok (ringEntries r);
  co_count : Z.of_nat (length (nodes r)) < 2 ^ 31;
  co_ring : length (ringEntries r) = if usePartitions then length (nodes r) else O;
  co_size : 12 + Z.of_nat (length (concat (node_bytes <$> nodes r)) + length (concat (entry_bytes <$> ringEntries r))) < 2 ^ 31;
}.

Lemma serialize_nodes l out :
  Forall node_ok l →
  ofoldl (λ out node,
    let out := Utils.appendToBuffer 2 node.1 out in
    let out := Utils.appendToBuffer 4 (u32 (Z.of_nat (length node.2))) out in
    Utils.appendPtrToBuffer node.2 (length node.2) out) out l = Ret (out ++ concat (node_bytes <$> l)).
Proof.
  intros Hl. revert out. induction Hl as [|n l [Hn1 Hn2] _ IH]; intros out; [by rewrite app_nil_r|].
  cbn [ofoldl fmap list_fmap concat]. rewrite !appendToBuffer_be, appendPtr_all. cbn [obind].
  rewrite IH, wrap_small by (unfold ufits; lia). unfold node_bytes. by rewrite <- !app_assoc.
Qed.

Lemma serialize_entries l out :
  foldl (λ out e, Utils.appendToBuffer 4 (ringPosition e) (Utils.appendToBuffer 2 (nodeId e) out)) out l
  = out ++ concat (entry_bytes <$> l).
Proof.
  revert out. induction l as [|e l IH]; intros out; [by rewrite app_nil_r|].
  cbn [foldl fmap list_fmap concat]. rewrite IH, !appendToBuffer_be. unfold entry_bytes. by rewrite <- !app_assoc.
Qed.

(** Reading a number inside a buffer. *)
Lemma parse_at n pre v post b i :
  b = pre ++ be_bytes n v ++ post → i = length pre → (n ≤ 4)%nat → ufits (8 * Z.of_nat n) v →
  Utils.parseFromBuffer n b i = Ret v.
Proof. intros -> -> ? ?. by apply parseFromBuffer_narrow. Qed.

Lemma position_of (n : nat) : position (Z.of_nat n) = Ret n.
Proof. unfold position. destruct (Z.ltb_spec (Z.of_nat n) 0); [lia|]. by rewrite Nat2Z.id. Qed.

Lemma getNodes_loop_ok l pre post :
  Forall node_ok l → Z.of_nat (length (pre ++ concat (node_bytes <$> l))) < 2 ^ 31 →
  getNodes_loop (length l) (Z.of_nat (length pre)) (pre ++ concat (node_bytes <$> l) ++ post)
  = Ret (l, Z.of_nat (length (pre ++ concat (node_bytes <$> l)))).
Proof.
  intros Hl. revert pre. induction Hl as [|[id a] l [Hn1 Hn2] _ IH]; intros pre Hsz.
  { cbn. by rewrite app_nil_r. }
  cbn [length getNodes_loop fmap list_fmap concat] in *.
  assert (∀ X, node_bytes (id, a) ++ X = be_bytes 2 id ++ be_bytes 4 (Z.of_nat (length a)) ++ a ++ X) as Eb.
  { intros X. unfold node_bytes. cbn [fst snd]. by rewrite <- !app_assoc. }
  rewrite position_of. cbn [obind]. rewrite <- app_assoc, Eb.
  erewrite (parse_at 2 pre id) by (done || lia). cbn [obind].
  erewrite (parse_at 4 (pre ++ be_bytes 2 id) (Z.of_nat (length a)));
    [|by rewrite <- app_assoc|by rewrite length_app, length_be_bytes|lia|unfold ufits; cbn; cbn in Hn2; lia].
  cbn [obind]. rewrite Nat2Z.id.
  pose proof (slice_app (pre ++ be_bytes 2 id ++ be_bytes 4 (Z.of_nat (length a))) a
                (concat (node_bytes <$> l) ++ post)) as Es.
  rewrite !length_app, !length_be_bytes in Es. rewrite <- !app_assoc in Es.
  replace (length pre + 2 + 4)%nat with (length pre + (2 + 4))%nat by lia. rewrite Es. cbn [obind].
  assert (length (pre ++ node_bytes (id, a)) = (length pre + (2 + 4 + length a))%nat) as El.
  { rewrite length_app. unfold node_bytes. cbn [fst snd]. rewrite !length_app, !length_be_bytes. lia. }
  pose proof (IH (pre ++ node_bytes (id, a))) as E. rewrite El, <- !app_assoc in E. specialize (E Hsz).
  rewrite !length_app in Hsz. rewrite !length_app in El.
  rewrite sext_small by (unfold sfits; change (2 ^ (32 - 1)) with (2 ^ 31); lia).
  replace (Z.of_nat (length pre) + (2 + 4 + Z.of_nat (length a))) with (Z.of_nat (length pre + (2 + 4 + length a))) by lia.
  rewrite <- Eb, E. done.
Qed.

Lemma getRingEntries_ok l pre post :
  Forall entry_ok l → Z.of_nat (length (pre ++ concat (entry_bytes <$> l))) < 2 ^ 31 →
  getRingEntries (length l) (Z.of_nat (length pre)) (pre ++ concat (entry_bytes <$> l) ++ post) = Ret l.
Proof.
  intros Hl. revert pre. induction Hl as [|e l [He1 He2] _ IH]; intros pre Hsz; [done|].
  cbn [length getRingEntries fmap list_fmap concat] in *.
  assert (∀ X, entry_bytes e ++ X = be_bytes 2 (nodeId e) ++ be_bytes 4 (ringPosition e) ++ X) as Eb.
  { intros X. unfold entry_bytes. by rewrite <- !app_assoc. }
  rewrite position_of. cbn [obind].
  rewrite <- app_assoc, Eb. erewrite (parse_at 2 pre (nodeId e)) by (done || lia). cbn [obind].
  erewrite (parse_at 4 (pre ++ be_bytes 2 (nodeId e)) (ringPosition e));
    [|by rewrite <- app_assoc|by rewrite length_app, length_be_bytes|lia|done].
  cbn [obind].
  assert (length (pre ++ entry_bytes e) = (length pre + (2 + 4))%nat) as El.
  { rewrite length_app. unfold entry_bytes. by rewrite !length_app, !length_be_bytes. }
  pose proof (IH (pre ++ entry_bytes e)) as E. rewrite El, <- !app_assoc in E. specialize (E Hsz).
  rewrite !length_app in Hsz. rewrite !length_app in El.
  rewrite sext_small by (unfold sfits; change (2 ^ (32 - 1)) with (2 ^ 31); lia).
  replace (Z.of_nat (length pre) + (2 + 4)) with (Z.of_nat (length pre + (2 + 4))) by lia.
  rewrite <- Eb, E. cbn [obind]. by destruct e.
Qed.

Lemma size_of_nodes l n :
  Z.of_nat (length (concat (node_bytes <$> l))) + n < 2 ^ 64 → 0 ≤ n →
  foldl (λ size node, u64 (size + (2 + 4 + Z.of_nat (length node.2)))) n l
  = Z.of_nat (length (concat (node_bytes <$> l))) + n.
Proof.
  revert n. induction l as [|x l IH]; intros n; cbn [foldl fmap list_fmap concat length]; [lia|].
  rewrite length_app. assert (length (node_bytes x) = (6 + length x.2)%nat) as ->
    by (unfold node_bytes; rewrite !length_app, !length_be_bytes; lia).
  intros Hlt Hn. rewrite wrap_small by (unfold ufits; lia). rewrite IH; lia.
Qed.

Lemma size_of_entries l n :
  Z.of_nat (length (concat (entry_bytes <$> l))) + n < 2 ^ 64 → 0 ≤ n →
  foldl (λ size (_ : RingEntry), u64 (size + (2 + 4))) n l
  = Z.of_nat (length (concat (entry_bytes <$> l))) + n.
Proof.
  revert n. induction l as [|x l IH]; intros n; cbn [foldl fmap list_fmap concat length]; [lia|].
  rewrite length_app. assert (length (entry_bytes x) = 6%nat) as ->
    by (unfold entry_bytes; rewrite !length_app, !length_be_bytes; lia).
  intros Hlt Hn. rewrite wrap_small by (unfold ufits; lia). rewrite IH; lia.
Qed.

(** What a joining node decodes is the configuration the seed node sent. *)
Lemma config_codec r conf usePartitions timeout :
  Configuration.getBoolean conf ConfigurationKeys.USE_PARTITIONS = Ret usePartitions →
  Configuration.getUint 64 conf ConfigurationKeys.NODE_REQUEST_TIMEOUT_MS = Ret timeout →
  config_ok usePartitions r →
  ∃ b, serialize r = Ret b ∧ deserialize b conf = Ret r ∧
       (Z.of_nat (length b) < 2 ^ 64 → getSerializedBytesSize r = Z.of_nat (length b)).
Proof.
  intros Hc Ht R. eexists. split; [|split].
  - unfold serialize. rewrite serialize_nodes by apply R. cbn [obind].
    rewrite serialize_entries, !appendToBuffer_be, app_nil_l, <- !app_assoc. reflexivity.
  - pose proof (co_count _ _ R). assert (ufits 32 (Z.of_nat (length (nodes r)))) by (unfold ufits; lia).
    unfold deserialize. rewrite (wrap_small 32 (Z.of_nat _)) by done.
    erewrite (parse_at 4 [] (nodesPerPartition r)) by (reflexivity || lia || apply R). cbn [obind].
    erewrite (parse_at 4 (be_bytes 4 (nodesPerPartition r)) (maxPartitionSize r))
      by (reflexivity || lia || apply R). cbn [obind].
    erewrite (parse_at 4 (be_bytes 4 (nodesPerPartition r) ++ be_bytes 4 (maxPartitionSize r))
      (Z.of_nat (length (nodes r)))); [|by rewrite <- app_assoc|reflexivity|lia|done]. cbn [obind].
    rewrite Hc. cbn [obind]. rewrite sext_small by (unfold sfits; change (2 ^ (32 - 1)) with (2 ^ 31); lia).
    unfold getNodes. rewrite Ht. cbn [obind]. rewrite (wrap_small 32 (Z.of_nat _)) by done. rewrite Nat2Z.id.
    pose proof (co_size _ _ R) as Hsz. rewrite Nat2Z.inj_add in Hsz.
    set (pre := be_bytes 4 (nodesPerPartition r) ++ be_bytes 4 (maxPartitionSize r)
                ++ be_bytes 4 (Z.of_nat (length (nodes r)))).
    assert (length pre = 12%nat) as Ep by reflexivity.
    pose proof (getNodes_loop_ok (nodes r) pre (concat (entry_bytes <$> ringEntries r)) (co_nodes _ _ R)) as En.
    rewrite !length_app, Ep in En. specialize (En ltac:(lia)).
    unfold pre in En. rewrite <- !app_assoc in En. change (Z.of_nat 12) with 12 in En.
    rewrite En. cbn [obind].
    pose proof (getRingEntries_ok (ringEntries r) (pre ++ concat (node_bytes <$> nodes r)) [] (co_entries _ _ R)) as Er.
    rewrite app_nil_r, !length_app, Ep in Er. specialize (Er ltac:(lia)).
    unfold pre in Er. rewrite <- !app_assoc in Er.
    pose proof (co_ring _ _ R) as Hl. destruct usePartitions.
    + rewrite Hl in Er. rewrite Er. cbn [obind]. by destruct r.
    + destruct r as [? ? ? [|]]; [done|discriminate].
  - unfold getSerializedBytesSize. intros Hb. revert Hb.
    rewrite !length_app, !length_be_bytes.
    intros Hb. rewrite size_of_nodes by lia. rewrite size_of_entries by lia. lia.
Qed.

End config_roundtrip.
