(* ===== verification/ClusterFacade.v ===== *)
(** * A node's view of its cluster

    Models [cluster/Cluster.cpp]: the state of the own node, the partition of a key, joining
    and leaving, the request that repairs a log segment, and the cluster's configuration as
    it is asked from the seed nodes and kept on disk.  Without replication a [Cluster] has no
    [clusterNodes] and no [partitions]; both are null pointers then. *)

From Stdlib Require Import Ascii.
From S2P Require Import Prelude.
From S2P Require Import Utils.
From S2P Require Import Clock.
From S2P Require Import Messages.
From S2P Require Import Codec.
From S2P Require Import Config.
From S2P Require Import Connection.
From S2P Require Import Ring.
From S2P Require Import Partitions.
From S2P Require Import Files.
From S2P Require Import Cluster.

(** What the target and the scheduler decide: the digest of [openssl/md5.h], the order in which
    the request pool runs the tasks of a broadcast, the values of [std::rand], the requests
    the iterator over a node's hints yields, and the bound on loops that wait for others. *)
Class Environment := {
  MD5 : bytes → bytes;
  schedule : list Z → list Z;
  rand : nat → nat → Z;
  hinted : Z → list Request.t;
  loop_fuel : nat;
}.

(** Dereferencing a shared pointer. *)
Definition deref {A} (p : option A) : outcome A := match p with Some a => Ret a | None => Undef end.

(** The operators' numbers ([OperatorNumbers]). *)
Module OperatorNumbers.
Definition SET : Z := 1.
Definition GET : Z := 2.
Definition DEL : Z := 3.
Definition HEALTH_CHECK : Z := 4.
Definition SYNC_OPLOG : Z := 5.
Definition MOVE_OPLOG : Z := 6.
Definition NEXT_SYNC_OPLOG_SEGMENT : Z := 7.
Definition FIX_OPLOG_SEGMENT : Z := 8.
Definition CAS : Z := 9.
Definition CAS_PREPARE : Z := 10.
Definition CAS_ACCEPT : Z := 11.
Definition GET_CLUSTER_CONFIG : Z := 12.
Definition JOIN_CLUSTER_ANNOUNCE : Z := 13.
Definition LEAVE_CLUSTER_ANNOUNCE : Z := 14.
Definition DO_LEAVE_CLUSTER : Z := 15.
Definition GET_NODE_DATA : Z := 16.
Definition CONTAINS : Z := 17.
Definition UPDATE_COUNTER : Z := 18.
Definition REPLICATE_COUNTER : Z := 19.
End OperatorNumbers.

Module Cluster.

Record t := mk {
  configuration : Configuration.t;
  clusterNodes : option ClusterNodes.t;
  partitions : option Partitions.t;
  selfState : NodeState;
}.

Definition set_state (s : NodeState) (c : t) : t := mk (configuration c) (clusterNodes c) (partitions c) s.
Definition set_clusterNodes (n : option ClusterNodes.t) (c : t) : t :=
  mk (configuration c) n (partitions c) (selfState c).

(** [Cluster::Cluster(configuration)]. *)
Definition make (configuration : Configuration.t) : t := mk configuration None None BOOTING.

(** [Cluster::setBooting] and [Cluster::setRunning]. *)
Definition setBooting (c : t) : t := set_state BOOTING c.
Definition setRunning (c : t) : t := set_state RUNNING c.

(** [Cluster::getNodeState] and [Cluster::getPartitionObject]. *)
Definition getNodeState (c : t) : NodeState := selfState c.
Definition getPartitionObject (c : t) : option Partitions.t := partitions c.

(** [Cluster::getNodeId]. *)
Definition getNodeId (c : t) : outcome Z := Configuration.getUint 16 (configuration c) ConfigurationKeys.NODE_ID.

(** [Cluster::getMaxPartitionSize]. *)
Definition getMaxPartitionSize (c : t) : outcome Z :=
  let! usePartitions := Configuration.getBoolean (configuration c) ConfigurationKeys.USE_PARTITIONS in
  if (usePartitions : bool) then let! p := deref (partitions c) in Ret (Partitions.getMaxSize p) else Ret 1.

(** [Cluster::getNodesPerPartition]. *)
Definition getNodesPerPartition (c : t) : outcome Z :=
  let! usePartitions := Configuration.getBoolean (configuration c) ConfigurationKeys.USE_PARTITIONS in
  if (usePartitions : bool) then let! p := deref (partitions c) in Ret (Partitions.getNodesPerPartition p) else Ret 1.

(** [Cluster::getNTotalNodesInPartition]; an [int]. *)
Definition getNTotalNodesInPartition (c : t) : outcome Z :=
  let! usingPartitions := Configuration.getBoolean (configuration c) ConfigurationKeys.USE_PARTITIONS in
  let! usingReplication := Configuration.getBoolean (configuration c) ConfigurationKeys.USE_REPLICATION in
  if negb usingReplication then Ret 1
  else if negb usingPartitions
  then let! n := deref (clusterNodes c) in Ret (i32 (ClusterNodes.getSize n + 1))
  else let! n := getNodesPerPartition c in Ret (i32 n).

(** [Cluster::getSeedNodes]: node 0 at every seed's address. *)
Definition getSeedNodes (c : t) : outcome (list (Z * bytes)) :=
  let! seedNodesAddress := Configuration.getVector (configuration c) ConfigurationKeys.SEED_NODES in
  let! _ := Configuration.getUint 64 (configuration c) ConfigurationKeys.NODE_REQUEST_TIMEOUT_MS in
  Ret ((λ a, (0, bytes_of_string a)) <$> seedNodesAddress).

(** [Cluster::persistClusterConfig]. *)
Definition persistClusterConfig (c : t) (response : GetClusterConfigResponse.t) : stM fs () :=
  λ s,
    let! serialized := GetClusterConfigResponse.serialize response in
    let! dataPath := Configuration.get (configuration c) ConfigurationKeys.DATA_PATH in
    let clusterConfigPath := dataPath +:+ "/cluster-config" in
    FileUtils.writeBytes clusterConfigPath serialized (FileUtils.clear clusterConfigPath s).

Section environment.
Context `{Platform} {Env : Environment}.

(** [Cluster::getPartitionIdByKey]. *)
Definition getPartitionIdByKey (c : t) (key : SimpleString.t) : outcome Z :=
  let! usePartitions := Configuration.getBoolean (configuration c) ConfigurationKeys.USE_PARTITIONS in
  if (usePartitions : bool) then let! p := deref (partitions c) in Partitions.getDistanceOfKey MD5 p key else Ret 0.

(** [Cluster::getCandidatesToSendGetClusterConfig]. *)
Definition getCandidatesToSendGetClusterConfig (c : t) : stM fs (list (Z * bytes)) :=
  λ s,
    let! dataPath := Configuration.get (configuration c) ConfigurationKeys.DATA_PATH in
    let clusterConfigPath := dataPath +:+ "/cluster-config" in
    if negb (FileUtils.exists_ clusterConfigPath s) then
      let! (s, _) := FileUtils.createFile dataPath "cluster-config" s in
      let! seeds := getSeedNodes c in Ret (s, seeds)
    else
      match GetClusterConfigResponse.deserialize (FileUtils.readBytes clusterConfigPath s) (configuration c) with
      | Throw _ => let! seeds := getSeedNodes c in Ret (s, seeds)
      | o => let! r := o in Ret (s, GetClusterConfigResponse.nodes r)
      end.

(** The request for the cluster's configuration. *)
Definition getClusterConfig_request (c : t) : outcome Request.t :=
  let! key := Configuration.get (configuration c) ConfigurationKeys.AUTH_NODE_KEY in
  let! id := getNodeId c in
  Ret (RequestBuilder.build (RequestBuilder.selfNode id
    (RequestBuilder.operatorNumber OperatorNumbers.GET_CLUSTER_CONFIG
      (RequestBuilder.authKey (bytes_of_string key) RequestBuilder.builder)))).

Section seeds.
(** One exchange with the node at an address over a connection opened for it; [k] numbers
    the exchanges. *)
Context (exchange : nat → Z * bytes → Request.t → outcome (option Response.t)).

(** The retries of one candidate, [n] to go; the number of exchanges made is the state. *)
Fixpoint getClusterConfig_retries (c : t) (candidate : Z * bytes) (n : nat) :
    stM (nat * fs) (option GetClusterConfigResponse.t) :=
  match n with
  | O => mret None
  | S n => λ '(k, s),
      let! request := getClusterConfig_request c in
      let! responseResult := exchange k candidate request in
      match responseResult with
      | Some response =>
          if Response.isSuccessful response then
            let! raw := SimpleString.toVector (Response.responseValue response) in
            let! r := GetClusterConfigResponse.deserialize raw (configuration c) in
            let! (s, _) := persistClusterConfig c r s in
            Ret ((S k, s), Some r)
          else getClusterConfig_retries c candidate n (S k, s)
      | None => getClusterConfig_retries c candidate n (S k, s)
      end
  end.

(** The loop over the candidates, skipping the own address. *)
Fixpoint getClusterConfig_candidates (c : t) (self : bytes) (nRetries : nat) (l : list (Z * bytes)) :
    stM (nat * fs) (option GetClusterConfigResponse.t) :=
  match l with
  | [] => mret None
  | candidate :: l =>
      if bool_decide (candidate.2 = self) then getClusterConfig_candidates c self nRetries l
      else
        r ← getClusterConfig_retries c candidate nRetries;
        match r with
        | Some r => mret (Some r)
        | None => getClusterConfig_candidates c self nRetries l
        end
  end.

(** [Cluster::getClusterConfig]. *)
Definition getClusterConfig (c : t) : stM (nat * fs) (option GetClusterConfigResponse.t) :=
  λ '(k, s),
    let! (s, candidatesNodes) := getCandidatesToSendGetClusterConfig c s in
    let! _ := Configuration.getUint 64 (configuration c) ConfigurationKeys.NODE_REQUEST_TIMEOUT_MS in
    let! nRetries := Configuration.getUint 32 (configuration c) ConfigurationKeys.NODE_REQUEST_N_RETRIES in
    if decide (candidatesNodes = []) then Ret ((k, s), None)
    else
      let! address := Configuration.get (configuration c) ConfigurationKeys.ADDRESS in
      let! port := Configuration.get (configuration c) ConfigurationKeys.SERVER_PORT in
      getClusterConfig_candidates c (bytes_of_string (address +:+ ":" +:+ port)) (Z.to_nat nRetries)
        candidatesNodes (k, s).
End seeds.

Section network.
Context {W : Type} {N : Network W}.

(** Code of [ClusterNodes] on the cluster's nodes. *)
Definition on_nodes {A} (m : stM (ClusterNodes.t * W) A) : stM (t * W) A :=
  λ '(c, w),
    let! n := deref (clusterNodes c) in
    let! ((n, w), a) := m (n, w) in
    Ret ((set_clusterNodes (Some n) c, w), a).

(** [Cluster::broadcast] and [Cluster::broadcastAndWait]. *)
Definition broadcast (operation : OperationBody.t) (partitionId : nat) (canBeStoredInHint : bool) : stM (t * W) () :=
  on_nodes (ClusterNodes.broadcast schedule canBeStoredInHint operation partitionId).
Definition broadcastAndWait (operation : OperationBody.t) (partitionId : nat) (canBeStoredInHint : bool) :
    stM (t * W) MultipleResponses.t :=
  on_nodes (ClusterNodes.broadcastAndWait schedule canBeStoredInHint operation partitionId).

(** [Cluster::checkHintedHandoff]. *)
Definition checkHintedHandoff (nodeId : Z) : stM (t * W) () :=
  on_nodes (λ '(n, w), let! (w, _) := ClusterNodes.sendHintedHandoff loop_fuel (hinted nodeId) nodeId n w in
                       Ret ((n, w), ())).

(** [Cluster::announceJoin]: the own address to every node. *)
Definition announceJoin : stM (t * W) () :=
  cw ← get_st;
  address ← lift (Configuration.get (configuration cw.1) ConfigurationKeys.ADDRESS);
  port ← lift (Configuration.get (configuration cw.1) ConfigurationKeys.SERVER_PORT);
  let request := RequestBuilder.buildOperationBody
    (RequestBuilder.args [SimpleString.of_bytes (bytes_of_string (address +:+ ":" +:+ port))]
      (RequestBuilder.operatorNumber OperatorNumbers.JOIN_CLUSTER_ANNOUNCE RequestBuilder.builder)) in
  on_nodes (ClusterNodes.broadcastAll schedule true request).

(** [Cluster::announceLeave]. *)
Definition announceLeave : stM (t * W) () :=
  on_nodes (ClusterNodes.broadcastAll schedule true (RequestBuilder.buildOperationBody
    (RequestBuilder.operatorNumber OperatorNumbers.LEAVE_CLUSTER_ANNOUNCE RequestBuilder.builder))).

(** The request of [Cluster::fixOplogSegment] for one node. *)
Definition fixOplogSegment_request (c : t) (selfOplogId minTimestamp maxTimestamp : Z) (nodeId : Z) : outcome Request.t :=
  let! p := deref (partitions c) in
  let! otherNodeOplogId := Partitions.getOplogIdOfOtherNodeBySelfOplogId p nodeId selfOplogId in
  let! key := Configuration.get (configuration c) ConfigurationKeys.AUTH_NODE_KEY in
  let! id := getNodeId c in
  Ret (RequestBuilder.build (RequestBuilder.addDoubleArg maxTimestamp (RequestBuilder.addDoubleArg minTimestamp
    (RequestBuilder.addArg (SimpleString.fromNumber 4 otherNodeOplogId)
      (RequestBuilder.operatorNumber OperatorNumbers.FIX_OPLOG_SEGMENT
        (RequestBuilder.selfNode id (RequestBuilder.authKey (bytes_of_string key) RequestBuilder.builder))))))).

(** [Cluster::fixOplogSegment]. *)
Definition fixOplogSegment (selfOplogId minTimestamp maxTimestamp : Z) : stM (t * W) (option Response.t) :=
  cw ← get_st;
  on_nodes (λ '(n, w),
    let! (w, r) := ClusterNodes.sendRequestToAnyNode loop_fuel rand true (Z.to_nat selfOplogId)
                     (fixOplogSegment_request cw.1 selfOplogId minTimestamp maxTimestamp) ∅ n w in
    Ret ((n, w), r)).

End network.
End environment.
End Cluster.

(** ** The configuration kept on disk *)

Section persisted.
Context `{Platform}.
Implicit Types (c : Cluster.t) (r : GetClusterConfigResponse.t) (s : fs).

Lemma exists_written p b s : FileUtils.exists_ p (set_files (<[p:=b]> (files s)) s) = true.
Proof.
  unfold FileUtils.exists_. simpl. rewrite lookup_insert_eq. rewrite (bool_decide_eq_true_2 (is_Some _)) by done.
  by rewrite orb_true_r.
Qed.

Lemma readBytes_written p b s : FileUtils.readBytes p (set_files (<[p:=b]> (files s)) s) = b.
Proof. unfold FileUtils.readBytes. simpl. by rewrite lookup_insert_eq. Qed.

(** C29: The cluster's configuration survives the wire and a restart, at a node whose
    configuration has a readable request timeout and whose data directory is writable, for a
    configuration of fewer than [2 ^ 31] bytes ([config_ok]: the decoder's offset is an [int]).
    What a joining node decodes is the configuration the seed node sent, in a buffer of the
    announced size; once the node has stored it, the candidates it asks after a restart are the
    nodes it names. *)
Theorem cluster_config_roundtrip c r s usePartitions timeout dataPath :
  Configuration.getBoolean (Cluster.configuration c) ConfigurationKeys.USE_PARTITIONS = Ret usePartitions →
  Configuration.getUint 64 (Cluster.configuration c) ConfigurationKeys.NODE_REQUEST_TIMEOUT_MS = Ret timeout →
  Configuration.get (Cluster.configuration c) ConfigurationKeys.DATA_PATH = Ret dataPath →
  config_ok usePartitions r → writable (dataPath +:+ "/cluster-config") s = true →
  ∃ b s', GetClusterConfigResponse.serialize r = Ret b ∧
    GetClusterConfigResponse.deserialize b (Cluster.configuration c) = Ret r ∧
    (Z.of_nat (length b) < 2 ^ 64 → GetClusterConfigResponse.getSerializedBytesSize r = Z.of_nat (length b)) ∧
    Cluster.persistClusterConfig c r s = Ret (s', ()) ∧
    Cluster.getCandidatesToSendGetClusterConfig c s' = Ret (s', GetClusterConfigResponse.nodes r).
Proof.
  intros Hp Ht Hd R Hw. destruct (config_codec r _ usePartitions timeout Hp Ht R) as (b & Es & Ed & Hs).
  exists b. eexists. do 3 (split; [done|]). split.
  - unfold Cluster.persistClusterConfig, FileUtils.writeBytes. rewrite Es, Hd. cbn [obind].
    change (writable ?p (FileUtils.clear ?q s)) with (writable p s). by rewrite Hw.
  - unfold Cluster.getCandidatesToSendGetClusterConfig. rewrite Hd. cbn [obind].
    by rewrite exists_written, readBytes_written, Ed.
Qed.

(** The first start creates the file empty; if it ends before a seed node answered, the next
    start decodes the empty file, which reads past the end of a vector. *)
Theorem second_boot_undefined c s s' seeds dataPath :
  Configuration.get (Cluster.configuration c) ConfigurationKeys.DATA_PATH = Ret dataPath →
  FileUtils.exists_ (dataPath +:+ "/cluster-config") s = false →
  Cluster.getCandidatesToSendGetClusterConfig c s = Ret (s', seeds) →
  Cluster.getCandidatesToSendGetClusterConfig c s' = Undef.
Proof.
  intros Hd Hn. unfold Cluster.getCandidatesToSendGetClusterConfig. rewrite Hd. cbn [obind]. rewrite Hn. cbn [negb].
  unfold FileUtils.createFile. destruct (FileUtils.mkdirAll dataPath s) as [[s1 []]| | | |]; try done. cbn [obind].
  destruct (writable _ s1); [|done]. cbn [obind].
  destruct (Cluster.getSeedNodes c); try done. cbn [obind]. intros [= <- <-].
  change (path dataPath "cluster-config") with (dataPath +:+ "/cluster-config").
  rewrite exists_written, readBytes_written. reflexivity.
Qed.

End persisted.

Definition two_nodes_config : GetClusterConfigResponse.t :=
  GetClusterConfigResponse.mk 2 64 [(1, [49; 58; 49]); (2, [50; 58; 49])] [mk_entry 1 7; mk_entry 2 40].

Lemma two_nodes_config_ok : config_ok true two_nodes_config.
Proof. split; try (unfold ufits; simpl; lia); try reflexivity; repeat constructor; unfold ufits; simpl; lia. Qed.

Lemma cluster_config_roundtrip_witness :
  let conf := Configuration.mk (<[ConfigurationKeys.USE_PARTITIONS := "true"%string]> DefaultConfig_get)
                (λ k, if decide (k = ConfigurationKeys.DATA_PATH) then Some "/data"%string else None) in
  let c := Cluster.make conf in
  ∃ b s', GetClusterConfigResponse.serialize two_nodes_config = Ret b ∧
    GetClusterConfigResponse.deserialize (H := masking_target) b conf = Ret two_nodes_config ∧
    Cluster.persistClusterConfig c two_nodes_config (mk_fs ∅ {["/data"%string]}) = Ret (s', ()) ∧
    Cluster.getCandidatesToSendGetClusterConfig (H := masking_target) c s'
      = Ret (s', [(1, [49; 58; 49]); (2, [50; 58; 49])]).
Proof.
  intros conf c.
  destruct (cluster_config_roundtrip (H := masking_target) c two_nodes_config (mk_fs ∅ {["/data"%string]}) true 5000 "/data")
    as (b & s' & E1 & E2 & _ & E3 & E4);
    [reflexivity|vm_compute; reflexivity|reflexivity|exact two_nodes_config_ok|reflexivity|by exists b, s'].
Defined.
