(* ===== verification/OperatorTypes.v ===== *)
(** * Operators and the state they run on

    Models [operators/Operator.h], [operators/OperationOptions.h],
    [operators/OperatorRegistry.cpp] and the [desc] of every operator; the stores of ongoing
    Paxos rounds and log transfers ([operators/operations/cas/OnGoingPaxosRounds.cpp],
    [operators/operations/syncoplog/OnGoingSyncOplogsStore.cpp]); the [OperationLog]
    interface; and [OperatorDependencies] as the state of a node.  A call that throws has no
    resulting state; arguments that only reach the logger are not modelled. *)

From stdpp Require Import pretty.
From S2P Require Import Prelude.
From S2P Require Import Utils.
From S2P Require Import Clock.
From S2P Require Import Counters.
From S2P Require Import Avl.
From S2P Require Import MapStore.
From S2P Require Import Messages.
From S2P Require Import Codec.
From S2P Require Import Config.
From S2P Require Import Files.
From S2P Require Import Segments.
From S2P Require Import Oplog.
From S2P Require Import Cluster.
From S2P Require Import ClusterFacade.

(** ** Options *)

Module OperationOptions.

Record t := mk {
  checkTimestamps : bool;
  onlyExecute : bool;
  dontBroadcastToCluster : bool;
  dontSaveInOperationLog : bool;
  dontDebugLog : bool;
  updateClockStrategy : LamportClock.UpdateClockStrategy;
  partitionId : Z;
  requestNumber : Z;
}.

(** [OperationOptions::fromClient]. *)
Definition fromClient (o : t) : bool := negb (checkTimestamps o).

Definition with_partition (p : Z) (o : t) : t :=
  mk (checkTimestamps o) (onlyExecute o) (dontBroadcastToCluster o) (dontSaveInOperationLog o)
     (dontDebugLog o) (updateClockStrategy o) p (requestNumber o).

End OperationOptions.

(** ** Descriptors *)

(** [OperatorType]. *)
Inductive OperatorType := DB_STORE_READ | DB_STORE_WRITE | NODE_MAINTENANCE | DB_STORE_CONDITIONAL_WRITE.
(** [OperatorProperty]. *)
Inductive OperatorProperty := BROADCAST | PERSISTENCE.

#[global] Instance OperatorType_eq_dec : EqDecision OperatorType.
Proof. solve_decision. Defined.
#[global] Instance OperatorProperty_eq_dec : EqDecision OperatorProperty.
Proof. solve_decision. Defined.

(** [OperatorDescriptor]. *)
Record OperatorDescriptor := mk_desc {
  type : OperatorType;
  number : Z;
  name : string;
  authorizedToExecute : list AuthenticationType;
  properties : list OperatorProperty;
}.

(** The subclasses of [Operator]. *)
Inductive Operator :=
| GetOperator | SetOperator | DeleteOperator | ContainsOperator
| UpdateCounterOperator | ReplicateCounterOperator
| HealthCheckOperator | SyncOplogOperator | MovePartitionOplogOperator
| NextSegmentOplogOperator | FixOplogSegmentOperator
| CasOperator | PrepareCasOperator | AcceptCasOperator
| GetClusterConfigOperator | JoinClusterAnnounceOperator | LeaveClusterAnnounceOperator
| DoLeaveClusterOperator | GetNodeDataOperator.

#[global] Instance Operator_eq_dec : EqDecision Operator.
Proof. solve_decision. Defined.

(** [SetOperator::desc] and so on. *)
Definition SetOperator_desc : OperatorDescriptor :=
  mk_desc DB_STORE_WRITE OperatorNumbers.SET "SET" [USER; NODE] [BROADCAST; PERSISTENCE].
Definition GetOperator_desc : OperatorDescriptor :=
  mk_desc DB_STORE_READ OperatorNumbers.GET "GET" [USER] [].
Definition DeleteOperator_desc : OperatorDescriptor :=
  mk_desc DB_STORE_WRITE OperatorNumbers.DEL "DELETE" [USER; NODE] [BROADCAST; PERSISTENCE].
Definition ContainsOperator_desc : OperatorDescriptor :=
  mk_desc DB_STORE_READ OperatorNumbers.CONTAINS "CONTAINS" [USER] [].
Definition UpdateCounterOperator_desc : OperatorDescriptor :=
  mk_desc NODE_MAINTENANCE OperatorNumbers.UPDATE_COUNTER "UPDATE_COUNTER" [USER] [PERSISTENCE].
Definition ReplicateCounterOperator_desc : OperatorDescriptor :=
  mk_desc DB_STORE_WRITE OperatorNumbers.REPLICATE_COUNTER "REPLICATE_COUNTER" [NODE] [].
Definition HealthCheckOperator_desc : OperatorDescriptor :=
  mk_desc NODE_MAINTENANCE OperatorNumbers.HEALTH_CHECK "HEALTH_CHECK" [USER; NODE] [].
Definition SyncOplogOperator_desc : OperatorDescriptor :=
  mk_desc NODE_MAINTENANCE OperatorNumbers.SYNC_OPLOG "SYNC_OPLOG" [NODE] [].
Definition MovePartitionOplogOperator_desc : OperatorDescriptor :=
  mk_desc NODE_MAINTENANCE OperatorNumbers.MOVE_OPLOG "MOVE_PARTITION_OPLOG" [NODE] [].
Definition NextSegmentOplogOperator_desc : OperatorDescriptor :=
  mk_desc NODE_MAINTENANCE OperatorNumbers.NEXT_SYNC_OPLOG_SEGMENT "NEXT_SYNC_OPLOG_SEGMENT" [NODE] [].
Definition FixOplogSegmentOperator_desc : OperatorDescriptor :=
  mk_desc NODE_MAINTENANCE OperatorNumbers.FIX_OPLOG_SEGMENT "FIX_OPLOG_SEGMENT" [NODE] [].
Definition CasOperator_desc : OperatorDescriptor :=
  mk_desc DB_STORE_CONDITIONAL_WRITE OperatorNumbers.CAS "CAS" [USER] [].
Definition PrepareCasOperator_desc : OperatorDescriptor :=
  mk_desc NODE_MAINTENANCE OperatorNumbers.CAS_PREPARE "CAS_PREPARE" [NODE] [].
Definition AcceptCasOperator_desc : OperatorDescriptor :=
  mk_desc NODE_MAINTENANCE OperatorNumbers.CAS_ACCEPT "CAS_ACCEPT" [NODE] [].
Definition GetClusterConfigOperator_desc : OperatorDescriptor :=
  mk_desc NODE_MAINTENANCE OperatorNumbers.GET_CLUSTER_CONFIG "GET_CLUSTER_CONFIG" [NODE; USER] [].
Definition JoinClusterAnnounceOperator_desc : OperatorDescriptor :=
  mk_desc NODE_MAINTENANCE OperatorNumbers.JOIN_CLUSTER_ANNOUNCE "JOIN_CLUSTER_ANNOUNCE" [NODE] [].
Definition LeaveClusterAnnounceOperator_desc : OperatorDescriptor :=
  mk_desc NODE_MAINTENANCE OperatorNumbers.LEAVE_CLUSTER_ANNOUNCE "LEAVE_CLUSTER_ANNOUNCE" [NODE] [].
Definition DoLeaveClusterOperator_desc : OperatorDescriptor :=
  mk_desc NODE_MAINTENANCE OperatorNumbers.DO_LEAVE_CLUSTER "DO_LEAVE_CLUSTER" [USER] [].
Definition GetNodeDataOperator_desc : OperatorDescriptor :=
  mk_desc NODE_MAINTENANCE OperatorNumbers.GET_NODE_DATA "GET_NODE_DATA" [NODE; USER] [].

(** [Operator::desc], by the operator's class. *)
Definition desc (op : Operator) : OperatorDescriptor :=
  match op with
  | GetOperator => GetOperator_desc
  | SetOperator => SetOperator_desc
  | DeleteOperator => DeleteOperator_desc
  | ContainsOperator => ContainsOperator_desc
  | UpdateCounterOperator => UpdateCounterOperator_desc
  | ReplicateCounterOperator => ReplicateCounterOperator_desc
  | HealthCheckOperator => HealthCheckOperator_desc
  | SyncOplogOperator => SyncOplogOperator_desc
  | MovePartitionOplogOperator => MovePartitionOplogOperator_desc
  | NextSegmentOplogOperator => NextSegmentOplogOperator_desc
  | FixOplogSegmentOperator => FixOplogSegmentOperator_desc
  | CasOperator => CasOperator_desc
  | PrepareCasOperator => PrepareCasOperator_desc
  | AcceptCasOperator => AcceptCasOperator_desc
  | GetClusterConfigOperator => GetClusterConfigOperator_desc
  | JoinClusterAnnounceOperator => JoinClusterAnnounceOperator_desc
  | LeaveClusterAnnounceOperator => LeaveClusterAnnounceOperator_desc
  | DoLeaveClusterOperator => DoLeaveClusterOperator_desc
  | GetNodeDataOperator => GetNodeDataOperator_desc
  end.

(** [Operator::hasProperty]. *)
Definition hasProperty (op : Operator) (p : OperatorProperty) : bool := bool_decide (p ∈ properties (desc op)).

(** ** The registry *)

Module OperatorRegistry.

(** [OperatorRegistry::OperatorRegistry]: the entries in the order they are assigned. *)
Definition entries : list (Z * Operator) :=
  [(OperatorNumbers.GET, GetOperator); (OperatorNumbers.SET, SetOperator);
   (OperatorNumbers.DEL, DeleteOperator); (OperatorNumbers.CONTAINS, ContainsOperator);
   (OperatorNumbers.UPDATE_COUNTER, UpdateCounterOperator);
   (OperatorNumbers.REPLICATE_COUNTER, ReplicateCounterOperator);
   (OperatorNumbers.HEALTH_CHECK, HealthCheckOperator);
   (OperatorNumbers.SYNC_OPLOG, SyncOplogOperator);
   (OperatorNumbers.MOVE_OPLOG, MovePartitionOplogOperator);
   (OperatorNumbers.NEXT_SYNC_OPLOG_SEGMENT, NextSegmentOplogOperator);
   (OperatorNumbers.FIX_OPLOG_SEGMENT, FixOplogSegmentOperator);
   (OperatorNumbers.CAS, CasOperator); (OperatorNumbers.CAS_PREPARE, PrepareCasOperator);
   (OperatorNumbers.CAS_ACCEPT, AcceptCasOperator);
   (OperatorNumbers.GET_CLUSTER_CONFIG, GetClusterConfigOperator);
   (OperatorNumbers.JOIN_CLUSTER_ANNOUNCE, JoinClusterAnnounceOperator);
   (OperatorNumbers.LEAVE_CLUSTER_ANNOUNCE, LeaveClusterAnnounceOperator);
   (OperatorNumbers.DO_LEAVE_CLUSTER, DoLeaveClusterOperator);
   (OperatorNumbers.GET_NODE_DATA, GetNodeDataOperator)].

Definition operators : gmap Z Operator := foldl (λ m e, <[e.1:=e.2]> m) ∅ entries.

(** [OperatorRegistry::get]. *)
Definition get (operatorNumber : Z) : option Operator := operators !! operatorNumber.

End OperatorRegistry.

(** ** Ongoing Paxos rounds *)

Inductive ProposerPaxosState := WAITING_FOR_PROMISE | WAITING_FOR_ACCEPT | COMITTED | FAILED.

Module OnGoingPaxosRounds.

(** Of a proposer's round the state, of an acceptor's the promised timestamp. *)
Record t := mk {
  proposers : gmap Z ProposerPaxosState;
  acceptators : gmap Z LamportClock.t;
}.

Definition empty : t := mk ∅ ∅.

(** [OnGoingPaxosRounds::getProposerByKeyHash]: the round is created when it is missing. *)
Definition getProposerByKeyHash (keyHash : Z) (newStateIfNotFound : ProposerPaxosState) (r : t) : t :=
  match proposers r !! keyHash with
  | None => mk (<[keyHash:=newStateIfNotFound]> (proposers r)) (acceptators r)
  | Some _ => r
  end.

(** [proposerPaxosRound->state = s]. *)
Definition set_proposer (keyHash : Z) (s : ProposerPaxosState) (r : t) : t :=
  mk (<[keyHash:=s]> (proposers r)) (acceptators r).

(** [OnGoingPaxosRounds::updateAcceptedTimestamp]. *)
Definition updateAcceptedTimestamp (keyHash : Z) (promisedTimestamp : LamportClock.t) : stM t () :=
  λ r, let! _ := of_option out_of_range (acceptators r !! keyHash) in
       Ret (mk (proposers r) (<[keyHash:=promisedTimestamp]> (acceptators r)), ()).

(** [OnGoingPaxosRounds::updatePromisedTimestamp]. *)
Definition updatePromisedTimestamp (keyHash : Z) (promisedTimestamp : LamportClock.t) : stM t () :=
  λ r, let! _ := of_option out_of_range (acceptators r !! keyHash) in
       Ret (mk (proposers r) (<[keyHash:=promisedTimestamp]> (acceptators r)), ()).

(** [OnGoingPaxosRounds::registerNewAcceptatorPromise]. *)
Definition registerNewAcceptatorPromise (keyHash : Z) (nextTimestamp : LamportClock.t) (r : t) : t :=
  mk (proposers r) (<[keyHash:=nextTimestamp]> (acceptators r)).

(** [OnGoingPaxosRounds::getAcceptatorByKeyHash]. *)
Definition getAcceptatorByKeyHash (keyHash : Z) (r : t) : option LamportClock.t := acceptators r !! keyHash.

End OnGoingPaxosRounds.

(** ** Ongoing log transfers *)

Record OnGoingSyncOplog := mk_sync { iterator : OplogIterator.t; totalNFragments : Z; nFragmentsSent : Z }.

Module OnGoingSyncOplogsStore.

Record t := mk {
  onGoingSyncOplogsById : gmap Z OnGoingSyncOplog;
  nextSyncOplogIdCounter : Z;
  selfNodeId : Z;
}.

Definition set_syncs (m : gmap Z OnGoingSyncOplog) (s : t) : t := mk m (nextSyncOplogIdCounter s) (selfNodeId s).

(** [OnGoingSyncOplogsStore::OnGoingSyncOplogsStore]. *)
Definition make (nodeId : Z) : t := mk ∅ 0 nodeId.

(** [OnGoingSyncOplogsStore::registerSyncOplogIterator]: a known identifier keeps its iterator. *)
Definition registerSyncOplogIterator (syncId : Z) (segmentIterator : OplogIterator.t) (s : t) : t :=
  match onGoingSyncOplogsById s !! syncId with
  | None => set_syncs (<[syncId:=mk_sync segmentIterator (OplogIterator.totalSize segmentIterator) 0]>
                         (onGoingSyncOplogsById s)) s
  | Some _ => s
  end.

(** [OnGoingSyncOplogsStore::getSenderIteratorById]. *)
Definition getSenderIteratorById (syncOplogId : Z) (s : t) : option OplogIterator.t :=
  iterator <$> onGoingSyncOplogsById s !! syncOplogId.

(** The shared iterator of a transfer after its [next]. *)
Definition put_iterator (syncId : Z) (i : OplogIterator.t) (s : t) : t :=
  set_syncs (alter (λ o, mk_sync i (totalNFragments o) (nFragmentsSent o)) syncId (onGoingSyncOplogsById s)) s.

(** [OnGoingSyncOplogsStore::markSegmentAsSent]; [operator[]] on a missing identifier inserts
    an empty transfer, which is erased at once. *)
Definition markSegmentAsSent (syncId : Z) (s : t) : t :=
  match onGoingSyncOplogsById s !! syncId with
  | None => s
  | Some o =>
      let o := mk_sync (iterator o) (totalNFragments o) (u64 (nFragmentsSent o + 1)) in
      if totalNFragments o <=? nFragmentsSent o
      then set_syncs (delete syncId (onGoingSyncOplogsById s)) s
      else set_syncs (<[syncId:=o]> (onGoingSyncOplogsById s)) s
  end.

(** [OnGoingSyncOplogsStore::removeBySyncId]. *)
Definition removeBySyncId (syncId : Z) (s : t) : t := set_syncs (delete syncId (onGoingSyncOplogsById s)) s.

(** [OnGoingSyncOplogsStore::nextSyncOplogId]. *)
Definition nextSyncOplogId (s : t) : t * Z :=
  (mk (onGoingSyncOplogsById s) (u32 (nextSyncOplogIdCounter s + 1)) (selfNodeId s),
   Z.lor (u64 (Z.shiftl (selfNodeId s) 32)) (nextSyncOplogIdCounter s)).

End OnGoingSyncOplogsStore.

(** ** The operation log interface *)

Module OperationLog.

(** The two implementations of [OperationLog]. *)
Inductive t := single (o : SingleOperationLog.t) | multiple (l : MultipleOperationLog.t).

(** [memdbBasePath + "/" + std::to_string(oplogId)]. *)
Definition partitionPath (base : string) (oplogId : nat) : string := path base (pretty (N.of_nat oplogId)).

Section log.
Context `{Platform} `{Zlib} (base : string).

Definition add (oplogId : nat) (operation : OperationBody.t) : stM t () :=
  λ o, match o with
       | single o => Ret (single (SingleOperationLog.add operation o), ())
       | multiple l => let! (l, _) := MultipleOperationLog.add oplogId operation l in Ret (multiple l, ())
       end.

Definition addAll (oplogId : nat) (operations : list OperationBody.t) : stM t () :=
  λ o, match o with
       | single o => Ret (single (SingleOperationLog.addAll operations o), ())
       | multiple l => let! (l, _) := MultipleOperationLog.addAll oplogId operations l in Ret (multiple l, ())
       end.

Definition hasOplogFile (oplogId : nat) (o : t) : outcome bool :=
  match o with
  | single o => Ret (SingleOperationLog.hasOplogFile o)
  | multiple l => MultipleOperationLog.hasOplogFile oplogId l
  end.

Definition clear (oplogId : nat) : stM t () :=
  λ o, match o with
       | single o => Ret (single (SingleOperationLog.clear (partitionPath base 0) o), ())
       | multiple l => let! (l, _) := MultipleOperationLog.clear (partitionPath base) oplogId l in Ret (multiple l, ())
       end.

Definition getAfterTimestamp (fuel : nat) (timestamp : Z) (options : OperationLogOptions) (o : t) :
    outcome bytesDiskIterator :=
  match o with
  | single o => let! i := SingleOperationLog.getAfterTimestamp (partitionPath base 0) fuel timestamp options o in
                Ret (oplog i)
  | multiple l => MultipleOperationLog.getAfterTimestamp (partitionPath base) fuel timestamp options l
  end.

Definition getBetweenTimestamps (fuel : nat) (fromTimestamp toTimestamp : Z) (options : OperationLogOptions) (o : t) :
    outcome bytesDiskIterator :=
  match o with
  | single o =>
      let! i := SingleOperationLog.getBetweenTimestamps (partitionPath base 0) fuel fromTimestamp toTimestamp options o in
      Ret (oplog i)
  | multiple l => MultipleOperationLog.getBetweenTimestamps (partitionPath base) fuel fromTimestamp toTimestamp options l
  end.

Definition getAll (options : OperationLogOptions) (o : t) : outcome bytesDiskIterator :=
  match o with
  | single o => let! i := SingleOperationLog.getAll (partitionPath base 0) options o in Ret (oplog i)
  | multiple l => MultipleOperationLog.getAll (partitionPath base) options l
  end.

Definition updateCorrupted (uncorrupted : bytes) (uncompressedSize : Z) (ptr oplogId : nat) : stM t () :=
  λ o, match o with
       | single o =>
           let! (o, _) := SingleOperationLog.updateCorrupted (partitionPath base 0) uncorrupted uncompressedSize ptr o in
           Ret (single o, ())
       | multiple l =>
           let! (l, _) := MultipleOperationLog.updateCorrupted (partitionPath base) uncorrupted uncompressedSize ptr oplogId l in
           Ret (multiple l, ())
       end.

Definition getNumberOplogFiles (o : t) : Z :=
  match o with
  | single o => SingleOperationLog.getNumberOplogFiles o
  | multiple l => MultipleOperationLog.getNumberOplogFiles l
  end.

(** The descriptor data fetcher the log gave its iterator. *)
Definition fetch (o : t) (i : OplogIterator.t) (d : descriptor) : outcome (option bytes) :=
  match o with
  | single o => SingleOperationLog.readBytesByIndexSegmentDescriptor (partitionPath base 0) o d
  | multiple l =>
      let id := Z.to_nat (OplogIterator.oplogId i) in
      let! o := at_undef l id in
      SingleOperationLog.readBytesByIndexSegmentDescriptor (partitionPath base id) o d
  end.

End log.

(** [std::dynamic_pointer_cast<OplogIterator>], dereferenced. *)
Definition as_oplogIterator (i : bytesDiskIterator) : outcome OplogIterator.t :=
  match i with oplog i => Ret i | null_iterator => Undef end.

End OperationLog.

(** ** The state of a node *)

(** Tasks given to the request pool. *)
Inductive task :=
| replicate_counter (operation : OperationBody.t) (newUpdatedValue : Z)
| leave_cluster.

(** [OperatorDependencies] and the dispatcher's buffer: what the operators of a node share.
    [W] is the network and the other nodes. *)
Record node (W : Type) := mk_node {
  stores : MemDbStores.t;
  clock : LamportClock.t;
  operationLog : OperationLog.t;
  cluster : Cluster.t;
  onGoingSyncOplogs : OnGoingSyncOplogsStore.t;
  onGoingPaxosRounds : OnGoingPaxosRounds.t;
  delayed : BackedDiskRequestBuffer.t * fs;
  requestPool : list task;
  network : W;
}.
Arguments mk_node {W}.
Arguments stores {W}.
Arguments clock {W}.
Arguments operationLog {W}.
Arguments cluster {W}.
Arguments onGoingSyncOplogs {W}.
Arguments onGoingPaxosRounds {W}.
Arguments delayed {W}.
Arguments requestPool {W}.
Arguments network {W}.

Section lenses.
Context {W : Type}.
Implicit Types (n : node W).

Definition set_store (pid : Z) (m : Map.t) (n : node W) : node W :=
  mk_node (<[pid:=m]> (stores n))
    (LamportClock.mk (default (LamportClock.counter (clock n)) (Map.clock m)) (LamportClock.nodeId (clock n)))
    (operationLog n) (cluster n) (onGoingSyncOplogs n) (onGoingPaxosRounds n) (delayed n) (requestPool n) (network n).
Definition set_stores (s : MemDbStores.t) (n : node W) : node W :=
  mk_node s (clock n) (operationLog n) (cluster n) (onGoingSyncOplogs n) (onGoingPaxosRounds n) (delayed n)
    (requestPool n) (network n).
Definition set_log (o : OperationLog.t) (n : node W) : node W :=
  mk_node (stores n) (clock n) o (cluster n) (onGoingSyncOplogs n) (onGoingPaxosRounds n) (delayed n)
    (requestPool n) (network n).
Definition set_cluster (c : Cluster.t) (w : W) (n : node W) : node W :=
  mk_node (stores n) (clock n) (operationLog n) c (onGoingSyncOplogs n) (onGoingPaxosRounds n) (delayed n)
    (requestPool n) w.
Definition set_syncs (s : OnGoingSyncOplogsStore.t) (n : node W) : node W :=
  mk_node (stores n) (clock n) (operationLog n) (cluster n) s (onGoingPaxosRounds n) (delayed n) (requestPool n)
    (network n).
Definition set_rounds (r : OnGoingPaxosRounds.t) (n : node W) : node W :=
  mk_node (stores n) (clock n) (operationLog n) (cluster n) (onGoingSyncOplogs n) r (delayed n) (requestPool n)
    (network n).
Definition set_delayed (d : BackedDiskRequestBuffer.t * fs) (n : node W) : node W :=
  mk_node (stores n) (clock n) (operationLog n) (cluster n) (onGoingSyncOplogs n) (onGoingPaxosRounds n) d
    (requestPool n) (network n).
Definition set_pool (l : list task) (n : node W) : node W :=
  mk_node (stores n) (clock n) (operationLog n) (cluster n) (onGoingSyncOplogs n) (onGoingPaxosRounds n) (delayed n)
    l (network n).

(** A map with the clock every call passes along. *)
Definition with_clock (c : Z) (m : Map.t) : Map.t :=
  Map.mk (Map.nodes m) (Map.datas m) (Some c) (Map.buckets m) (Map.locked m) (Map.numberBuckets m) (Map.size m).

(** Code of [Map] on the store of a partition. *)
Definition on_store {A} (pid : Z) (f : stM Map.t A) : stM (node W) A :=
  λ n,
    let! m := MemDbStores.getByPartitionId (stores n) pid in
    let! (m, a) := f (with_clock (LamportClock.counter (clock n)) m) in
    Ret (set_store pid m n, a).

Definition on_log {A} (f : stM OperationLog.t A) : stM (node W) A :=
  λ n, let! (o, a) := f (operationLog n) in Ret (set_log o n, a).
Definition on_cluster {A} (f : stM (Cluster.t * W) A) : stM (node W) A :=
  λ n, let! ((c, w), a) := f (cluster n, network n) in Ret (set_cluster c w n, a).
Definition on_rounds {A} (f : stM OnGoingPaxosRounds.t A) : stM (node W) A :=
  λ n, let! (r, a) := f (onGoingPaxosRounds n) in Ret (set_rounds r n, a).

(** Reading a value of the node. *)
Definition reads {A} (f : node W → outcome A) : stM (node W) A := λ n, let! a := f n in Ret (n, a).

(** [configuration->getBoolean]. *)
Definition configured (key : string) : stM (node W) bool :=
  reads (λ n, Configuration.getBoolean (Cluster.configuration (cluster n)) key).

End lenses.

(** The handlers of membership changes a node installs ([std::function] fields of [Cluster]). *)
Class ChangeHandlers (W : Type) := {
  newNodeInClusterHandler : Z * bytes → stM (node W) ();
  deletedNodeInClusterHandler : Z * bytes → stM (node W) ();
}.
