(* ===== verification/Operators.v ===== *)
(** * The operators

    Models [operators/operations/]: what each operator does to the node's state and the
    response it returns.  An operator that has others executed does so through [execute], the
    callback of [OperatorDependencies]. *)

From S2P Require Import Prelude.
From S2P Require Import Utils.
From S2P Require Import Clock.
From S2P Require Import Counters.
From S2P Require Import Avl.
From S2P Require Import MapStore.
From S2P Require Import Messages.
From S2P Require Import Codec.
From S2P Require Import Config.
From S2P Require Import Queues.
From S2P Require Import Ring.
From S2P Require Import Partitions.
From S2P Require Import Files.
From S2P Require Import Segments.
From S2P Require Import Oplog.
From S2P Require Import Cluster.
From S2P Require Import ClusterFacade.
From S2P Require Import OperatorTypes.

(** The states of a latch a waiting thread sees before its timeout, given the last one. *)
Class Waiting := wait_sees : CounterLatch.t → list CounterLatch.t.

Definition zero_clock : LamportClock.t := LamportClock.mk 0 0.

Module Operators.
Section operators.
Context `{Platform} `{Zlib} {Env : Environment} {Wt : Waiting} {W : Type} {N : Network W} {CH : ChangeHandlers W}.
(** [dependencies.operatorDispatcher]. *)
Context (execute : OperationBody.t → OperationOptions.t → stM (node W) Response.t).

Abbreviation M := (stM (node W)).
Implicit Types (operation : OperationBody.t) (options : OperationOptions.t).

Definition arg operation (i : nat) : M SimpleString.t := lift (OperationBody.getArg operation i).
Definition number_arg operation (n i : nat) : M Z := a ← arg operation i; lift (SimpleString.to n false a).
Definition double_arg operation (i : nat) : M Z := lift (OperationBody.getDoubleArgU64 operation i).
Definition getNodeId : M Z := reads (λ n, Cluster.getNodeId (cluster n)).
Definition store_exists (pid : Z) : M () :=
  reads (λ n, let! _ := MemDbStores.getByPartitionId (stores n) pid in Ret ()).
Definition respond (b : ResponseBuilder.t) : M Response.t := lift (ResponseBuilder.build b).

(** The value behind an entry ([MapEntry::toData] and [MapEntry::toCounter]). *)
Definition payload_of (pid : Z) (e : Avl.MapEntry) : M Avl.payload :=
  reads (λ n, let! m := MemDbStores.getByPartitionId (stores n) pid in deref (Map.datas m !! Avl.e_data e)).
Definition toData (pid : Z) (e : Avl.MapEntry) : M (SimpleString.t * LamportClock.t) :=
  p ← payload_of pid e;
  lift match p with Avl.DataAVLNode v t => Ret (v, t) | Avl.CounterAVLNode _ => Undef end.
Definition toCounter (pid : Z) (e : Avl.MapEntry) : M Counter.t :=
  p ← payload_of pid e;
  lift match p with Avl.CounterAVLNode c => Ret c | Avl.DataAVLNode _ _ => Undef end.

(** ** User operators *)

(** [SetOperator::getTimestamp] and [DeleteOperator::getTimestamp]. *)
Definition getTimestamp operation options : M LamportClock.t :=
  if OperationOptions.fromClient options
  then id ← getNodeId; mret (LamportClock.mk (OperationBody.timestamp operation) id)
  else mret (LamportClock.mk (OperationBody.timestamp operation) (OperationBody.nodeId operation)).

(** [SetOperator::operate]. *)
Definition set_operate operation options : M Response.t :=
  let pid := OperationOptions.partitionId options in
  _ ← store_exists pid;
  key ← arg operation 0;
  value ← arg operation 1;
  requestTimestamp ← getTimestamp operation options;
  resultSet ← on_store pid (Map.putData key value requestTimestamp (OperationOptions.updateClockStrategy options)
                              (OperationOptions.checkTimestamps options));
  respond (ResponseBuilder.timestampCounter (default 0 resultSet)
    (ResponseBuilder.isSuccessful (bool_decide (is_Some resultSet)) ErrorCode.ALREADY_REPLICATED
      ResponseBuilder.builder)).

(** [DeleteOperator::operate]. *)
Definition delete_operate operation options : M Response.t :=
  let pid := OperationOptions.partitionId options in
  _ ← store_exists pid;
  key ← arg operation 0;
  requestTimestamp ← getTimestamp operation options;
  resultRemove ← on_store pid (Map.remove key requestTimestamp (OperationOptions.updateClockStrategy options)
                                 (OperationOptions.checkTimestamps options));
  respond (ResponseBuilder.timestampCounter (default 0 resultRemove)
    (ResponseBuilder.isSuccessful (bool_decide (is_Some resultRemove)) ErrorCode.UNKNOWN_KEY
      ResponseBuilder.builder)).

(** [GetOperator::getTimestampCounter]. *)
Definition getTimestampCounter (pid : Z) (entry : option Avl.MapEntry) : M LamportClock.t :=
  match entry with
  | None => mret zero_clock
  | Some e =>
      if decide (Avl.e_type e = Avl.COUNTER)
      then c ← toCounter pid e; n ← lift (Counter.count c); mret (LamportClock.mk (u64 n) 0)
      else d ← toData pid e; mret d.2
  end.

(** [GetOperator::getValue]. *)
Definition getValue (pid : Z) (entry : option Avl.MapEntry) : M SimpleString.t :=
  match entry with
  | None => mret (SimpleString.fromString [])
  | Some e =>
      if decide (Avl.e_type e = Avl.COUNTER)
      then c ← toCounter pid e; n ← lift (Counter.count c); mret (SimpleString.fromNumber 8 n)
      else d ← toData pid e; mret d.1
  end.

(** [GetOperator::operate]. *)
Definition get_operate operation options : M Response.t :=
  let pid := OperationOptions.partitionId options in
  _ ← store_exists pid;
  key ← arg operation 0;
  result ← on_store pid (Map.get key);
  timestamp ← getTimestampCounter pid result;
  value ← getValue pid result;
  respond (ResponseBuilder.value value (ResponseBuilder.timestamp timestamp
    (ResponseBuilder.isSuccessful (bool_decide (is_Some result)) ErrorCode.UNKNOWN_KEY ResponseBuilder.builder))).

(** [ContainsOperator::operate]. *)
Definition contains_operate operation options : M Response.t :=
  key ← arg operation 0;
  partitionId ← reads (λ n, Cluster.getPartitionIdByKey (cluster n) key);
  contained ← on_store partitionId (Map.contains key);
  respond (ResponseBuilder.isSuccessful contained ErrorCode.UNKNOWN_KEY ResponseBuilder.builder).

(** [requestPool.submit] of the cluster's nodes. *)
Definition submit (t : task) : M () := λ n,
  let! _ := deref (Cluster.clusterNodes (cluster n)) in Ret (set_pool (requestPool n ++ [t]) n, ()).

(** [UpdateCounterOperator::operate]; the replication is a task of the pool. *)
Definition updateCounter_operate operation options : M Response.t :=
  let pid := OperationOptions.partitionId options in
  _ ← store_exists pid;
  nNodesInCluster ← reads (λ n, Cluster.getNTotalNodesInPartition (cluster n));
  key ← arg operation 0;
  id ← getNodeId;
  updateCounterResult ← on_store pid (Map.updateCounter key id (u32 nNodesInCluster) (OperationBody.flag1 operation));
  match updateCounterResult with
  | None => mret (Response.error ErrorCode.INVALID_TYPE)
  | Some newValue =>
      counterMapEntry ← on_store pid (Map.get key);
      _ ← (if OperationOptions.dontBroadcastToCluster options then mret ()
           else
             e ← lift (deref counterMapEntry);
             _ ← toCounter pid e;
             submit (replicate_counter operation newValue));
      mret (Response.success zero_clock)
  end.

(** The operation [UpdateCounterOperator::replicate] makes for a node, from what the node is
    known to have seen. *)
Definition replicate_operation (isIncrement : bool) (key : SimpleString.t) (newUpdatedValue lastSeenIncrement lastSeenDecrement : Z) :
    OperationBody.t :=
  RequestBuilder.buildOperationBody
    (RequestBuilder.addDoubleArg (u64 lastSeenDecrement) (RequestBuilder.addDoubleArg (u64 lastSeenIncrement)
      (RequestBuilder.addDoubleArg (u64 newUpdatedValue) (RequestBuilder.addArg key
        (RequestBuilder.operatorFlag1 isIncrement
          (RequestBuilder.operatorNumber OperatorNumbers.REPLICATE_COUNTER RequestBuilder.builder)))))).

(** [UpdateCounterOperator::onReplicationCounterResponse], on the counter. *)
Definition onReplicationCounterResponse (response : Response.t) (counter : Counter.t) : outcome Counter.t :=
  let! a := Response.getResponseValueAtOffset response 0 8 in
  let! nIncrementToSync := SimpleString.to 8 true a in
  let! b := Response.getResponseValueAtOffset response 8 8 in
  let! nDecrementToSync := SimpleString.to 8 true b in
  let! c := Response.getResponseValueAtOffset response 16 2 in
  let! otherNodeId := SimpleString.to 2 false c in
  let! counter := (if 0 <? nIncrementToSync then Counter.syncIncrement counter nIncrementToSync otherNodeId else Ret counter) in
  if 0 <? nDecrementToSync then Counter.syncDecrement counter nDecrementToSync otherNodeId else Ret counter.

(** The counter's part of [ReplicateCounterOperator::operate]. *)
Definition replicateCounter_apply operation (pid newValue lastSeenIncrement lastSeenDecrement : Z) (e : Avl.MapEntry) :
    M Response.t :=
  response ← on_store pid (Map.on_counter (Avl.e_data e) (λ c, Counter.onReplicationCounter c
    (Counter.mk_request (OperationBody.nodeId operation) (OperationBody.flag1 operation) newValue
       lastSeenIncrement lastSeenDecrement)));
  id ← getNodeId;
  let buffer := Utils.appendToBuffer 8 (if Counter.needsIncrementSync response then Counter.nIncrementToSync response else 0) [] in
  let buffer := Utils.appendToBuffer 8 (if Counter.needsDecrementSync response then Counter.nDecrementToSync response else 0) buffer in
  respond (ResponseBuilder.values [SimpleString.fromVector buffer; SimpleString.fromNumber 2 id]
    (ResponseBuilder.success ResponseBuilder.builder)).

(** [ReplicateCounterOperator::operate]; the last decrement seen is read from argument 4. *)
Definition replicateCounter_operate operation options : M Response.t :=
  let pid := OperationOptions.partitionId options in
  _ ← store_exists pid;
  key ← arg operation 0;
  newValue ← double_arg operation 1;
  lastSeenIncrement ← double_arg operation 3;
  lastSeenDecrement ← double_arg operation 4;
  result ← on_store pid (Map.get key);
  match result with
  | Some e =>
      if decide (Avl.e_type e ≠ Avl.COUNTER) then mret (Response.error ErrorCode.INVALID_TYPE)
      else replicateCounter_apply operation pid (i64 newValue) (i64 lastSeenIncrement) (i64 lastSeenDecrement) e
  | None =>
      id ← getNodeId;
      nNodes ← reads (λ n, Cluster.getNTotalNodesInPartition (cluster n));
      _ ← on_store pid (Map.putCounter key id (u32 nNodes));
      result ← on_store pid (Map.get key);
      e ← lift (deref result);
      replicateCounter_apply operation pid (i64 newValue) (i64 lastSeenIncrement) (i64 lastSeenDecrement) e
  end.

(** [HealthCheckOperator::operate]. *)
Definition healthCheck_operate operation options : M Response.t := mret (Response.success zero_clock).

(** ** Compare and set *)

(** [PrepareCasOperator::getArgs]. *)
Definition prepare_getArgs operation : M (SimpleString.t * LamportClock.t * LamportClock.t) :=
  key ← arg operation 0;
  prevNode ← number_arg operation 2 1;
  prevCounter ← double_arg operation 2;
  nextNode ← number_arg operation 2 4;
  nextCounter ← double_arg operation 5;
  mret (key, LamportClock.mk prevCounter prevNode, LamportClock.mk nextCounter nextNode).

(** What both acceptor operators check first: the stored value must be data no newer than
    [prev], and no later round may have been promised.  A missing key dereferences an empty
    optional. *)
Definition acceptator_check (pid keyHash : Z) (key : SimpleString.t) (prevTimestamp nextTimestamp : LamportClock.t) :
    M (option Z * option LamportClock.t) :=
  keyInDb ← on_store pid (Map.get key);
  paxosRound ← reads (λ n, Ret (OnGoingPaxosRounds.getAcceptatorByKeyHash keyHash (onGoingPaxosRounds n)));
  e ← lift (deref keyInDb);
  if decide (Avl.e_type e ≠ Avl.DATA) then mret (Some ErrorCode.INVALID_TYPE, paxosRound)
  else
    d ← toData pid e;
    let moreUpToDateValueIsStored := LamportClock.op_gt d.2 prevTimestamp in
    let promisedHigherTimestamp :=
      match paxosRound with Some promised => LamportClock.op_gt promised nextTimestamp | None => false end in
    mret (if moreUpToDateValueIsStored || promisedHigherTimestamp then Some ErrorCode.CAS_FAILED else None, paxosRound).

(** [PrepareCasOperator::operate].  Its log line also formats [paxosRound->promisedNextTimestamp],
    which for the first PREPARE of a key reads an empty optional; the text is not modelled, nor
    is that read. *)
Definition prepareCas_operate operation options : M Response.t :=
  let pid := OperationOptions.partitionId options in
  _ ← store_exists pid;
  a ← prepare_getArgs operation;
  let '(key, prevTimestamp, nextTimestamp) := a in
  keyHash ← lift (Map.calculateHash key);
  check ← acceptator_check pid keyHash key prevTimestamp nextTimestamp;
  match check with
  | (Some code, _) => mret (Response.error code)
  | (None, None) =>
      _ ← on_rounds (modify (OnGoingPaxosRounds.registerNewAcceptatorPromise keyHash nextTimestamp));
      mret (Response.success zero_clock)
  | (None, Some promised) =>
      _ ← (if LamportClock.op_gt nextTimestamp promised
           then on_rounds (OnGoingPaxosRounds.updatePromisedTimestamp keyHash nextTimestamp)
           else mret ());
      mret (Response.success zero_clock)
  end.

(** [AcceptCasOperator::getArgs]. *)
Definition accept_getArgs operation : M (SimpleString.t * SimpleString.t * LamportClock.t * LamportClock.t) :=
  key ← arg operation 0;
  value ← arg operation 1;
  prevNode ← number_arg operation 2 2;
  prevCounter ← double_arg operation 3;
  nextNode ← number_arg operation 2 5;
  nextCounter ← double_arg operation 6;
  mret (key, value, LamportClock.mk prevCounter prevNode, LamportClock.mk nextCounter nextNode).

(** The SET a compare-and-set writes to the log. *)
Definition cas_log_entry (key value : SimpleString.t) (timestamp : LamportClock.t) : OperationBody.t :=
  RequestBuilder.buildOperationBody (RequestBuilder.selfNode (LamportClock.nodeId timestamp)
    (RequestBuilder.timestamp (LamportClock.counter timestamp) (RequestBuilder.args [key; value]
      (RequestBuilder.operatorNumber OperatorNumbers.SET RequestBuilder.builder)))).

(** [AcceptCasOperator::operate]. *)
Definition acceptCas_operate operation options : M Response.t :=
  let pid := OperationOptions.partitionId options in
  _ ← store_exists pid;
  a ← accept_getArgs operation;
  let '(key, value, prevTimestamp, nextTimestamp) := a in
  keyHash ← lift (Map.calculateHash key);
  check ← acceptator_check pid keyHash key prevTimestamp nextTimestamp;
  match check.1 with
  | Some code => mret (Response.error code)
  | None =>
      saved ← on_store pid (Map.putData key value nextTimestamp LamportClock.SET_MAX true);
      match saved with
      | Some _ =>
          _ ← on_rounds (OnGoingPaxosRounds.updateAcceptedTimestamp keyHash nextTimestamp);
          _ ← on_log (OperationLog.add (Z.to_nat pid) (cas_log_entry key value nextTimestamp));
          mret (Response.success zero_clock)
      | None => mret (Response.error ErrorCode.CAS_FAILED)
      end
  end.

Definition set_round (keyHash : Z) (s : ProposerPaxosState) : M () :=
  on_rounds (modify (OnGoingPaxosRounds.set_proposer keyHash s)).

(** [CasOperator::checkIfQuorumAndAllResponsesSuccess]. *)
Definition checkIfQuorumAndAllResponsesSuccess (multiResponses : MultipleResponses.t) (keyHash : Z) : M bool :=
  _ ← reads (λ n, Configuration.getUint 64 (Cluster.configuration (cluster n)) ConfigurationKeys.NODE_REQUEST_TIMEOUT_MS);
  if MultipleResponses.waitForSuccessfulQuorum multiResponses
       (wait_sees (MultipleResponses.successfulResponsesLatch multiResponses))
  then mret true
  else _ ← set_round keyHash FAILED; mret false.

(** The operation [CasOperator::sendPrepare] broadcasts. *)
Definition prepare_operation (selfNodeId : Z) (key : SimpleString.t) (prevTimestamp nextTimestamp : LamportClock.t) :
    OperationBody.t :=
  RequestBuilder.buildOperationBody
    (RequestBuilder.addDoubleArg (LamportClock.counter nextTimestamp)
      (RequestBuilder.addArg (SimpleString.fromNumber 2 selfNodeId)
        (RequestBuilder.addDoubleArg (LamportClock.counter prevTimestamp)
          (RequestBuilder.addArg (SimpleString.fromNumber 2 (LamportClock.nodeId prevTimestamp))
            (RequestBuilder.addArg key
              (RequestBuilder.selfNode selfNodeId
                (RequestBuilder.operatorNumber OperatorNumbers.CAS_PREPARE RequestBuilder.builder))))))).

(** [CasOperator::sendPrepare]. *)
Definition sendPrepare (keyHash pid : Z) (key : SimpleString.t) (prevTimestamp nextTimestamp : LamportClock.t) :
    M MultipleResponses.t :=
  _ ← set_round keyHash WAITING_FOR_PROMISE;
  id ← getNodeId;
  on_cluster (Cluster.broadcastAndWait (prepare_operation id key prevTimestamp nextTimestamp) (Z.to_nat pid) false).

(** The operation [CasOperator::sendAccept] broadcasts. *)
Definition accept_operation (selfNodeId : Z) (key value : SimpleString.t) (prevTimestamp nextTimestamp : LamportClock.t) :
    OperationBody.t :=
  RequestBuilder.buildOperationBody
    (RequestBuilder.addDoubleArg (LamportClock.counter nextTimestamp)
      (RequestBuilder.addArg (SimpleString.fromNumber 2 selfNodeId)
        (RequestBuilder.addDoubleArg (LamportClock.counter prevTimestamp)
          (RequestBuilder.addArg (SimpleString.fromNumber 2 (LamportClock.nodeId prevTimestamp))
            (RequestBuilder.addArg value
              (RequestBuilder.addArg key
                (RequestBuilder.selfNode selfNodeId
                  (RequestBuilder.operatorNumber OperatorNumbers.CAS_ACCEPT RequestBuilder.builder)))))))).

(** [CasOperator::sendAccept]. *)
Definition sendAccept (keyHash pid : Z) (key value : SimpleString.t) (prevTimestamp nextTimestamp : LamportClock.t) :
    M MultipleResponses.t :=
  _ ← set_round keyHash WAITING_FOR_ACCEPT;
  id ← getNodeId;
  on_cluster (Cluster.broadcastAndWait (accept_operation id key value prevTimestamp nextTimestamp) (Z.to_nat pid) false).

(** The loop of [CasOperator::sendRetriesPrepares]; the pauses between rounds are not modelled. *)
Fixpoint sendRetriesPrepares (fuel : nat) (keyHash pid : Z) (key expectedValue : SimpleString.t)
    (nextTimestamp : LamportClock.t) : M (Z + LamportClock.t * LamportClock.t) :=
  match fuel with
  | O => λ _, NoFuel
  | S fuel =>
      storedInDb ← on_store pid (Map.get key);
      match storedInDb with
      | None => _ ← set_round keyHash FAILED; mret (inl ErrorCode.CAS_FAILED)
      | Some e =>
          if decide (Avl.e_type e ≠ Avl.DATA) then mret (inl ErrorCode.INVALID_TYPE)
          else
            d ← toData pid e;
            same ← lift (SimpleString.eqb d.1 expectedValue);
            if negb same then _ ← set_round keyHash FAILED; mret (inl ErrorCode.CAS_FAILED)
            else
              let nextTimestamp := LamportClock.mk (u64 (LamportClock.counter nextTimestamp + 1))
                                     (LamportClock.nodeId nextTimestamp) in
              responses ← sendPrepare keyHash pid key d.2 nextTimestamp;
              quorum ← checkIfQuorumAndAllResponsesSuccess responses keyHash;
              if (quorum : bool) then mret (inr (d.2, nextTimestamp))
              else sendRetriesPrepares fuel keyHash pid key expectedValue nextTimestamp
      end
  end.

(** [CasOperator::operate]. *)
Definition cas_operate operation options : M Response.t :=
  let pid := OperationOptions.partitionId options in
  _ ← store_exists pid;
  key ← arg operation 0;
  expectedValue ← arg operation 1;
  newValue ← arg operation 2;
  keyHash ← lift (Map.calculateHash key);
  _ ← on_rounds (modify (OnGoingPaxosRounds.getProposerByKeyHash keyHash WAITING_FOR_PROMISE));
  now ← reads (λ n, Ret (clock n));
  resultPrepare ← sendRetriesPrepares loop_fuel keyHash pid key expectedValue now;
  match resultPrepare with
  | inl code => mret (Response.error code)
  | inr (prevTimestamp, nextTimestamp) =>
      responses ← sendAccept keyHash pid key newValue prevTimestamp nextTimestamp;
      quorum ← checkIfQuorumAndAllResponsesSuccess responses keyHash;
      if negb quorum then _ ← set_round keyHash FAILED; mret (Response.error ErrorCode.CAS_FAILED)
      else
        saved ← on_store pid (Map.putData key newValue nextTimestamp LamportClock.SET_MAX true);
        match saved with
        | Some _ =>
            _ ← set_round keyHash COMITTED;
            _ ← on_log (OperationLog.add (Z.to_nat pid) (cas_log_entry key newValue nextTimestamp));
            mret (Response.success zero_clock)
        | None => _ ← set_round keyHash FAILED; mret (Response.error ErrorCode.CAS_FAILED)
        end
  end.

(** ** Log transfers *)

Definition data_path : M string :=
  reads (λ n, Configuration.get (Cluster.configuration (cluster n)) ConfigurationKeys.DATA_PATH).

Definition on_syncs (f : OnGoingSyncOplogsStore.t → OnGoingSyncOplogsStore.t) : M () :=
  modify (λ n, set_syncs (f (onGoingSyncOplogs n)) n).

(** [SyncOplogOperator::operate]. *)
Definition syncOplog_operate operation options : M Response.t :=
  lastTimestampUnsync ← double_arg operation 0;
  nodeOplogIdToSync ← number_arg operation 4 2;
  let syncId := OperationOptions.requestNumber options in
  base ← data_path;
  found ← reads (λ n, OperationLog.getAfterTimestamp base loop_fuel lastTimestampUnsync
                        (mk_options nodeOplogIdToSync true) (operationLog n));
  segmentIterator ← lift (OperationLog.as_oplogIterator found);
  _ ← on_syncs (OnGoingSyncOplogsStore.registerSyncOplogIterator syncId segmentIterator);
  respond (ResponseBuilder.success (ResponseBuilder.requestNumber (u32 syncId)
    (ResponseBuilder.value (SimpleString.fromNumber 8 (OplogIterator.totalSize segmentIterator)) ResponseBuilder.builder))).

(** The SYNC_OPLOG [NextSegmentOplogOperator::getOplogSegmentIterator] executes when the transfer is unknown. *)
Definition restart_operation (lastTimestampUnsync nodeOplogIdToSync : Z) : OperationBody.t :=
  RequestBuilder.buildOperationBody
    (RequestBuilder.args [SimpleString.fromNumber 4 (u32 (Z.shiftr lastTimestampUnsync 32));
                          SimpleString.fromNumber 4 (u32 (Z.land lastTimestampUnsync 0xFFFFFFFF));
                          SimpleString.fromNumber 4 nodeOplogIdToSync]
      (RequestBuilder.operatorNumber OperatorNumbers.SYNC_OPLOG RequestBuilder.builder)).

(** [NextSegmentOplogOperator::getOplogSegmentIterator]. *)
Definition getOplogSegmentIterator operation options : M OplogIterator.t :=
  let id := OperationOptions.requestNumber options in
  known ← reads (λ n, Ret (OnGoingSyncOplogsStore.getSenderIteratorById id (onGoingSyncOplogs n)));
  match known with
  | Some i => mret i
  | None =>
      lastTimestampUnsync ← double_arg operation 0;
      nodeOplogIdToSync ← number_arg operation 4 2;
      _ ← execute (restart_operation lastTimestampUnsync nodeOplogIdToSync) options;
      reads (λ n, of_option bad_optional_access (OnGoingSyncOplogsStore.getSenderIteratorById id (onGoingSyncOplogs n)))
  end.

(** [NextSegmentOplogOperator::getNextOplogSegmentOrTryFix]: the bytes, their size and whether
    the segment could be read or fixed, with the iterator moved on.  The index the repair is
    written through is a dependency nobody sets. *)
Definition getNextOplogSegmentOrTryFix (i : OplogIterator.t) : M (OplogIterator.t * (bytes * Z * bool)) :=
  base ← data_path;
  r ← reads (λ n, OplogIterator.next (OperationLog.fetch base (operationLog n) i) i);
  let i := r.1 in
  match r.2 with
  | Some b => size ← lift (OplogIterator.getLastUncompressedSize i); mret (i, (b, size, true))
  | None =>
      corruptedDescriptor ← lift (OplogIterator.getLastDescriptor i);
      fixOplogResponse ← on_cluster (Cluster.fixOplogSegment (OplogIterator.oplogId i)
        (OplogIndexSegmentDescriptor.min corruptedDescriptor) (OplogIndexSegmentDescriptor.max corruptedDescriptor));
      match fixOplogResponse with
      | None => mret (i, ([], 0, false))
      | Some response =>
          if negb (Response.isSuccessful response) then mret (i, ([], 0, false))
          else lift Undef
      end
  end.

(** [NextSegmentOplogOperator::operate]. *)
Definition nextSegmentOplog_operate operation options : M Response.t :=
  oplogSenderIterator ← getOplogSegmentIterator operation options;
  let syncId := OperationOptions.requestNumber options in
  if negb (OplogIterator.hasNext oplogSenderIterator) then
    _ ← on_syncs (OnGoingSyncOplogsStore.removeBySyncId syncId);
    mret (Response.error ErrorCode.SYNC_OP_LOG_EOF)
  else
    _ ← on_syncs (OnGoingSyncOplogsStore.markSegmentAsSent syncId);
    r ← getNextOplogSegmentOrTryFix oplogSenderIterator;
    let '(i, (compressedOplog, uncompressSize, success)) := r in
    _ ← on_syncs (OnGoingSyncOplogsStore.put_iterator syncId i);
    timestamp ← lift (OplogIterator.getLastTimestampOfLastNext i);
    respond (ResponseBuilder.values [SimpleString.fromNumber 4 uncompressSize; SimpleString.fromVector compressedOplog]
      (ResponseBuilder.requestNumber (u32 syncId)
        (ResponseBuilder.isSuccessful success ErrorCode.UNFIXABLE_CORRUPTED_OPLOG_SEGMENT
          (ResponseBuilder.timestampCounter timestamp ResponseBuilder.builder)))).

(** [FixOplogSegmentOperator::oplogIteratorToBytes]; a segment is inserted before the earlier
    ones.  Every round moves the iterator on, so one more than its segments is enough fuel. *)
Fixpoint oplogIteratorToBytes (fuel : nat) (base : string) (i : OplogIterator.t) (result : bytes) (uncompressedSize : Z) :
    M (bytes * Z * bool) :=
  match fuel with
  | O => λ _, NoFuel
  | S fuel =>
      if OplogIterator.hasNext i then
        size ← lift (OplogIterator.getNextUncompressedSize i);
        let uncompressedSize := u32 (uncompressedSize + size) in
        r ← reads (λ n, OplogIterator.next (OperationLog.fetch base (operationLog n) i) i);
        match r.2 with
        | None => mret (result, uncompressedSize, false)
        | Some b => oplogIteratorToBytes fuel base r.1 (b ++ result) uncompressedSize
        end
      else mret (result, uncompressedSize, true)
  end.

(** [FixOplogSegmentOperator::operate]. *)
Definition fixOplogSegment_operate operation options : M Response.t :=
  oplogId ← number_arg operation 4 0;
  minTimestamp ← double_arg operation 1;
  maxTimestamp ← double_arg operation 3;
  base ← data_path;
  found ← reads (λ n, OperationLog.getBetweenTimestamps base loop_fuel minTimestamp maxTimestamp
                        (mk_options oplogId true) (operationLog n));
  i ← lift (OperationLog.as_oplogIterator found);
  r ← oplogIteratorToBytes (2 + length (OplogIterator.descriptors i)) base i [] 0;
  let '(bytesToReturn, uncompressedSize, successNotCorrupted) := r in
  respond (ResponseBuilder.values [SimpleString.fromNumber 4 uncompressedSize; SimpleString.fromVector bytesToReturn]
    (ResponseBuilder.isSuccessful successNotCorrupted ErrorCode.UNFIXABLE_CORRUPTED_OPLOG_SEGMENT ResponseBuilder.builder)).

(** [MovePartitionOplogOperator::clearOperationLog]. *)
Definition clearOperationLog (operationLogId : Z) : M () :=
  if 0 <? operationLogId then
    base ← data_path;
    _ ← on_log (OperationLog.clear base (Z.to_nat operationLogId));
    modify (λ n, set_stores (MemDbStores.removeByPartitionId (stores n) operationLogId) n)
  else mret ().

(** [dependencies.operatorsDispatcher]. *)
Fixpoint executeAll (operations : list OperationBody.t) options : M () :=
  match operations with
  | [] => mret ()
  | operation :: operations => _ ← execute operation options; executeAll operations options
  end.

(** [MovePartitionOplogOperator::operate]. *)
Definition moveOplog_operate operation options : M Response.t :=
  let applyNewOplog := OperationBody.flag1 operation in
  let clearOldOplog := OperationBody.flag2 operation in
  newOplogId ← number_arg operation 4 0;
  oldOplogId ← number_arg operation 4 1;
  partitions ← reads (λ n, deref (Cluster.getPartitionObject (cluster n)));
  if Partitions.getNodesPerPartition partitions <=? newOplogId then
    _ ← clearOperationLog oldOplogId; mret (Response.success zero_clock)
  else
    raw ← lift (OperationBody.getArgOr operation 2 (SimpleString.fromVector []));
    oplogRaw ← lift (SimpleString.toVector raw);
    oplog ← lift (OperationLogCodec.deserializeAll oplogRaw);
    has ← (if applyNewOplog then mret false
           else reads (λ n, OperationLog.hasOplogFile (Z.to_nat newOplogId) (operationLog n)));
    _ ← (if applyNewOplog || negb has
         then executeAll oplog (OperationOptions.mk true true false false false LamportClock.NONE newOplogId 0)
         else mret ());
    _ ← (if clearOldOplog then clearOperationLog oldOplogId else mret ());
    _ ← on_log (OperationLog.addAll (Z.to_nat newOplogId) oplog);
    _ ← modify (λ n, set_cluster (Cluster.setRunning (cluster n)) (network n) n);
    mret (Response.success zero_clock).

(** ** Cluster membership *)

(** The nodes of the cluster as [GetClusterConfigOperator::getNodesToSendInResponse] lists them. *)
Definition getNodesToSendInResponse : M (list (Z * bytes)) :=
  nodes ← reads (λ n, deref (Cluster.clusterNodes (cluster n)));
  id ← getNodeId;
  conf ← reads (λ n, Ret (Cluster.configuration (cluster n)));
  address ← lift (Configuration.get conf ConfigurationKeys.ADDRESS);
  port ← lift (Configuration.get conf ConfigurationKeys.SERVER_PORT);
  mret (((λ id, (id, bytes_of_string (default EmptyString (ClusterNodes.allNodesById nodes !! id))))
           <$> ClusterNodes.getAllNodes nodes)
        ++ [(id, bytes_of_string (address +:+ ":" +:+ port))]).

(** [GetClusterConfigOperator::operate]. *)
Definition getClusterConfig_operate operation options : M Response.t :=
  usingPartitions ← configured ConfigurationKeys.USE_PARTITIONS;
  nodesPerPartition ← reads (λ n, Cluster.getNodesPerPartition (cluster n));
  nodes ← getNodesToSendInResponse;
  ringEntries ← (if (usingPartitions : bool)
                 then reads (λ n, let! p := deref (Cluster.partitions (cluster n)) in Partitions.getAll p)
                 else mret []);
  maxPartitionSize ← reads (λ n, Cluster.getMaxPartitionSize (cluster n));
  serialized ← lift (GetClusterConfigResponse.serialize
    (GetClusterConfigResponse.mk nodesPerPartition maxPartitionSize nodes ringEntries));
  respond (ResponseBuilder.value (SimpleString.fromVector serialized) (ResponseBuilder.success ResponseBuilder.builder)).

(** [GetNodeDataOperator::nodeToSimpleString]. *)
Definition nodeToSimpleString (nodeId : Z) (address : bytes) : outcome SimpleString.t :=
  SimpleString.fromSimpleStrings [SimpleString.fromNumber 2 nodeId;
    SimpleString.fromNumber 4 (u32 (Z.of_nat (length address))); SimpleString.fromString address].

(** [GetNodeDataOperator::operate]; the node's data are built before the test for a node, so
    an unknown one throws. *)
Definition getNodeData_operate operation options : M Response.t :=
  nodeId ← number_arg operation 2 0;
  nodeOptional ← reads (λ n, let! nodes := deref (Cluster.clusterNodes (cluster n)) in
                             ClusterNodes.getByNodeId nodeId nodes);
  address ← lift (of_option bad_optional_access nodeOptional);
  value ← lift (nodeToSimpleString nodeId (bytes_of_string address));
  respond (ResponseBuilder.isSuccessful (bool_decide (is_Some nodeOptional)) ErrorCode.NODE_NOT_FOUND
    (ResponseBuilder.valueIfSuccessful (bool_decide (is_Some nodeOptional)) value ResponseBuilder.builder)).

(** [JoinClusterAnnounceOperator::operate]. *)
Definition joinClusterAnnounce_operate operation options : M Response.t :=
  a ← arg operation 0;
  address ← lift (SimpleString.toString a);
  _ ← reads (λ n, Configuration.getUint 64 (Cluster.configuration (cluster n)) ConfigurationKeys.NODE_REQUEST_TIMEOUT_MS);
  _ ← newNodeInClusterHandler (OperationBody.nodeId operation, address);
  mret (Response.success zero_clock).

(** [LeaveClusterAnnounceOperator::operate]. *)
Definition leaveClusterAnnounce_operate operation options : M Response.t :=
  let id := OperationBody.nodeId operation in
  nodes ← reads (λ n, deref (Cluster.clusterNodes (cluster n)));
  _ ← (if ClusterNodes.existsByNodeId id nodes then
         found ← lift (ClusterNodes.getByNodeId id nodes);
         address ← lift (of_option bad_optional_access found);
         deletedNodeInClusterHandler (id, bytes_of_string address)
       else mret ());
  mret (Response.success zero_clock).

(** [DoLeaveClusterOperator::operate] and the task it submits. *)
Definition doLeaveCluster_operate operation options : M Response.t :=
  _ ← submit leave_cluster; mret (Response.success zero_clock).
Definition run_leave_cluster : M () :=
  _ ← on_cluster Cluster.announceLeave;
  id ← getNodeId;
  address ← reads (λ n, Configuration.get (Cluster.configuration (cluster n)) ConfigurationKeys.ADDRESS);
  deletedNodeInClusterHandler (id, bytes_of_string address).

(** [Operator::operate], by the operator's class. *)
Definition operate (op : Operator) : OperationBody.t → OperationOptions.t → M Response.t :=
  match op with
  | GetOperator => get_operate
  | SetOperator => set_operate
  | DeleteOperator => delete_operate
  | ContainsOperator => contains_operate
  | UpdateCounterOperator => updateCounter_operate
  | ReplicateCounterOperator => replicateCounter_operate
  | HealthCheckOperator => healthCheck_operate
  | SyncOplogOperator => syncOplog_operate
  | MovePartitionOplogOperator => moveOplog_operate
  | NextSegmentOplogOperator => nextSegmentOplog_operate
  | FixOplogSegmentOperator => fixOplogSegment_operate
  | CasOperator => cas_operate
  | PrepareCasOperator => prepareCas_operate
  | AcceptCasOperator => acceptCas_operate
  | GetClusterConfigOperator => getClusterConfig_operate
  | JoinClusterAnnounceOperator => joinClusterAnnounce_operate
  | LeaveClusterAnnounceOperator => leaveClusterAnnounce_operate
  | DoLeaveClusterOperator => doLeaveCluster_operate
  | GetNodeDataOperator => getNodeData_operate
  end.

End operators.
End Operators.
