(* ===== verification/Dispatcher.v ===== *)
(** * The operator dispatcher

    Models [operators/OperatorDispatcher.cpp] and [operators/DelayedOperationsBuffer.cpp]: the
    guards a request passes, the options it runs with, logging and broadcasting a write, and
    the requests a node keeps while it boots.  The dispatcher is what the server of [Server]
    executes requests with. *)

From S2P Require Import Prelude.
From S2P Require Import Utils.
From S2P Require Import Clock.
From S2P Require Import Counters.
From S2P Require Import Avl.
From S2P Require Import AvlTrees.
From S2P Require Import AvlOps.
From S2P Require Import MapStore.
From S2P Require Import Messages.
From S2P Require Import Codec.
From S2P Require Import Config.
From S2P Require Import Server.
From S2P Require Import Ring.
From S2P Require Import RingProofs.
From S2P Require Import Partitions.
From S2P Require Import Files.
From S2P Require Import Segments.
From S2P Require Import Oplog.
From S2P Require Import Cluster.
From S2P Require Import ClusterFacade.
From S2P Require Import OperatorTypes.
From S2P Require Import Operators.

(** ** [DelayedOperationsBuffer] *)

Module DelayedOperationsBuffer.
Section buffer.
Context `{Platform} {W : Type}.

(** [DelayedOperationsBuffer::add]. *)
Definition add (request : Request.t) : stM (node W) () :=
  λ n, let! (s, _) := BackedDiskRequestBuffer.add (delayed n).1 request (delayed n).2 in
       Ret (set_delayed ((delayed n).1, s) n, ()).

(** [hasNext] and [next] of [DelayedOperationsBuffer::iterator]. *)
Definition hasNext (n : node W) : bool := BackedDiskRequestBuffer.hasNext (delayed n).1 (delayed n).2.
Definition next : stM (node W) Request.t :=
  λ n, let! (s, r) := BackedDiskRequestBuffer.next (delayed n).1 (delayed n).2 in
       Ret (set_delayed ((delayed n).1, s) n, r).

End buffer.
End DelayedOperationsBuffer.

(** ** [OperatorDispatcher] *)

Module OperatorDispatcher.

(** [OperatorDispatcher::isAuthorizedToExecute]. *)
Definition isAuthorizedToExecute (op : Operator) (authenticationOfUser : AuthenticationType) : bool :=
  existsb (λ a, bool_decide (a = authenticationOfUser)) (authorizedToExecute (desc op)).

Section dispatcher.
Context `{Platform} `{Zlib} {Env : Environment} {Wt : Waiting} {W : Type} {N : Network W} {CH : ChangeHandlers W}.

Abbreviation M := (stM (node W)).
Implicit Types (operation : OperationBody.t) (options : OperationOptions.t) (request : Request.t).

Definition isInReplicationMode : M bool := configured ConfigurationKeys.USE_REPLICATION.
Definition isInPartitionMode : M bool := configured ConfigurationKeys.USE_PARTITIONS.

(** Short-circuiting [&&] and [||]. *)
Definition and_then (a b : M bool) : M bool := x ← a; if (x : bool) then b else mret false.
Definition or_else (a b : M bool) : M bool := x ← a; if (x : bool) then mret true else b.

(** [OperatorDispatcher::canAcceptRequest] and [OperatorDispatcher::canExecuteRequest]. *)
Definition canAcceptRequest : M bool :=
  replication ← isInReplicationMode;
  if negb replication then mret true
  else reads (λ n, Ret (NodeStates.canAcceptRequest (Cluster.getNodeState (cluster n)))).
Definition canExecuteRequest : M bool :=
  replication ← isInReplicationMode;
  if negb replication then mret true
  else reads (λ n, Ret (NodeStates.cantExecuteRequest (Cluster.getNodeState (cluster n)))).

(** [OperatorDispatcher::canHoldKey]. *)
Definition canHoldKey (key : SimpleString.t) : M bool :=
  reads (λ n, let! p := deref (Cluster.getPartitionObject (cluster n)) in Partitions.canHoldKey MD5 p key).

(** [OperatorDispatcher::getPartitionIdByKey]; an [int]. *)
Definition getPartitionIdByKey (key : SimpleString.t) : M Z :=
  usePartitions ← isInPartitionMode;
  if (usePartitions : bool)
  then p ← reads (λ n, Cluster.getPartitionIdByKey (cluster n) key); mret (i32 p)
  else mret 0.

Definition set_timestamp (t : Z) operation : OperationBody.t :=
  OperationBody.mk (OperationBody.args operation) t (OperationBody.nodeId operation)
    (OperationBody.operatorNumber operation) (OperationBody.flag1 operation) (OperationBody.flag2 operation).

(** What [OperatorDispatcher::executeOperation] does once the operator has run. *)
Definition after_operate (op : Operator) operation options (result : Response.t) : M Response.t :=
  canBroadcast ←
    (if hasProperty op BROADCAST
     then replication ← isInReplicationMode;
          mret ((replication : bool) && Response.isSuccessful result
                && negb (OperationOptions.dontBroadcastToCluster options))
     else mret false);
  let canBePersisted := hasProperty op PERSISTENCE && Response.isSuccessful result
                        && negb (OperationOptions.dontSaveInOperationLog options) in
  let operation :=
    if OperationOptions.fromClient options && (canBroadcast || canBePersisted)
    then set_timestamp (LamportClock.counter (Response.timestamp result)) operation else operation in
  _ ← (if canBePersisted
       then on_log (OperationLog.add (Z.to_nat (OperationOptions.partitionId options)) operation)
       else mret ());
  _ ← (if (canBroadcast : bool) then
         key ← lift (OperationBody.getArg operation 0);
         pid ← getPartitionIdByKey key;
         _ ← on_cluster (Cluster.broadcastAndWait operation (Z.to_nat pid) true);
         mret ()
       else mret ());
  mret result.

(** [OperatorDispatcher::executeOperation]; [fuel] bounds operators executed by operators. *)
Fixpoint executeOperation (fuel : nat) (op : Operator) operation options : M Response.t :=
  match fuel with
  | O => λ _, NoFuel
  | S fuel =>
      result ← Operators.operate (λ operation options,
        op ← lift (deref (OperatorRegistry.get (OperationBody.operatorNumber operation)));
        executeOperation fuel op operation options) op operation options;
      after_operate op operation options result
  end.

(** The options of a request. *)
Definition options_of (op : Operator) request : OperationOptions.t :=
  let writeDbRequestFromNode := bool_decide (type (desc op) = DB_STORE_WRITE)
                                && bool_decide (Request.authenticationType request = NODE) in
  OperationOptions.mk writeDbRequestFromNode false false false false
    (if writeDbRequestFromNode then LamportClock.SET_MAX else LamportClock.TICK) 0 (Request.requestNumber request).

(** Executing a request that passed the guards. *)
Definition run_request (fuel : nat) (op : Operator) request : M Response.t :=
  let options := options_of op request in
  let operation := Request.operation request in
  let ty := type (desc op) in
  options ← (if decide (ty = DB_STORE_WRITE ∨ ty = DB_STORE_READ ∨ ty = DB_STORE_CONDITIONAL_WRITE) then
               key ← lift (OperationBody.getArg operation 0);
               pid ← reads (λ n, Cluster.getPartitionIdByKey (cluster n) key);
               mret (OperationOptions.with_partition pid options)
             else mret options);
  _ ← (if OperationOptions.fromClient options then mret ()
       else
         replication ← isInReplicationMode;
         if (replication : bool)
         then on_cluster (Cluster.checkHintedHandoff (OperationBody.nodeId operation)) else mret ());
  executeOperation fuel op operation options.

(** [OperatorDispatcher::dispatch_no_applyDelayedOperationsBuffer]. *)
Definition dispatch_no_applyDelayedOperationsBuffer (fuel : nat) request : M Response.t :=
  match OperatorRegistry.get (OperationBody.operatorNumber (Request.operation request)) with
  | None => mret (Response.error ErrorCode.UNKNOWN_OPERATOR)
  | Some op =>
      if negb (isAuthorizedToExecute op (Request.authenticationType request))
      then mret (Response.error ErrorCode.NOT_AUTHORIZED)
      else
        let writeDbRequest := bool_decide (type (desc op) = DB_STORE_WRITE) in
        let readDbRequest := bool_decide (type (desc op) = DB_STORE_READ) in
        invalidState ← and_then isInReplicationMode
          (or_else (accept ← canAcceptRequest; mret (negb accept))
             (if readDbRequest then execute ← canExecuteRequest; mret (negb execute) else mret false));
        if (invalidState : bool) then mret (Response.error ErrorCode.INVALID_NODE_STATE)
        else
          invalidPartition ← and_then isInReplicationMode (and_then isInPartitionMode
            (if writeDbRequest then
               key ← lift (OperationBody.getArg (Request.operation request) 0);
               holds ← canHoldKey key; mret (negb holds)
             else mret false));
          if (invalidPartition : bool) then mret (Response.error ErrorCode.INVALID_PARTITION)
          else
            delay ← and_then isInReplicationMode
              (if writeDbRequest
               then and_then canAcceptRequest (execute ← canExecuteRequest; mret (negb execute)) else mret false);
            if (delay : bool)
            then _ ← DelayedOperationsBuffer.add request; mret (Response.success zero_clock)
            else run_request fuel op request
  end.

(** [OperatorDispatcher::applyDelayedOperationsBuffer]; [k] bounds the requests kept. *)
Fixpoint applyDelayedOperationsBuffer (k fuel : nat) : M () :=
  match k with
  | O => λ _, NoFuel
  | S k =>
      more ← reads (λ n, Ret (DelayedOperationsBuffer.hasNext n));
      if (more : bool) then
        operation ← DelayedOperationsBuffer.next;
        _ ← dispatch_no_applyDelayedOperationsBuffer fuel operation;
        applyDelayedOperationsBuffer k fuel
      else mret ()
  end.

(** [OperatorDispatcher::dispatch]. *)
Definition dispatch (k fuel : nat) request : M Response.t :=
  execute ← canExecuteRequest;
  _ ← (if (execute : bool) then applyDelayedOperationsBuffer k fuel else mret ());
  dispatch_no_applyDelayedOperationsBuffer fuel request.

(** [OperatorDispatcher::executeOperations]. *)
Fixpoint executeOperations (fuel : nat) (op : Operator) (operations : list OperationBody.t) options : M () :=
  match operations with
  | [] => mret ()
  | operation :: operations =>
      _ ← executeOperation fuel op operation options; executeOperations fuel op operations options
  end.

End dispatcher.
End OperatorDispatcher.

(** The dispatcher the server of [Server] runs requests with. *)
#[global] Instance node_dispatcher `{Platform} `{Zlib} {Env : Environment} {Wt : Waiting} {W : Type} {N : Network W}
    {CH : ChangeHandlers W} : Dispatcher (node W) :=
  OperatorDispatcher.dispatch loop_fuel loop_fuel.

(** ** The registry and the descriptors agree *)

(** What the code relies on of a registered operator: its descriptor has its number, which
    fits the six bits of the wire header; somebody may execute it; and what is broadcast is a
    write the other nodes may execute and that is logged. *)
Definition well_registered (n : Z) (op : Operator) : Prop :=
  number (desc op) = n ∧ (0 ≤ n < 64) ∧ authorizedToExecute (desc op) ≠ [] ∧
  (BROADCAST ∈ properties (desc op) →
   type (desc op) = DB_STORE_WRITE ∧ NODE ∈ authorizedToExecute (desc op) ∧ PERSISTENCE ∈ properties (desc op)) ∧
  (type (desc op) = DB_STORE_READ → properties (desc op) = [] ∧ NODE ∉ authorizedToExecute (desc op)).

#[global] Instance well_registered_dec n op : Decision (well_registered n op).
Proof. unfold well_registered. apply _. Defined.

(** C18: The registry is well-typed: an operator is registered under a number exactly when its
    descriptor carries that number, and every registered operator's number fits the six bits
    of the wire header, somebody is authorised to execute it, what is broadcast is a logged
    write that nodes may execute, and what reads is neither logged, broadcast nor open to
    nodes. *)
Theorem registry_well_typed n op :
  (OperatorRegistry.get n = Some op ↔ number (desc op) = n) ∧
  (OperatorRegistry.get n = Some op → well_registered n op).
Proof.
  assert (map_Forall well_registered OperatorRegistry.operators) as HF
    by (apply (bool_decide_unpack _); vm_compute; done).
  split; [split|].
  - intros Hg. by destruct (HF n op Hg).
  - intros <-. by destruct op.
  - intros Hg. exact (HF n op Hg).
Qed.

Lemma registry_well_typed_witness : well_registered 1 SetOperator.
Proof. apply (registry_well_typed 1 SetOperator). reflexivity. Defined.

(** ** The guards of a request *)

Section guards.
Context `{Platform} `{Zlib} {Env : Environment} {Wt : Waiting} {W : Type} {N : Network W} {CH : ChangeHandlers W}.
Implicit Types (n : node W) (request : Request.t).

(** The modes a node is configured for. *)
Record modes (n : node W) (replicated partitioned : bool) : Prop := {
  m_replicated : Configuration.getBoolean (Cluster.configuration (cluster n)) ConfigurationKeys.USE_REPLICATION
                 = Ret replicated;
  m_partitioned : Configuration.getBoolean (Cluster.configuration (cluster n)) ConfigurationKeys.USE_PARTITIONS
                  = Ret partitioned;
}.

(** Why a request is refused: the first of four checks that fails. *)
Definition refusal (replicated partitioned : bool) (state : NodeState) (holds : bool) request : option Z :=
  match OperatorRegistry.get (OperationBody.operatorNumber (Request.operation request)) with
  | None => Some ErrorCode.UNKNOWN_OPERATOR
  | Some op =>
      if bool_decide (Request.authenticationType request ∉ authorizedToExecute (desc op))
      then Some ErrorCode.NOT_AUTHORIZED
      else if replicated && (bool_decide (state = SHUTDOWN)
                             || bool_decide (type (desc op) = DB_STORE_READ) && bool_decide (state ≠ RUNNING))
      then Some ErrorCode.INVALID_NODE_STATE
      else if replicated && partitioned && bool_decide (type (desc op) = DB_STORE_WRITE) && negb holds
      then Some ErrorCode.INVALID_PARTITION
      else None
  end.

(** A write that arrives while the node boots. *)
Definition delays (replicated : bool) (state : NodeState) (op : Operator) : bool :=
  replicated && bool_decide (type (desc op) = DB_STORE_WRITE) && bool_decide (state = BOOTING).

Lemma authorized_spec op a :
  OperatorDispatcher.isAuthorizedToExecute op a = negb (bool_decide (a ∉ authorizedToExecute (desc op))).
Proof.
  unfold OperatorDispatcher.isAuthorizedToExecute.
  induction (authorizedToExecute (desc op)) as [|b l IH]; cbn [existsb].
  - rewrite bool_decide_eq_true_2; [done|set_solver].
  - rewrite IH. destruct (decide (b = a)) as [->|Hne].
    + rewrite (bool_decide_eq_true_2 (a = a)) by done. rewrite (bool_decide_eq_false_2 (a ∉ a :: l)); [done|set_solver].
    + rewrite (bool_decide_eq_false_2 (b = a)) by done. cbn [orb]. f_equal. apply bool_decide_ext. set_solver.
Qed.

Lemma configured_ok n key b :
  Configuration.getBoolean (Cluster.configuration (cluster n)) key = Ret b → configured key n = Ret (n, b).
Proof. intros E. unfold configured, reads. by rewrite E. Qed.

Lemma canAccept_ok n r p :
  modes n r p → OperatorDispatcher.canAcceptRequest n
    = Ret (n, negb (r && bool_decide (Cluster.selfState (cluster n) = SHUTDOWN))).
Proof.
  intros Mo. unfold OperatorDispatcher.canAcceptRequest, OperatorDispatcher.isInReplicationMode.
  erewrite stM_bind_Ret by (apply configured_ok, Mo). cbn beta. destruct r; [|done].
  unfold reads, NodeStates.canAcceptRequest, Cluster.getNodeState. cbn [negb obind]. by destruct (Cluster.selfState (cluster n)).
Qed.

Lemma canExecute_ok n r p :
  modes n r p → OperatorDispatcher.canExecuteRequest n
    = Ret (n, negb (r && bool_decide (Cluster.selfState (cluster n) ≠ RUNNING))).
Proof.
  intros Mo. unfold OperatorDispatcher.canExecuteRequest, OperatorDispatcher.isInReplicationMode.
  erewrite stM_bind_Ret by (apply configured_ok, Mo). cbn beta. destruct r; [|done].
  unfold reads, NodeStates.cantExecuteRequest, Cluster.getNodeState. cbn [negb obind]. by destruct (Cluster.selfState (cluster n)).
Qed.

Lemma and_then_ok (a b : stM (node W) bool) n x y :
  a n = Ret (n, x) → (x = true → b n = Ret (n, y)) → OperatorDispatcher.and_then a b n = Ret (n, x && y).
Proof.
  intros Ea Eb. unfold OperatorDispatcher.and_then. erewrite stM_bind_Ret by exact Ea. cbn beta.
  destruct x; [by apply Eb|done].
Qed.

Lemma or_else_ok (a b : stM (node W) bool) n x y :
  a n = Ret (n, x) → b n = Ret (n, y) → OperatorDispatcher.or_else a b n = Ret (n, x || y).
Proof.
  intros Ea Eb. unfold OperatorDispatcher.or_else. erewrite stM_bind_Ret by exact Ea. cbn beta.
  by destruct x.
Qed.

(** The partition check is made on a key the code can place. *)
Definition placed n (partitioned holds : bool) request : Prop :=
  partitioned = true → ∃ key p, OperationBody.getArg (Request.operation request) 0 = Ret key ∧
    Cluster.partitions (cluster n) = Some p ∧ Partitions.canHoldKey MD5 p key = Ret holds.

Lemma dispatch_guarded fuel n r p holds request :
  modes n r p → placed n p holds request →
  OperatorDispatcher.dispatch_no_applyDelayedOperationsBuffer fuel request n =
  match refusal r p (Cluster.selfState (cluster n)) holds request with
  | Some code => Ret (n, Response.error code)
  | None =>
      match OperatorRegistry.get (OperationBody.operatorNumber (Request.operation request)) with
      | Some op =>
          if delays r (Cluster.selfState (cluster n)) op
          then (_ ← DelayedOperationsBuffer.add request; mret (Response.success zero_clock)) n
          else OperatorDispatcher.run_request fuel op request n
      | None => Ret (n, Response.error ErrorCode.UNKNOWN_OPERATOR)
      end
  end.
Proof.
  intros Mo Hp. unfold OperatorDispatcher.dispatch_no_applyDelayedOperationsBuffer, refusal.
  destruct (OperatorRegistry.get _) as [op|]; [|done].
  rewrite authorized_spec, negb_involutive. destruct (bool_decide (_ ∉ _)); [done|].
  pose proof (configured_ok n _ _ (m_replicated _ _ _ Mo)) as Er.
  pose proof (configured_ok n _ _ (m_partitioned _ _ _ Mo)) as Ep.
  erewrite stM_bind_Ret.
  2:{ apply and_then_ok; [exact Er|]. intros ->. apply or_else_ok.
      - erewrite stM_bind_Ret by (by eapply canAccept_ok). cbn beta. rewrite negb_involutive. reflexivity.
      - instantiate (1 := bool_decide (type (desc op) = DB_STORE_READ)
                          && bool_decide (Cluster.selfState (cluster n) ≠ RUNNING)).
        destruct (bool_decide (type (desc op) = DB_STORE_READ)); [|done].
        erewrite stM_bind_Ret by (by eapply canExecute_ok). cbn beta. by rewrite negb_involutive. }
  cbn beta. destruct r; cbn [andb].
  2:{ erewrite stM_bind_Ret by (apply (and_then_ok _ _ n false true); [exact Er|done]). cbn beta iota delta [andb].
      erewrite stM_bind_Ret by (apply (and_then_ok _ _ n false true); [exact Er|done]). done. }
  destruct (bool_decide (_ = SHUTDOWN) || _) eqn:Es; [done|].
  apply orb_false_iff in Es as [Esd _].
  erewrite stM_bind_Ret.
  2:{ apply (and_then_ok _ _ n true (p && (bool_decide (type (desc op) = DB_STORE_WRITE) && negb holds))); [exact Er|].
      intros _. apply and_then_ok; [exact Ep|]. intros ->.
      destruct (bool_decide (type (desc op) = DB_STORE_WRITE)); [|done].
      destruct (Hp eq_refl) as (key & q & Ek & Eq & Eh).
      erewrite stM_bind_Ret by (unfold lift; rewrite Ek; reflexivity). cbn beta.
      erewrite stM_bind_Ret; [reflexivity|]. unfold OperatorDispatcher.canHoldKey, reads, Cluster.getPartitionObject.
      rewrite Eq. cbn [deref obind]. by rewrite Eh. }
  cbn beta. cbn [andb]. rewrite andb_assoc. destruct (p && _ && negb holds); [done|].
  unfold delays. cbn [andb]. erewrite stM_bind_Ret.
  2:{ apply (and_then_ok _ _ n true (bool_decide (type (desc op) = DB_STORE_WRITE)
                                    && bool_decide (Cluster.selfState (cluster n) ≠ RUNNING))); [exact Er|].
      intros _. destruct (bool_decide (type (desc op) = DB_STORE_WRITE)); [|done]. cbn [andb].
      erewrite (and_then_ok _ _ n true); [reflexivity| |].
      - erewrite canAccept_ok by done. by rewrite Esd.
      - intros _. erewrite stM_bind_Ret by (by eapply canExecute_ok). cbn beta. by rewrite negb_involutive. }
  cbn beta. cbn [andb]. by destruct (Cluster.selfState (cluster n)); destruct (bool_decide (_ = DB_STORE_WRITE)).
Qed.

(** What a request finds on the node: a node that can execute requests has first executed those
    it kept while it was booting. *)
Definition replayed (k fuel : nat) (replicated : bool) n n1 : Prop :=
  if replicated && bool_decide (Cluster.selfState (cluster n) ≠ RUNNING) then n1 = n
  else OperatorDispatcher.applyDelayedOperationsBuffer k fuel n = Ret (n1, ()).

Lemma nothing_to_replay k fuel r n : DelayedOperationsBuffer.hasNext n = false → replayed (S k) fuel r n n.
Proof.
  intros Hn. unfold replayed. destruct (_ && _); [done|]. cbn [OperatorDispatcher.applyDelayedOperationsBuffer].
  by erewrite stM_bind_Ret by (unfold reads; rewrite Hn; reflexivity).
Qed.

Lemma dispatch_replayed k fuel n n1 r p request :
  modes n r p → replayed k fuel r n n1 →
  OperatorDispatcher.dispatch k fuel request n
  = OperatorDispatcher.dispatch_no_applyDelayedOperationsBuffer fuel request n1.
Proof.
  intros Mo Hr. unfold OperatorDispatcher.dispatch. erewrite stM_bind_Ret by (by eapply canExecute_ok). cbn beta.
  erewrite stM_bind_Ret; [reflexivity|]. unfold replayed in Hr. destruct (r && _); cbn [negb]; [by subst|exact Hr].
Qed.

Lemma dispatch_no_delayed k fuel n r p request :
  modes n r p → DelayedOperationsBuffer.hasNext n = false →
  OperatorDispatcher.dispatch (S k) fuel request n
  = OperatorDispatcher.dispatch_no_applyDelayedOperationsBuffer fuel request n.
Proof. intros Mo Hn. eapply dispatch_replayed; [done|]. by apply nothing_to_replay. Qed.

(** The node with one more request kept on disk: its bytes after their number. *)
Definition kept n (b : bytes) : node W :=
  set_delayed ((delayed n).1, FileUtils.appendBytes (BackedDiskRequestBuffer.fullPath (delayed n).1)
    (be_bytes 4 (u32 (Z.of_nat (length b))) ++ b) (delayed n).2) n.

(** C11: What [OperatorDispatcher::dispatch] refuses, and how.  A node that can execute requests
    first executes those it kept while booting ([n1] is the node they leave; it is [n] when none
    is kept).  The request is then answered with the error of the first check that fails: its
    operator is unknown, its sender is not authorised, a replicated node is shut down or asked to
    read before it runs, or a write's key belongs to other partitions; a refused request leaves
    the node's whole state as it was.  A request no check refuses is executed by its operator,
    except for a write on a booting node, which is answered with success and whose bytes, after
    their number, are appended to the file of kept requests; nothing else changes.  The two modes
    are those configured, and a partitioned node can place the request's key. *)
Theorem dispatch_guards k fuel n n1 r p holds request :
  modes n r p → replayed k fuel r n n1 → modes n1 r p → placed n1 p holds request →
  let run := OperatorDispatcher.dispatch k fuel request n in
  let state := Cluster.selfState (cluster n1) in
  (∀ code, refusal r p state holds request = Some code → run = Ret (n1, Response.error code)) ∧
  (refusal r p state holds request = None →
   ∃ op, OperatorRegistry.get (OperationBody.operatorNumber (Request.operation request)) = Some op ∧
     Request.authenticationType request ∈ authorizedToExecute (desc op) ∧
     (delays r state op = false → run = OperatorDispatcher.run_request fuel op request n1) ∧
     (∀ b, delays r state op = true → RequestSerializer.serialize request = Ret b →
           run = Ret (kept n1 b, Response.success zero_clock))).
Proof.
  intros Mo Hn Mo1 Hp run state. unfold run. erewrite dispatch_replayed by done. erewrite dispatch_guarded by done.
  fold state. split; [by intros code ->|]. intros Hr. rewrite Hr. unfold refusal in Hr.
  destruct (OperatorRegistry.get _) as [op|]; [|done]. exists op. split; [done|].
  destruct (bool_decide (_ ∉ _)) eqn:Ea; [done|]. apply bool_decide_eq_false in Ea.
  split; [by apply dec_stable|]. split; [by intros ->|]. intros b -> Es.
  erewrite stM_bind_Ret; [reflexivity|]. unfold DelayedOperationsBuffer.add, BackedDiskRequestBuffer.add.
  rewrite Es. cbn [obind]. rewrite appendBeginningToBuffer_be. reflexivity.
Qed.

End guards.

(** ** Writing and reading on a node without replication *)

(** A configuration, environment and node to evaluate requests on. *)
Definition sample_env : Environment := {|
  MD5 := λ b, b; schedule := λ l, l; rand := λ _ _, 0; hinted := λ _, []; loop_fuel := 5 |}.
Definition sample_waiting : Waiting := λ c, [c].
Definition sample_handlers : ChangeHandlers () := {|
  newNodeInClusterHandler := λ _, mret (); deletedNodeInClusterHandler := λ _, mret () |}.

Definition sample_node (conf : Configuration.t) : node () :=
  mk_node {[0 := Map.make None 3]} (LamportClock.mk 0 1)
    (OperationLog.single (SingleOperationLog.mk (mk_fs ∅ ∅) 0 [] false false))
    (Cluster.make conf) (OnGoingSyncOplogsStore.make 1) OnGoingPaxosRounds.empty
    (BackedDiskRequestBuffer.mk "/d" "p" "/d/p", mk_fs {["/d/p"%string := []]} {["/d"%string]}) [] ().

Definition standalone_config : Configuration.t := Configuration.mk DefaultConfig_get (λ _, None).

Definition sample_user_request (number : Z) (args : list SimpleString.t) : Request.t :=
  Request.mk (AuthenticationBody.mk [] false false) (OperationBody.mk (Some args) 0 0 number false false) 0 USER.

Definition replicated_config : Configuration.t :=
  Configuration.mk (<[ConfigurationKeys.USE_REPLICATION := "true"%string]> DefaultConfig_get) (λ _, None).

(** Two requests are refused, and a write is kept by a booting node. *)
Lemma dispatch_guards_witness :
  let dispatch conf r := OperatorDispatcher.dispatch (H := masking_target) (H0 := plain_zlib) (Env := sample_env)
    (Wt := sample_waiting) (N := only_node_3) (CH := sample_handlers) 1 1 r (sample_node conf) in
  dispatch standalone_config (sample_user_request 40 []) = Ret (sample_node standalone_config, Response.error ErrorCode.UNKNOWN_OPERATOR) ∧
  dispatch standalone_config (sample_user_request 11 []) = Ret (sample_node standalone_config, Response.error ErrorCode.NOT_AUTHORIZED) ∧
  ∃ b, RequestSerializer.serialize (sample_user_request 1 []) = Ret b ∧
    dispatch replicated_config (sample_user_request 1 []) = Ret (kept (sample_node replicated_config) b, Response.success zero_clock).
Proof.
  pose proof (λ conf, dispatch_guards (H := masking_target) (H0 := plain_zlib) (Env := sample_env) (Wt := sample_waiting)
      (N := only_node_3) (CH := sample_handlers) 1 1 (sample_node conf) (sample_node conf)) as G.
  assert (modes (sample_node standalone_config) false false) as Mo by (split; reflexivity).
  assert (modes (sample_node replicated_config) true false) as Mr by (split; reflexivity).
  assert (∀ conf r, placed (Env := sample_env) (sample_node conf) false true r) as Hp by done.
  split; [|split].
  - by apply (G standalone_config false false true (sample_user_request 40 []) Mo).
  - by apply (G standalone_config false false true (sample_user_request 11 []) Mo).
  - destruct (G replicated_config true false true (sample_user_request 1 []) Mr) as [_ Hk]; [reflexivity|exact Mr|apply Hp|].
    destruct Hk as (op & Eop & _ & _ & Hk); [vm_compute; reflexivity|].
    destruct (RequestSerializer.serialize (sample_user_request 1 [])) as [b| | | |] eqn:Eb; [|by vm_compute in Eb..].
    exists b. split; [done|]. apply Hk; [|done]. cbn in Eop. injection Eop as <-. reflexivity.
Defined.

Section standalone.
Context `{Platform} `{Zlib} {Env : Environment} {Wt : Waiting} {W : Type} {N : Network W} {CH : ChangeHandlers W}.
Implicit Types (n : node W) (request : Request.t) (key value : SimpleString.t) (m : Map.t).

(** A node without replication that keeps no delayed request; its log is a single one. *)
Record standalone (n : node W) (id : Z) (o : SingleOperationLog.t) : Prop := {
  st_modes : modes n false false;
  st_id : Configuration.getUint 16 (Cluster.configuration (cluster n)) ConfigurationKeys.NODE_ID = Ret id;
  st_delayed : DelayedOperationsBuffer.hasNext n = false;
  st_log : operationLog n = OperationLog.single o;
}.

Lemma standalone_dispatch k fuel n id o request op :
  standalone n id o → OperatorRegistry.get (OperationBody.operatorNumber (Request.operation request)) = Some op →
  Request.authenticationType request ∈ authorizedToExecute (desc op) →
  OperatorDispatcher.dispatch (S k) fuel request n = OperatorDispatcher.run_request fuel op request n.
Proof.
  intros S Ho Ha. erewrite dispatch_no_delayed by (apply S). rewrite (dispatch_guarded _ _ false false true); [|apply S|done].
  unfold refusal. rewrite Ho. by rewrite bool_decide_eq_false_2 by set_solver.
Qed.

(** A client's request for a key's data runs on partition 0. *)
Lemma run_client fuel n id o request op key :
  standalone n id o → type (desc op) ≠ NODE_MAINTENANCE → Request.authenticationType request = USER →
  OperationBody.getArg (Request.operation request) 0 = Ret key →
  OperatorDispatcher.run_request fuel op request n =
  OperatorDispatcher.executeOperation fuel op (Request.operation request)
    (OperationOptions.mk false false false false false LamportClock.TICK 0 (Request.requestNumber request)) n.
Proof.
  intros S Ht Ha Hk. unfold OperatorDispatcher.run_request, OperatorDispatcher.options_of. rewrite Ha.
  rewrite decide_True by (destruct (type (desc op)); naive_solver).
  rewrite (bool_decide_eq_false_2 (USER = NODE)), andb_false_r by done.
  erewrite stM_bind_Ret.
  2:{ erewrite stM_bind_Ret by (unfold lift; rewrite Hk; reflexivity). cbn beta. erewrite stM_bind_Ret.
      2:{ unfold reads, Cluster.getPartitionIdByKey. rewrite (m_partitioned _ _ _ (st_modes _ _ _ S)). reflexivity. }
      reflexivity. }
  cbn beta. erewrite stM_bind_Ret; reflexivity.
Qed.

Lemma getNodeId_ok n id o : standalone n id o → Operators.getNodeId n = Ret (n, id).
Proof. intros S. unfold Operators.getNodeId, reads, Cluster.getNodeId. by rewrite (st_id _ _ _ S). Qed.

Lemma on_store_ok {A} n pid m (f : stM Map.t A) m' a :
  stores n !! pid = Some m → f (with_clock (LamportClock.counter (clock n)) m) = Ret (m', a) →
  on_store pid f n = Ret (set_store pid m' n, a).
Proof.
  intros Hm Ef. unfold on_store, MemDbStores.getByPartitionId. rewrite Hm. cbn [of_option obind]. by rewrite Ef.
Qed.

Lemma store_exists_ok n pid m : stores n !! pid = Some m → Operators.store_exists pid n = Ret (n, ()).
Proof. intros Hm. unfold Operators.store_exists, reads, MemDbStores.getByPartitionId. by rewrite Hm. Qed.

Lemma arg_ok n operation i a : OperationBody.getArg operation i = Ret a → Operators.arg operation i n = Ret (n, a).
Proof. intros E. unfold Operators.arg, lift. by rewrite E. Qed.

Lemma map_ok_with_clock c m ts : map_ok m ts → map_ok (with_clock c m) ts.
Proof.
  intros [P L T D]. split; [exact P|exact L| |exact D].
  intros i tr Hi. destruct (T i tr Hi) as [[] Hb]. split; [by split|exact Hb].
Qed.

(** [SetOperator::operate] for a client. *)
Lemma set_operate_ok execute n id o m ts operation options key value h :
  standalone n id o → stores n !! 0 = Some m → map_ok m ts → unlocked m → Map.calculateHash key = Ret h →
  (∀ key0 c, mview m ts h ≠ Some (key0, Avl.CounterAVLNode c)) →
  OperationBody.args operation = Some [key; value] →
  OperationOptions.checkTimestamps options = false →
  OperationOptions.updateClockStrategy options = LamportClock.TICK → OperationOptions.partitionId options = 0 →
  let now := u64 (Z.max (LamportClock.counter (clock n)) (OperationBody.timestamp operation) + 1) in
  ∃ m' ts', Operators.operate execute SetOperator operation options n
      = Ret (set_store 0 m' n, Response.mk true 0 (LamportClock.mk now 0) 0 (SimpleString.fromNumber 4 0)) ∧
    map_ok m' ts' ∧ unlocked m' ∧ Map.clock m' = Some now ∧
    (∀ h', h' ≠ h → mview m' ts' h' = mview m ts h') ∧
    ∀ key2, Map.calculateHash key2 = Ret h →
      ∃ e, Map.get key2 m' = Ret (m', Some e) ∧
        Map.datas m' !! Avl.e_data e = Some (Avl.DataAVLNode value (LamportClock.mk now id)).
Proof.
  intros S Hm O U Eh Hc Ha Eo1 Eo2 Eo3 now.
  set (ts0 := LamportClock.mk (OperationBody.timestamp operation) id).
  destruct (putData_cases (with_clock (LamportClock.counter (clock n)) m) ts key value h ts0 LamportClock.TICK false
    (LamportClock.counter (clock n))) as (m' & ts' & r & Ep & O' & U' & Hv & Hr); [by apply map_ok_with_clock|done..|].
  exists m', ts'. change (mview (with_clock _ m) ts h) with (mview m ts h) in Hr.
  cbn [clock_after with_clock Map.clock LamportClock.update LamportClock.tick written LamportClock.counter ts0
       LamportClock.nodeId] in Hr. fold now in Hr.
  assert (r = Some now ∧ Map.clock m' = Some now ∧ ∀ key2, Map.calculateHash key2 = Ret h →
    ∃ e, Map.get key2 m' = Ret (m', Some e) ∧
      Map.datas m' !! Avl.e_data e = Some (Avl.DataAVLNode value (LamportClock.mk now id))) as (-> & Ecl & Hget).
  { destruct (mview m ts h) as [[key0 [v tl|c]]|]; [|by destruct (Hc key0 c)|].
    - cbn [refused ignores negb andb] in Hr. destruct Hr as (-> & -> & Hg). split; [done|]. split; [done|].
      intros key2 E2. destruct (Hg key2 E2) as (e & ? & _ & ?). eauto.
    - destruct Hr as (-> & -> & Hg). split; [done|]. split; [done|].
      intros key2 E2. destruct (Hg key2 E2) as (e & ? & _ & ?). eauto. }
  split; [|exact (conj O' (conj U' (conj Ecl (conj Hv Hget))))].
  assert (∀ i a, [key; value] !! i = Some a → OperationBody.getArg operation i = Ret a) as Hargs.
  { intros i a Hi. unfold OperationBody.getArg, OperationBody.the_args. rewrite Ha. cbn [obind]. by apply at_throw_Some. }
  cbn [Operators.operate]. unfold Operators.set_operate. rewrite Eo3.
  erewrite stM_bind_Ret by (by eapply store_exists_ok). cbn beta.
  erewrite stM_bind_Ret by (apply arg_ok, (Hargs 0%nat key); done). cbn beta.
  erewrite stM_bind_Ret by (apply arg_ok, (Hargs 1%nat value); done). cbn beta.
  erewrite stM_bind_Ret.
  2:{ unfold Operators.getTimestamp, OperationOptions.fromClient. rewrite Eo1. cbn [negb].
      erewrite stM_bind_Ret by (by eapply getNodeId_ok). reflexivity. }
  cbn beta. erewrite stM_bind_Ret.
  2:{ eapply on_store_ok; [exact Hm|]. rewrite Eo1, Eo2. exact Ep. }
  reflexivity.
Qed.

Lemma set_store_same n pid m :
  stores n !! pid = Some m → Map.clock m = Some (LamportClock.counter (clock n)) → set_store pid m n = n.
Proof.
  intros Hm Hc. unfold set_store. rewrite Hc. simpl.
  rewrite (insert_id (stores n : gmap Z Map.t) pid m Hm).
  destruct n as [? []]; reflexivity.
Qed.

Lemma lookup_set_store n pid m : stores (set_store pid m n) !! pid = Some m.
Proof. exact (lookup_insert_eq (stores n : gmap Z Map.t) pid m). Qed.

Lemma with_clock_same c m : Map.clock m = Some c → with_clock c m = m.
Proof. intros Hc. unfold with_clock. rewrite <- Hc. by destruct m. Qed.

(** [GetOperator::operate] on a key that holds data. *)
Lemma get_operate_ok execute n m ts operation options key h e v t :
  stores n !! 0 = Some m → Map.clock m = Some (LamportClock.counter (clock n)) → map_ok m ts → unlocked m →
  OperationOptions.partitionId options = 0 → OperationBody.getArg operation 0 = Ret key →
  Map.calculateHash key = Ret h → Map.get key m = Ret (m, Some e) →
  Map.datas m !! Avl.e_data e = Some (Avl.DataAVLNode v t) →
  Operators.operate execute GetOperator operation options n = Ret (n, Response.mk true 0 t 0 v).
Proof.
  intros Hm Hc O U Eo Ea Eh Eg Hd.
  pose proof (map_get_typed m ts key h m e _ O U Eh Eg Hd) as Ety. cbn in Ety.
  assert (Operators.toData 0 e n = Ret (n, (v, t))) as Et.
  { unfold Operators.toData. rewrite (stM_bind_Ret _ _ n n (Avl.DataAVLNode v t)); [reflexivity|].
    unfold Operators.payload_of, reads, MemDbStores.getByPartitionId. rewrite Hm. cbn [of_option obind]. by rewrite Hd. }
  cbn [Operators.operate]. unfold Operators.get_operate. rewrite Eo.
  erewrite stM_bind_Ret by (by eapply store_exists_ok). cbn beta.
  erewrite stM_bind_Ret by (by apply arg_ok). cbn beta.
  erewrite stM_bind_Ret.
  2:{ eapply on_store_ok; [exact Hm|]. rewrite with_clock_same by done. exact Eg. }
  rewrite set_store_same by done. cbn beta. erewrite stM_bind_Ret.
  2:{ unfold Operators.getTimestampCounter. rewrite decide_False by congruence.
      erewrite stM_bind_Ret by exact Et. reflexivity. }
  cbn beta. erewrite stM_bind_Ret.
  2:{ unfold Operators.getValue. rewrite decide_False by congruence.
      erewrite stM_bind_Ret by exact Et. reflexivity. }
  reflexivity.
Qed.

Lemma first_arg operation a l :
  OperationBody.args operation = Some (a :: l) → OperationBody.getArg operation 0 = Ret a.
Proof. intros E. unfold OperationBody.getArg, OperationBody.the_args. by rewrite E. Qed.

(** A client's SET through [OperatorDispatcher::dispatch]. *)
Lemma set_dispatched k fuel n id o m ts key value h write :
  standalone n id o → stores n !! 0 = Some m → map_ok m ts → unlocked m → Map.calculateHash key = Ret h →
  (∀ key0 c, mview m ts h ≠ Some (key0, Avl.CounterAVLNode c)) →
  Request.authenticationType write = USER →
  OperationBody.operatorNumber (Request.operation write) = OperatorNumbers.SET →
  OperationBody.args (Request.operation write) = Some [key; value] →
  let now := u64 (Z.max (LamportClock.counter (clock n)) (OperationBody.timestamp (Request.operation write)) + 1) in
  let logged := OperatorDispatcher.set_timestamp now (Request.operation write) in
  ∃ m' ts', OperatorDispatcher.dispatch (S k) (S fuel) write n
      = Ret (set_log (OperationLog.single (SingleOperationLog.add logged o)) (set_store 0 m' n),
             Response.mk true 0 (LamportClock.mk now 0) 0 (SimpleString.fromNumber 4 0)) ∧
    map_ok m' ts' ∧ unlocked m' ∧ Map.clock m' = Some now ∧
    (∀ h', h' ≠ h → mview m' ts' h' = mview m ts h') ∧
    ∀ key2, Map.calculateHash key2 = Ret h →
      ∃ e, Map.get key2 m' = Ret (m', Some e) ∧
        Map.datas m' !! Avl.e_data e = Some (Avl.DataAVLNode value (LamportClock.mk now id)).
Proof.
  intros S Hm O U Eh Hc Hw Ow Aw now logged.
  rewrite (standalone_dispatch k _ n id o write SetOperator S) by (rewrite ?Ow, ?Hw; done || left).
  rewrite (run_client _ n id o write SetOperator key S) by (done || by eapply first_arg).
  cbn [OperatorDispatcher.executeOperation].
  match goal with |- context [Operators.operate ?f SetOperator] => set (execute := f) end.
  destruct (set_operate_ok execute n id o m ts (Request.operation write) (OperationOptions.mk false false false false false
    LamportClock.TICK 0 (Request.requestNumber write)) key value h S Hm O U Eh Hc Aw eq_refl eq_refl eq_refl)
    as (m' & ts' & Eop & Hrest).
  fold now in Eop, Hrest. exists m', ts'. split; [|exact Hrest]. erewrite stM_bind_Ret by exact Eop. cbn beta.
  unfold OperatorDispatcher.after_operate. erewrite stM_bind_Ret.
  2:{ change (hasProperty SetOperator BROADCAST) with true. cbn iota. erewrite stM_bind_Ret by (apply configured_ok, S). reflexivity. }
  cbn beta. rewrite (stM_bind_Ret _ _ _ (set_log (OperationLog.single (SingleOperationLog.add logged o)) (set_store 0 m' n)) ());
    [reflexivity|].
  change (on_log (OperationLog.add 0 logged) (set_store 0 m' n)
    = Ret (set_log (OperationLog.single (SingleOperationLog.add logged o)) (set_store 0 m' n), ())).
  unfold on_log. change (operationLog (set_store 0 m' n)) with (operationLog n). by rewrite (st_log _ _ _ S).
Qed.

(** C4: Write, then read, through [OperatorDispatcher::dispatch].  On a node without
    replication a client's SET of a key that holds no counter succeeds with the clock's next
    value, which becomes the clock; the operation is logged with that timestamp; and a
    client's GET of that key (of any key with its hash) then returns the value with the
    timestamp and the node's identifier, changing nothing.  Keys with other hashes keep
    their values. *)
Theorem set_then_get k fuel n id o m ts key key2 value h write read :
  standalone n id o → stores n !! 0 = Some m → map_ok m ts → unlocked m →
  Map.calculateHash key = Ret h → Map.calculateHash key2 = Ret h →
  (∀ key0 c, mview m ts h ≠ Some (key0, Avl.CounterAVLNode c)) →
  Request.authenticationType write = USER → Request.authenticationType read = USER →
  OperationBody.operatorNumber (Request.operation write) = OperatorNumbers.SET →
  OperationBody.operatorNumber (Request.operation read) = OperatorNumbers.GET →
  OperationBody.args (Request.operation write) = Some [key; value] →
  OperationBody.args (Request.operation read) = Some [key2] →
  let now := u64 (Z.max (LamportClock.counter (clock n)) (OperationBody.timestamp (Request.operation write)) + 1) in
  ∃ n1 m1 ts1,
    OperatorDispatcher.dispatch (S k) (S fuel) write n
      = Ret (n1, Response.mk true 0 (LamportClock.mk now 0) 0 (SimpleString.fromNumber 4 0)) ∧
    LamportClock.counter (clock n1) = now ∧
    operationLog n1 = OperationLog.single
      (SingleOperationLog.add (OperatorDispatcher.set_timestamp now (Request.operation write)) o) ∧
    OperatorDispatcher.dispatch (S k) (S fuel) read n1
      = Ret (n1, Response.mk true 0 (LamportClock.mk now id) 0 value) ∧
    stores n1 !! 0 = Some m1 ∧ map_ok m1 ts1 ∧ unlocked m1 ∧ (∀ h', h' ≠ h → mview m1 ts1 h' = mview m ts h').
Proof.
  intros S Hm O U Eh Eh2 Hc Hw Hr Ow Or Aw Ar now.
  destruct (set_dispatched k fuel n id o m ts key value h write S Hm O U Eh Hc Hw Ow Aw)
    as (m' & ts' & Ew & O' & U' & Ecl & Hv & Hget). fold now in Ew, Ecl, Hget.
  set (op' := OperatorDispatcher.set_timestamp now (Request.operation write)) in Ew.
  set (n1 := set_log (OperationLog.single (SingleOperationLog.add op' o)) (set_store 0 m' n)) in Ew.
  assert (standalone n1 id (SingleOperationLog.add op' o)) as S1 by (split; [split|..]; apply S || reflexivity).
  exists n1, m', ts'. split; [exact Ew|].
  split; [unfold n1; cbn; by rewrite Ecl|]. split; [done|]. split.
  2:{ split; [apply lookup_set_store|done]. }
  rewrite (standalone_dispatch k _ n1 id _ read GetOperator S1) by (rewrite ?Or, ?Hr; done || left).
  rewrite (run_client _ n1 id _ read GetOperator key2 S1) by (done || by eapply first_arg).
  cbn [OperatorDispatcher.executeOperation]. destruct (Hget key2 Eh2) as (e & Eg & Hd).
  erewrite stM_bind_Ret by (eapply (get_operate_ok _ n1 m' ts'); [apply lookup_set_store|
    unfold n1; cbn; by rewrite Ecl|done|done|done|by eapply first_arg|exact Eh2|exact Eg|exact Hd]).
  reflexivity.
Qed.

(** A client's SET without arguments throws; the worker that runs the request catches only its
    queue's exception, so the process ends. *)
Lemma malformed_set_throws k fuel n id o request :
  standalone n id o → Request.authenticationType request = USER →
  OperationBody.operatorNumber (Request.operation request) = OperatorNumbers.SET →
  OperationBody.args (Request.operation request) = Some [] →
  OperatorDispatcher.dispatch (S k) fuel request n = Throw out_of_range.
Proof.
  intros S Ha Ho Hargs. rewrite (standalone_dispatch k fuel n id o request SetOperator S) by (rewrite ?Ho, ?Ha; done || left).
  unfold OperatorDispatcher.run_request. rewrite decide_True by (by left). unfold mbind at 1, stM_bind at 1.
  unfold mbind at 1, stM_bind at 1. unfold lift, OperationBody.getArg, OperationBody.the_args. by rewrite Hargs.
Qed.

End standalone.

Definition node_1_config : Configuration.t :=
  Configuration.mk (<[ConfigurationKeys.NODE_ID := "1"%string]> DefaultConfig_get) (λ _, None).

Lemma set_then_get_witness :
  let aa := SimpleString.mk [97; 97] 2 in
  let dispatch := OperatorDispatcher.dispatch (H := masking_target) (H0 := plain_zlib) (Env := sample_env)
    (Wt := sample_waiting) (N := only_node_3) (CH := sample_handlers) 1 1 in
  ∃ n1, dispatch (sample_user_request OperatorNumbers.SET [aa; SimpleString.fromChar 7]) (sample_node node_1_config)
          = Ret (n1, Response.mk true 0 (LamportClock.mk 1 0) 0 (SimpleString.fromNumber 4 0)) ∧
        dispatch (sample_user_request OperatorNumbers.GET [aa]) n1
          = Ret (n1, Response.mk true 0 (LamportClock.mk 1 1) 0 (SimpleString.fromChar 7)).
Proof.
  intros aa dispatch. destruct (map_ok_make None 3) as [O U]; [lia|].
  destruct (set_then_get (H := masking_target) (H0 := plain_zlib) (Env := sample_env) (Wt := sample_waiting)
    (N := only_node_3) (CH := sample_handlers) 0 0 (sample_node node_1_config) 1
    (SingleOperationLog.mk (mk_fs ∅ ∅) 0 [] false false) (Map.make None 3) (replicate 4 E) aa aa (SimpleString.fromChar 7)
    3104 (sample_user_request OperatorNumbers.SET [aa; SimpleString.fromChar 7])
    (sample_user_request OperatorNumbers.GET [aa]))
    as (n1 & m1 & ts1 & E1 & _ & _ & E2 & _);
    [split; [split|..]; reflexivity|reflexivity|exact O|exact U|vm_compute; reflexivity|vm_compute; reflexivity|
     intros key0 c; vm_compute; discriminate|reflexivity|reflexivity|reflexivity|reflexivity|reflexivity|reflexivity|].
  exists n1. split; [exact E1|exact E2].
Defined.
