(* ===== verification/Invariants.v ===== *)
(** * Relations every step of a node respects

    A computation respects a relation when every run of it relates the node it starts on to the
    node it ends on.  [NodeRelation] states what such a relation has to allow of the parts of
    the operators; then the whole of [OperatorDispatcher::dispatch] respects it.  The acceptor's
    promises and the tables of the cluster's nodes are instances. *)

From S2P Require Import Prelude.
From S2P Require Import Utils.
From S2P Require Import Clock.
From S2P Require Import MapStore.
From S2P Require Import Messages.
From S2P Require Import Codec.
From S2P Require Import Config.
From S2P Require Import Partitions.
From S2P Require Import Files.
From S2P Require Import Segments.
From S2P Require Import Oplog.
From S2P Require Import Cluster.
From S2P Require Import ClusterFacade.
From S2P Require Import OperatorTypes.
From S2P Require Import Operators.
From S2P Require Import Dispatcher.

(** ** The tables of the cluster's nodes *)

(** The same nodes, in the same partitions; hints and the own state may differ. *)
Definition same_nodes (a b : option ClusterNodes.t) : Prop :=
  match a, b with
  | Some a, Some b => ClusterNodes.allNodesById a = ClusterNodes.allNodesById b ∧
                      ClusterNodes.nodesInPartitions a = ClusterNodes.nodesInPartitions b
  | None, None => True
  | _, _ => False
  end.
Definition same_members (c c' : Cluster.t) : Prop :=
  Cluster.partitions c' = Cluster.partitions c ∧ same_nodes (Cluster.clusterNodes c) (Cluster.clusterNodes c').

Section calls.
Context {Env : Environment} {W : Type} {N : Network W}.
Implicit Types (n : ClusterNodes.t) (c : Cluster.t) (w : W).

(** Of the nodes' tables and of the cluster, with the network beside them. *)
Definition same_tables (x y : ClusterNodes.t * W) : Prop := same_nodes (Some x.1) (Some y.1).
Definition same_cluster (x y : Cluster.t * W) : Prop := same_members x.1 y.1.

#[global] Instance same_tables_preorder : PreOrder same_tables.
Proof. split; [done|]. intros x y z [E1 E2] [E3 E4]. by split; etransitivity. Qed.

#[global] Instance same_members_preorder : PreOrder same_members.
Proof.
  split.
  - intros c. split; [done|]. by destruct (Cluster.clusterNodes c).
  - intros x y z [E1 H1] [E2 H2]. split; [by rewrite E2|].
    destruct (Cluster.clusterNodes x), (Cluster.clusterNodes y), (Cluster.clusterNodes z); try done.
    destruct H1, H2. by split; etransitivity.
Qed.

#[global] Instance same_cluster_preorder : PreOrder same_cluster.
Proof. unfold same_cluster. split; [by intros x|]. intros x y z Hxy Hyz. by transitivity y.1. Qed.

Lemma same_tables_hint hint id request result n w w' :
  same_tables (n, w) (ClusterNodes.keep_hint hint id request result n, w').
Proof. by destruct result; simpl; [|destruct hint]. Qed.

#[local] Instance tables_broadcast_task retries hint operation id :
  Respects same_tables (ClusterNodes.broadcast_task retries hint operation id).
Proof.
  intros [n w] [n' w'] a E. unfold ClusterNodes.broadcast_task in E. inv_ret. by apply (same_tables_hint hint id).
Qed.

#[local] Instance tables_wait_task hint operation id m :
  Respects same_tables (ClusterNodes.broadcastAndWait_task hint operation id m).
Proof.
  intros [n w] [n' w'] a E. unfold ClusterNodes.broadcastAndWait_task in E. inv_ret. by apply same_tables_hint.
Qed.

#[local] Instance tables_run {A} (task : Z → A → stM (ClusterNodes.t * W) A) order a :
  (∀ id a, Respects same_tables (task id a)) → Respects same_tables (ClusterNodes.run_tasks task order a).
Proof. intros Ht. revert a. induction order as [|id order IH]; intros a; cbn [ClusterNodes.run_tasks]; respects. Qed.

(** Code that only uses the network. *)
Lemma tables_frame {A B} (f : ClusterNodes.t → stM W A) (g : A → B) :
  Respects same_tables (λ '(n, w), let! (w, a) := f n w in Ret ((n, w), g a)).
Proof. intros [n w] [n' w'] a E. simpl in E. inv_ret. done. Qed.

#[global] Instance cluster_on_nodes {A} (m : stM (ClusterNodes.t * W) A) :
  Respects same_tables m → Respects same_cluster (Cluster.on_nodes m).
Proof.
  intros Hm [c w] [c' w'] a E. unfold Cluster.on_nodes in E.
  destruct (Cluster.clusterNodes c) as [n|] eqn:En; [|done]. cbn [deref obind] in E.
  destruct (m (n, w)) as [[[n1 w1] a1]| | | |] eqn:Em; try done. cbn [obind] in E. injection E as <- <- <-.
  apply Hm in Em. split; [done|]. simpl. by rewrite En.
Qed.

#[global] Instance cluster_broadcast operation pid hint : Respects same_cluster (Cluster.broadcast operation pid hint).
Proof. apply cluster_on_nodes. unfold ClusterNodes.broadcast. respects. Qed.
#[global] Instance cluster_broadcastAndWait operation pid hint :
  Respects same_cluster (Cluster.broadcastAndWait operation pid hint).
Proof. apply cluster_on_nodes. unfold ClusterNodes.broadcastAndWait. respects. Qed.
#[global] Instance cluster_handoff id : Respects same_cluster (Cluster.checkHintedHandoff id).
Proof. apply cluster_on_nodes, (tables_frame (λ n, ClusterNodes.sendHintedHandoff loop_fuel (hinted id) id n) (λ _, ())). Qed.
#[global] Instance cluster_fix `{Platform} id min max : Respects same_cluster (Cluster.fixOplogSegment id min max).
Proof.
  apply respects_bind; [apply _|apply _|]. intros cw. apply cluster_on_nodes.
  apply (tables_frame (λ n, ClusterNodes.sendRequestToAnyNode loop_fuel rand true (Z.to_nat id)
    (Cluster.fixOplogSegment_request cw.1 id min max) ∅ n) (λ r, r)).
Qed.
#[global] Instance cluster_join : Respects same_cluster Cluster.announceJoin.
Proof. unfold Cluster.announceJoin, ClusterNodes.broadcastAll. respects. Qed.
#[global] Instance cluster_leave : Respects same_cluster Cluster.announceLeave.
Proof. apply cluster_on_nodes. unfold ClusterNodes.broadcastAll. respects. Qed.

End calls.

(** ** The operators *)

(** What a relation has to allow: everything that touches neither the Paxos rounds nor the
    nodes' tables, and the parts of the operators that do. *)
Class NodeRelation `{Platform} {W : Type} {CH : ChangeHandlers W} (R : relation (node W)) : Prop := {
  nr_preorder :: PreOrder R;
  nr_frame n n' : onGoingPaxosRounds n' = onGoingPaxosRounds n → same_members (cluster n) (cluster n') → R n n';
  nr_proposer h s :: Respects R (on_rounds (modify (OnGoingPaxosRounds.set_proposer h s)));
  nr_get_proposer h s :: Respects R (on_rounds (modify (OnGoingPaxosRounds.getProposerByKeyHash h s)));
  nr_prepare operation options :: Respects R (Operators.prepareCas_operate operation options);
  nr_accept operation options :: Respects R (Operators.acceptCas_operate operation options);
  nr_new x :: Respects R (newNodeInClusterHandler x);
  nr_deleted x :: Respects R (deletedNodeInClusterHandler x);
}.

(** The parts of a node every such relation lets change; relations on the node alone. *)
Section frame.
Context {W : Type} (R : relation (node W)).
Context (Hframe : ∀ n n', onGoingPaxosRounds n' = onGoingPaxosRounds n → same_members (cluster n) (cluster n') → R n n').

Lemma frame_cluster n n' : onGoingPaxosRounds n' = onGoingPaxosRounds n → cluster n' = cluster n → R n n'.
Proof using Hframe. intros E1 E2. apply Hframe; [done|]. rewrite E2. reflexivity. Qed.

Lemma frame_reads {A} (f : node W → outcome A) : Respects R (reads f).
Proof using Hframe. intros n n' a E. unfold reads in E. inv_ret. by apply frame_cluster. Qed.
Lemma frame_store {A} pid (f : stM Map.t A) : Respects R (on_store pid f).
Proof using Hframe. intros n n' a E. unfold on_store in E. inv_ret. by apply frame_cluster. Qed.
Lemma frame_log {A} (f : stM OperationLog.t A) : Respects R (on_log f).
Proof using Hframe. intros n n' a E. unfold on_log in E. inv_ret. by apply frame_cluster. Qed.
Lemma frame_on_cluster {A} (f : stM (Cluster.t * W) A) : Respects same_cluster f → Respects R (on_cluster f).
Proof using Hframe.
  intros Hf n n' a E. unfold on_cluster in E. destruct (f _) as [[[c w] b]| | | |] eqn:Ef; try done.
  cbn [obind] in E. injection E as <- <-. apply Hframe; [done|]. exact (Hf _ _ _ Ef).
Qed.
Lemma frame_modify (f : node W → node W) :
  (∀ n, onGoingPaxosRounds (f n) = onGoingPaxosRounds n) → (∀ n, same_members (cluster n) (cluster (f n))) →
  Respects R (modify f).
Proof using Hframe. intros H1 H2 n n' a [= <- <-]. by apply Hframe. Qed.

End frame.

Section node.
Context `{Platform} `{Zlib} {Env : Environment} {Wt : Waiting} {W : Type} {N : Network W} {CH : ChangeHandlers W}.
Context {R : relation (node W)} {NR : NodeRelation R}.

#[local] Instance respects_reads {A} (f : node W → outcome A) : Respects R (reads f) := frame_reads R nr_frame f.
#[local] Instance respects_store {A} pid (f : stM Map.t A) : Respects R (on_store pid f) := frame_store R nr_frame pid f.
#[local] Instance respects_log {A} (f : stM OperationLog.t A) : Respects R (on_log f) := frame_log R nr_frame f.
#[local] Instance respects_cluster {A} (f : stM (Cluster.t * W) A) :
  Respects same_cluster f → Respects R (on_cluster f) := frame_on_cluster R nr_frame f.

(** The steps that change other fields of the node. *)
#[local] Instance respects_syncs f : Respects R (Operators.on_syncs f).
Proof. apply frame_modify; [apply nr_frame|done|]. reflexivity. Qed.
#[local] Instance respects_stores (f : node W → MemDbStores.t) : Respects R (modify (λ n, set_stores (f n) n)).
Proof. apply frame_modify; [apply nr_frame|done|]. reflexivity. Qed.
#[local] Instance respects_running :
  Respects R (modify (λ n, set_cluster (Cluster.setRunning (cluster n)) (network n) n)).
Proof. apply frame_modify; [apply nr_frame|done|]. intros n. split; [done|]. simpl. by destruct (Cluster.clusterNodes _). Qed.
#[local] Instance respects_submit t : Respects R (Operators.submit t).
Proof. intros n n' a E. unfold Operators.submit in E. inv_ret. apply (frame_cluster R nr_frame); done. Qed.
#[local] Instance respects_delay request : Respects R (DelayedOperationsBuffer.add request).
Proof. intros n n' a E. unfold DelayedOperationsBuffer.add in E. inv_ret. apply (frame_cluster R nr_frame); done. Qed.
#[local] Instance respects_next : Respects R DelayedOperationsBuffer.next.
Proof. intros n n' a E. unfold DelayedOperationsBuffer.next in E. inv_ret. apply (frame_cluster R nr_frame); done. Qed.

Section operators.
Context (execute : OperationBody.t → OperationOptions.t → stM (node W) Response.t).
Context {Hex : ∀ operation options, Respects R (execute operation options)}.

#[local] Instance respects_retries fuel h pid key v t : Respects R (Operators.sendRetriesPrepares fuel h pid key v t).
Proof.
  revert t. induction fuel as [|fuel IH]; intros t; [done|]. cbn [Operators.sendRetriesPrepares].
  unfold Operators.toData, Operators.payload_of, Operators.sendPrepare, Operators.checkIfQuorumAndAllResponsesSuccess,
    Operators.set_round, Operators.getNodeId. respects.
Qed.

#[local] Instance respects_to_bytes fuel base i b s : Respects R (Operators.oplogIteratorToBytes fuel base i b s).
Proof. revert i b s. induction fuel as [|fuel IH]; intros i b s; [done|]. cbn [Operators.oplogIteratorToBytes]. respects. Qed.

#[local] Instance respects_executeAll l options : Respects R (Operators.executeAll execute l options).
Proof. induction l as [|x l IH]; cbn [Operators.executeAll]; respects. Qed.

Lemma respects_operate op operation options : Respects R (Operators.operate execute op operation options).
Proof.
  destruct op; cbn [Operators.operate];
    unfold Operators.get_operate, Operators.set_operate, Operators.delete_operate, Operators.contains_operate,
      Operators.updateCounter_operate, Operators.replicateCounter_operate, Operators.replicateCounter_apply,
      Operators.healthCheck_operate, Operators.syncOplog_operate, Operators.moveOplog_operate,
      Operators.nextSegmentOplog_operate, Operators.fixOplogSegment_operate, Operators.cas_operate,
      Operators.getClusterConfig_operate, Operators.joinClusterAnnounce_operate,
      Operators.leaveClusterAnnounce_operate, Operators.doLeaveCluster_operate, Operators.getNodeData_operate,
      Operators.getOplogSegmentIterator, Operators.getNextOplogSegmentOrTryFix, Operators.clearOperationLog,
      Operators.getNodesToSendInResponse, Operators.getTimestampCounter, Operators.getValue, Operators.getTimestamp,
      Operators.toData, Operators.toCounter, Operators.payload_of, Operators.store_exists, Operators.respond,
      Operators.arg, Operators.number_arg, Operators.double_arg, Operators.getNodeId, Operators.data_path,
      Operators.sendAccept, Operators.checkIfQuorumAndAllResponsesSuccess, Operators.set_round, configured; respects.
Qed.

End operators.

#[local] Instance respects_after op operation options r : Respects R (OperatorDispatcher.after_operate op operation options r).
Proof.
  unfold OperatorDispatcher.after_operate, OperatorDispatcher.getPartitionIdByKey, OperatorDispatcher.isInPartitionMode,
    OperatorDispatcher.isInReplicationMode, configured. respects.
Qed.

(** [OperatorDispatcher::executeOperation] respects the relation. *)
#[global] Instance respects_execute fuel op operation options :
  Respects R (OperatorDispatcher.executeOperation fuel op operation options).
Proof.
  revert op operation options. induction fuel as [|fuel IH]; intros op operation options; [done|].
  cbn [OperatorDispatcher.executeOperation]. apply respects_bind; [apply _| |apply _]. apply respects_operate. respects.
Qed.

#[local] Instance respects_guarded fuel request :
  Respects R (OperatorDispatcher.dispatch_no_applyDelayedOperationsBuffer fuel request).
Proof.
  unfold OperatorDispatcher.dispatch_no_applyDelayedOperationsBuffer, OperatorDispatcher.run_request,
    OperatorDispatcher.and_then, OperatorDispatcher.or_else, OperatorDispatcher.canAcceptRequest,
    OperatorDispatcher.canExecuteRequest, OperatorDispatcher.canHoldKey, OperatorDispatcher.isInPartitionMode,
    OperatorDispatcher.isInReplicationMode, configured. respects.
Qed.

#[global] Instance respects_delayed k fuel : Respects R (OperatorDispatcher.applyDelayedOperationsBuffer k fuel).
Proof. induction k as [|k IH]; [done|]. cbn [OperatorDispatcher.applyDelayedOperationsBuffer]. respects. Qed.

(** [OperatorDispatcher::dispatch] respects the relation. *)
#[global] Instance respects_dispatch k fuel request : Respects R (OperatorDispatcher.dispatch k fuel request).
Proof.
  unfold OperatorDispatcher.dispatch, OperatorDispatcher.canExecuteRequest, OperatorDispatcher.isInReplicationMode,
    configured. respects.
Qed.

(** Requests a node handles one after the other. *)
Fixpoint serve (k fuel : nat) (requests : list Request.t) : stM (node W) (list Response.t) :=
  match requests with
  | [] => mret []
  | request :: requests =>
      r ← OperatorDispatcher.dispatch k fuel request; rs ← serve k fuel requests; mret (r :: rs)
  end.

#[global] Instance respects_serve k fuel requests : Respects R (serve k fuel requests).
Proof. induction requests as [|x l IH]; cbn [serve]; respects. Qed.

End node.
