(* ===== verification/Paxos.v ===== *)
(** * The acceptors of compare-and-set

    What an acceptor promises to a proposer, over everything a node does: no promise is
    lowered, which is a [NodeRelation] and so holds of [OperatorDispatcher::dispatch] as a
    whole. *)

From S2P Require Import Prelude.
From S2P Require Import Utils.
From S2P Require Import Clock.
From S2P Require Import Avl.
From S2P Require Import MapStore.
From S2P Require Import Messages.
From S2P Require Import Codec.
From S2P Require Import Config.
From S2P Require Import Partitions.
From S2P Require Import Files.
From S2P Require Import Segments.
From S2P Require Import Oplog.
From S2P Require Import Cluster.
From S2P Require Import ClusterFacade.
From S2P Require Import OperatorTypes.
From S2P Require Import Operators.
From S2P Require Import Dispatcher.
From S2P Require Import Invariants.

(** ** Timestamps and promises *)

(** [a] is not after [b]. *)
Definition ts_le (a b : LamportClock.t) : Prop := LamportClock.op_gt a b = false.

#[global] Instance ts_le_preorder : PreOrder ts_le.
Proof.
  unfold ts_le, LamportClock.op_gt. split.
  - intros [c i]. simpl. lia.
  - intros [c1 i1] [c2 i2] [c3 i3]. simpl. lia.
Qed.

Lemma ts_gt_le a b : LamportClock.op_gt a b = true → ts_le b a.
Proof. unfold ts_le, LamportClock.op_gt. destruct a, b. simpl. lia. Qed.

Section promises.
Context {W : Type}.
Implicit Types (n : node W) (h : Z) (t : LamportClock.t).

(** The timestamp a node has promised for a key's hash. *)
Definition promise n h : option LamportClock.t := OnGoingPaxosRounds.acceptators (onGoingPaxosRounds n) !! h.

(** No promise was dropped or lowered. *)
Definition promises_kept (n n' : node W) : Prop :=
  ∀ h t, promise n h = Some t → ∃ t', promise n' h = Some t' ∧ ts_le t t'.

#[global] Instance promises_kept_preorder : PreOrder promises_kept.
Proof.
  split.
  - intros n h t Ht. exists t. split; [done|reflexivity].
  - intros n1 n2 n3 H12 H23 h t Ht. destruct (H12 h t Ht) as (t2 & H2 & L2).
    destruct (H23 h t2 H2) as (t3 & H3 & L3). exists t3. split; [done|by transitivity t2].
Qed.

Lemma kept_same n n' : onGoingPaxosRounds n' = onGoingPaxosRounds n → promises_kept n n'.
Proof. intros E h t Ht. exists t. unfold promise in *. rewrite E. split; [done|reflexivity]. Qed.

#[global] Instance kept_proposer h s :
  Respects promises_kept (on_rounds (W := W) (modify (OnGoingPaxosRounds.set_proposer h s))).
Proof. intros n n' a [= <- <-] h' t Ht. exists t. split; [done|reflexivity]. Qed.

#[global] Instance kept_get_proposer h s :
  Respects promises_kept (on_rounds (W := W) (modify (OnGoingPaxosRounds.getProposerByKeyHash h s))).
Proof.
  intros n n' a [= <- <-] h' t Ht. exists t. split; [|reflexivity]. revert Ht. unfold promise. simpl.
  unfold OnGoingPaxosRounds.getProposerByKeyHash. by destruct (_ !! h).
Qed.

End promises.

(** ** The acceptor's operators *)

Section acceptor.
Context `{Platform} `{Zlib} {Env : Environment} {Wt : Waiting} {W : Type} {N : Network W} {CH : ChangeHandlers W}.
Context (execute : OperationBody.t → OperationOptions.t → stM (node W) Response.t).
Implicit Types (n : node W) (h : Z) (key : SimpleString.t) (prev next t : LamportClock.t).

Lemma on_store_rounds {A} pid (f : stM Map.t A) n n' a :
  on_store pid f n = Ret (n', a) → onGoingPaxosRounds n' = onGoingPaxosRounds n.
Proof. intros E. unfold on_store in E. by inv_ret. Qed.

Lemma reads_same {A} (f : node W → outcome A) n n' a : reads f n = Ret (n', a) → n' = n.
Proof. intros E. unfold reads in E. by inv_ret. Qed.

Lemma lift_same {S A} (c : outcome A) (s s' : S) a : lift c s = Ret (s', a) → s' = s ∧ c = Ret a.
Proof. unfold lift. intros E. destruct c; simpl in E; try discriminate E. by injection E as <- <-. Qed.

(** The check passes only if nothing later was promised. *)
Lemma acceptator_check_spec pid h key prev next n n' c pr :
  Operators.acceptator_check pid h key prev next n = Ret (n', (c, pr)) →
  onGoingPaxosRounds n' = onGoingPaxosRounds n ∧ pr = promise n h ∧
  (c = None → ∀ t, pr = Some t → ts_le t next).
Proof.
  unfold Operators.acceptator_check. intros (n1 & e & E1 & E)%stM_bind_inv. apply on_store_rounds in E1.
  apply stM_bind_inv in E as (n2 & pr' & E2 & E). pose proof (reads_same _ _ _ _ E2) as ->.
  unfold reads in E2. cbn [obind] in E2. injection E2 as <-.
  apply stM_bind_inv in E as (n3 & e' & E3 & E). apply lift_same in E3 as [-> _].
  unfold promise. rewrite <- E1. unfold OnGoingPaxosRounds.getAcceptatorByKeyHash in *.
  destruct (decide (Avl.e_type e' ≠ Avl.DATA)).
  - injection E as <- <- <-. done.
  - apply stM_bind_inv in E as (n4 & d & E4 & E).
    assert (n4 = n1) as ->.
    { unfold Operators.toData in E4. apply stM_bind_inv in E4 as (n5 & p & E5 & E4).
      apply lift_same in E4 as [-> _].
      unfold Operators.payload_of in E5. by apply reads_same in E5. }
    injection E as <- <- <-. split; [done|]. split; [done|]. intros Hn t Ht. rewrite Ht in Hn.
    unfold ts_le. by destruct (LamportClock.op_gt d.2 prev), (LamportClock.op_gt t next).
Qed.

(** The arguments of PREPARE and ACCEPT. *)
Definition prepares operation n key prev next : Prop :=
  Operators.prepare_getArgs operation n = Ret (n, (key, prev, next)).
Definition accepts operation n key value prev next : Prop :=
  Operators.accept_getArgs operation n = Ret (n, (key, value, prev, next)).

(** Code that only reads arguments. *)
Ltac pure_args :=
  repeat match goal with
  | E : (_ ≫= _) _ = Ret _ |- _ => apply stM_bind_inv in E as (? & ? & ? & E); cbv beta in E
  | E : lift _ _ = Ret _ |- _ => apply lift_same in E as [-> _]
  | E : mret _ _ = Ret _ |- _ => unfold mret, stM_ret in E; apply Ret_inj in E; injection E as <-
  end.

Lemma prepare_getArgs_same operation n n' a : Operators.prepare_getArgs operation n = Ret (n', a) → n' = n.
Proof.
  unfold Operators.prepare_getArgs, Operators.number_arg, Operators.double_arg, Operators.arg. intros E.
  by pure_args.
Qed.

Lemma accept_getArgs_same operation n n' a : Operators.accept_getArgs operation n = Ret (n', a) → n' = n.
Proof.
  unfold Operators.accept_getArgs, Operators.number_arg, Operators.double_arg, Operators.arg. intros E.
  by pure_args.
Qed.

(** A step that raises one promise. *)
Lemma raise_kept n n' h t :
  OnGoingPaxosRounds.acceptators (onGoingPaxosRounds n')
    = <[h:=t]> (OnGoingPaxosRounds.acceptators (onGoingPaxosRounds n)) →
  (∀ t0, promise n h = Some t0 → ts_le t0 t) → promises_kept n n' ∧ promise n' h = Some t.
Proof.
  intros E Hle. unfold promises_kept, promise. rewrite E. split; [|by rewrite lookup_insert_eq].
  intros h' t' Ht'. destruct (decide (h' = h)) as [->|Hne].
  - exists t. rewrite lookup_insert_eq. split; [done|]. by apply Hle.
  - exists t'. rewrite lookup_insert_ne by done. split; [done|reflexivity].
Qed.

Lemma promise_same n n' h : onGoingPaxosRounds n' = onGoingPaxosRounds n → promise n' h = promise n h.
Proof. unfold promise. by intros ->. Qed.

(** [PrepareCasOperator::operate] keeps every promise; on success it has promised at least [next]. *)
Lemma prepare_spec operation options n n' r :
  Operators.prepareCas_operate operation options n = Ret (n', r) →
  ∃ key prev next h, prepares operation n key prev next ∧ Map.calculateHash key = Ret h ∧ promises_kept n n' ∧
    (Response.isSuccessful r = true → ∃ t, promise n' h = Some t ∧ ts_le next t).
Proof.
  unfold Operators.prepareCas_operate. intros (n1 & u & E1 & E)%stM_bind_inv.
  unfold Operators.store_exists in E1. apply reads_same in E1 as ->. apply stM_bind_inv in E as (n1 & [[key prev] next] & E1 & E).
  pose proof (prepare_getArgs_same _ _ _ _ E1) as ->. cbv beta iota in E.
  apply stM_bind_inv in E as (n1 & h & E2 & E). apply lift_same in E2 as [-> Eh]. cbv beta in E.
  exists key, prev, next, h. split; [done|]. split; [done|].
  apply stM_bind_inv in E as (n1 & [c pr] & E2 & E). apply acceptator_check_spec in E2 as (Er & -> & Hc).
  pose proof (kept_same n n1 Er) as K1. rewrite <- (promise_same n n1 h Er) in *. cbv beta iota in E.
  destruct c as [code|]; [injection E as <- <-; done|]. specialize (Hc eq_refl).
  destruct (promise n1 h) as [promised|] eqn:Hp.
  - destruct (LamportClock.op_gt next promised) eqn:Hgt.
    + apply stM_bind_inv in E as (n2 & u' & E3 & E). injection E as <- <-.
      unfold on_rounds, OnGoingPaxosRounds.updatePromisedTimestamp in E3.
      destruct (OnGoingPaxosRounds.acceptators (onGoingPaxosRounds n1) !! h); [|done]. injection E3 as <- <-.
      destruct (raise_kept n1 (set_rounds (OnGoingPaxosRounds.mk
        (OnGoingPaxosRounds.proposers (onGoingPaxosRounds n1))
        (<[h:=next]> (OnGoingPaxosRounds.acceptators (onGoingPaxosRounds n1)))) n1) h next eq_refl) as [K2 P2].
      { intros t0 Ht0. by apply Hc; rewrite <- Ht0. }
      split; [by transitivity n1|]. intros _. exists next. split; [done|reflexivity].
    + injection E as <- <-. split; [done|]. intros _. by exists promised.
  - injection E as <- <-.
    destruct (raise_kept n1 (set_rounds (OnGoingPaxosRounds.registerNewAcceptatorPromise h next (onGoingPaxosRounds n1)) n1)
      h next eq_refl) as [K2 P2].
    { intros t0 Ht0. congruence. }
    split; [by transitivity n1|]. intros _. exists next. split; [done|reflexivity].
Qed.

(** [AcceptCasOperator::operate] keeps every promise; it succeeds only if nothing later than
    [next] was promised. *)
Lemma accept_spec operation options n n' r :
  Operators.acceptCas_operate operation options n = Ret (n', r) →
  ∃ key value prev next h, accepts operation n key value prev next ∧ Map.calculateHash key = Ret h ∧
    promises_kept n n' ∧
    (Response.isSuccessful r = true → promise n' h = Some next ∧ ∀ t, promise n h = Some t → ts_le t next).
Proof.
  unfold Operators.acceptCas_operate. intros (n1 & u & E1 & E)%stM_bind_inv.
  unfold Operators.store_exists in E1. apply reads_same in E1 as ->. apply stM_bind_inv in E as (n1 & [[[key value] prev] next] & E1 & E).
  pose proof (accept_getArgs_same _ _ _ _ E1) as ->. cbv beta iota in E.
  apply stM_bind_inv in E as (n1 & h & E2 & E). apply lift_same in E2 as [-> Eh]. cbv beta in E.
  exists key, value, prev, next, h. split; [done|]. split; [done|].
  apply stM_bind_inv in E as (n1 & [c pr] & E2 & E). apply acceptator_check_spec in E2 as (Er & -> & Hc).
  pose proof (kept_same n n1 Er) as K1. cbv beta in E. cbn [fst] in E.
  destruct c as [code|]; [injection E as <- <-; done|]. specialize (Hc eq_refl).
  apply stM_bind_inv in E as (n2 & saved & E3 & E). pose proof (on_store_rounds _ _ _ _ _ E3) as Er2.
  destruct saved as [x|]; [|injection E as <- <-; split; [|done]; transitivity n1; [done|by apply kept_same]].
  apply stM_bind_inv in E as (n3 & u' & E4 & E).
  unfold on_rounds, OnGoingPaxosRounds.updateAcceptedTimestamp in E4. inv_ret.
  apply stM_bind_inv in E as (n4 & u'' & E5 & E). injection E as <- <-.
  match type of E5 with on_log _ ?s = _ => set (n3 := s) in * end.
  assert (onGoingPaxosRounds n4 = onGoingPaxosRounds n3) as Er4 by (unfold on_log in E5; by inv_ret).
  destruct (raise_kept n2 n3 h next eq_refl) as [K3 P3].
  { intros t Ht. apply Hc. rewrite <- Ht. symmetry. rewrite <- (promise_same n n1 h Er). by apply promise_same. }
  rewrite (promise_same n3 n4 h Er4). split; [|by split; [|intros t Ht; apply Hc]].
  transitivity n1; [done|]. transitivity n2; [by apply kept_same|]. transitivity n3; [done|by apply kept_same].
Qed.

End acceptor.

(** ** Everything a node does keeps its promises *)

(** The membership handlers keep the promises. *)
Class MonotoneHandlers {W : Type} (CH : ChangeHandlers W) : Prop := {
  monotone_new x :: Respects promises_kept (newNodeInClusterHandler x);
  monotone_deleted x :: Respects promises_kept (deletedNodeInClusterHandler x);
}.

Section monotone.
Context `{Platform} `{Zlib} {Env : Environment} {Wt : Waiting} {W : Type} {N : Network W} {CH : ChangeHandlers W}.
Context {MH : MonotoneHandlers CH}.

#[global] Instance promises_relation : NodeRelation promises_kept.
Proof using MH.
  split; try apply _.
  - intros n n' E _. by apply kept_same.
  - intros operation options n n' r E. by apply prepare_spec in E as (? & ? & ? & ? & ? & ? & ? & _).
  - intros operation options n n' r E. by apply accept_spec in E as (? & ? & ? & ? & ? & ? & ? & ? & _).
Qed.

(** C3: An acceptor keeps its word.  After a node has answered a PREPARE for a key with success,
    and whatever requests it serves afterwards, an ACCEPT for a key of that hash with an
    earlier timestamp does not succeed; and no request ever lowers or drops a promise. *)
Theorem promise_is_kept k fuel prepare accept po ao n n1 n2 n3 n0 requests rs r1 r2 key key' value prev prev' next next' h :
  prepares prepare n key prev next → Map.calculateHash key = Ret h →
  accepts accept n2 key' value prev' next' → Map.calculateHash key' = Ret h →
  Operators.prepareCas_operate prepare po n = Ret (n1, r1) → Response.isSuccessful r1 = true →
  serve k fuel requests n1 = Ret (n2, rs) →
  LamportClock.op_gt next next' = true →
  Operators.acceptCas_operate accept ao n2 = Ret (n3, r2) →
  Response.isSuccessful r2 = false ∧ promises_kept n n3 ∧
  (∀ request r, OperatorDispatcher.dispatch k fuel request n3 = Ret (n0, r) → promises_kept n3 n0).
Proof.
  intros Hp Eh Ha Eh' Ep Sp Es Hgt Ea.
  apply prepare_spec in Ep as (key1 & prev1 & next1 & h1 & Hp1 & Eh1 & K1 & P1).
  unfold prepares in *. rewrite Hp in Hp1. injection Hp1 as <- <- <-. rewrite Eh in Eh1. injection Eh1 as <-.
  destruct (P1 Sp) as (t & Ht & Lt). pose proof (respects promises_kept _ _ _ Es) as K2. destruct (K2 h t Ht) as (t2 & Ht2 & Lt2).
  apply accept_spec in Ea as (key2 & value2 & prev2 & next2 & h2 & Ha2 & Eh2 & K3 & P2).
  unfold accepts in *. rewrite Ha in Ha2. injection Ha2 as <- <- <- <-. rewrite Eh' in Eh2. injection Eh2 as <-.
  split; [|split].
  - destruct (Response.isSuccessful r2); [|done]. destruct (P2 eq_refl) as [_ Hle].
    assert (ts_le next next') as Hc by (transitivity t; [done|]; transitivity t2; [done|by apply Hle]).
    unfold ts_le in Hc. congruence.
  - transitivity n1; [done|]. by transitivity n2.
  - intros request r Er. by apply (respects promises_kept _ _ _ Er).
Qed.

End monotone.

#[global] Instance sample_handlers_monotone : MonotoneHandlers sample_handlers.
Proof. split; intros x; apply respects_ret, _. Qed.

(** A node that stored ["aa"] at time 1, then promised time 5 and served a health check. *)
Definition aa : SimpleString.t := SimpleString.mk [97; 97] 2.
Definition result {A} (d : node () * A) (c : outcome (node () * A)) : node () * A :=
  match c with Ret r => r | _ => d end.

Definition sample_dispatch : Request.t → stM (node ()) Response.t :=
  OperatorDispatcher.dispatch (H := masking_target) (H0 := plain_zlib) (Env := sample_env) (Wt := sample_waiting)
    (N := only_node_3) (CH := sample_handlers) 1 1.
Definition maintenance : OperationOptions.t :=
  OperationOptions.mk false false false false false LamportClock.TICK 0 0.
Definition stored_node : node () :=
  (result (sample_node node_1_config, Response.error 0)
     (sample_dispatch (sample_user_request OperatorNumbers.SET [aa; SimpleString.fromChar 7]) (sample_node node_1_config))).1.
Definition prepare_5 : OperationBody.t := Operators.prepare_operation 2 aa (LamportClock.mk 1 1) (LamportClock.mk 5 2).
Definition accept_3 : OperationBody.t :=
  Operators.accept_operation 2 aa (SimpleString.fromChar 8) (LamportClock.mk 1 1) (LamportClock.mk 3 2).
Definition promised_node : node () :=
  (result (stored_node, Response.error 0)
     (Operators.prepareCas_operate (H := masking_target) prepare_5 maintenance stored_node)).1.

Lemma promise_is_kept_witness :
  ∃ r n3 r2, Operators.prepareCas_operate (H := masking_target) prepare_5 maintenance stored_node = Ret (promised_node, r) ∧
    Response.isSuccessful r = true ∧
    Operators.acceptCas_operate (H := masking_target) accept_3 maintenance promised_node = Ret (n3, r2) ∧
    Response.isSuccessful r2 = false.
Proof.
  exists (Response.success zero_clock), promised_node, (Response.error ErrorCode.CAS_FAILED).
  split; [vm_compute; reflexivity|]. split; [reflexivity|]. split; [vm_compute; reflexivity|].
  apply (promise_is_kept (H := masking_target) (H0 := plain_zlib) (Env := sample_env) (Wt := sample_waiting)
    (N := only_node_3) (CH := sample_handlers) 1 1 prepare_5 accept_3 maintenance maintenance stored_node promised_node
    promised_node promised_node promised_node [sample_user_request OperatorNumbers.HEALTH_CHECK []]
    [Response.success zero_clock] (Response.success zero_clock) (Response.error ErrorCode.CAS_FAILED) aa aa
    (SimpleString.fromChar 8) (LamportClock.mk 1 1) (LamportClock.mk 1 1) (LamportClock.mk 5 2) (LamportClock.mk 3 2) 3104);
    vm_compute; reflexivity.
Defined.
