(* ===== verification/OperatorFacts.v ===== *)
(** * What operators say to each other

    The messages proposers and acceptors of a compare-and-set exchange are read back as they
    were written; the arguments of REPLICATE_COUNTER are not.  Counters on a node without
    replication, and the identifiers of log transfers. *)

From S2P Require Import Prelude.
From S2P Require Import Utils.
From S2P Require Import Clock.
From S2P Require Import Counters.
From S2P Require Import Avl.
From S2P Require Import MapStore.
From S2P Require Import Messages.
From S2P Require Import Config.
From S2P Require Import Segments.
From S2P Require Import Oplog.
From S2P Require Import Cluster.
From S2P Require Import ClusterFacade.
From S2P Require Import OperatorTypes.
From S2P Require Import Operators.
From S2P Require Import Dispatcher.
From S2P Require Import Paxos.

(** ** Numbers as arguments *)

Lemma to_fromNumber n v :
  (0 < n)%nat → ufits (8 * Z.of_nat n) v → SimpleString.to n false (SimpleString.fromNumber n v) = Ret v.
Proof.
  intros Hn Hv. unfold SimpleString.to. rewrite fromNumber_be.
  rewrite <- (app_nil_r (be_bytes n v)), parse_be_bytes by done. unfold Utils.to_T. by rewrite wrap_small.
Qed.

(** The two arguments [RequestBuilder::addDoubleArg] adds. *)
Definition high (v : Z) : Z := v / 2 ^ 32.
Definition low (v : Z) : Z := v mod 2 ^ 32.
Definition words (v : Z) : list SimpleString.t := [SimpleString.fromNumber 4 (high v); SimpleString.fromNumber 4 (low v)].

Lemma words_fit v : ufits 64 v → ufits 32 (high v) ∧ ufits 32 (low v) ∧ high v * 2 ^ 32 + low v = v.
Proof.
  unfold ufits, high, low. intros Hv. pose proof (Z.div_mod v (2 ^ 32)). pose proof (Z.mod_pos_bound v (2 ^ 32)).
  change (2 ^ 64) with (2 ^ 32 * 2 ^ 32) in Hv. assert (0 ≤ v / 2 ^ 32 < 2 ^ 32).
  { split; [apply Z.div_pos; lia|]. apply Z.div_lt_upper_bound; lia. }
  lia.
Qed.

Lemma addDoubleArg_words v b :
  ufits 64 v → RequestBuilder.addDoubleArg v b = RequestBuilder.args (RequestBuilder._args b ++ words v) b.
Proof.
  intros Hv. destruct (words_fit v Hv) as (H1 & H2 & _). unfold RequestBuilder.addDoubleArg, words.
  do 4 f_equal; [|do 2 f_equal].
  - rewrite Z.shiftr_div_pow2 by lia. by apply wrap_small.
  - change 0xFFFFFFFF with (Z.ones 32). rewrite Z.land_ones by lia. unfold wrap. by rewrite Zmod_mod.
Qed.

(** Reading the two words at [i]. *)
Lemma getDouble_words o l i a b :
  OperationBody.args o = Some l → l !! i = Some (SimpleString.fromNumber 4 a) →
  l !! S i = Some (SimpleString.fromNumber 4 b) → ufits 32 a → ufits 32 b →
  OperationBody.getDoubleArgU64 o i = Ret (a * 2 ^ 32 + b).
Proof.
  intros Ho Ha Hb Fa Fb. unfold OperationBody.getDoubleArgU64, OperationBody.getArg, OperationBody.the_args.
  rewrite Ho. cbn [obind]. rewrite (at_throw_Some _ _ _ Ha). cbn [obind]. rewrite to_fromNumber by (lia || done). cbn [obind].
  rewrite Nat.add_1_r, (at_throw_Some _ _ _ Hb). cbn [obind]. rewrite to_fromNumber by (lia || done). cbn [obind].
  f_equal. rewrite wrap_small.
  - by apply lor_shiftl_add.
  - rewrite Z.shiftl_mul_pow2 by lia. unfold ufits in *. lia.
Qed.

Section messages.
Context `{Platform} `{Zlib} {Env : Environment} {Wt : Waiting} {W : Type} {N : Network W} {CH : ChangeHandlers W}.
Implicit Types (n : node W) (key value : SimpleString.t) (prev next : LamportClock.t).

Lemma arg_at n o l i a :
  OperationBody.args o = Some l → l !! i = Some a → Operators.arg (W := W) o i n = Ret (n, a).
Proof.
  intros Ho Hi. apply arg_ok. unfold OperationBody.getArg, OperationBody.the_args. rewrite Ho. cbn [obind].
  by apply at_throw_Some.
Qed.

Lemma number_at n o l k i v :
  OperationBody.args o = Some l → l !! i = Some (SimpleString.fromNumber k v) → (0 < k)%nat → ufits (8 * Z.of_nat k) v →
  Operators.number_arg (W := W) o k i n = Ret (n, v).
Proof.
  intros Ho Hi Hk Hv. unfold Operators.number_arg. erewrite stM_bind_Ret by (by eapply arg_at). cbn beta.
  unfold lift. by rewrite to_fromNumber.
Qed.

Lemma double_at n o l i v :
  OperationBody.args o = Some l → l !! i = Some (SimpleString.fromNumber 4 (high v)) →
  l !! S i = Some (SimpleString.fromNumber 4 (low v)) → ufits 64 v → Operators.double_arg (W := W) o i n = Ret (n, v).
Proof.
  intros Ho H1 H2 Hv. destruct (words_fit v Hv) as (F1 & F2 & E). unfold Operators.double_arg, lift.
  rewrite (getDouble_words o l i _ _ Ho H1 H2 F1 F2), E. done.
Qed.

(** Timestamps of the wire's width. *)
Definition ts_ok (t : LamportClock.t) : Prop := ufits 64 (LamportClock.counter t) ∧ ufits 16 (LamportClock.nodeId t).

Lemma prepare_args self key prev next :
  ts_ok prev → ts_ok next →
  OperationBody.args (Operators.prepare_operation self key prev next) =
  Some ([key; SimpleString.fromNumber 2 (LamportClock.nodeId prev)] ++ words (LamportClock.counter prev)
        ++ [SimpleString.fromNumber 2 self] ++ words (LamportClock.counter next)).
Proof.
  intros [Hp _] [Hn _]. unfold Operators.prepare_operation. rewrite (addDoubleArg_words (LamportClock.counter prev)) by done.
  by rewrite addDoubleArg_words by done.
Qed.

Lemma accept_args self key value prev next :
  ts_ok prev → ts_ok next →
  OperationBody.args (Operators.accept_operation self key value prev next) =
  Some ([key; value; SimpleString.fromNumber 2 (LamportClock.nodeId prev)] ++ words (LamportClock.counter prev)
        ++ [SimpleString.fromNumber 2 self] ++ words (LamportClock.counter next)).
Proof.
  intros [Hp _] [Hn _]. unfold Operators.accept_operation. rewrite (addDoubleArg_words (LamportClock.counter prev)) by done.
  by rewrite addDoubleArg_words by done.
Qed.

(** C30: Proposer and acceptor understand each other: the arguments an acceptor reads from a
    proposer's PREPARE and ACCEPT are the key, the value, the stored value's timestamp and
    the round's counter paired with the proposer's node. *)
Theorem cas_messages_roundtrip n self key value prev next :
  ts_ok prev → ts_ok next → ufits 16 self →
  let round := LamportClock.mk (LamportClock.counter next) self in
  Operators.prepare_getArgs (Operators.prepare_operation self key prev next) n = Ret (n, (key, prev, round)) ∧
  Operators.accept_getArgs (Operators.accept_operation self key value prev next) n = Ret (n, (key, value, prev, round)).
Proof.
  intros Hp Hn Hs round. pose proof (prepare_args self key prev next Hp Hn) as Ap.
  pose proof (accept_args self key value prev next Hp Hn) as Aa. destruct Hp as [Hp1 Hp2], Hn as [Hn1 Hn2]. split.
  - unfold Operators.prepare_getArgs.
    erewrite stM_bind_Ret by (by eapply arg_at). cbn beta.
    erewrite stM_bind_Ret by (eapply number_at; [exact Ap|reflexivity|lia|exact Hp2]). cbn beta.
    erewrite stM_bind_Ret by (eapply double_at; [exact Ap|reflexivity..|exact Hp1]). cbn beta.
    erewrite stM_bind_Ret by (eapply number_at; [exact Ap|reflexivity|lia|exact Hs]). cbn beta.
    erewrite stM_bind_Ret by (eapply double_at; [exact Ap|reflexivity..|exact Hn1]). cbn beta. by destruct prev.
  - unfold Operators.accept_getArgs.
    erewrite stM_bind_Ret by (by eapply arg_at). cbn beta.
    erewrite stM_bind_Ret by (by eapply arg_at). cbn beta.
    erewrite stM_bind_Ret by (eapply number_at; [exact Aa|reflexivity|lia|exact Hp2]). cbn beta.
    erewrite stM_bind_Ret by (eapply double_at; [exact Aa|reflexivity..|exact Hp1]). cbn beta.
    erewrite stM_bind_Ret by (eapply number_at; [exact Aa|reflexivity|lia|exact Hs]). cbn beta.
    erewrite stM_bind_Ret by (eapply double_at; [exact Aa|reflexivity..|exact Hn1]). cbn beta. by destruct prev.
Qed.

End messages.

Lemma cas_messages_roundtrip_witness :
  let n := sample_node node_1_config in
  Operators.prepare_getArgs (Operators.prepare_operation 2 aa (LamportClock.mk 1 1) (LamportClock.mk (2 ^ 33) 1)) n
    = Ret (n, (aa, LamportClock.mk 1 1, LamportClock.mk (2 ^ 33) 2)) ∧
  Operators.accept_getArgs (Operators.accept_operation 2 aa aa (LamportClock.mk 1 1) (LamportClock.mk (2 ^ 33) 1)) n
    = Ret (n, (aa, aa, LamportClock.mk 1 1, LamportClock.mk (2 ^ 33) 2)).
Proof.
  intros n. apply (cas_messages_roundtrip n 2 aa aa (LamportClock.mk 1 1) (LamportClock.mk (2 ^ 33) 1));
    repeat split; simpl; lia.
Defined.

(** ** Counters *)

(** The arguments of REPLICATE_COUNTER where the sender puts them, and what the receiver takes
    for the last decrement seen: it starts one argument early, so it gets the low word of the
    last increment followed by the high word of the last decrement. *)
Theorem replicate_counter_misreads isIncrement key new inc dec :
  ufits 63 new → ufits 63 inc → ufits 63 dec →
  let o := Operators.replicate_operation isIncrement key new inc dec in
  OperationBody.getDoubleArgU64 o 1 = Ret new ∧ OperationBody.getDoubleArgU64 o 3 = Ret inc ∧
  OperationBody.getDoubleArgU64 o 5 = Ret dec ∧
  OperationBody.getDoubleArgU64 o 4 = Ret (low inc * 2 ^ 32 + high dec).
Proof.
  intros H1 H2 H3 o.
  apply (ufits_mono 63 64) in H1, H2, H3; [|lia..].
  assert (OperationBody.args o = Some ([key] ++ words new ++ words inc ++ words dec)) as Ho.
  { unfold o, Operators.replicate_operation. rewrite !wrap_small by done.
    rewrite (addDoubleArg_words new) by done. rewrite (addDoubleArg_words inc) by done.
    by rewrite addDoubleArg_words by done. }
  destruct (words_fit new H1) as (N1 & N2 & N3), (words_fit inc H2) as (I1 & I2 & I3), (words_fit dec H3) as (D1 & D2 & D3).
  repeat split.
  - rewrite <- N3. by eapply getDouble_words.
  - rewrite <- I3. by eapply getDouble_words.
  - rewrite <- D3. by eapply getDouble_words.
  - by eapply getDouble_words.
Qed.

Section counters.
Context `{Platform} `{Zlib} {Env : Environment} {Wt : Waiting} {W : Type} {N : Network W} {CH : ChangeHandlers W}.

Lemma on_store_cluster {A} pid (f : stM Map.t A) (m m' : node W) a :
  on_store pid f m = Ret (m', a) → cluster m' = cluster m.
Proof. intros E. unfold on_store in E. by inv_ret. Qed.

(** On a node without replication UPDATE_COUNTER never succeeds: a counter that was updated is
    handed to the pool of nodes that do not exist. *)
Theorem update_counter_needs_cluster (n n' : node W) operation options r :
  Cluster.clusterNodes (cluster n) = None → OperationOptions.dontBroadcastToCluster options = false →
  Operators.updateCounter_operate operation options n = Ret (n', r) → Response.isSuccessful r = false.
Proof.
  intros Hc Ho E. unfold Operators.updateCounter_operate in E. rewrite Ho in E.
  apply stM_bind_inv in E as (n1 & u & E1 & E). unfold Operators.store_exists in E1. apply reads_same in E1 as ->.
  apply stM_bind_inv in E as (n1 & nn & E1 & E). apply reads_same in E1 as ->.
  apply stM_bind_inv in E as (n1 & key & E1 & E). unfold Operators.arg in E1. apply lift_same in E1 as [-> _].
  apply stM_bind_inv in E as (n1 & id & E1 & E). unfold Operators.getNodeId in E1. apply reads_same in E1 as ->.
  apply stM_bind_inv in E as (n1 & v & E1 & E). apply on_store_cluster in E1. destruct v as [v|]; [|by injection E as <- <-].
  apply stM_bind_inv in E as (n2 & e & E2 & E). apply on_store_cluster in E2.
  apply stM_bind_inv in E as (n3 & u3 & E3 & E). apply stM_bind_inv in E3 as (n4 & e' & E4 & E3).
  apply lift_same in E4 as [-> _]. apply stM_bind_inv in E3 as (n4 & c & E4 & E3).
  assert (cluster n4 = cluster n2) as E5.
  { unfold Operators.toCounter, Operators.payload_of in E4. apply stM_bind_inv in E4 as (n5 & p & E5 & E4).
    apply lift_same in E4 as [-> _]. by apply reads_same in E5 as ->. }
  unfold Operators.submit in E3. rewrite E5, E2, E1, Hc in E3. done.
Qed.

End counters.

(** ** Identifiers of log transfers *)

(** A transfer's identifier passes through a 32-bit type that drops the node: the transfers
    of two nodes with the same count have the same identifier, and the one registered second
    is ignored. *)
Theorem sync_ids_collide (a b : OnGoingSyncOplogsStore.t) s i j :
  OnGoingSyncOplogsStore.nextSyncOplogIdCounter a = OnGoingSyncOplogsStore.nextSyncOplogIdCounter b →
  ufits 32 (OnGoingSyncOplogsStore.nextSyncOplogIdCounter a) →
  let id x := u32 (OnGoingSyncOplogsStore.nextSyncOplogId x).2 in
  id a = id b ∧
  (OnGoingSyncOplogsStore.getSenderIteratorById (id a) s = None →
   OnGoingSyncOplogsStore.getSenderIteratorById (id b)
     (OnGoingSyncOplogsStore.registerSyncOplogIterator (id b) j
       (OnGoingSyncOplogsStore.registerSyncOplogIterator (id a) i s)) = Some i).
Proof.
  intros Hab Ha id.
  assert (∀ x, ufits 32 (OnGoingSyncOplogsStore.nextSyncOplogIdCounter x) →
    id x = OnGoingSyncOplogsStore.nextSyncOplogIdCounter x) as Hid.
  { intros x Hx. unfold id, OnGoingSyncOplogsStore.nextSyncOplogId. cbn [snd]. unfold wrap.
    rewrite <- (Z.land_ones _ 32) by lia. rewrite Z.land_lor_distr_l, !Z.land_ones by lia.
    rewrite (Z.mod_small (OnGoingSyncOplogsStore.nextSyncOplogIdCounter x)) by exact Hx.
    rewrite Z.shiftl_mul_pow2 by lia.
    change (2 ^ 64) with (2 ^ 32 * 2 ^ 32). rewrite Z.mul_mod_distr_r by lia. by rewrite Z_mod_mult, Z.lor_0_l. }
  rewrite (Hid a) by done. rewrite (Hid b) by (by rewrite <- Hab). rewrite Hab. split; [done|].
  unfold OnGoingSyncOplogsStore.getSenderIteratorById, OnGoingSyncOplogsStore.registerSyncOplogIterator.
  intros Hn. destruct (OnGoingSyncOplogsStore.onGoingSyncOplogsById s !! _) eqn:E; [done|]. cbn.
  rewrite lookup_insert_eq. cbn. by rewrite lookup_insert_eq.
Qed.
