(* ===== verification/CounterReplication.v ===== *)
(** * Replicating a counter

    Models the task [UpdateCounterOperator::replicate] gives to the pool of requests: the
    requests it makes for the nodes of the key's partition, the tasks that send them, and the
    callback that joins what the nodes answer.  Three things are shared by copies: the counter's
    arrays and mapper (the heap of SharedCounters), the vector of arguments behind every copy of
    the request builder, and the responses.  The tasks and the registration of the callback
    happen in any order; each of them is one step. *)

From S2P Require Import Prelude.
From S2P Require Import Utils.
From S2P Require Import Clock.
From S2P Require Import Counters.
From S2P Require Import SharedCounters.
From S2P Require Import Avl.
From S2P Require Import MapStore.
From S2P Require Import Messages.
From S2P Require Import Config.
From S2P Require Import Segments.
From S2P Require Import Oplog.
From S2P Require Import Cluster.
From S2P Require Import ClusterFacade.
From S2P Require Import OperatorTypes.
From S2P Require Import Operators.
From S2P Require Import Dispatcher.
From S2P Require Import OperatorFacts.

Module CounterReplication.

(** What the closures of one replication captured.  [counter] is a copy of the stored object. *)
Record job := mk_job {
  key : SimpleString.t;
  newUpdatedValue : Z;
  counter : SharedCounter.t;
  replicateCounterRequest : RequestBuilder.t;
  nRetries : nat;
}.

(** What the tasks of one replication share.  [args] is the vector the builder's shared pointer
    refers to, [callbacks] the counters inside the registered callbacks, [pending] the nodes
    whose task has not run. *)
Record state (W : Type) := mk {
  clusterNodes : ClusterNodes.t;
  network : W;
  memory : cheap;
  args : list SimpleString.t;
  responses : MultipleResponses.t;
  callbacks : list SharedCounter.t;
  pending : list Z;
}.
Arguments mk {W}.
Arguments clusterNodes {W}.
Arguments network {W}.
Arguments memory {W}.
Arguments args {W}.
Arguments responses {W}.
Arguments callbacks {W}.
Arguments pending {W}.

Section replication.
Context {W : Type} {N : Network W}.

(** The task of [UpdateCounterOperator::replicate] up to the end of
    [ClusterNodes::broadcastForEachAndWait]: one task for every node of the key's partition. *)
Definition replicate `{Platform} {Env : Environment} (c : Cluster.t) (operation : OperationBody.t)
    (newUpdatedValue : Z) (counter : SharedCounter.t) (w : W) (h : cheap) : outcome (job * state W) :=
  let! key := OperationBody.getArg operation 0 in
  let! partitionId := Cluster.getPartitionIdByKey c key in
  let! authKey := Configuration.get (Cluster.configuration c) ConfigurationKeys.AUTH_NODE_KEY in
  let replicateCounterRequest :=
    RequestBuilder.operatorFlag1 (OperationBody.flag1 operation)
      (RequestBuilder.operatorNumber OperatorNumbers.REPLICATE_COUNTER
        (RequestBuilder.authKey (bytes_of_string authKey) RequestBuilder.builder)) in
  let! nodes := deref (Cluster.clusterNodes c) in
  let! nodesInPartition := at_undef (ClusterNodes.nodesInPartitions nodes) (Z.to_nat partitionId) in
  let! nRetries := ClusterNodes.numberRetries nodes in
  let! ids := ClusterNodes.nodesOfPartition (Z.to_nat partitionId) nodes in
  Ret (mk_job key newUpdatedValue counter replicateCounterRequest nRetries,
       mk nodes w h (RequestBuilder._args replicateCounterRequest)
         (MultipleResponses.make (Z.of_nat (size nodesInPartition))) [] ids).

(** The request of a node: its arguments are added to the vector all the builders share. *)
Definition create (j : job) (nodeId : Z) : stM (cheap * list SimpleString.t) OperationBody.t := λ '(h, v),
  let! (h, p) := SharedCounter.getLastSeen (counter j) nodeId h in
  let '(lastSeenIncrement, lastSeenDecrement) := p in
  let builder :=
    RequestBuilder.addDoubleArg (u64 lastSeenDecrement)
      (RequestBuilder.addDoubleArg (u64 lastSeenIncrement)
        (RequestBuilder.addDoubleArg (u64 (newUpdatedValue j))
          (RequestBuilder.addArg (key j) (RequestBuilder.args v (replicateCounterRequest j))))) in
  Ret ((h, RequestBuilder._args builder), RequestBuilder.buildOperationBody builder).

(** [UpdateCounterOperator::onReplicationCounterResponse], on the callback's counter. *)
Definition onReplicationCounterResponse (response : Response.t) (counter : SharedCounter.t) : stM cheap SharedCounter.t :=
  a ← lift (Response.getResponseValueAtOffset response 0 8);
  nIncrementToSync ← lift (SimpleString.to 8 true a);
  b ← lift (Response.getResponseValueAtOffset response 8 8);
  nDecrementToSync ← lift (SimpleString.to 8 true b);
  c ← lift (Response.getResponseValueAtOffset response 16 2);
  otherNodeId ← lift (SimpleString.to 2 false c);
  counter ← (if 0 <? nIncrementToSync then SharedCounter.syncIncrement counter nIncrementToSync otherNodeId else mret counter);
  if 0 <? nDecrementToSync then SharedCounter.syncDecrement counter nDecrementToSync otherNodeId else mret counter.

(** [MultipleResponsesNotifier::addResponse] calls the callbacks registered so far. *)
Fixpoint run_callbacks (response : Response.t) (l : list SharedCounter.t) : stM cheap (list SharedCounter.t) :=
  match l with
  | [] => mret []
  | k :: l => k ← onReplicationCounterResponse response k; l ← run_callbacks response l; mret (k :: l)
  end.

(** The task of one node; the response it counted. *)
Definition task (j : job) (id : Z) : stM (state W) (option Response.t) := λ s,
  let! (hv, operation) := create j id (memory s, args s) in
  let! request := ClusterNodes.prepareRequest operation (clusterNodes s) in
  let! (w, result) := ClusterNodes.retrySend (nRetries j) id request (network s) in
  let c := ClusterNodes.keep_hint true id request result (clusterNodes s) in
  let! ok := ClusterNodes.result_isSuccessful result in
  let rest := remove Z.eq_dec id (pending s) in
  match result with
  | Some r =>
      if (ok : bool) then
        let! (h, ks) := run_callbacks r (callbacks s) hv.1 in
        Ret (mk c w h hv.2 (MultipleResponses.addResponse id r (responses s)) ks rest, Some r)
      else Ret (mk c w hv.1 hv.2 (responses s) (callbacks s) rest, None)
  | None => Ret (mk c w hv.1 hv.2 (responses s) (callbacks s) rest, None)
  end.

(** [responses->onResponse]: the callback gets its own copy of the counter. *)
Definition register (j : job) (s : state W) : state W :=
  mk (clusterNodes s) (network s) (memory s) (args s) (responses s) (callbacks s ++ [counter j]) (pending s).

(** What a response asks the callback to join. *)
Definition joins (response : Response.t) : outcome (list action) :=
  let! a := Response.getResponseValueAtOffset response 0 8 in
  let! nIncrementToSync := SimpleString.to 8 true a in
  let! b := Response.getResponseValueAtOffset response 8 8 in
  let! nDecrementToSync := SimpleString.to 8 true b in
  let! c := Response.getResponseValueAtOffset response 16 2 in
  let! otherNodeId := SimpleString.to 2 false c in
  Ret ((if 0 <? nIncrementToSync then [Join true nIncrementToSync otherNodeId] else []) ++
       (if 0 <? nDecrementToSync then [Join false nDecrementToSync otherNodeId] else [])).

(** The node a request is made for is looked up when its identifier is below [nNodes]. *)
Definition looks (j : job) (id : Z) : list action := if SharedCounter.nNodes (counter j) <=? id then [] else [Look id].

(** One step of a replication, labelled with what it does to the counter. *)
Inductive step (j : job) : state W → list action → state W → Prop :=
| step_register s : callbacks s = [] → step j s [] (register j s)
| step_unheard id s s' r :
    id ∈ pending s → task j id s = Ret (s', r) → r = None ∨ callbacks s = [] → step j s (looks j id) s'
| step_heard id s s' r k l :
    id ∈ pending s → task j id s = Ret (s', Some r) → callbacks s = [k] → joins r = Ret l →
    step j s (looks j id ++ l) s'.

Inductive runs (j : job) : state W → list action → state W → Prop :=
| runs_nil s : runs j s [] s
| runs_snoc s l s1 l' s' : runs j s l s1 → step j s1 l' s' → runs j s (l ++ l') s'.

End replication.
End CounterReplication.

Import CounterReplication.

(** ** Copies under way *)

Lemma shared_actions_app l1 l2 k h :
  shared_actions (l1 ++ l2) k h = let! (h, k) := shared_actions l1 k h in shared_actions l2 k h.
Proof.
  revert k h. induction l1 as [|[n|b v n] l1 IH]; intros k h; simpl; [done| |]; unfold mbind, stM_bind.
  - destruct (SharedCounter.getIndexByNode k n h) as [[]| | | |]; simpl; auto.
  - destruct (shared_sync b k v n h) as [[]| | | |]; simpl; auto.
Qed.

(** The callback performs the joins of a response. *)
Lemma response_actions r k h :
  onReplicationCounterResponse r k h = let! l := joins r in shared_actions l k h.
Proof.
  unfold onReplicationCounterResponse, joins, mbind, stM_bind, lift.
  destruct (Response.getResponseValueAtOffset r 0 8) as [a| | | |]; [|done..]. cbn [obind].
  destruct (SimpleString.to 8 true a) as [i| | | |]; [|done..]. cbn [obind].
  destruct (Response.getResponseValueAtOffset r 8 8) as [b| | | |]; [|done..]. cbn [obind].
  destruct (SimpleString.to 8 true b) as [d| | | |]; [|done..]. cbn [obind].
  destruct (Response.getResponseValueAtOffset r 16 2) as [c| | | |]; [|done..]. cbn [obind].
  destruct (SimpleString.to 2 false c) as [n| | | |]; [|done..]. cbn [obind].
  rewrite shared_actions_app. destruct (0 <? i), (0 <? d); simpl; unfold mbind, stM_bind, mret, stM_ret, shared_sync; simpl.
  - destruct (SharedCounter.syncIncrement k i n h) as [[h1 k1]| | | |]; simpl; [|done..].
    by destruct (SharedCounter.syncDecrement k1 d n h1) as [[]| | | |].
  - by destruct (SharedCounter.syncIncrement k i n h) as [[]| | | |].
  - by destruct (SharedCounter.syncDecrement k d n h) as [[]| | | |].
  - done.
Qed.

Lemma maybeResizeCounters_mapper k i h h' k' :
  SharedCounter.maybeResizeCounters k i h = Ret (h', k') →
  SharedCounter.arrayNodeIndexMapper k' = SharedCounter.arrayNodeIndexMapper k.
Proof.
  unfold SharedCounter.maybeResizeCounters. destruct (_ <=? _).
  - intros (h1 & a & _ & H1)%stM_bind_inv. apply stM_bind_inv in H1 as (h2 & b & _ & H2). by apply Ret_inj in H2; simplify_eq.
  - intros E. by apply Ret_inj in E; simplify_eq.
Qed.

Lemma shared_actions_mapper l k h h' k' :
  shared_actions l k h = Ret (h', k') →
  SharedCounter.arrayNodeIndexMapper k' = SharedCounter.arrayNodeIndexMapper k.
Proof.
  revert k h. induction l as [|[n|b v n] l IH]; intros k h; simpl.
  - intros E. by apply Ret_inj in E; simplify_eq.
  - intros (h1 & i & _ & E)%stM_bind_inv. by eapply IH.
  - intros (h1 & k1 & E1 & E)%stM_bind_inv. rewrite (IH _ _ E). clear IH E.
    destruct b; simpl in E1; apply stM_bind_inv in E1 as (h2 & i & _ & E1);
      apply stM_bind_inv in E1 as (h3 & k2 & E2 & E1); apply stM_bind_inv in E1 as (h4 & u & _ & E1);
      apply Ret_inj in E1; simplify_eq; by eapply maybeResizeCounters_mapper.
Qed.

(** The arguments one request adds. *)
Definition chunk (j : job) (inc dec : Z) : list SimpleString.t :=
  [key j] ++ words (u64 (newUpdatedValue j)) ++ words (u64 inc) ++ words (u64 dec).

(** Making a request only looks the node up, and adds seven arguments to those already there. *)
Lemma create_inv j id h v h' v' o k :
  create j id (h, v) = Ret ((h', v'), o) →
  SharedCounter.arrayNodeIndexMapper k = SharedCounter.arrayNodeIndexMapper (counter j) →
  shared_actions (looks j id) k h = Ret (h', k) ∧
  ∃ inc dec, SharedCounter.getLastSeen (counter j) id h = Ret (h', (inc, dec)) ∧
    v' = v ++ chunk j inc dec ∧ OperationBody.args o = Some v'.
Proof.
  intros E Hk. unfold create in E.
  destruct (SharedCounter.getLastSeen (counter j) id h) as [[h1 [inc dec]]| | | |] eqn:Eg; try discriminate.
  cbn [obind] in E. apply Ret_inj in E. apply pair_equal_spec in E as [E <-]. apply pair_equal_spec in E as [-> <-]. split.
  - unfold looks. unfold SharedCounter.getLastSeen in Eg. destruct (_ <=? id); [apply Ret_inj in Eg; by simplify_eq|].
    apply stM_bind_inv in Eg as (h2 & i & Ei & Eg). simpl. unfold mbind, stM_bind.
    assert (SharedCounter.getIndexByNode k id h = Ret (h2, i)) as ->
      by (rewrite <- Ei; unfold SharedCounter.getIndexByNode; by rewrite Hk).
    simpl. apply stM_bind_inv in Eg as (h3 & x & Ex & Eg). apply stM_bind_inv in Eg as (h4 & y & Ey & Eg).
    apply Ret_inj in Eg. unfold CounterHeap.read in Ex, Ey. inv_ret. by simplify_eq.
  - exists inc, dec. split; [done|]. rewrite !addDoubleArg_words by (apply wrap_ufits; lia).
    cbn [RequestBuilder.args RequestBuilder._args RequestBuilder.addArg RequestBuilder.buildOperationBody OperationBody.args].
    unfold chunk. rewrite <- !app_assoc. done.
Qed.

Section facts.
Context {W : Type} {N : Network W}.
Implicit Types (s : state W) (j : job).

Lemma task_inv j id s s' r :
  task j id s = Ret (s', r) →
  ∃ h v o, create j id (memory s, args s) = Ret ((h, v), o) ∧ args s' = v ∧
    match r with
    | Some resp => run_callbacks resp (callbacks s) h = Ret (memory s', callbacks s')
    | None => memory s' = h ∧ callbacks s' = callbacks s
    end.
Proof.
  unfold task. intros E. destruct (create j id (memory s, args s)) as [[[h v] o]| | | |]; try discriminate.
  exists h, v, o. split; [done|]. cbn [obind] in E.
  destruct (ClusterNodes.prepareRequest o (clusterNodes s)) as [q| | | |]; try discriminate. cbn [obind] in E.
  destruct (ClusterNodes.retrySend (nRetries j) id q (network s)) as [[w [resp|]]| | | |]; try discriminate. cbn [obind] in E.
  simpl in E. destruct (Response.isSuccessful resp).
  - destruct (run_callbacks resp (callbacks s) h) as [[h' ks]| | | |] eqn:Ec; try discriminate. cbn [obind] in E.
    apply Ret_inj in E. by simplify_eq.
  - apply Ret_inj in E. by simplify_eq.
Qed.

(** The callback and the heap after a run are those of the actions made one after the other
    through one copy. *)
Lemma runs_actions j s l s' :
  runs j s l s' → callbacks s = [] →
  ∃ k, shared_actions l (counter j) (memory s) = Ret (memory s', k) ∧
    (callbacks s' = [] ∧ k = counter j ∨ callbacks s' = [k]).
Proof.
  intros H Hs. induction H as [|s l s1 l' s' _ IH Hstep]; [exists (counter j); auto|].
  destruct (IH Hs) as (k & Ek & Hk). pose proof (shared_actions_mapper _ _ _ _ _ Ek) as Hm.
  rewrite shared_actions_app, Ek. cbn [obind]. destruct Hstep as [s1 Hc|id s1 s' r Hid Et Hr|id s1 s' r k1 l2 Hid Et Hc Ej].
  - destruct Hk as [[_ ->] |Hk]; [|congruence]. exists (counter j). split; [done|]. right. simpl. by rewrite Hc.
  - apply task_inv in Et as (h & v & o & Ec & _ & Em). destruct (create_inv _ _ _ _ _ _ _ k Ec Hm) as [El _].
    exists k. destruct r as [r|].
    + destruct Hr as [?|Hc]; [done|]. rewrite Hc in Em. simpl in Em. apply Ret_inj in Em. simplify_eq.
      split; [congruence|]. destruct Hk as [[_ ->] |Hk]; [by left|congruence].
    + destruct Em as [Em1 Em2]. rewrite Em1, Em2. split; [done|]. naive_solver.
  - apply task_inv in Et as (h & v & o & Ec & _ & Em). destruct Hk as [[? _] |Hk]; [congruence|].
    rewrite Hc in Hk. injection Hk as <-. destruct (create_inv _ _ _ _ _ _ _ k1 Ec Hm) as [El _].
    rewrite shared_actions_app, El. cbn [obind]. rewrite Hc in Em. simpl in Em.
    apply stM_bind_inv in Em as (h2 & k2 & E2 & Em). rewrite response_actions, Ej in E2. cbn [obind] in E2.
    apply Ret_inj in Em. simplify_eq. exists k2. split; [congruence|by right].
Qed.
End facts.

(** ** What a replication does to the counter *)

Section effect.
Context {W : Type} {N : Network W}.
Implicit Types (s : state W) (j : job).

(** C7: what a replication does to the stored counter, whatever the order in which the tasks
    run, the nodes answer and the callback is registered: the totals answered after the
    registration are joined one after the other, up to the first answer of a node whose index
    lies beyond the arrays the task captured; that answer and all later ones are lost, and so
    are the answers that came before the registration. *)
Theorem replication_reaches_counter j s l s' c :
  points (memory s) (counter j) c → wf c → callbacks s = [] → Forall action_ok l → runs j s l s' →
  ∃ c' cr, points (memory s') (counter j) c' ∧ wf c' ∧ reaching c l = Ret cr ∧ same_view cr c'.
Proof.
  intros P Wf Hc Hl H. destruct (runs_actions j s l s' H Hc) as (k & Ek & _).
  destruct (copy_actions_reach_prefix _ _ _ l P Wf Hl) as (h' & k' & c' & cr & E & Hr & W' & P' & V').
  rewrite Ek in E. apply Ret_inj in E. simplify_eq. by exists c', cr.
Qed.

Definition is_look (a : action) : Prop := match a with Look _ => True | Join _ _ _ => False end.

Lemma reaching_looks l c :
  wf c → Forall action_ok l → Forall is_look l → ∃ c', reaching c l = Ret c' ∧ same_view c c'.
Proof.
  intros Wf Hok. revert c Wf. induction Hok as [|a l Ha _ IH]; intros c Wf H; [by exists c|].
  inversion H as [|? ? Ha' H']; subst. destruct a as [n|]; [|done]. simpl.
  destruct (Counter.getIndexByNode c n) as [c1 i] eqn:E.
  destruct (getIndexByNode_spec _ _ _ _ Wf Ha E) as (W1 & V1 & _). destruct (IH c1 W1 H') as (c' & E' & V').
  exists c'. split; [done|]. by trans c1.
Qed.

(** When every node has answered before the callback is registered, no total is joined. *)
Theorem answers_before_registration_lost j s l s' c :
  points (memory s) (counter j) c → wf c → callbacks s = [] → Forall action_ok l → runs j s l s' →
  Forall is_look l → ∃ c', points (memory s') (counter j) c' ∧ same_view c c'.
Proof.
  intros P Wf Hc Hl H Hlook. destruct (runs_actions j s l s' H Hc) as (k & Ek & _).
  destruct (copy_actions_reach_prefix _ _ _ l P Wf Hl) as (h' & k' & c' & cr & E & Hr & _ & P' & V').
  rewrite Ek in E. apply Ret_inj in E. simplify_eq.
  destruct (reaching_looks l c Wf Hl Hlook) as (c2 & E2 & V2). rewrite Hr in E2. simplify_eq.
  exists c'. split; [done|]. by trans c2.
Qed.

(** ** The arguments of the requests *)

Lemma step_args j s l s' : step j s l s' → ∃ more, args s' = args s ++ more.
Proof.
  assert (∀ id s s' r, task j id s = Ret (s', r) → ∃ more, args s' = args s ++ more) as G.
  { intros id s1 s1' r E. apply task_inv in E as (h & v & o & Ec & -> & _).
    destruct (create_inv _ _ _ _ _ _ _ (counter j) Ec eq_refl) as [_ (inc & dec & _ & -> & _)]. eauto. }
  intros [s1 Hc|id s1 s1' r _ E _|id s1 s1' r k l1 _ E _ _]; [exists []; by rewrite app_nil_r|eauto..].
Qed.

Lemma runs_args j s l s' : runs j s l s' → ∃ more, args s' = args s ++ more.
Proof.
  induction 1 as [s|s l s1 l' s' _ [m1 IH] Hs]; [exists []; by rewrite app_nil_r|].
  apply step_args in Hs as [m2 ->]. exists (m1 ++ m2). by rewrite IH, app_assoc.
Qed.

(** C32: the requests of one replication share one vector of arguments, so the request of every
    node but the first begins with the arguments of the first.  A receiver reads them by
    position: at 0, 1 and 3 it finds the key, the new total and the increments the first node is
    known to have, not its own, and at 4, where it looks for the last decrement seen, the low
    word of those increments followed by the high word of the decrements, as the first node
    does; the first node's decrements are at 5, where no receiver looks. *)
Theorem later_requests_repeat_first j id1 s s1 r1 h1 inc dec l s2 id h v o :
  args s = [] → SharedCounter.getLastSeen (counter j) id1 (memory s) = Ret (h1, (inc, dec)) →
  task j id1 s = Ret (s1, r1) → runs j s1 l s2 → create j id (memory s2, args s2) = Ret ((h, v), o) →
  ufits 63 (newUpdatedValue j) → ufits 63 inc → ufits 63 dec →
  OperationBody.getArg o 0 = Ret (key j) ∧
  OperationBody.getDoubleArgU64 o 1 = Ret (newUpdatedValue j) ∧
  OperationBody.getDoubleArgU64 o 3 = Ret inc ∧
  OperationBody.getDoubleArgU64 o 4 = Ret (low inc * 2 ^ 32 + high dec) ∧
  OperationBody.getDoubleArgU64 o 5 = Ret dec.
Proof.
  intros Hs Hg Et Hr Ec Fn Fi Fd.
  apply (ufits_mono 63 64) in Fn, Fi, Fd; [|lia..].
  apply task_inv in Et as (hh & v1 & o1 & E1 & Ha & _).
  destruct (create_inv _ _ _ _ _ _ _ (counter j) E1 eq_refl) as [_ (i1 & d1 & G1 & Hv1 & _)].
  rewrite Hg in G1. apply Ret_inj in G1. simplify_eq.
  apply runs_args in Hr as [more Hmore]. rewrite Hv1, Hs in Hmore.
  destruct (create_inv _ _ _ _ _ _ _ (counter j) Ec eq_refl) as [_ (i2 & d2 & _ & Hv2 & Ho)].
  assert (OperationBody.args o = Some (([key j] ++ words (newUpdatedValue j) ++ words i1 ++ words d1) ++
    (more ++ chunk j i2 d2))) as Hargs.
  { rewrite Ho, Hv2, Hmore. unfold chunk. rewrite !(wrap_small 64) by done. rewrite <- !app_assoc. done. }
  destruct (words_fit (newUpdatedValue j) Fn) as (N1 & N2 & N3), (words_fit i1 Fi) as (I1 & I2 & I3),
    (words_fit d1 Fd) as (D1 & D2 & D3).
  split; [unfold OperationBody.getArg, OperationBody.the_args; by rewrite Hargs|]. split; [|split; [|split] ].
  - rewrite <- N3. by eapply getDouble_words.
  - rewrite <- I3. by eapply getDouble_words.
  - by eapply getDouble_words.
  - rewrite <- D3. by eapply getDouble_words.
Qed.
End effect.

(** ** The answer of the other node *)

(** The value of an answer to REPLICATE_COUNTER. *)
Definition answer_value (inc dec id : Z) : bytes := be_bytes 8 inc ++ be_bytes 8 dec ++ be_bytes 2 id.

Lemma value_field r pre n v rest off :
  SimpleString.data (Response.responseValue r) = pre ++ be_bytes n v ++ rest → off = length pre →
  Response.getResponseValueAtOffset r off n = Ret (SimpleString.mk (be_bytes n v) (u32 (Z.of_nat n))).
Proof.
  intros Hd ->. unfold Response.getResponseValueAtOffset, SimpleString.fromPointer. rewrite Hd, drop_app_length.
  rewrite <- (length_be_bytes n v) at 2. by rewrite appendPtrToBuffer_app.
Qed.

Lemma to_bytes n signed v size :
  (0 < n)%nat → SimpleString.to n signed (SimpleString.mk (be_bytes n v) size) = Ret (Utils.to_T n signed v).
Proof. intros Hn. unfold SimpleString.to. cbn [SimpleString.data]. rewrite <- (app_nil_r (be_bytes n v)). by rewrite parse_be_bytes. Qed.

Lemma joins_answer r inc dec id :
  SimpleString.data (Response.responseValue r) = answer_value inc dec id →
  ufits 63 inc → ufits 63 dec → ufits 16 id →
  joins r = Ret ((if 0 <? inc then [Join true inc id] else []) ++ (if 0 <? dec then [Join false dec id] else [])).
Proof.
  intros Hd Hi Hdec Hid. unfold joins, answer_value in *.
  assert (∀ x, ufits 63 x → sext 64 x = x) as Hs by (intros x Hx; apply sext_small; unfold ufits, sfits in *; simpl; lia).
  rewrite (value_field r [] 8 inc (be_bytes 8 dec ++ be_bytes 2 id) 0) by done. cbn [obind].
  rewrite to_bytes by lia. cbn [obind Utils.to_T].
  rewrite (value_field r (be_bytes 8 inc) 8 dec (be_bytes 2 id) 8) by (by rewrite ?length_be_bytes). cbn [obind].
  rewrite to_bytes by lia. cbn [obind Utils.to_T].
  rewrite (value_field r (be_bytes 8 inc ++ be_bytes 8 dec) 2 id [] 16)
    by (rewrite ?app_nil_r, ?length_app, ?length_be_bytes, <- ?app_assoc; done). cbn [obind].
  rewrite to_bytes by lia. cbn [obind Utils.to_T].
  change (8 * Z.of_nat 8) with 64. change (8 * Z.of_nat 2) with 16. rewrite !Hs by done. by rewrite wrap_small.
Qed.

(** The response [ReplicateCounterOperator::operate] builds. *)
Lemma answer_built inc dec id :
  ∃ r, ResponseBuilder.build (ResponseBuilder.values
      [SimpleString.fromVector (Utils.appendToBuffer 8 dec (Utils.appendToBuffer 8 inc [])); SimpleString.fromNumber 2 id]
      (ResponseBuilder.success ResponseBuilder.builder)) = Ret r ∧
    Response.isSuccessful r = true ∧ SimpleString.data (Response.responseValue r) = answer_value inc dec id.
Proof.
  rewrite !appendToBuffer_be. cbn [app].
  assert (SimpleString.fromVector (be_bytes 8 inc ++ be_bytes 8 dec) =
    SimpleString.mk (be_bytes 8 inc ++ be_bytes 8 dec) 16) as ->.
  { unfold SimpleString.fromVector, SimpleString.of_bytes. rewrite length_app, !length_be_bytes.
    destruct (be_bytes 8 inc) eqn:E; [|done]. pose proof (length_be_bytes 8 inc) as L. by rewrite E in L. }
  assert (SimpleString.fromNumber 2 id = SimpleString.mk (be_bytes 2 id) 2) as ->
    by (rewrite <- (fromNumber_be 2 id); done).
  unfold ResponseBuilder.build, ResponseBuilder.buildResponseValue, SimpleString.fromSimpleStrings.
  cbn [ResponseBuilder._responseValue ResponseBuilder.values ofoldl SimpleString.data SimpleString.size obind foldl].
  assert (∀ l out, Utils.appendPtrToBuffer l (length l) out = Ret (out ++ l)) as Ha.
  { intros l out. rewrite <- (app_nil_r l) at 1. apply appendPtrToBuffer_app. }
  replace (Z.to_nat 16) with (length (be_bytes 8 inc ++ be_bytes 8 dec)) by (by rewrite length_app, !length_be_bytes).
  replace (Z.to_nat 2) with (length (be_bytes 2 id)) by (by rewrite length_be_bytes).
  rewrite Ha. cbn [obind]. rewrite Ha. cbn [obind]. eexists. split; [done|]. split; [done|].
  cbn [Response.responseValue SimpleString.data app]. unfold answer_value. by rewrite app_assoc.
Qed.

Section exchange.
Context `{Platform} `{Zlib} {Env : Environment} {Wt : Waiting} {W : Type} {N : Network W} {CH : ChangeHandlers W}.

Definition request_of (operation : OperationBody.t) (newValue lastSeenIncrement lastSeenDecrement : Z) :
    Counter.ReplicateCounterRequest :=
  Counter.mk_request (OperationBody.nodeId operation) (OperationBody.flag1 operation) newValue lastSeenIncrement lastSeenDecrement.

(** The counter's part of the operator, whatever the decrement it takes for the last one seen. *)
Lemma apply_answers (n : node W) operation pid e m c self newValue lastInc lastDec :
  stores n !! pid = Some m → Map.datas m !! Avl.e_data e = Some (Avl.CounterAVLNode c) →
  Cluster.getNodeId (cluster n) = Ret self → Counter.selfNodeId c = self →
  wf c → has_slot c self → ufits 16 (OperationBody.nodeId operation) →
  0 ≤ lastInc → newValue < 2 ^ 63 → (∀ x, inc c x < 2 ^ 63 ∧ dec c x < 2 ^ 63) →
  ∃ n' r c' m', Operators.replicateCounter_apply operation pid newValue lastInc lastDec e n = Ret (n', r) ∧
    Response.isSuccessful r = true ∧
    stores n' !! pid = Some m' ∧ Map.datas m' !! Avl.e_data e = Some (Avl.CounterAVLNode c') ∧
    joined (OperationBody.flag1 operation) (OperationBody.nodeId operation) newValue c c' ∧
    joins r = Ret ((if lastInc <? inc c' self then [Join true (inc c' self) self] else []) ++
                   (if (lastDec <? dec c' self) && (0 <? dec c' self) then [Join false (dec c' self) self] else [])).
Proof.
  intros Hm Hd Hid Hself Wf Hs Hop Hli Hnv Hmax.
  destruct (onReplicationCounter_spec c (request_of operation newValue lastInc lastDec)) as (c' & Er & J);
    [done|by rewrite Hself|done|].
  pose proof (jn_wf _ _ _ _ _ J) as W'. pose proof (view_nonneg c' self W') as [V1 V2].
  assert (inc c' self < 2 ^ 63 ∧ dec c' self < 2 ^ 63) as [B1 B2].
  { rewrite (jn_inc _ _ _ _ _ J), (jn_dec _ _ _ _ _ J). destruct (Hmax self), (Hmax (OperationBody.nodeId operation)).
    destruct (Counter.isIncrement _); destruct (decide _); simpl; lia. }
  assert (Counter.selfNodeId c' = self) as Hself' by (rewrite (jn_self _ _ _ _ _ J); done).
  set (a := if lastInc <? inc c' self then inc c' self else 0).
  set (b := if lastDec <? dec c' self then dec c' self else 0).
  destruct (answer_built a b self) as (r & Eb & Hok & Hval).
  assert (ufits 16 self) as Hself16 by (rewrite <- Hself; apply Wf).
  assert (ufits 63 a ∧ ufits 63 b) as [Fa Fb].
  { unfold a, b, ufits. destruct (_ <? _), (_ <? _); lia. }
  assert (joins r = Ret ((if lastInc <? inc c' self then [Join true (inc c' self) self] else []) ++
    (if (lastDec <? dec c' self) && (0 <? dec c' self) then [Join false (dec c' self) self] else []))) as Hj.
  { rewrite (joins_answer r a b self Hval Fa Fb Hself16). unfold a, b. do 2 f_equal.
    - destruct (Z.ltb_spec lastInc (inc c' self)); [|done]. destruct (Z.ltb_spec 0 (inc c' self)); [done|lia].
    - by destruct (lastDec <? dec c' self). }
  eexists _, r, c', _. split; [|split; [exact Hok|]].
  - unfold Operators.replicateCounter_apply.
    erewrite stM_bind_Ret.
    2:{ unfold on_store, MemDbStores.getByPartitionId. rewrite Hm. cbn [of_option obind].
        unfold Map.on_counter, with_clock. cbn [Map.datas]. rewrite Hd. unfold request_of in Er. rewrite Er. reflexivity. }
    cbn beta. erewrite stM_bind_Ret.
    2:{ unfold Operators.getNodeId, reads. cbn [cluster set_store]. rewrite Hid. reflexivity. }
    cbn beta. unfold replication_response, Operators.respond, lift. rewrite Hself'.
    cbn [Counter.needsIncrementSync Counter.needsDecrementSync Counter.nIncrementToSync Counter.nDecrementToSync
         Counter.lastSeenSelfIncrement Counter.lastSeenSelfDecrement request_of].
    replace (if lastInc <? inc c' self then if lastInc <? inc c' self then inc c' self else 0 else 0) with a
      by (unfold a; destruct (lastInc <? inc c' self); reflexivity).
    replace (if lastDec <? dec c' self then if lastDec <? dec c' self then dec c' self else 0 else 0) with b
      by (unfold b; destruct (lastDec <? dec c' self); reflexivity).
    rewrite Eb. reflexivity.
  - split; [apply (lookup_insert_eq (stores n : gmap Z Map.t))|].
    cbn [Map.datas]. rewrite lookup_insert_eq. split; [done|]. split; [exact J|exact Hj].
Qed.

(** What the receiver takes for the last decrement seen: the low word of the last increment
    followed by the high word of the last decrement, as a signed number. *)
Definition misread_decrement (lastInc lastDec : Z) : Z := i64 (low lastInc * 2 ^ 32 + high lastDec).

Lemma operate_decodes (n n1 : node W) operation options key e newValue lastInc lastDec :
  OperationBody.args operation =
    OperationBody.args (Operators.replicate_operation (OperationBody.flag1 operation) key newValue lastInc lastDec) →
  ufits 63 newValue → ufits 63 lastInc → ufits 63 lastDec →
  on_store (OperationOptions.partitionId options) (Map.get key) n = Ret (n1, Some e) → Avl.e_type e = Avl.COUNTER →
  Operators.replicateCounter_operate operation options n =
  Operators.replicateCounter_apply operation (OperationOptions.partitionId options) newValue lastInc
    (misread_decrement lastInc lastDec) e n1.
Proof.
  intros Ha Fn Fi Fd Hg He. unfold Operators.replicateCounter_operate.
  destruct (replicate_counter_misreads (OperationBody.flag1 operation) key newValue lastInc lastDec Fn Fi Fd)
    as (A1 & A3 & _ & A4).
  assert (∀ i, OperationBody.getDoubleArgU64 operation i = OperationBody.getDoubleArgU64
    (Operators.replicate_operation (OperationBody.flag1 operation) key newValue lastInc lastDec) i) as Hdouble
    by (intros i; unfold OperationBody.getDoubleArgU64, OperationBody.getArg, OperationBody.the_args; by rewrite Ha).
  assert (∀ v, ufits 63 v → i64 v = v) as Hs
    by (intros v Hv; apply sext_small; unfold ufits, sfits in *; change (2 ^ (64 - 1)) with (2 ^ 63); lia).
  erewrite stM_bind_Ret; [cbn beta|].
  2:{ unfold on_store in Hg. unfold Operators.store_exists, reads.
      destruct (MemDbStores.getByPartitionId (stores n) (OperationOptions.partitionId options)); try discriminate Hg.
      reflexivity. }
  erewrite stM_bind_Ret; [cbn beta|].
  2:{ apply arg_ok. unfold OperationBody.getArg, OperationBody.the_args. rewrite Ha. reflexivity. }
  unfold Operators.double_arg, lift.
  erewrite stM_bind_Ret by (rewrite Hdouble, A1; reflexivity). cbn beta.
  erewrite stM_bind_Ret by (rewrite Hdouble, A3; reflexivity). cbn beta.
  erewrite stM_bind_Ret by (rewrite Hdouble, A4; reflexivity). cbn beta.
  erewrite stM_bind_Ret by exact Hg. cbn beta iota.
  rewrite decide_False by (intros Hne; by apply Hne). unfold misread_decrement. by rewrite (Hs newValue), (Hs lastInc) by done.
Qed.

(** C28: one exchange between two nodes, from the arguments the sender builds to the answer its
    callback reads, for a key that holds a counter at the receiver.  The receiver joins the
    sender's new total into its counter; it answers its own increments exactly when they are
    more than the request said had been seen; its own decrements it compares not with the
    decrements the request said had been seen but with the low word of the last increment
    followed by the high word of the last decrement ([misread_decrement]). *)
Theorem counter_exchange (n n1 : node W) operation options key e m c self newValue lastInc lastDec :
  let pid := OperationOptions.partitionId options in
  OperationBody.args operation =
    OperationBody.args (Operators.replicate_operation (OperationBody.flag1 operation) key newValue lastInc lastDec) →
  ufits 63 newValue → ufits 63 lastInc → ufits 63 lastDec → ufits 16 (OperationBody.nodeId operation) →
  on_store pid (Map.get key) n = Ret (n1, Some e) → Avl.e_type e = Avl.COUNTER →
  stores n1 !! pid = Some m → Map.datas m !! Avl.e_data e = Some (Avl.CounterAVLNode c) →
  Cluster.getNodeId (cluster n) = Ret self → Counter.selfNodeId c = self →
  wf c → has_slot c self → (∀ x, inc c x < 2 ^ 63 ∧ dec c x < 2 ^ 63) →
  ∃ n' r c' m', Operators.replicateCounter_operate operation options n = Ret (n', r) ∧
    Response.isSuccessful r = true ∧
    stores n' !! pid = Some m' ∧ Map.datas m' !! Avl.e_data e = Some (Avl.CounterAVLNode c') ∧
    joined (OperationBody.flag1 operation) (OperationBody.nodeId operation) newValue c c' ∧
    joins r = Ret ((if lastInc <? inc c' self then [Join true (inc c' self) self] else []) ++
                   (if (misread_decrement lastInc lastDec <? dec c' self) && (0 <? dec c' self)
                    then [Join false (dec c' self) self] else [])).
Proof.
  intros pid Ha Fn Fi Fd Fo Hg He Hm Hd Hid Hself Wf Hs Hmax.
  assert (cluster n1 = cluster n) as Hcl by (by eapply on_store_cluster).
  rewrite (operate_decodes n n1 operation options key e newValue lastInc lastDec) by done.
  apply (apply_answers n1 operation pid e m c self); rewrite ?Hcl; try done; unfold ufits in *; lia.
Qed.
End exchange.

(** ** A replication between three nodes *)

(** Every node answers that it has added ten times its identifier. *)
Definition answering_network : Network () := λ id _ w,
  (w, Ret (Some (Response.success_value (SimpleString.of_bytes (answer_value (10 * id) 0 id)) (LamportClock.mk 0 id)))).

(** Node 1's counter, with slots for two nodes, after its first increment. *)
Definition sample_counter : Counter.t :=
  Counter.mk 2 [1; 0] [0; 0] 1 (CounterArrayIndexMapper.mk {[1 := 0]} 0).
Definition sample_object : SharedCounter.t := SharedCounter.mk 2 1%positive 2%positive 1 1%positive.
Definition sample_memory : cheap :=
  CounterHeap.mk {[1%positive := [1; 0]; 2%positive := [0; 0]]} {[1%positive := CounterArrayIndexMapper.mk {[1 := 0]} 0]}.

Definition sample_job : job :=
  mk_job (SimpleString.fromChar 97) 1 sample_object
    (RequestBuilder.operatorFlag1 true (RequestBuilder.operatorNumber OperatorNumbers.REPLICATE_COUNTER RequestBuilder.builder)) 1.
Definition replication_start : state () :=
  mk (sample_nodes {[2; 3]}) () sample_memory [] (MultipleResponses.make 2) [] [2; 3].

(** The states after the callback is registered and the tasks of nodes 2 and 3 ran. *)
Definition sample_task (id : Z) (s : state ()) : outcome (state () * option Response.t) :=
  task (N := answering_network) sample_job id s.
Definition after_2 (s : state ()) : state () := (returned (s, None) (sample_task 2 s)).1.
Definition after_3 (s : state ()) : state () := (returned (s, None) (sample_task 3 s)).1.
Definition heard_state : state () := after_3 (after_2 (register sample_job replication_start)).

Lemma sample_counter_wf : wf sample_counter.
Proof. apply (reached_wf 1 2 [Increment]); [split; lia|lia|repeat constructor|reflexivity]. Qed.

Lemma heard_run :
  runs (N := answering_network) sample_job replication_start [Join true 20 2; Join true 30 3] heard_state.
Proof.
  pose (answer id := Response.success_value (SimpleString.of_bytes (answer_value (10 * id) 0 id)) (LamportClock.mk 0 id)).
  assert (Heard : ∀ id s s' k l, id ∈ pending s → callbacks s = [k] → looks sample_job id = [] → joins (answer id) = Ret l →
    sample_task id s = Ret (s', Some (answer id)) → step (N := answering_network) sample_job s l s').
  { intros id s s' k l Hid Hc Hlook Hj E. rewrite <- (app_nil_l l), <- Hlook. by eapply step_heard. }
  change ([Join true 20 2; Join true 30 3]) with ((([] ++ []) ++ [Join true 20 2]) ++ [Join true 30 3]).
  eapply runs_snoc; [eapply runs_snoc; [eapply runs_snoc; [apply runs_nil|by apply step_register]|]|].
  - apply (Heard 2 _ _ sample_object); [simpl; set_solver|done|done|vm_compute; reflexivity|].
    apply (returned_pair (register sample_job replication_start, None)); vm_compute; reflexivity.
  - eapply (Heard 3); [|vm_compute; reflexivity|done|vm_compute; reflexivity|].
    + apply (bool_decide_unpack _). vm_compute. exact I.
    + apply returned_pair; vm_compute; reflexivity.
Qed.

(** Node 2's total reaches the stored counter, node 3's does not. *)
Lemma replication_reaches_counter_witness :
  ∃ c' cr, points (memory heard_state) sample_object c' ∧ wf c' ∧
    reaching sample_counter [Join true 20 2; Join true 30 3] = Ret cr ∧ same_view cr c'.
Proof.
  apply (replication_reaches_counter (N := answering_network) sample_job replication_start _ heard_state sample_counter).
  - by split.
  - apply sample_counter_wf.
  - done.
  - repeat constructor; simpl; lia.
  - apply heard_run.
Defined.

Lemma heard_view :
  ∃ cr, reaching sample_counter [Join true 20 2; Join true 30 3] = Ret cr ∧ inc cr 1 = 1 ∧ inc cr 2 = 20 ∧ inc cr 3 = 0.
Proof. eexists. split; [vm_compute; reflexivity|]. by vm_compute. Qed.

(** A counter that knows 20 increments and 5 decrements of node 2, 30 and 6 of node 3. *)
Definition known_object : SharedCounter.t := SharedCounter.mk 4 1%positive 2%positive 1 1%positive.
Definition known_memory : cheap :=
  CounterHeap.mk {[1%positive := [1; 20; 30; 0]; 2%positive := [0; 5; 6; 0]]}
    {[1%positive := CounterArrayIndexMapper.mk {[1 := 0; 2 := 1; 3 := 2]} 2]}.
Definition known_job : job := mk_job (key sample_job) 1 known_object (replicateCounterRequest sample_job) 1.
Definition known_start : state () := mk (sample_nodes {[2; 3]}) () known_memory [] (MultipleResponses.make 2) [] [2; 3].

(** Node 3's request, made after node 2's: it tells what node 2 is known to have. *)
Lemma later_requests_repeat_first_witness :
  let s1 := (returned (known_start, None) (task (N := answering_network) known_job 2 known_start)).1 in
  let c := returned ((memory s1, []), OperationBody.mk None 0 0 0 false false)
             (create known_job 3 (memory s1, args s1)) in
  OperationBody.getArg c.2 0 = Ret (key known_job) ∧
  OperationBody.getDoubleArgU64 c.2 1 = Ret 1 ∧ OperationBody.getDoubleArgU64 c.2 3 = Ret 20 ∧
  OperationBody.getDoubleArgU64 c.2 4 = Ret (low 20 * 2 ^ 32 + high 5) ∧
  OperationBody.getDoubleArgU64 c.2 5 = Ret 5.
Proof.
  intros s1 c.
  eapply (later_requests_repeat_first (N := answering_network) known_job 2 known_start s1 _ _ 20 5 [] s1 3
    c.1.1 c.1.2 c.2); try (vm_compute; reflexivity); try (split; simpl; lia).
  apply runs_nil.
Defined.

(** Node 1, which holds a counter it has incremented twice and decremented once, answers node 2,
    which has seen one increment and no decrement: the increments are answered, the decrement is
    compared with [2 ^ 32] and left out. *)
Definition held_counter : Counter.t :=
  Counter.mk 2 [2; 0] [1; 0] 1 (CounterArrayIndexMapper.mk {[1 := 0]} 0).
Definition holding_map : Map.t :=
  let m := (returned (Map.make None 3, false)
              (Map.putCounter (H := masking_target) (SimpleString.fromChar 97) 1 2 (Map.make None 3))).1 in
  Map.mk (Map.nodes m) ((λ _, Avl.CounterAVLNode held_counter) <$> Map.datas m) (Map.clock m) (Map.buckets m) (Map.locked m)
    (Map.numberBuckets m) (Map.size m).
Definition holding_node : node () := set_store 0 holding_map (sample_node node_1_config).
Definition found_entry : node () * option Avl.MapEntry :=
  returned (holding_node, None) (on_store 0 (Map.get (H := masking_target) (SimpleString.fromChar 97)) holding_node).

Definition exchange_operation (lastInc lastDec : Z) : OperationBody.t :=
  OperationBody.mk (OperationBody.args (Operators.replicate_operation true (SimpleString.fromChar 97) 7 lastInc lastDec))
    0 2 OperatorNumbers.REPLICATE_COUNTER true false.

Definition exchange_options : OperationOptions.t :=
  OperationOptions.mk false false false false false LamportClock.NONE 0 0.

Lemma held_counter_bounds x : inc held_counter x < 2 ^ 63 ∧ dec held_counter x < 2 ^ 63.
Proof.
  unfold inc, dec, slot. simpl. destruct (decide (x = 1)) as [->|Hx].
  - rewrite lookup_singleton_eq. simpl. lia.
  - rewrite lookup_singleton_ne by congruence. lia.
Qed.

Lemma counter_exchange_witness :
  ∃ n' r c' m' e, found_entry.2 = Some e ∧
    Operators.replicateCounter_operate (H := masking_target) (W := ()) (exchange_operation 1 0) exchange_options holding_node
      = Ret (n', r) ∧
    stores n' !! 0 = Some m' ∧ Map.datas m' !! Avl.e_data e = Some (Avl.CounterAVLNode c') ∧
    inc c' 2 = 7 ∧ joins r = Ret [Join true 2 1].
Proof.
  destruct found_entry.2 as [e|] eqn:Ee; [|by vm_compute in Ee].
  destruct (counter_exchange (H := masking_target) (W := ()) holding_node found_entry.1 (exchange_operation 1 0)
    exchange_options (SimpleString.fromChar 97) e
    (default holding_map (stores found_entry.1 !! 0)) held_counter 1 7 1 0)
    as (n' & r & c' & m' & E1 & _ & E3 & E4 & J & Ej).
  - reflexivity.
  - split; simpl; lia.
  - split; simpl; lia.
  - split; simpl; lia.
  - split; simpl; lia.
  - apply returned_pair; [vm_compute; reflexivity|exact Ee].
  - vm_compute in Ee. injection Ee as <-. reflexivity.
  - vm_compute. reflexivity.
  - vm_compute in Ee. injection Ee as <-. vm_compute. reflexivity.
  - vm_compute. reflexivity.
  - reflexivity.
  - apply (reached_wf 1 2 [Increment; Increment; Decrement]); [split; lia|lia|repeat constructor|reflexivity].
  - exists 0. split; [reflexivity|simpl; lia].
  - apply held_counter_bounds.
  - exists n', r, c', m', e. rewrite Ej, !(jn_inc _ _ _ _ _ J), (jn_dec _ _ _ _ _ J).
    do 5 (split; [try done|]). vm_compute. reflexivity.
Defined.
