(* ===== verification/SyncReceiver.v ===== *)
(** * Receiving a log

    Models [operators/operations/syncoplog/SyncOplogReceiverIterator.cpp] and
    [Cluster::syncOplog]: a node asks another one for the segments of a log after a timestamp,
    one segment per request, and starts over with another node when it cannot be reached.
    [fuel] bounds the two loops that wait for a node to answer; the random values drawn come
    from the environment. *)

From S2P Require Import Prelude.
From S2P Require Import Utils.
From S2P Require Import Clock.
From S2P Require Import Messages.
From S2P Require Import Codec.
From S2P Require Import Config.
From S2P Require Import Partitions.
From S2P Require Import Segments.
From S2P Require Import Oplog.
From S2P Require Import Cluster.
From S2P Require Import ClusterFacade.
From S2P Require Import OperatorTypes.
From S2P Require Import Dispatcher.

Module SyncOplogReceiverIterator.

Record t := mk {
  timestampToSync : Z;
  selfOplogIdToSync : Z;
  syncId : Z;
  nodeSender : option Z;
  nSegmentsRemaining : Z;
  alreadyCheckedNodeIds : gset Z;
}.

Definition set_sender (syncId : Z) (node : Z) (segments : Z) (checked : gset Z) (i : t) : t :=
  mk (timestampToSync i) (selfOplogIdToSync i) syncId (Some node) segments checked.
Definition set_progress (timestamp segments : Z) (i : t) : t :=
  mk timestamp (selfOplogIdToSync i) (syncId i) (nodeSender i) segments (alreadyCheckedNodeIds i).

Section iterator.
Context `{Platform} `{Zlib} {Env : Environment} {W : Type} {N : Network W}.

Abbreviation M := (stM (node W)).

(** [nextSyncId]: the store's next identifier as a [uint32_t]. *)
Definition nextSyncId : M Z :=
  λ n, let '(s, id) := OnGoingSyncOplogsStore.nextSyncOplogId (onGoingSyncOplogs n) in Ret (set_syncs s n, u32 id).

(** Sending a request to a node of the cluster. *)
Definition send (id : Z) (request : Request.t) : M (option Response.t) :=
  on_cluster (λ '(c, w), let! (w, r) := ClusterNodes.send id request w in Ret ((c, w), r)).

(** The number of the log on another node. *)
Definition otherOplogId (i : t) (nodeId : Z) : M Z :=
  reads (λ n, let! p := deref (Cluster.partitions (cluster n)) in
              Partitions.getOplogIdOfOtherNodeBySelfOplogId p nodeId (selfOplogIdToSync i)).

(** [SyncOplogReceiverIterator::createSyncOplogRequest]. *)
Definition createSyncOplogRequest (i : t) (nodeIdToSendRequest : Z) : M Request.t :=
  nodeOplogId ← otherOplogId i nodeIdToSendRequest;
  key ← reads (λ n, Configuration.get (Cluster.configuration (cluster n)) ConfigurationKeys.AUTH_NODE_KEY);
  id ← reads (λ n, Configuration.getUint 16 (Cluster.configuration (cluster n)) ConfigurationKeys.NODE_ID);
  number ← nextSyncId;
  mret (RequestBuilder.build (RequestBuilder.requestNumber number
    (RequestBuilder.operatorNumber OperatorNumbers.SYNC_OPLOG (RequestBuilder.selfNode id
      (RequestBuilder.addArg (SimpleString.fromNumber 4 nodeOplogId)
        (RequestBuilder.addDoubleArg (timestampToSync i)
          (RequestBuilder.authKey (bytes_of_string key) RequestBuilder.builder))))))).

(** [SyncOplogReceiverIterator::createNextSegmnentRequest]; it does not name the own node. *)
Definition createNextSegmnentRequest (i : t) : M Request.t :=
  sender ← lift (deref (nodeSender i));
  nodeOplogId ← otherOplogId i sender;
  key ← reads (λ n, Configuration.get (Cluster.configuration (cluster n)) ConfigurationKeys.AUTH_NODE_KEY);
  mret (RequestBuilder.build (RequestBuilder.addArg (SimpleString.fromNumber 4 nodeOplogId)
    (RequestBuilder.addDoubleArg (timestampToSync i)
      (RequestBuilder.requestNumber (syncId i)
        (RequestBuilder.operatorNumber OperatorNumbers.NEXT_SYNC_OPLOG_SEGMENT
          (RequestBuilder.authKey (bytes_of_string key) RequestBuilder.builder)))))).

(** [SyncOplogReceiverIterator::initSyncOplog]. *)
Fixpoint initSyncOplog (fuel : nat) (i : t) : M t :=
  match fuel with
  | O => λ _, NoFuel
  | S fuel =>
      found ← reads (λ n, let! nodes := deref (Cluster.clusterNodes (cluster n)) in
        ClusterNodes.getRandomNode loop_fuel (rand fuel) (Z.to_nat (selfOplogIdToSync i)) (alreadyCheckedNodeIds i) nodes);
      let i := mk (timestampToSync i) (selfOplogIdToSync i) (syncId i) (nodeSender i) (nSegmentsRemaining i) found.2 in
      id ← lift (of_option runtime_error found.1);
      request ← createSyncOplogRequest i id;
      responseResult ← send id request;
      match responseResult with
      | Some response =>
          segments ← lift (SimpleString.to 8 false (Response.responseValue response));
          mret (set_sender (Response.requestNumber response) id segments (alreadyCheckedNodeIds i) i)
      | None => initSyncOplog fuel i
      end
  end.

(** [SyncOplogReceiverIterator::SyncOplogReceiverIterator], as [Cluster::syncOplog] calls it. *)
Definition syncOplog (fuel : nat) (timestampToSync selfOplogIdToSync : Z) : M t :=
  initSyncOplog fuel (mk timestampToSync selfOplogIdToSync 0 None 0 ∅).

(** [SyncOplogReceiverIterator::hasNext] and [SyncOplogReceiverIterator::totalSize]. *)
Definition hasNext (i : t) : bool := 0 <? nSegmentsRemaining i.
Definition totalSize (i : t) : Z := nSegmentsRemaining i.

(** [SyncOplogReceiverIterator::sendNextSegment]. *)
Fixpoint sendNextSegment (fuel : nat) (i : t) : M (t * Response.t) :=
  match fuel with
  | O => λ _, NoFuel
  | S fuel =>
      sender ← lift (deref (nodeSender i));
      request ← createNextSegmnentRequest i;
      responseResult ← send sender request;
      match responseResult with
      | Some response => mret (i, response)
      | None => i ← initSyncOplog fuel i; sendNextSegment fuel i
      end
  end.

(** [SyncOplogReceiverIterator::getOplogFromResponse]; the length is computed in 32 bits. *)
Definition getOplogFromResponse (response : Response.t) : outcome bytes :=
  let! a := Response.getResponseValueAtOffset response 4
              (Z.to_nat (u32 (SimpleString.size (Response.responseValue response) - 4))) in
  let! raw := SimpleString.toVector a in
  let! b := Response.getResponseValueAtOffset response 0 4 in
  let! originalSize := SimpleString.to 4 false b in
  of_option runtime_error (Compressor.uncompressBytes raw (Z.to_nat originalSize)).

(** [SyncOplogReceiverIterator::next]: [None] is a segment nobody could repair. *)
Definition next (fuel : nat) (i : t) : M (t * option bytes) :=
  r ← sendNextSegment fuel i;
  let i := r.1 in
  let nextResponse := r.2 in
  if negb (Response.isSuccessful nextResponse) && Response.hasErrorCode nextResponse ErrorCode.SYNC_OP_LOG_EOF
  then mret (set_progress (timestampToSync i) 0 i, Some [])
  else if negb (Response.isSuccessful nextResponse)
          && Response.hasErrorCode nextResponse ErrorCode.UNFIXABLE_CORRUPTED_OPLOG_SEGMENT
  then mret (i, None)
  else
    let i := set_progress (LamportClock.counter (Response.timestamp nextResponse)) (u64 (nSegmentsRemaining i - 1)) i in
    segment ← lift (getOplogFromResponse nextResponse);
    mret (i, Some segment).

End iterator.
End SyncOplogReceiverIterator.

(** ** Theorems *)

Section receiver.
Context `{Platform} `{ZL : Zlib} {ZS : ZlibSpec} {Env : Environment} {W : Type} {N : Network W}.
Import SyncOplogReceiverIterator.

Implicit Types (n : node W) (i : t) (r : Response.t) (b c : bytes).

(** The value of the response to NEXT_SYNC_OPLOG_SEGMENT: the size, then the compressed bytes. *)
Definition segment_value (size : Z) (compressed : bytes) : outcome SimpleString.t :=
  ResponseBuilder.buildResponseValue
    (ResponseBuilder.values [SimpleString.fromNumber 4 size; SimpleString.fromVector compressed] ResponseBuilder.builder).

Lemma segment_value_ok size c :
  c ≠ [] → Z.of_nat (length c) + 4 < 2 ^ 32 →
  segment_value size c = Ret (SimpleString.mk (be_bytes 4 size ++ c) (Z.of_nat (length c) + 4)).
Proof.
  intros Hne Hlen. unfold segment_value, ResponseBuilder.buildResponseValue, SimpleString.fromSimpleStrings.
  cbn [ResponseBuilder.values ResponseBuilder._responseValue foldl ofoldl].
  assert (SimpleString.fromVector c = SimpleString.mk c (Z.of_nat (length c))) as ->.
  { destruct c; [done|]. unfold SimpleString.fromVector, SimpleString.of_bytes. by rewrite wrap_small by (split; lia). }
  rewrite fromNumber_be. change (SimpleString.size (SimpleString.fromNumber 4 size)) with 4.
  cbn [SimpleString.data SimpleString.size]. rewrite Nat2Z.id.
  rewrite <- (app_nil_r (be_bytes 4 size)). change (Z.to_nat 4) with (length (be_bytes 4 size)).
  rewrite appendPtrToBuffer_app. cbn [obind]. rewrite <- (app_nil_r c) at 1. rewrite appendPtrToBuffer_app.
  cbn [obind]. rewrite app_nil_r. do 2 f_equal. change (0 + 4) with 4.
  rewrite (wrap_small 32 4) by (split; lia). rewrite wrap_small by (split; lia). lia.
Qed.

(** What a sender compressed is what the receiver gets out of the response. *)
Lemma getOplogFromResponse_ok r b c v :
  compress b = Some c → c ≠ [] → Z.of_nat (length c) + 4 < 2 ^ 32 → Z.of_nat (length b) < 2 ^ 32 →
  segment_value (Z.of_nat (length b)) c = Ret v → Response.responseValue r = v → getOplogFromResponse r = Ret b.
Proof using ZS.
  intros Hc Hne Hlen Hb Hv Hr. rewrite segment_value_ok in Hv by done.
  apply Ret_inj in Hv. subst v.
  unfold getOplogFromResponse, Response.getResponseValueAtOffset, SimpleString.fromPointer. rewrite Hr.
  cbn [SimpleString.data SimpleString.size].
  replace (u32 (Z.of_nat (length c) + 4 - 4)) with (Z.of_nat (length c)) by (rewrite wrap_small; [lia|split; lia]).
  rewrite Nat2Z.id, drop_app_length' by (by rewrite length_be_bytes).
  rewrite <- (app_nil_r c) at 1. rewrite appendPtrToBuffer_app. cbn [obind app].
  rewrite wrap_small by (split; lia). unfold SimpleString.toVector. cbn [SimpleString.data SimpleString.size].
  assert (0 < Z.of_nat (length c)) by (destruct c; [done|simpl; lia]).
  destruct (Z.ltb_spec 0 (Z.of_nat (length c))); [|lia]. rewrite Nat2Z.id.
  pose proof (slice_app [] c []) as Esl. rewrite app_nil_r in Esl. cbn [app length] in Esl. rewrite Esl. cbn [obind]. rewrite drop_0.
  pose proof (appendPtrToBuffer_app (be_bytes 4 (Z.of_nat (length b))) c []) as Ep.
  rewrite length_be_bytes in Ep. rewrite Ep. cbn [obind app].
  unfold SimpleString.to. cbn [SimpleString.data]. rewrite <- (app_nil_r (be_bytes 4 _)), parse_be_bytes by lia.
  unfold Utils.to_T. rewrite wrap_small by (split; lia). cbn [obind]. rewrite Nat2Z.id.
  unfold Compressor.uncompressBytes. rewrite (compress_uncompress _ _ Hc), decide_True by done.
  by rewrite Nat.sub_diag, app_nil_r.
Qed.

Lemma send_ok n w id request r :
  node_sendRequest id request (network n) = (w, Ret (Some r)) →
  send id request n = Ret (set_cluster (cluster n) w n, Some r).
Proof. intros E. unfold send, on_cluster, ClusterNodes.send. by rewrite E. Qed.

Lemma sendNextSegment_ok fuel i n w sender request r :
  nodeSender i = Some sender → createNextSegmnentRequest i n = Ret (n, request) →
  node_sendRequest sender request (network n) = (w, Ret (Some r)) →
  sendNextSegment (S fuel) i n = Ret (set_cluster (cluster n) w n, (i, r)).
Proof.
  intros Hs Hr Hn. cbn [sendNextSegment]. erewrite stM_bind_Ret by (unfold lift; rewrite Hs; reflexivity). cbn beta.
  erewrite stM_bind_Ret by exact Hr. cbn beta. erewrite stM_bind_Ret by (by apply send_ok). done.
Qed.

(** C40: One step of a log transfer, both ends together.  When the sender answers a request for
    the next segment with the segment's size and its compressed bytes, the receiver's [next]
    returns the segment as it was before compression, takes over the timestamp of the
    response, counts one segment less and stays with that sender.  When the sender answers
    that the log has ended, the receiver does not recognise the error code and reads past the
    end of the empty response. *)
Theorem received_segment fuel i n w sender request r :
  nodeSender i = Some sender → createNextSegmnentRequest i n = Ret (n, request) →
  node_sendRequest sender request (network n) = (w, Ret (Some r)) →
  0 < nSegmentsRemaining i < 2 ^ 64 →
  (∀ b c v, Response.isSuccessful r = true → compress b = Some c → c ≠ [] →
     Z.of_nat (length c) + 4 < 2 ^ 32 → Z.of_nat (length b) < 2 ^ 32 →
     segment_value (Z.of_nat (length b)) c = Ret v → Response.responseValue r = v →
     next (S fuel) i n = Ret (set_cluster (cluster n) w n,
       (mk (LamportClock.counter (Response.timestamp r)) (selfOplogIdToSync i) (syncId i) (Some sender)
           (nSegmentsRemaining i - 1) (alreadyCheckedNodeIds i), Some b))) ∧
  (r = Response.error ErrorCode.SYNC_OP_LOG_EOF → next (S fuel) i n = Undef).
Proof using ZS.
  intros Hs Hr Hn Hseg. pose proof (sendNextSegment_ok fuel i n w sender request r Hs Hr Hn) as Es. split.
  - intros b c v Hok Hc Hne Hlen Hb Hv Hval. unfold next. erewrite stM_bind_Ret by exact Es. cbn beta zeta. cbn [fst snd].
    rewrite Hok. cbn [negb andb]. erewrite stM_bind_Ret.
    2:{ unfold lift. rewrite (getOplogFromResponse_ok r b c v) by done. reflexivity. }
    unfold set_progress. rewrite Hs, wrap_small by (split; lia). reflexivity.
  - intros ->. unfold next. unfold mbind at 1, stM_bind at 1. rewrite Es. reflexivity.
Qed.

End receiver.

(** A node whose peer 2 answers every request with a two-byte segment. *)
Definition one_response : Response.t :=
  Response.mk true 0 (LamportClock.mk 9 0) 0 (SimpleString.mk (be_bytes 4 2 ++ [7; 8]) 6).
Definition one_segment_peer : Network () := λ _ _ w, (w, Ret (Some one_response)).
Definition receiving_node : node () :=
  set_cluster (Cluster.mk sample_config None (Some sample_partitions) RUNNING) () (sample_node sample_config).
Definition receiving : SyncOplogReceiverIterator.t := SyncOplogReceiverIterator.mk 5 0 3 (Some 2) 1 ∅.
Definition request_segment : Request.t :=
  match SyncOplogReceiverIterator.createNextSegmnentRequest receiving receiving_node with
  | Ret (_, r) => r
  | _ => sample_user_request 0 []
  end.

Lemma received_segment_witness :
  SyncOplogReceiverIterator.next (H0 := plain_zlib) (N := one_segment_peer) (Env := sample_env)
    1 receiving receiving_node
  = Ret (receiving_node, (SyncOplogReceiverIterator.mk 9 0 3 (Some 2) 0 ∅, Some [7; 8])).
Proof.
  apply (received_segment (ZL := plain_zlib) (N := one_segment_peer) (Env := sample_env)
    0 receiving receiving_node () 2 request_segment one_response) with (c := [7; 8]) (v := Response.responseValue one_response);
    first [reflexivity | discriminate | (cbn; lia) | (vm_compute; reflexivity)].
Defined.
