(* ===== verification/Membership.v ===== *)
(** * Nodes that join and leave

    Models [cluster/partitions/PartitionNeighborsNodesSetter.cpp], the handlers of membership
    changes under [cluster/changehandler] and the requests that move the operations of a
    partition between nodes ([MoveOpLogRequestCreator.cpp]).  The setter works on the
    [Cluster] of a node, the handlers on the whole node.  [exit] ends the process: the handler
    of a deletion returns the status it exits with. *)

From Stdlib Require Import Ascii.
From stdpp Require Import pretty.
From S2P Require Import Prelude.
From S2P Require Import Utils.
From S2P Require Import Clock.
From S2P Require Import Avl.
From S2P Require Import MapStore.
From S2P Require Import Messages.
From S2P Require Import Codec.
From S2P Require Import Config.
From S2P Require Import Ring.
From S2P Require Import Partitions.
From S2P Require Import Cluster.
From S2P Require Import ClusterFacade.
From S2P Require Import OperatorTypes.
From S2P Require Import Operators.

(** The bytes of an address as a [std::string]. *)
Fixpoint string_of_bytes (b : bytes) : string :=
  match b with
  | [] => EmptyString
  | c :: b => String (ascii_of_N (Z.to_N c)) (string_of_bytes b)
  end.

(** [std::to_string] of a node's identifier. *)
Definition id_string (id : Z) : bytes := bytes_of_string (pretty (Z.to_N id)).

(** ** The nodes of every partition *)

Module PartitionNeighborsNodesSetter.

Abbreviation M := (stM Cluster.t).

(** [cluster->partitions->...], reading and writing, and [cluster->clusterNodes->...]. *)
Definition on_partitions {A} (f : Partitions.t → outcome A) : M A :=
  λ c, let! p := deref (Cluster.partitions c) in let! a := f p in Ret (c, a).
Definition set_partitions (p : option Partitions.t) (c : Cluster.t) : Cluster.t :=
  Cluster.mk (Cluster.configuration c) (Cluster.clusterNodes c) p (Cluster.selfState c).
Definition update_partitions {A} (m : stM Partitions.t A) : M A :=
  λ c, let! p := deref (Cluster.partitions c) in let! (p, a) := m p in Ret (set_partitions (Some p) c, a).
Definition update_nodes {A} (m : stM ClusterNodes.t A) : M A :=
  λ c, let! n := deref (Cluster.clusterNodes c) in let! (n, a) := m n in
       Ret (Cluster.set_clusterNodes (Some n) c, a).

(** [PartitionNeighborsNodesSetter::containsNodeId]. *)
Definition containsNodeId (entries : list RingEntry) (id : Z) : bool := existsb (λ it, nodeId it =? id) entries.

(** [PartitionNeighborsNodesSetter::toNodesFromRingEntries]. *)
Definition toNodesFromRingEntries (ringEntries : list RingEntry) (nodes : list (Z * string)) : list (Z * string) :=
  omap (λ entry, List.find (λ node, node.1 =? nodeId entry) nodes) ringEntries.

(** [PartitionNeighborsNodesSetter::getOldNodeIdPartitionMember]; the head is read at the same
    index as the tail. *)
Definition getOldNodeIdPartitionMember (nodesInPartition : list RingEntry) : M Z :=
  tailPartitionNode ← lift (at_throw nodesInPartition (length nodesInPartition - 1));
  headPartitionNode ← lift (at_throw nodesInPartition (length nodesInPartition - 1));
  distanceToHeadFromSelf ← on_partitions (λ p, Partitions.getDistance p (nodeId headPartitionNode));
  found ← (if 0 <=? distanceToHeadFromSelf
           then on_partitions (λ p, Partitions.getNeighborClockwiseByNodeId p (nodeId tailPartitionNode))
           else on_partitions (λ p, Partitions.getNeighborCounterClockwiseByNodeId p (nodeId headPartitionNode)));
  e ← lift (of_option bad_optional_access found);
  mret (nodeId e).

(** [PartitionNeighborsNodesSetter::getRingEntriesPartitionExceptSelf]. *)
Definition getRingEntriesPartitionExceptSelf (actualEntry : RingEntry) : M (list RingEntry) :=
  ringEntries ← on_partitions (λ p, Partitions.getNeighborsClockwiseByNodeId p (nodeId actualEntry));
  actual ← on_partitions (λ p, Partitions.getByNodeId p (nodeId actualEntry));
  c ← get_st;
  selfNodeId ← lift (Cluster.getNodeId c);
  mret (filter (λ e, selfNodeId ≠ nodeId e) (ringEntries ++ [actual])).

(** [PartitionNeighborsNodesSetter::updateNeighborsWithDeletedNode]. *)
Definition updateNeighborsWithDeletedNode (id : Z) : M () :=
  _ ← update_nodes (modify (ClusterNodes.deleteNodeById id));
  update_partitions (Partitions.deleteByNodeId id).

(** The loop of [PartitionNeighborsNodesSetter::updateNeighborsWithNewNode], [k] partitions to
    go; the head of the next partition is one step counter-clockwise. *)
Fixpoint newNode_loop (k : nat) (newNode : Z * string) (actualPartitionId : nat) (actualHeadPartition : RingEntry) : M () :=
  match k with
  | O => mret ()
  | S k =>
      neighborsActualPartition ←
        on_partitions (λ p, Partitions.getNeighborsClockwiseByNodeId p (nodeId actualHeadPartition));
      _ ← (if containsNodeId neighborsActualPartition newNode.1 then
             _ ← update_nodes (ClusterNodes.addNodeInPartition newNode actualPartitionId);
             old ← getOldNodeIdPartitionMember neighborsActualPartition;
             update_nodes (ClusterNodes.removeNodeFromPartition old actualPartitionId)
           else mret ());
      next ← on_partitions (λ p, Partitions.getNeighborCounterClockwiseByNodeId p (nodeId actualHeadPartition));
      match next with
      | Some e => newNode_loop k newNode (S actualPartitionId) e
      | None => mret ()
      end
  end.

(** [PartitionNeighborsNodesSetter::updateNeighborsWithNewNode]. *)
Definition updateNeighborsWithNewNode (newNode : Z * string) : M () :=
  c ← get_st;
  nodesPerPartition ← lift (Cluster.getNodesPerPartition c);
  self ← on_partitions (λ p, Ret (Partitions.getSelfEntry p));
  newNode_loop (Z.to_nat nodesPerPartition) newNode 0 self.

(** The loop of [PartitionNeighborsNodesSetter::updateNeighborsWithNodes]. *)
Fixpoint nodes_loop (k : nat) (nodes : list (Z * string)) (i : nat) (actualEntry : RingEntry) : M () :=
  match k with
  | O => mret ()
  | S k =>
      ringEntriesActualPartition ← getRingEntriesPartitionExceptSelf actualEntry;
      _ ← update_nodes (ClusterNodes.addNodesInPartition (toNodesFromRingEntries ringEntriesActualPartition nodes) i);
      next ← on_partitions (λ p, Partitions.getNeighborCounterClockwiseByNodeId p (nodeId actualEntry));
      match next with
      | Some e => nodes_loop k nodes (S i) e
      | None => mret ()
      end
  end.

(** [PartitionNeighborsNodesSetter::updateNeighborsWithNodes]. *)
Definition updateNeighborsWithNodes (nodes : list (Z * string)) : M () :=
  nodesPerPartition ← on_partitions (λ p, Ret (Partitions.getNodesPerPartition p));
  self ← on_partitions (λ p, Ret (Partitions.getSelfEntry p));
  nodes_loop (Z.to_nat nodesPerPartition) nodes 0 self.

End PartitionNeighborsNodesSetter.

(** ** Requests that move operations *)

Module MoveOpLogRequestCreator.

(** The authentication key of nodes and the own identifier. *)
Record t := mk { nodeAuthKey : bytes; selfNodeId : Z }.

(** The constructor, as the handlers call it. *)
Definition make (c : Cluster.t) : outcome t :=
  let! key := Configuration.get (Cluster.configuration c) ConfigurationKeys.AUTH_NODE_KEY in
  let! id := Cluster.getNodeId c in
  Ret (mk (bytes_of_string key) id).

(** [CreateMoveOplogReqParams]; a field the caller does not name is zero. *)
Record Params := params {
  oplog : list Avl.MapEntry;
  applyNewOplog : bool;
  clearOldOplog : bool;
  oldOplogId : Z;
  newOplogId : Z;
}.

(** The SET of a key with its value and timestamp, and the SET without arguments a counter
    becomes. *)
Definition set_operation (key value : SimpleString.t) (timestamp : LamportClock.t) : OperationBody.t :=
  RequestBuilder.buildOperationBody (RequestBuilder.timestamp (LamportClock.counter timestamp)
    (RequestBuilder.addArg value (RequestBuilder.addArg key
      (RequestBuilder.operatorNumber OperatorNumbers.SET RequestBuilder.builder)))).
Definition counter_operation : OperationBody.t :=
  RequestBuilder.buildOperationBody (RequestBuilder.operatorNumber OperatorNumbers.SET RequestBuilder.builder).

(** The request, for operations already serialized. *)
Definition move_request (creator : t) (p : Params) (serialized : bytes) : Request.t :=
  RequestBuilder.build
    (RequestBuilder.args [SimpleString.fromNumber 4 (newOplogId p); SimpleString.fromNumber 4 (oldOplogId p);
                          SimpleString.fromVector serialized]
      (RequestBuilder.selfNode (selfNodeId creator)
        (RequestBuilder.operatorFlag2 (clearOldOplog p)
          (RequestBuilder.operatorFlag1 (applyNewOplog p)
            (RequestBuilder.operatorNumber OperatorNumbers.MOVE_OPLOG
              (RequestBuilder.authKey (nodeAuthKey creator) RequestBuilder.builder)))))).

Section creator.
Context {W : Type}.
Abbreviation M := (stM (node W)).

(** [MoveOpLogRequestCreator::convertMapEntryIntoOperation] of an entry of partition [pid]. *)
Definition convertMapEntryIntoOperation (pid : Z) (entry : Avl.MapEntry) : M OperationBody.t :=
  match Avl.e_type entry with
  | Avl.DATA =>
      dataEntry ← Operators.toData pid entry;
      mret (set_operation (Avl.e_key entry) dataEntry.1 dataEntry.2)
  | Avl.COUNTER => mret counter_operation
  end.

Fixpoint createOperations (pid : Z) (entries : list Avl.MapEntry) : M (list OperationBody.t) :=
  match entries with
  | [] => mret []
  | entry :: entries =>
      operation ← convertMapEntryIntoOperation pid entry;
      rest ← createOperations pid entries;
      mret (operation :: rest)
  end.

(** [MoveOpLogRequestCreator::create], for entries of partition [pid]. *)
Definition create (creator : t) (pid : Z) (p : Params) : M Request.t :=
  operations ← createOperations pid (oplog p);
  serialized ← lift (OperationLogCodec.serializeAll operations);
  mret (move_request creator p serialized).

End creator.
End MoveOpLogRequestCreator.

(** ** What the handlers share *)

Section handlers.
Context `{Platform} {Env : Environment} {W : Type} {N : Network W}.

Abbreviation M := (stM (node W)).

Definition in_cluster {A} (m : stM Cluster.t A) : M A :=
  on_cluster (λ '(c, w), let! (c, a) := m c in Ret ((c, w), a)).
Definition with_partitions {A} (f : Partitions.t → outcome A) : M A :=
  reads (λ n, let! p := deref (Cluster.partitions (cluster n)) in f p).

(** [cluster->clusterNodes->sendRequest]. *)
Definition sendRequest (id : Z) (request : Request.t) : M Response.t :=
  on_cluster (Cluster.on_nodes (λ '(c, w),
    let! (w, r) := ClusterNodes.sendRequest loop_fuel id request c w in Ret ((c, w), r))).

(** [while(bucketIterator.hasNext())] over the buckets of partition [pid]. *)
Fixpoint buckets_from (k : nat) (pid : Z) (actualBucket : Z) (body : list Avl.MapEntry → M ()) : M () :=
  match k with
  | O => λ _, NoFuel
  | S k =>
      more ← reads (λ n, let! m := MemDbStores.getByPartitionId (stores n) pid in
                         Ret (Map.iterator_hasNext m actualBucket));
      if (more : bool) then
        next ← on_store pid (Map.iterator_next actualBucket);
        _ ← body next.2;
        buckets_from k pid next.1 body
      else mret ()
  end.

(** One more round than buckets is enough. *)
Definition for_each_bucket (pid : Z) (body : list Avl.MapEntry → M ()) : M () :=
  number ← reads (λ n, let! m := MemDbStores.getByPartitionId (stores n) pid in Ret (Map.iterator_totalSize m));
  buckets_from (S (Z.to_nat number)) pid 0 body.

End handlers.

(** ** A new node *)

Module NewNodePartitionChangeHandler.
Section handler.
Context `{Platform} {Env : Environment} {W : Type} {N : Network W}.
Context (creator : MoveOpLogRequestCreator.t).

Abbreviation M := (stM (node W)).
Import MoveOpLogRequestCreator.

(** [NewNodePartitionChangeHandler::splitSelfOplog]: the keys that stay and the keys the new
    node takes; the hash of the map is compared with the position on the ring. *)
Definition splitSelfOplog (keysSelfOplog : list Avl.MapEntry) (newRingEntry : RingEntry) :
    M (list Avl.MapEntry * list Avl.MapEntry) :=
  nodePositionNewNode ← with_partitions (λ p, Partitions.getRingPositionByNodeId p (nodeId newRingEntry));
  mret (filter (λ e, Avl.e_keyHash e < nodePositionNewNode) keysSelfOplog,
        filter (λ e, ¬ Avl.e_keyHash e < nodePositionNewNode) keysSelfOplog).

(** The logged DEL of [NewNodePartitionChangeHandler::removeKeysFromSelfNode]. *)
Definition delete_operation (key : SimpleString.t) : OperationBody.t :=
  Request.operation (RequestBuilder.build (RequestBuilder.addArg key
    (RequestBuilder.operatorNumber OperatorNumbers.DEL RequestBuilder.builder))).

(** [NewNodePartitionChangeHandler::removeKeysFromSelfNode]. *)
Fixpoint removeKeysFromSelfNode (keysToRemove : list Avl.MapEntry) : M () :=
  match keysToRemove with
  | [] => mret ()
  | keyToRemove :: keysToRemove =>
      _ ← on_store 0 (Map.remove (Avl.e_key keyToRemove) zero_clock LamportClock.NONE false);
      _ ← on_log (OperationLog.add 0 (delete_operation (Avl.e_key keyToRemove)));
      removeKeysFromSelfNode keysToRemove
  end.

(** [NewNodePartitionChangeHandler::sendNewOplogToNewNode]. *)
Definition sendNewOplogToNewNode (id : Z) (moved : list Avl.MapEntry) : M () :=
  match moved with
  | [] => mret ()
  | _ =>
      request ← create creator 0 (params moved true true 0 0);
      _ ← sendRequest id request; mret ()
  end.

(** The loop of [NewNodePartitionChangeHandler::updateOplogIdOfNeighNodesPlusOne]: the request
    is changed before every send. *)
Fixpoint renumber_loop (i : Z) (moveOplogRequest : Request.t) (neighbors : list RingEntry) : M () :=
  match neighbors with
  | [] => mret ()
  | e :: neighbors =>
      operation ← lift (OperationBody.setArg (Request.operation moveOplogRequest) 0 (SimpleString.fromNumber 4 (i + 1)));
      let moveOplogRequest := Request.mk (Request.authentication moveOplogRequest) operation
        (Request.requestNumber moveOplogRequest) (Request.authenticationType moveOplogRequest) in
      _ ← sendRequest (nodeId e) moveOplogRequest;
      renumber_loop (i + 1) moveOplogRequest neighbors
  end.

(** [NewNodePartitionChangeHandler::updateOplogIdOfNeighNodesPlusOne]. *)
Definition updateOplogIdOfNeighNodesPlusOne (newOplog : list Avl.MapEntry) (neighbors : list RingEntry) : M () :=
  match newOplog with
  | [] => mret ()
  | _ =>
      moveOplogRequest ← create creator 0 (params newOplog true true 0 0);
      renumber_loop 0 moveOplogRequest neighbors
  end.

(** [NewNodePartitionChangeHandler::recomputeSelfOplogAndSendNextNode]. *)
Definition recomputeSelfOplogAndSendNextNode (newRingEntryAdded : RingEntry) (oldClockwiseNeighbors : list RingEntry) : M () :=
  for_each_bucket 0 (λ entries,
    split ← splitSelfOplog entries newRingEntryAdded;
    _ ← removeKeysFromSelfNode split.2;
    _ ← sendNewOplogToNewNode (nodeId newRingEntryAdded) split.2;
    updateOplogIdOfNeighNodesPlusOne split.1 oldClockwiseNeighbors).

(** The inner loop of [NewNodePartitionChangeHandler::sendSelfOplogToNodes], [k] rounds to go. *)
Fixpoint shift_loop (k : nat) (i distance : Z) (neighbors : list RingEntry) (keys : list Avl.MapEntry) : M () :=
  match k with
  | O => mret ()
  | S k =>
      e ← lift (at_throw neighbors (Z.to_nat (u32 (distance + 1 + i))));
      d ← with_partitions (λ p, Partitions.getDistance p (nodeId e));
      let oldOplog := d - 1 in
      let newOplog := oldOplog + 1 in
      request ← create creator 0 (params keys true true oldOplog newOplog);
      _ ← sendRequest (nodeId e) request;
      shift_loop k (i + 1) distance neighbors keys
  end.

(** [NewNodePartitionChangeHandler::sendSelfOplogToNodes]. *)
Definition sendSelfOplogToNodes (newNodeId : Z) : M () :=
  distance ← with_partitions (λ p, Partitions.getDistanceClockwise p newNodeId);
  npp ← with_partitions (λ p, Ret (Partitions.getNodesPerPartition p));
  let nodesToSendNewOplog := u32 (npp - distance) in
  neighbors ← with_partitions (λ p, Partitions.getNeighborsClockwise p (i32 npp));
  for_each_bucket 0 (λ keys,
    match keys with
    | [] => mret ()
    | _ => shift_loop (Z.to_nat (u32 (nodesToSendNewOplog + 1))) 0 distance neighbors keys
    end).

(** [cluster->setBooting()] and [cluster->setRunning()]. *)
Definition setBooting : M () := in_cluster (modify Cluster.setBooting).
Definition setRunning : M () := in_cluster (modify Cluster.setRunning).

(** [NewNodePartitionChangeHandler::handle]. *)
Definition handle (newNode : Z * string) : M () :=
  oldClockwiseNeighbors ← with_partitions (λ p, Partitions.getNeighborsClockwise p (-1));
  _ ← in_cluster (PartitionNeighborsNodesSetter.update_nodes (modify (ClusterNodes.addNode newNode)));
  ringEntryAdded ← in_cluster (PartitionNeighborsNodesSetter.update_partitions
    (Partitions.addByNode MD5 (id_string newNode.1) newNode.1));
  selfNodeId ← Operators.getNodeId;
  isNeighbor ← (if selfNodeId =? newNode.1 then mret false
                else with_partitions (λ p, Partitions.isNeighbor p newNode.1));
  if negb isNeighbor then mret ()
  else
    _ ← in_cluster (PartitionNeighborsNodesSetter.updateNeighborsWithNewNode newNode);
    distance ← with_partitions (λ p, Partitions.getDistanceClockwise p newNode.1);
    if distance =? 1 then
      _ ← setBooting;
      _ ← recomputeSelfOplogAndSendNextNode ringEntryAdded oldClockwiseNeighbors;
      setRunning
    else
      clockwise ← with_partitions (λ p, Partitions.isClockwiseNeighbor p newNode.1);
      if (clockwise : bool) then
        _ ← setBooting;
        _ ← sendSelfOplogToNodes newNode.1;
        setRunning
      else mret ().

End handler.
End NewNodePartitionChangeHandler.

(** ** A node that leaves *)

Module DeletionNodeChangeHandler.
Section handler.
Context `{Platform} {Env : Environment} {W : Type} {N : Network W}.
Context (creator : MoveOpLogRequestCreator.t).

Abbreviation M := (stM (node W)).
Import MoveOpLogRequestCreator.

(** The innermost loop of [DeletionNodeChangeHandler::sendRestOplogsToNextNodes]: the entries of
    one bucket to the [i]-th neighbours, [k] to go. *)
Fixpoint rest_loop (k : nat) (i actualOplogId npp : Z) (neighborsClockWise : list RingEntry)
    (actualOplog : list Avl.MapEntry) : M () :=
  match k with
  | O => mret ()
  | S k =>
      let newOplogId := i + actualOplogId in
      let oldOplog := newOplogId + 1 in
      let nodeAlreadyHoldsOplog := oldOplog <? npp in
      e ← lift (at_throw neighborsClockWise (Z.to_nat i));
      request ← create creator actualOplogId
        (params actualOplog (negb nodeAlreadyHoldsOplog) nodeAlreadyHoldsOplog oldOplog newOplogId);
      _ ← sendRequest (nodeId e) request;
      rest_loop k (i + 1) actualOplogId npp neighborsClockWise actualOplog
  end.

(** The outer loop, [k] logs to go. *)
Fixpoint oplogs_loop (k : nat) (actualOplogId npp : Z) (neighborsClockWise : list RingEntry) : M () :=
  match k with
  | O => mret ()
  | S k =>
      _ ← for_each_bucket actualOplogId (λ actualOplog,
        match actualOplog with
        | [] => mret ()
        | _ => rest_loop (Z.to_nat (npp - actualOplogId)) 0 actualOplogId npp neighborsClockWise actualOplog
        end);
      oplogs_loop k (actualOplogId + 1) npp neighborsClockWise
  end.

(** [DeletionNodeChangeHandler::sendRestOplogsToNextNodes]. *)
Definition sendRestOplogsToNextNodes (neighborsClockWise : list RingEntry) : M () :=
  npp ← with_partitions (λ p, Ret (Partitions.getNodesPerPartition p));
  oplogs_loop (Z.to_nat (npp - 1)) 1 npp neighborsClockWise.

(** [DeletionNodeChangeHandler::sendSelfOplogToPrevNode]. *)
Definition sendSelfOplogToPrevNode (prevNodeId : Z) : M () :=
  for_each_bucket 0 (λ selfOplog,
    match selfOplog with
    | [] => mret ()
    | _ =>
        request ← create creator 0 (params selfOplog true false 0 0);
        _ ← sendRequest prevNodeId request; mret ()
    end).

(** [DeletionNodeChangeHandler::handle]: the status [exit] is called with, when it is. *)
Definition handle (deletedNode : Z * string) : M (option Z) :=
  nodes ← reads (λ n, deref (Cluster.clusterNodes (cluster n)));
  _ ← (if ClusterNodes.existsByNodeId deletedNode.1 nodes then
         _ ← in_cluster (PartitionNeighborsNodesSetter.update_nodes (modify (ClusterNodes.deleteNodeById deletedNode.1)));
         in_cluster (PartitionNeighborsNodesSetter.updateNeighborsWithDeletedNode deletedNode.1)
       else mret ());
  selfNodeId ← Operators.getNodeId;
  if selfNodeId =? deletedNode.1 then
    neighborsClockWise ← with_partitions (λ p, Partitions.getNeighborsClockwise p (-1));
    prev ← with_partitions (λ p, Partitions.getNeighborCounterClockwiseByNodeId p deletedNode.1);
    prev ← lift (of_option bad_optional_access prev);
    _ ← sendSelfOplogToPrevNode (nodeId prev);
    _ ← sendRestOplogsToNextNodes neighborsClockWise;
    mret (Some (-1))
  else mret None.

End handler.
End DeletionNodeChangeHandler.

(** ** The handlers a node installs *)

(** [SimpleClusterNodeChangeHandler] and [PartitionClusterNodeChangeHandler]. *)
Inductive ClusterNodeChangeHandler := SimpleHandler | PartitionHandler (creator : MoveOpLogRequestCreator.t).

Section change_handler.
Context `{Platform} {Env : Environment} {W : Type} {N : Network W}.

(** [SimpleClusterNodeChangeHandler::handleNewNode] (its two branches do the same) and
    [SimpleClusterNodeChangeHandler::handleDeletionNode]. *)
Definition simple_handleNewNode (newNode : Z * string) : stM (node W) () :=
  _ ← reads (λ n, deref (Cluster.clusterNodes (cluster n)));
  in_cluster (PartitionNeighborsNodesSetter.update_nodes (ClusterNodes.addNodeInPartition newNode 0)).
Definition simple_handleDeletionNode (deleted : Z * string) : stM (node W) () :=
  in_cluster (PartitionNeighborsNodesSetter.update_nodes (modify (ClusterNodes.deleteNodeById deleted.1))).

(** [exit] does not return. *)
Definition exiting (m : stM (node W) (option Z)) : stM (node W) () :=
  status ← m; match status with Some _ => lift Blocked | None => mret () end.

(** [handleNewNode] and [handleDeletionNode], by the handler's class. *)
Definition handleNewNode (h : ClusterNodeChangeHandler) (newNode : Z * string) : stM (node W) () :=
  match h with
  | SimpleHandler => simple_handleNewNode newNode
  | PartitionHandler creator => NewNodePartitionChangeHandler.handle creator newNode
  end.
Definition handleDeletionNode (h : ClusterNodeChangeHandler) (deletedNode : Z * string) : stM (node W) () :=
  match h with
  | SimpleHandler => simple_handleDeletionNode deletedNode
  | PartitionHandler creator => exiting (DeletionNodeChangeHandler.handle creator deletedNode)
  end.

(** The [std::function] fields [ClusterNodeSetup] assigns. *)
Definition installed (h : ClusterNodeChangeHandler) : ChangeHandlers W := {|
  newNodeInClusterHandler newNode := handleNewNode h (newNode.1, string_of_bytes newNode.2);
  deletedNodeInClusterHandler deletedNode := handleDeletionNode h (deletedNode.1, string_of_bytes deletedNode.2);
|}.

End change_handler.
