(* ===== verification/Setup.v ===== *)
(** * Setting a node up in its cluster

    Models [cluster/setup]: the configuration of the cluster as a seed node or the own
    configuration gives it, the ring and the nodes of every partition built from it, and the
    handlers of membership changes a node installs before it announces itself.  The setup runs
    before the node serves requests, on the cluster object, the network and the disk. *)

From stdpp Require Import pretty.
From S2P Require Import Prelude.
From S2P Require Import Utils.
From S2P Require Import Clock.
From S2P Require Import Messages.
From S2P Require Import Config.
From S2P Require Import Ring.
From S2P Require Import Partitions.
From S2P Require Import Files.
From S2P Require Import Cluster.
From S2P Require Import ClusterFacade.
From S2P Require Import OperatorTypes.
From S2P Require Import Membership.

Module ClusterNodeSetup.

(** [PartitionsClusterNodeSetup] and [SimpleClusterNodeSetup]. *)
Inductive t := PartitionsClusterNodeSetup | SimpleClusterNodeSetup.

(** The nodes of a configuration as [ClusterNodes] keeps them. *)
Definition nodes_of (r : GetClusterConfigResponse.t) : list (Z * string) :=
  (λ n, (n.1, string_of_bytes n.2)) <$> GetClusterConfigResponse.nodes r.

(** [ClusterNodeSetup::isSelfTheOnlySeedNode]. *)
Definition isSelfTheOnlySeedNode (configuration : Configuration.t) : outcome bool :=
  let! seedsNodes := Configuration.getVector configuration ConfigurationKeys.SEED_NODES in
  match seedsNodes with
  | [seed] =>
      let! address := Configuration.get configuration ConfigurationKeys.ADDRESS in
      let! port := Configuration.get configuration ConfigurationKeys.SERVER_PORT in
      Ret (bool_decide (seed = (address +:+ ":" +:+ port)%string))
  | _ => Ret false
  end.

(** [Partitions::Partitions(configuration)]: an empty ring whose head is never written. *)
Definition unpartitioned (configuration : Configuration.t) : Partitions.t :=
  Partitions.mk (RingEntries.mk ∅ 0 RingEntries.Uninit ∅) (mk_entry 0 0) 0 0 configuration.

Section setup.
Context `{Platform} {Env : Environment} {W : Type} {N : Network W}.
Import PartitionNeighborsNodesSetter.

(** The position of the own node on the ring; the remainder by zero is undefined. *)
Definition self_position (selfNodeId maxPartitionSize : Z) : outcome Z :=
  if maxPartitionSize =? 0 then Undef
  else Ret (u32 (HashCalculator.calculateMD5 MD5 (id_string selfNodeId) mod maxPartitionSize)).

(** [PartitionsClusterNodeSetup::getRingEntriesFromClusterConfig]. *)
Definition getRingEntriesFromClusterConfig (configuration : Configuration.t) (clusterConfig : GetClusterConfigResponse.t) :
    outcome (list RingEntry) :=
  let ringEntries := GetClusterConfigResponse.ringEntries clusterConfig in
  let! selfNodeId := Configuration.getUint 16 configuration ConfigurationKeys.NODE_ID in
  if existsb (λ e, selfNodeId =? nodeId e) ringEntries then Ret ringEntries
  else
    let! selfRingPosition := self_position selfNodeId (GetClusterConfigResponse.maxPartitionSize clusterConfig) in
    Ret (ringEntries ++ [mk_entry selfNodeId selfRingPosition]).

(** [PartitionsClusterNodeSetup::setClusterConfig]. *)
Definition partitions_setClusterConfig (clusterConfig : GetClusterConfigResponse.t) : stM Cluster.t () :=
  c ← get_st;
  ringEntries ← lift (getRingEntriesFromClusterConfig (Cluster.configuration c) clusterConfig);
  p ← lift (Partitions.make ringEntries (GetClusterConfigResponse.nodesPerPartition clusterConfig)
              (GetClusterConfigResponse.maxPartitionSize clusterConfig) (Cluster.configuration c));
  _ ← modify (set_partitions (Some p));
  _ ← update_nodes (modify (ClusterNodes.setNumberPartitions
        (Z.to_nat (GetClusterConfigResponse.nodesPerPartition clusterConfig))));
  _ ← update_nodes (modify (ClusterNodes.addNodes (nodes_of clusterConfig)));
  updateNeighborsWithNodes (nodes_of clusterConfig).

(** [SimpleClusterNodeSetup::setClusterConfig]. *)
Definition simple_setClusterConfig (clusterConfig : GetClusterConfigResponse.t) : stM Cluster.t () :=
  c ← get_st;
  _ ← modify (set_partitions (Some (unpartitioned (Cluster.configuration c))));
  _ ← update_nodes (modify (ClusterNodes.setNumberPartitions 1));
  update_nodes (ClusterNodes.addNodesInPartition (nodes_of clusterConfig) 0).

(** [setClusterConfig] and [getClusterChangeNodeHandler], by the setup's class. *)
Definition setClusterConfig (setup : t) : GetClusterConfigResponse.t → stM Cluster.t () :=
  match setup with
  | PartitionsClusterNodeSetup => partitions_setClusterConfig
  | SimpleClusterNodeSetup => simple_setClusterConfig
  end.
Definition getClusterChangeNodeHandler (setup : t) (c : Cluster.t) : outcome ClusterNodeChangeHandler :=
  match setup with
  | PartitionsClusterNodeSetup => let! creator := MoveOpLogRequestCreator.make c in Ret (PartitionHandler creator)
  | SimpleClusterNodeSetup => Ret SimpleHandler
  end.

(** The configuration of a cluster of the own node alone. *)
Definition provided_config (configuration : Configuration.t) : outcome GetClusterConfigResponse.t :=
  let! nodesPerPartition := Configuration.getUint 32 configuration ConfigurationKeys.NODES_PER_PARTITION in
  let! selfNodeId := Configuration.getUint 16 configuration ConfigurationKeys.NODE_ID in
  let! maxPartitionSize := Configuration.getUint 32 configuration ConfigurationKeys.MAX_PARTITION_SIZE in
  let! ringPosition := self_position selfNodeId maxPartitionSize in
  Ret (GetClusterConfigResponse.mk nodesPerPartition maxPartitionSize [] [mk_entry selfNodeId ringPosition]).

(** The cluster, the network, the exchanges made with seed nodes and the disk. *)
Abbreviation M := (stM (Cluster.t * W * (nat * fs))).

Definition on_disk {A} (m : stM (nat * fs) A) : M A := λ '(cw, s), let! (s, a) := m s in Ret ((cw, s), a).
Definition on_network {A} (m : stM (Cluster.t * W) A) : M A := λ '(cw, s), let! (cw, a) := m cw in Ret ((cw, s), a).
Definition on_object {A} (m : stM Cluster.t A) : M A := λ '(c, w, s), let! (c, a) := m c in Ret ((c, w, s), a).

(** [ClusterNodeSetup::setConfigurationProvidedClusterConfig]. *)
Definition setConfigurationProvidedClusterConfig (setup : t) : M () :=
  cw ← on_network get_st;
  clusterConfig ← lift (provided_config (Cluster.configuration cw.1));
  _ ← on_object (setClusterConfig setup clusterConfig);
  on_disk (λ '(k, s), let! (s, _) := Cluster.persistClusterConfig cw.1 clusterConfig s in Ret ((k, s), ())).

(** One exchange with the node at an address over a connection opened for it. *)
Context (exchange : nat → Z * bytes → Request.t → outcome (option Response.t)).

(** [ClusterNodeSetup::initializeNodeInCluster]: the handlers that are installed. *)
Definition initializeNodeInCluster (setup : t) : M ClusterNodeChangeHandler :=
  cw ← on_network get_st;
  clusterConfigResponse ← on_disk (Cluster.getClusterConfig exchange cw.1);
  selfIsTheOnlySeedNode ← lift (isSelfTheOnlySeedNode (Cluster.configuration cw.1));
  _ ← (match clusterConfigResponse with
       | Some response => on_object (setClusterConfig setup response)
       | None =>
           if (selfIsTheOnlySeedNode : bool) then setConfigurationProvidedClusterConfig setup
           else lift (Throw runtime_error)
       end);
  changeHandler ← on_object (λ c, let! h := getClusterChangeNodeHandler setup c in Ret (c, h));
  _ ← on_network Cluster.announceJoin;
  _ ← on_object (modify Cluster.setBooting);
  mret changeHandler.

End setup.
End ClusterNodeSetup.
