(* ===== verification/Start.v ===== *)
(** * The start of a server

    Models [MemDb.cpp] (the logs on disk replayed into the stores, the logs of the cluster
    replayed after them, a corrupted segment repaired from another node) and
    [MemDbCreator.cpp] (the objects of a node built from its configuration).  Accepting
    connections is [Service]'s; the signal handler only ends the process.  The tasks
    that synchronise the partitions run one after the other in the scheduler's order; what a
    task that throws leaves behind is the parameter [unwound], since a call that throws has no
    resulting state in this development. *)

From S2P Require Import Prelude.
From S2P Require Import Utils.
From S2P Require Import Clock.
From S2P Require Import MapStore.
From S2P Require Import Messages.
From S2P Require Import Codec.
From S2P Require Import Config.
From S2P Require Import Files.
From S2P Require Import Segments.
From S2P Require Import Oplog.
From S2P Require Import Cluster.
From S2P Require Import ClusterFacade.
From S2P Require Import OperatorTypes.
From S2P Require Import Operators.
From S2P Require Import Dispatcher.
From S2P Require Import SyncReceiver.
From S2P Require Import Membership.
From S2P Require Import Setup.

Module MemDb.

(** [OperationLogIteratorOrigin]. *)
Inductive OperationLogIteratorOrigin := LOCAL | OTHER_NODE.

(** The iterators [MemDb::applyOplog] is given: over a log on disk, or over the segments another
    node sends. *)
Inductive source := on_disk (i : bytesDiskIterator) | received (i : SyncOplogReceiverIterator.t).

Section memdb.
Context `{Platform} `{Zlib} {Env : Environment} {Wt : Waiting} {W : Type} {N : Network W} {CH : ChangeHandlers W}.

Abbreviation M := (stM (node W)).

(** [hasNext] and [next] of the iterators. *)
Definition hasNext (i : source) : bool :=
  match i with on_disk i => Oplog.hasNext i | received i => SyncOplogReceiverIterator.hasNext i end.
Definition next (i : source) : M (source * option bytes) :=
  match i with
  | on_disk (oplog i) =>
      base ← Operators.data_path;
      r ← reads (λ n, OplogIterator.next (OperationLog.fetch base (operationLog n) i) i);
      mret (on_disk (oplog r.1), r.2)
  | on_disk null_iterator => lift (Throw runtime_error)
  | received i => r ← SyncOplogReceiverIterator.next loop_fuel i; mret (received r.1, r.2)
  end.

(** [std::dynamic_pointer_cast<OplogIterator>], dereferenced. *)
Definition as_oplogIterator (i : source) : outcome OplogIterator.t :=
  match i with on_disk i => OperationLog.as_oplogIterator i | received _ => Undef end.

(** [MemDb::tryFixLocalOplogSegment]. *)
Definition tryFixLocalOplogSegment (oplogIterator : source) : M bytes :=
  replication ← configured ConfigurationKeys.USE_REPLICATION;
  if negb replication then mret []
  else
    i ← lift (as_oplogIterator oplogIterator);
    corruptedDescriptor ← lift (OplogIterator.getLastDescriptor i);
    responseOptional ← on_cluster (Cluster.fixOplogSegment (OplogIterator.oplogId i)
      (OplogIndexSegmentDescriptor.min corruptedDescriptor) (OplogIndexSegmentDescriptor.max corruptedDescriptor));
    match responseOptional with
    | None => mret []
    | Some response =>
        if negb (Response.isSuccessful response) then mret []
        else
          size ← lift (Response.getResponseValueAtOffset response 0 4);
          uncompressedSize ← lift (SimpleString.to 4 false size);
          raw ← lift (Response.getResponseValueAtOffset response 4
                        (Z.to_nat (u32 (SimpleString.size (Response.responseValue response) - 4))));
          fixedOplog ← lift (SimpleString.toVector raw);
          base ← Operators.data_path;
          _ ← on_log (OperationLog.updateCorrupted base fixedOplog uncompressedSize
                (Z.to_nat (OplogIterator.getLastSegmentOplogDescriptorDiskPtr i)) (Z.to_nat (OplogIterator.oplogId i)));
          lift (of_option runtime_error (Compressor.uncompressBytes fixedOplog (Z.to_nat uncompressedSize)))
    end.

(** [MemDb::getNextOplogOrTryFix], with the iterator moved on. *)
Definition getNextOplogOrTryFix (oplogIterator : source) (oplogOrigin : OperationLogIteratorOrigin) : M (source * bytes) :=
  r ← next oplogIterator;
  match r.2, oplogOrigin with
  | Some b, _ => mret (r.1, b)
  | None, LOCAL => b ← tryFixLocalOplogSegment r.1; mret (r.1, b)
  | None, OTHER_NODE => mret (r.1, [])
  end.

(** The options operations of a log are executed with. *)
Definition replay_options (saveInOperationLog : bool) (partitionId : Z) : OperationOptions.t :=
  OperationOptions.mk true false true (negb saveInOperationLog) true LamportClock.SET_MAX partitionId 0.

(** The inner loop of [MemDb::applyOplog], returning the timestamp of the last operation. *)
Fixpoint apply_operations (operations : list OperationBody.t) (options : OperationOptions.t) (latestTimestampApplied : Z) : M Z :=
  match operations with
  | [] => mret latestTimestampApplied
  | operation :: operations =>
      op ← lift (deref (OperatorRegistry.get (OperationBody.operatorNumber operation)));
      _ ← OperatorDispatcher.executeOperation loop_fuel op operation options;
      apply_operations operations options (OperationBody.timestamp operation)
  end.

(** The outer loop of [MemDb::applyOplog]; [fuel] bounds the segments. *)
Fixpoint apply_segments (fuel : nat) (i : source) (options : OperationOptions.t) (oplogOrigin : OperationLogIteratorOrigin)
    (latestTimestampApplied : Z) : M Z :=
  match fuel with
  | O => λ _, NoFuel
  | S fuel =>
      if hasNext i then
        r ← getNextOplogOrTryFix i oplogOrigin;
        deserializedOplog ← lift (OperationLogCodec.deserializeAll r.2);
        latestTimestampApplied ← apply_operations deserializedOplog options latestTimestampApplied;
        apply_segments fuel r.1 options oplogOrigin latestTimestampApplied
      else mret latestTimestampApplied
  end.

(** [MemDb::applyOplog]. *)
Definition applyOplog (fuel : nat) (oplogIterator : source) (saveInOperationLog : bool) (partitionId : Z)
    (oplogOrigin : OperationLogIteratorOrigin) : M Z :=
  latestTimestampApplied ← apply_segments fuel oplogIterator (replay_options saveInOperationLog partitionId) oplogOrigin 0;
  _ ← OperatorDispatcher.applyDelayedOperationsBuffer loop_fuel loop_fuel;
  mret latestTimestampApplied.

(** The loop of [MemDb::restoreOplogFromDisk] from log [i] on, [k] logs to go. *)
Fixpoint restore_from (fuel k : nat) (i : Z) : M (list Z) :=
  match k with
  | O => mret []
  | S k =>
      base ← Operators.data_path;
      oplogIterator ← reads (λ n, OperationLog.getAll base (mk_options i false) (operationLog n));
      lastAppliedTimestamp ← applyOplog fuel (on_disk oplogIterator) false i LOCAL;
      rest ← restore_from fuel k (i + 1);
      mret (lastAppliedTimestamp :: rest)
  end.

(** [MemDb::restoreOplogFromDisk]. *)
Definition restoreOplogFromDisk (fuel : nat) : M (list Z) :=
  numberOplogs ← reads (λ n, Ret (OperationLog.getNumberOplogFiles (operationLog n)));
  restore_from fuel (Z.to_nat numberOplogs) 0.

(** What a task that throws leaves of the node. *)
Context (unwound : Z → node W → node W).

(** The task [MemDb::syncOplogFromCluster] starts for a partition, with its handler of exceptions. *)
Definition sync_partition (lastTimestamp oplogId : Z) : M () :=
  unsyncedOplog ← SyncOplogReceiverIterator.syncOplog loop_fuel lastTimestamp oplogId;
  _ ← applyOplog loop_fuel (received unsyncedOplog) true oplogId OTHER_NODE;
  mret ().
Definition sync_task (lastTimestamp oplogId : Z) : M () :=
  λ n, match sync_partition lastTimestamp oplogId n with Throw _ => Ret (unwound oplogId n, ()) | o => o end.

Fixpoint sync_tasks (lastTimestamps : list Z) (order : list Z) : M () :=
  match order with
  | [] => mret ()
  | i :: order =>
      lastTimestamp ← lift (at_undef lastTimestamps (Z.to_nat i));
      _ ← sync_task lastTimestamp i;
      sync_tasks lastTimestamps order
  end.

(** [MemDb::syncOplogFromCluster]. *)
Definition syncOplogFromCluster (lastTimestampProcessedFromOpLog : list Z) : M () :=
  _ ← sync_tasks lastTimestampProcessedFromOpLog
        (schedule (Z.of_nat <$> seq 0 (length lastTimestampProcessedFromOpLog)));
  in_cluster (modify Cluster.setRunning).

(** [this->clock->nodeId = id]. *)
Definition set_clock_node (id : Z) (n : node W) : node W :=
  mk_node (stores n) (LamportClock.mk (LamportClock.counter (clock n)) id) (operationLog n) (cluster n)
    (onGoingSyncOplogs n) (onGoingPaxosRounds n) (delayed n) (requestPool n) (network n).

(** [MemDb::run] up to [tcpServer->run()]. *)
Definition run (fuel : nat) : M () :=
  lastTimestampStored ← restoreOplogFromDisk fuel;
  replication ← configured ConfigurationKeys.USE_REPLICATION;
  if (replication : bool) then
    id ← Operators.getNodeId;
    _ ← modify (set_clock_node id);
    syncOplogFromCluster lastTimestampStored
  else mret ().

End memdb.
End MemDb.

(** ** Building the objects *)

Module MemDbCreator.
Section creator.
Context `{Platform} {Env : Environment} {W : Type} {N : Network W}.
Context (exchange : nat → Z * bytes → Request.t → outcome (option Response.t)).

(** [Cluster::Cluster(logger, configuration, ...)]. *)
Definition replicated_cluster (configuration : Configuration.t) : Cluster.t :=
  Cluster.mk configuration (Some (ClusterNodes.mk ∅ [] ∅ configuration)) None BOOTING.

(** [MemDbCreator::createClusterObject]: the cluster and the handlers it has. *)
Definition createClusterObject (configuration : Configuration.t) (w : W) (s : fs) :
    outcome (Cluster.t * W * fs * option ClusterNodeChangeHandler) :=
  let! useReplication := Configuration.getBoolean configuration ConfigurationKeys.USE_REPLICATION in
  if (useReplication : bool) then
    let! usePartitions := Configuration.getBoolean configuration ConfigurationKeys.USE_PARTITIONS in
    let setup := if (usePartitions : bool) then ClusterNodeSetup.PartitionsClusterNodeSetup
                 else ClusterNodeSetup.SimpleClusterNodeSetup in
    let! r := ClusterNodeSetup.initializeNodeInCluster exchange setup (replicated_cluster configuration, w, (0%nat, s)) in
    Ret (r.1.1, r.1.2.2, Some r.2)
  else Ret (Cluster.make configuration, w, s, None).

(** The name resolver of [MemDbCreator::createOperationLogObject] adds the number to the pointer
    of a literal of seven characters. *)
Definition oplogFileName (iterations : nat) : outcome string :=
  if decide (iterations ≤ 6)%nat then Ret (Stdlib.Strings.String.substring iterations (6 - iterations) "oplog-"%string) else Undef.

(** [MemDbCreator::createOperationLogObject] and [MemDbCreator::initializeOplog]. *)
Definition initializeOplog (configuration : Configuration.t) (c : Cluster.t) (s : fs) : outcome OperationLog.t :=
  let! base := Configuration.get configuration ConfigurationKeys.DATA_PATH in
  let! usePartitions := Configuration.getBoolean configuration ConfigurationKeys.USE_PARTITIONS in
  if (usePartitions : bool) then
    let! n := Cluster.getNodesPerPartition c in
    let number := Z.to_nat (i32 n) in
    let! _ := ofoldl (λ _ i, let! _ := oplogFileName i in Ret ()) () (seq 0 number) in
    let! l := MultipleOperationLog.initializeOplogs base (OperationLog.partitionPath base) number 0 s in
    Ret (OperationLog.multiple l)
  else
    let! o := SingleOperationLog.initialize base (OperationLog.partitionPath base 0) s in
    Ret (OperationLog.single o).

(** [MemDbCreator::create] from the loaded configuration on. *)
Definition create (configuration : Configuration.t) (w : W) (s : fs) :
    outcome (node W * option ClusterNodeChangeHandler) :=
  let! nodeId := Configuration.getUint 16 configuration ConfigurationKeys.NODE_ID in
  let clock := LamportClock.init 1 in
  let! r := createClusterObject configuration w s in
  let '(c, w, s, changeHandler) := r in
  let! nodesPerPartition := Cluster.getNodesPerPartition c in
  let! numberBuckets := Configuration.getUint 32 configuration ConfigurationKeys.NUMBER_BUCKETS in
  let memDbStores := MemDbStores.initializeStoresMap None ∅ nodesPerPartition (i32 numberBuckets) in
  let! _ := Configuration.getUint 16 configuration ConfigurationKeys.SERVER_PORT in
  let! _ := Configuration.getUint 32 configuration ConfigurationKeys.SERVER_THREADS in
  let! dataPath := Configuration.get configuration ConfigurationKeys.DATA_PATH in
  let! (s, buffer) := BackedDiskRequestBuffer.make dataPath "pending-requests-to-handle" s in
  let! operationLog := initializeOplog configuration c s in
  Ret (mk_node memDbStores clock operationLog c (OnGoingSyncOplogsStore.make nodeId) OnGoingPaxosRounds.empty
         (buffer, s) [] w, changeHandler).

End creator.
End MemDbCreator.
