(* ===== verification/MembershipFacts.v ===== *)
(** * What membership changes guarantee

    Every node listed in a partition has an address, from the setup of the cluster on and
    through every request the node serves, membership announcements included; the operations
    a node moves to another arrive; and the handlers discharge what the acceptor's promises
    need of them. *)

From S2P Require Import Prelude.
From S2P Require Import Utils.
From S2P Require Import Clock.
From S2P Require Import Avl.
From S2P Require Import MapStore.
From S2P Require Import Messages.
From S2P Require Import Codec.
From S2P Require Import Config.
From S2P Require Import Ring.
From S2P Require Import Partitions.
From S2P Require Import Files.
From S2P Require Import Segments.
From S2P Require Import Oplog.
From S2P Require Import Cluster.
From S2P Require Import ClusterFacade.
From S2P Require Import OperatorTypes.
From S2P Require Import Operators.
From S2P Require Import Dispatcher.
From S2P Require Import Invariants.
From S2P Require Import Paxos.
From S2P Require Import OperatorFacts.
From S2P Require Import SyncReceiver.
From S2P Require Import Membership.
From S2P Require Import Setup.
From S2P Require Import Start.

(** ** Nodes of a partition are known *)

(** Every node listed in a partition has an address. *)
Definition listed_known (c : ClusterNodes.t) : Prop :=
  ∀ s id, s ∈ ClusterNodes.nodesInPartitions c → id ∈ s → is_Some (ClusterNodes.allNodesById c !! id).
Definition known (c : Cluster.t) : Prop :=
  match Cluster.clusterNodes c with Some n => listed_known n | None => True end.

(** Steps that keep it. *)
Definition keeps_listed (c c' : ClusterNodes.t) : Prop := listed_known c → listed_known c'.
Definition keeps_known (c c' : Cluster.t) : Prop := known c → known c'.

#[global] Instance keeps_listed_preorder : PreOrder keeps_listed.
Proof. unfold keeps_listed. split; [by intros c|]. intros a b c H1 H2 H. auto. Qed.
#[global] Instance keeps_known_preorder : PreOrder keeps_known.
Proof. unfold keeps_known. split; [by intros c|]. intros a b c H1 H2 H. auto. Qed.

Section tables.
Import ClusterNodes.
Implicit Types (c : ClusterNodes.t).

Lemma listed_addNode x c : listed_known c → listed_known (addNode x c).
Proof.
  intros L s id Hs Hid. simpl. destruct (decide (x.1 = id)) as [->|Hne]; [by rewrite lookup_insert_eq|].
  rewrite lookup_insert_ne by done. by eapply L.
Qed.

Lemma listed_addNodes l c : listed_known c → listed_known (addNodes l c).
Proof. unfold addNodes. revert c. induction l as [|x l IH]; intros c L; [done|]. by apply IH, listed_addNode. Qed.

Lemma listed_deleteNodeById id c : listed_known c → listed_known (deleteNodeById id c).
Proof.
  intros L s x Hs Hx. simpl in *. apply list_elem_of_fmap in Hs as (s' & -> & Hs).
  apply elem_of_difference in Hx as [Hx Hne]. rewrite lookup_delete_ne by set_solver. by eapply L.
Qed.

(** One partition is replaced and the nodes are those of [m]. *)
Lemma listed_insert c i s' m :
  listed_known c → (∀ id, is_Some (allNodesById c !! id) → is_Some (m !! id)) → (∀ id, id ∈ s' → is_Some (m !! id)) →
  listed_known (mk m (<[i:=s']> (nodesInPartitions c)) (hints c) (configuration c)).
Proof.
  intros L Hm Hs s id [j Hj]%list_elem_of_lookup Hid. simpl in *.
  apply list_lookup_insert_Some in Hj as [(_ & <- & _)|[_ Hj]]; [by apply Hs|].
  apply Hm. eapply L, Hid. by eapply list_elem_of_lookup_2.
Qed.

Lemma alter_partition_inv e i f c c' u :
  alter_partition e i f c = Ret (c', u) → (∀ s, e ≠ Ret s) →
  ∃ s, nodesInPartitions c !! i = Some s ∧
       c' = mk (allNodesById c) (<[i:=f s]> (nodesInPartitions c)) (hints c) (configuration c).
Proof.
  unfold alter_partition. destruct (nodesInPartitions c !! i) as [s|]; intros E He.
  - cbn [obind] in E. injection E as <- _. by exists s.
  - destruct e; try done. by destruct (He a).
Qed.

#[global] Instance listed_modify_addNode x : Respects keeps_listed (modify (addNode x)).
Proof. apply respects_modify. intros c. exact (listed_addNode x c). Qed.
#[global] Instance listed_modify_addNodes l : Respects keeps_listed (modify (addNodes l)).
Proof. apply respects_modify. intros c. exact (listed_addNodes l c). Qed.
#[global] Instance listed_modify_delete id : Respects keeps_listed (modify (deleteNodeById id)).
Proof. apply respects_modify. intros c. exact (listed_deleteNodeById id c). Qed.

#[global] Instance listed_modify_number k : Respects keeps_listed (modify (setNumberPartitions k)).
Proof.
  apply respects_modify. intros c L s id Hs Hid. simpl in *. apply elem_of_app in Hs as [Hs|Hs]; [by eapply L|].
  apply elem_of_replicate in Hs as [-> _]. set_solver.
Qed.

#[global] Instance listed_addNodeInPartition x p : Respects keeps_listed (addNodeInPartition x p).
Proof.
  intros c c' [] E L. unfold addNodeInPartition in E. apply stM_bind_inv in E as (c1 & u & E1 & E2).
  apply alter_partition_inv in E1 as (s & Hs & ->); [|done]. injection E2 as <-.
  assert (∀ id, is_Some (allNodesById c !! id) ∨ id = x.1 → is_Some (<[x.1:=x.2]> (allNodesById c) !! id)) as Hk.
  { intros id Hid. destruct (decide (x.1 = id)) as [<-|Hne]; [by rewrite lookup_insert_eq|].
    rewrite lookup_insert_ne by done. naive_solver. }
  apply (listed_insert c p ({[x.1]} ∪ s)); [done|auto|]. intros id Hid. apply Hk. apply elem_of_union in Hid as [?|Hid]; [set_solver|].
  left. eapply L, Hid. by eapply list_elem_of_lookup_2.
Qed.

#[global] Instance listed_removeNodeFromPartition id p : Respects keeps_listed (removeNodeFromPartition id p).
Proof.
  intros c c' [] E L. apply alter_partition_inv in E as (s & Hs & ->); [|done].
  apply (listed_insert c p); [done|auto|]. intros x Hx. apply elem_of_difference in Hx as [Hx _].
  eapply L, Hx. by eapply list_elem_of_lookup_2.
Qed.

(** [addNodesInPartition] replaces the object of a node it already knows. *)
Lemma addNodesInPartition_cons x l p c :
  addNodesInPartition (x :: l) p c = (_ ← addNodeInPartition x p; addNodesInPartition l p) c.
Proof.
  unfold addNodeInPartition, alter_partition, modify, mbind, stM_bind. cbn. unfold mbind, stM_bind. cbn.
  unfold alter_partition. cbn. destruct (nodesInPartitions c !! p); [|done]. cbn. do 2 f_equal.
  unfold addNode, set_partitions, set_nodes. cbn. by rewrite insert_delete_eq.
Qed.

#[global] Instance listed_addNodesInPartition l p : Respects keeps_listed (addNodesInPartition l p).
Proof.
  induction l as [|x l IH]; [apply respects_ret, _|].
  intros c c' u E. rewrite addNodesInPartition_cons in E. revert c c' u E.
  apply (respects_bind keeps_listed); apply _.
Qed.

End tables.

(** ** The setter and the setup keep it *)

Section setter.
Context `{Platform} {Env : Environment}.
Import PartitionNeighborsNodesSetter.

#[global] Instance known_on_partitions {A} (f : Partitions.t → outcome A) : Respects keeps_known (on_partitions f).
Proof. intros c c' a E. unfold on_partitions in E. inv_ret. exact (λ K, K). Qed.

#[global] Instance known_set_partitions p : Respects keeps_known (modify (set_partitions p)).
Proof. apply respects_modify. exact (λ c K, K). Qed.

#[global] Instance known_update_partitions {A} (m : stM Partitions.t A) : Respects keeps_known (update_partitions m).
Proof. intros c c' a E. unfold update_partitions in E. inv_ret. exact (λ K, K). Qed.

#[global] Instance known_update_nodes {A} (m : stM ClusterNodes.t A) :
  Respects keeps_listed m → Respects keeps_known (update_nodes m).
Proof.
  intros Hm c c' a E K. unfold update_nodes in E. unfold known in K.
  destruct (Cluster.clusterNodes c) as [n|]; [|done]. cbn [deref obind] in E.
  destruct (m n) as [[n' a']| | | |] eqn:Em; try done. injection E as <- <-. exact (Hm _ _ _ Em K).
Qed.

#[global] Instance known_booting : Respects keeps_known (modify Cluster.setBooting).
Proof. apply respects_modify. exact (λ c K, K). Qed.
#[global] Instance known_running : Respects keeps_known (modify Cluster.setRunning).
Proof. apply respects_modify. exact (λ c K, K). Qed.

#[global] Instance known_new_loop k x i e : Respects keeps_known (newNode_loop k x i e).
Proof.
  revert i e. induction k as [|k IH]; intros i e; cbn [newNode_loop]; [apply _|].
  unfold getOldNodeIdPartitionMember. respects.
Qed.

#[global] Instance known_nodes_loop k l i e : Respects keeps_known (nodes_loop k l i e).
Proof.
  revert i e. induction k as [|k IH]; intros i e; cbn [nodes_loop]; [apply _|].
  unfold getRingEntriesPartitionExceptSelf. respects.
Qed.

#[global] Instance known_new x : Respects keeps_known (updateNeighborsWithNewNode x).
Proof. unfold updateNeighborsWithNewNode. respects. Qed.
#[global] Instance known_deleted id : Respects keeps_known (updateNeighborsWithDeletedNode id).
Proof. unfold updateNeighborsWithDeletedNode. respects. Qed.

#[global] Instance known_setClusterConfig setup r : Respects keeps_known (ClusterNodeSetup.setClusterConfig setup r).
Proof.
  destruct setup; cbn [ClusterNodeSetup.setClusterConfig];
    unfold ClusterNodeSetup.partitions_setClusterConfig, ClusterNodeSetup.simple_setClusterConfig,
      updateNeighborsWithNodes; respects.
Qed.

End setter.

(** ** The handlers *)

(** A relation on nodes that allows the steps of the handlers. *)
Class HandlerRelation {W : Type} (R : relation (node W)) : Prop := {
  hr_preorder :: PreOrder R;
  hr_frame n n' : onGoingPaxosRounds n' = onGoingPaxosRounds n → same_members (cluster n) (cluster n') → R n n';
  hr_cluster {A} (m : stM Cluster.t A) :: Respects keeps_known m → Respects R (in_cluster m);
}.

Section handlers.
Context `{Platform} {Env : Environment} {W : Type} {N : Network W}.
Context {R : relation (node W)} {HR : HandlerRelation R} (creator : MoveOpLogRequestCreator.t).

#[local] Instance handler_reads {A} (f : node W → outcome A) : Respects R (reads f) := frame_reads R hr_frame f.
#[local] Instance handler_store {A} pid (f : stM Map.t A) : Respects R (on_store pid f) := frame_store R hr_frame pid f.
#[local] Instance handler_log {A} (f : stM OperationLog.t A) : Respects R (on_log f) := frame_log R hr_frame f.

#[local] Instance handler_send id request : Respects R (sendRequest id request).
Proof.
  apply (frame_on_cluster R hr_frame), cluster_on_nodes.
  apply (tables_frame (λ c, ClusterNodes.sendRequest loop_fuel id request c) (λ r, r)).
Qed.

#[local] Instance handler_buckets k pid b body : (∀ l, Respects R (body l)) → Respects R (buckets_from k pid b body).
Proof. intros Hb. revert b. induction k as [|k IH]; intros b; [done|]. cbn [buckets_from]. respects. Qed.
#[local] Instance handler_each pid body : (∀ l, Respects R (body l)) → Respects R (for_each_bucket pid body).
Proof. intros Hb. unfold for_each_bucket. respects. Qed.

#[local] Instance handler_operations pid l : Respects R (MoveOpLogRequestCreator.createOperations pid l).
Proof.
  induction l as [|e l IH]; cbn [MoveOpLogRequestCreator.createOperations]; [apply _|].
  unfold MoveOpLogRequestCreator.convertMapEntryIntoOperation, Operators.toData, Operators.payload_of. respects.
Qed.
#[local] Instance handler_create pid p : Respects R (MoveOpLogRequestCreator.create creator pid p).
Proof. unfold MoveOpLogRequestCreator.create. respects. Qed.

Import NewNodePartitionChangeHandler DeletionNodeChangeHandler.

#[local] Instance handler_remove l : Respects R (removeKeysFromSelfNode l).
Proof. induction l as [|e l IH]; cbn [removeKeysFromSelfNode]; respects. Qed.
#[local] Instance handler_renumber i request l : Respects R (renumber_loop i request l).
Proof. revert i request. induction l as [|e l IH]; intros i request; cbn [renumber_loop]; respects. Qed.
#[local] Instance handler_shift k i d l keys : Respects R (shift_loop creator k i d l keys).
Proof. revert i. induction k as [|k IH]; intros i; cbn [shift_loop]; unfold with_partitions; respects. Qed.
#[local] Instance handler_rest k i o npp l keys : Respects R (rest_loop creator k i o npp l keys).
Proof. revert i. induction k as [|k IH]; intros i; cbn [rest_loop]; respects. Qed.
#[local] Instance handler_oplogs k o npp l : Respects R (oplogs_loop creator k o npp l).
Proof. revert o. induction k as [|k IH]; intros o; cbn [oplogs_loop]; respects. Qed.

#[local] Instance handler_new x : Respects R (NewNodePartitionChangeHandler.handle creator x).
Proof.
  unfold NewNodePartitionChangeHandler.handle, recomputeSelfOplogAndSendNextNode, sendSelfOplogToNodes, splitSelfOplog,
    sendNewOplogToNewNode, updateOplogIdOfNeighNodesPlusOne, setBooting, setRunning, with_partitions, Operators.getNodeId.
  respects.
Qed.

#[local] Instance handler_deletion x : Respects R (DeletionNodeChangeHandler.handle creator x).
Proof.
  unfold DeletionNodeChangeHandler.handle, sendRestOplogsToNextNodes, sendSelfOplogToPrevNode, with_partitions,
    Operators.getNodeId. respects.
Qed.

End handlers.

Section installed.
Context `{Platform} {Env : Environment} {W : Type} {N : Network W}.
Context {R : relation (node W)} {HR : HandlerRelation R} (h : ClusterNodeChangeHandler).

#[global] Instance respects_handleNewNode x : Respects R (handleNewNode h x).
Proof.
  destruct h; cbn [handleNewNode]; [|apply handler_new]. unfold simple_handleNewNode.
  apply respects_bind; [apply _|apply (frame_reads R hr_frame)|apply _].
Qed.

#[global] Instance respects_handleDeletionNode x : Respects R (handleDeletionNode h x).
Proof.
  destruct h; cbn [handleDeletionNode]; [unfold simple_handleDeletionNode; apply _|].
  unfold exiting. apply respects_bind; [apply _|apply handler_deletion|]. intros [st|]; apply _.
Qed.

End installed.

(** ** The two relations *)

(** The acceptor's promises do not depend on the cluster. *)
#[global] Instance promises_handlers {W : Type} : HandlerRelation (promises_kept (W := W)).
Proof.
  split; [apply _| |].
  - intros n n' E _. by apply kept_same.
  - intros A m _ n n' a E. unfold in_cluster, on_cluster in E. inv_ret. by apply kept_same.
Qed.

#[global] Instance installed_monotone `{Platform} {Env : Environment} {W : Type} {N : Network W}
    (h : ClusterNodeChangeHandler) : MonotoneHandlers (W := W) (installed h).
Proof. split; intros x; simpl; apply _. Qed.

Definition members {W : Type} (n : node W) : Prop := known (cluster n).
Definition keeps_members {W : Type} (n n' : node W) : Prop := keeps_known (cluster n) (cluster n').

#[global] Instance keeps_members_preorder {W : Type} : PreOrder (keeps_members (W := W)).
Proof. unfold keeps_members. split; [by intros n|]. intros n1 n2 n3 H1 H2. by transitivity (cluster n2). Qed.

Lemma keeps_same_members c c' : same_members c c' → keeps_known c c'.
Proof.
  intros [_ S] K. unfold known in *. destruct (Cluster.clusterNodes c), (Cluster.clusterNodes c'); try done.
  destruct S as [E1 E2]. intros s id Hs Hid. rewrite <- E1. rewrite <- E2 in Hs. by eapply K.
Qed.

#[global] Instance members_handlers {W : Type} : HandlerRelation (keeps_members (W := W)).
Proof.
  split; [apply _| |].
  - intros n n' _ S. by apply keeps_same_members.
  - intros A m Hm n n' a E. unfold in_cluster, on_cluster in E.
    destruct (m (cluster n)) as [[c b]| | | |] eqn:Em; try done. injection E as <- <-. exact (Hm _ _ _ Em).
Qed.

(** The rounds do not matter for the nodes' tables. *)
#[global] Instance members_rounds {W : Type} {A} (f : stM OnGoingPaxosRounds.t A) :
  Respects (keeps_members (W := W)) (on_rounds f).
Proof. intros n n' a E. unfold on_rounds in E. inv_ret. exact (λ K, K). Qed.

#[global] Instance members_relation `{Platform} {Env : Environment} {W : Type} {N : Network W}
    (h : ClusterNodeChangeHandler) : NodeRelation (CH := installed h) (keeps_members (W := W)).
Proof.
  pose proof (@frame_reads _ _ (hr_frame (W := W) (R := keeps_members))) as Hr.
  pose proof (@frame_store _ _ (hr_frame (W := W) (R := keeps_members))) as Hs.
  pose proof (@frame_log _ _ (hr_frame (W := W) (R := keeps_members))) as Hl.
  split; try apply _; try apply hr_frame.
Qed.

(** ** From the creation of a node on *)

Section lifetime.
Context `{Platform} `{Zlib} {Env : Environment} {Wt : Waiting} {W : Type} {N : Network W}.
Context (exchange : nat → Z * bytes → Request.t → outcome (option Response.t)).
Context (h : ClusterNodeChangeHandler) (unwound : Z → node W → node W).

(** The setup, on the cluster object beside the network and the disk. *)
Definition setup_keeps (x y : Cluster.t * W * (nat * fs)) : Prop := keeps_known x.1.1 y.1.1.

#[local] Instance setup_keeps_preorder : PreOrder setup_keeps.
Proof. unfold setup_keeps. split; [by intros x|]. intros x y z H1 H2. by transitivity y.1.1. Qed.

#[local] Instance setup_disk {A} (m : stM (nat * fs) A) : Respects setup_keeps (ClusterNodeSetup.on_disk m).
Proof. intros [cw s] [cw' s'] a E. unfold ClusterNodeSetup.on_disk in E. inv_ret. exact (λ K, K). Qed.
#[local] Instance setup_network {A} (m : stM (Cluster.t * W) A) :
  Respects same_cluster m → Respects setup_keeps (ClusterNodeSetup.on_network m).
Proof.
  intros Hm [cw s] [cw' s'] a E. unfold ClusterNodeSetup.on_network in E.
  destruct (m cw) as [[x b]| | | |] eqn:Em; try done. injection E as <- <- <-. exact (keeps_same_members _ _ (Hm _ _ _ Em)).
Qed.
#[local] Instance setup_object {A} (m : stM Cluster.t A) :
  Respects keeps_known m → Respects setup_keeps (ClusterNodeSetup.on_object m).
Proof.
  intros Hm [[c w] s] [[c' w'] s'] a E. unfold ClusterNodeSetup.on_object in E.
  destruct (m c) as [[x b]| | | |] eqn:Em; try done. injection E as <- <- <- <-. exact (Hm _ _ _ Em).
Qed.

Lemma initialize_keeps setup : Respects setup_keeps (ClusterNodeSetup.initializeNodeInCluster exchange setup).
Proof.
  assert (Respects keeps_known (λ c, let! h := ClusterNodeSetup.getClusterChangeNodeHandler setup c in Ret (c, h))).
  { intros c c' a E. inv_ret. exact (λ K, K). }
  unfold ClusterNodeSetup.initializeNodeInCluster, ClusterNodeSetup.setConfigurationProvidedClusterConfig. respects.
Qed.

Lemma cluster_members conf w s c w' s' h' :
  MemDbCreator.createClusterObject exchange conf w s = Ret (c, w', s', h') → known c.
Proof.
  unfold MemDbCreator.createClusterObject. intros E.
  destruct (Configuration.getBoolean conf ConfigurationKeys.USE_REPLICATION) as [[]| | | |]; try done; cbn [obind] in E.
  2:{ by injection E as <- <- <- <-. }
  destruct (Configuration.getBoolean conf ConfigurationKeys.USE_PARTITIONS) as [p| | | |]; try done; cbn [obind] in E.
  destruct (ClusterNodeSetup.initializeNodeInCluster _ _ _) as [[[[c1 w1] s1] h1]| | | |] eqn:Ei; try done.
  injection E as <- <- <- <-. apply (initialize_keeps _ _ _ _ Ei). intros s2 id Hs. simpl in Hs.
  by apply not_elem_of_nil in Hs.
Qed.

(** A node is created with its table in order. *)
Lemma create_members conf w s n h' : MemDbCreator.create exchange conf w s = Ret (n, h') → members n.
Proof. unfold MemDbCreator.create. intros E. inv_ret. by eapply cluster_members. Qed.

(** [MemDb::run] keeps it, when what a failed task leaves does. *)
Section run.
Context (Hunwound : ∀ i n, keeps_members n (unwound i n)).
Abbreviation R := (keeps_members (W := W)).

#[local] Instance run_reads {A} (f : node W → outcome A) : Respects R (reads f) := frame_reads R hr_frame f.
#[local] Instance run_log {A} (f : stM OperationLog.t A) : Respects R (on_log f) := frame_log R hr_frame f.
#[local] Instance run_cluster {A} (f : stM (Cluster.t * W) A) :
  Respects same_cluster f → Respects R (on_cluster f) := frame_on_cluster R hr_frame f.
#[local] Instance run_send id request : Respects R (SyncOplogReceiverIterator.send id request).
Proof.
  apply run_cluster. intros [c w] [c' w'] a E. simpl in E. inv_ret. unfold same_cluster. simpl. reflexivity.
Qed.
#[local] Instance run_nextSyncId : Respects R SyncOplogReceiverIterator.nextSyncId.
Proof. intros n n' a E. unfold SyncOplogReceiverIterator.nextSyncId in E. inv_ret. exact (λ K, K). Qed.

#[local] Instance run_init fuel i : Respects R (SyncOplogReceiverIterator.initSyncOplog fuel i).
Proof.
  revert i. induction fuel as [|fuel IH]; intros i; [done|]. cbn [SyncOplogReceiverIterator.initSyncOplog].
  unfold SyncOplogReceiverIterator.createSyncOplogRequest, SyncOplogReceiverIterator.otherOplogId. respects.
Qed.
#[local] Instance run_next_segment fuel i : Respects R (SyncOplogReceiverIterator.sendNextSegment fuel i).
Proof.
  revert i. induction fuel as [|fuel IH]; intros i; [done|]. cbn [SyncOplogReceiverIterator.sendNextSegment].
  unfold SyncOplogReceiverIterator.createNextSegmnentRequest, SyncOplogReceiverIterator.otherOplogId. respects.
Qed.
#[local] Instance run_next i : Respects R (MemDb.next i).
Proof.
  destruct i as [[i|]|i]; cbn [MemDb.next]; unfold SyncOplogReceiverIterator.next, Operators.data_path; respects.
Qed.

#[local] Instance run_operations l options t : Respects R (MemDb.apply_operations (CH := installed h) l options t).
Proof. revert t. induction l as [|op l IH]; intros t; cbn [MemDb.apply_operations]; respects. Qed.
#[local] Instance run_segments fuel i options origin t :
  Respects R (MemDb.apply_segments (CH := installed h) fuel i options origin t).
Proof.
  revert i t. induction fuel as [|fuel IH]; intros i t; [done|]. cbn [MemDb.apply_segments].
  unfold MemDb.getNextOplogOrTryFix, MemDb.tryFixLocalOplogSegment, configured, Operators.data_path. respects.
Qed.
#[local] Instance run_apply fuel i save pid origin :
  Respects R (MemDb.applyOplog (CH := installed h) fuel i save pid origin).
Proof. unfold MemDb.applyOplog. respects. Qed.
#[local] Instance run_restore fuel k i : Respects R (MemDb.restore_from (CH := installed h) fuel k i).
Proof. revert i. induction k as [|k IH]; intros i; cbn [MemDb.restore_from]; unfold Operators.data_path; respects. Qed.

#[local] Instance run_task t i : Respects R (MemDb.sync_task (CH := installed h) unwound t i).
Proof using Hunwound.
  assert (Respects R (MemDb.sync_partition (CH := installed h) t i)) as Hs
    by (unfold MemDb.sync_partition, SyncOplogReceiverIterator.syncOplog; respects).
  intros n n' a E. unfold MemDb.sync_task in E. destruct (MemDb.sync_partition t i n) eqn:Et; try done.
  - injection E as ->. exact (Hs _ _ _ Et).
  - injection E as <- <-. apply Hunwound.
Qed.
#[local] Instance run_tasks l order : Respects R (MemDb.sync_tasks (CH := installed h) unwound l order).
Proof using Hunwound. induction order as [|i order IH]; cbn [MemDb.sync_tasks]; respects. Qed.

Lemma run_members fuel : Respects R (MemDb.run (CH := installed h) unwound fuel).
Proof using Hunwound.
  assert (∀ id, Respects R (modify (MemDb.set_clock_node id))) by (intros id; apply respects_modify; exact (λ n K, K)).
  unfold MemDb.run, MemDb.restoreOplogFromDisk, MemDb.syncOplogFromCluster, configured, Operators.getNodeId. respects.
Qed.

End run.
End lifetime.

(** A broadcast looks every listed node up without failing. *)
Lemma nodesOfPartition_known c p s :
  listed_known c → ClusterNodes.nodesInPartitions c !! p = Some s →
  ClusterNodes.nodesOfPartition p c = Ret (ClusterNodes.getAll s).
Proof.
  intros L Hs. unfold ClusterNodes.nodesOfPartition. rewrite (at_undef_Some _ _ _ Hs). cbn [obind].
  assert (∀ id, id ∈ ClusterNodes.getAll s → is_Some (ClusterNodes.allNodesById c !! id)) as Hk.
  { intros id Hid. eapply L; [by eapply list_elem_of_lookup_2|].
    by rewrite <- elem_of_elements, <- (getAll_Permutation s). }
  assert (∀ l acc, (∀ id, id ∈ l → is_Some (ClusterNodes.allNodesById c !! id)) →
    ofoldl (λ l id, let! _ := of_option out_of_range (ClusterNodes.allNodesById c !! id) in Ret (l ++ [id])) acc l
    = Ret (acc ++ l)) as E; [|by apply (E _ [])].
  clear. induction l as [|id l IH]; intros acc Hk; cbn [ofoldl]; [by rewrite app_nil_r|].
  destruct (Hk id ltac:(by left)) as [a ->]. cbn [of_option obind].
  rewrite IH by (intros x Hx; apply Hk; by right). by rewrite <- app_assoc.
Qed.

(** C15: No broadcast to a partition fails for a node without an address.  From the creation of
    a replicated node, through [MemDb::run] and whatever requests it then serves (nodes that
    join and leave included, handled with or without partitions), every node listed in a
    partition is known by its address, so that looking the nodes of any partition up succeeds
    and yields exactly the listed ones.  [unwound] is what a synchronisation task that throws
    leaves of the node. *)
Theorem listed_nodes_are_known `{Platform} `{Zlib} {Env : Environment} {Wt : Waiting} {W : Type} {N : Network W}
    exchange conf w s h (unwound : Z → node W → node W) boot k fuel requests n0 n1 n2 rs c p partition :
  (∀ i n, keeps_members n (unwound i n)) →
  MemDbCreator.create exchange conf w s = Ret (n0, Some h) →
  MemDb.run (CH := installed h) unwound boot n0 = Ret (n1, ()) →
  serve (CH := installed h) k fuel requests n1 = Ret (n2, rs) →
  Cluster.clusterNodes (cluster n2) = Some c → ClusterNodes.nodesInPartitions c !! p = Some partition →
  ClusterNodes.nodesOfPartition p c = Ret (ClusterNodes.getAll partition).
Proof.
  intros Hu Ec Er Es Hc Hp. apply nodesOfPartition_known; [|done].
  assert (members n2) as M.
  { apply (respects keeps_members _ _ _ Es), (run_members h unwound Hu boot _ _ _ Er). by eapply create_members. }
  unfold members, known in M. by rewrite Hc in M.
Qed.

(** A replicated node that is its own seed; node 2 joins, and node 3 joins and leaves. *)
Definition seed_config : Configuration.t :=
  Configuration.mk (<[ConfigurationKeys.SEED_NODES := "localhost:10000"%string]>
    (<[ConfigurationKeys.USE_REPLICATION := "true"%string]> (<[ConfigurationKeys.DATA_PATH := "/d"%string]>
      (<[ConfigurationKeys.NUMBER_BUCKETS := "4"%string]> DefaultConfig_get)))) (λ _, None).
Definition no_answer : nat → Z * bytes → Request.t → outcome (option Response.t) := λ _ _ _, Ret None.
Definition announcement (number id : Z) (args : list SimpleString.t) : Request.t :=
  Request.mk (AuthenticationBody.mk [] true false) (OperationBody.mk (Some args) 0 id number false false) 0 NODE.
Definition announcements : list Request.t :=
  [announcement OperatorNumbers.JOIN_CLUSTER_ANNOUNCE 2 [SimpleString.mk [50; 58; 49] 3];
   announcement OperatorNumbers.JOIN_CLUSTER_ANNOUNCE 3 [SimpleString.mk [51; 58; 49] 3];
   announcement OperatorNumbers.LEAVE_CLUSTER_ANNOUNCE 3 []].

Definition seed_created : node () * option ClusterNodeChangeHandler :=
  returned (sample_node seed_config, None)
    (MemDbCreator.create (H := masking_target) (Env := sample_env) (N := only_node_3) no_answer seed_config ()
       (mk_fs ∅ {["/d"%string]})).
#[local] Abbreviation simple_handlers :=
  (installed (H := masking_target) (Env := sample_env) (N := only_node_3) SimpleHandler).
Definition seed_started : node () * () :=
  returned (seed_created.1, ())
    (MemDb.run (H := masking_target) (H0 := plain_zlib) (Env := sample_env) (Wt := sample_waiting) (N := only_node_3)
       (CH := simple_handlers) (λ _ n, n) 3 seed_created.1).
Definition seed_served : node () * list Response.t :=
  returned (seed_started.1, [])
    (serve (H := masking_target) (H0 := plain_zlib) (Env := sample_env) (Wt := sample_waiting) (N := only_node_3)
       (CH := simple_handlers) 1 1 announcements seed_started.1).
Definition seed_nodes : ClusterNodes.t :=
  default (ClusterNodes.mk ∅ [] ∅ seed_config) (Cluster.clusterNodes (cluster seed_served.1)).

Lemma listed_nodes_are_known_witness :
  Cluster.clusterNodes (cluster seed_served.1) = Some seed_nodes ∧
  ClusterNodes.nodesOfPartition 0 seed_nodes = Ret (ClusterNodes.getAll {[2]}).
Proof.
  assert (Cluster.clusterNodes (cluster seed_served.1) = Some seed_nodes) as Ec.
  { unfold seed_nodes. assert (is_Some (Cluster.clusterNodes (cluster seed_served.1))) as [c E]; [|by rewrite E].
    apply (bool_decide_unpack _). vm_compute. reflexivity. }
  split; [exact Ec|].
  apply (listed_nodes_are_known (H := masking_target) (H0 := plain_zlib) (Env := sample_env) (Wt := sample_waiting)
    (N := only_node_3) no_answer seed_config () (mk_fs ∅ {["/d"%string]}) SimpleHandler (λ _ n, n) 3 1 1 announcements
    seed_created.1 seed_started.1 seed_served.1 seed_served.2).
  - intros i n K. exact K.
  - apply returned_pair; vm_compute; reflexivity.
  - apply returned_pair; vm_compute; reflexivity.
  - apply returned_pair; [vm_compute; reflexivity|reflexivity].
  - exact Ec.
  - vm_compute. reflexivity.
Defined.

(** ** Operations moved to another node *)

Section moving.
Context `{Platform} {W : Type}.
Implicit Types (n r : node W) (creator : MoveOpLogRequestCreator.t).
Import MoveOpLogRequestCreator.

(** An entry of partition [pid] that holds plain data small enough for the log's records. *)
Definition movable n (pid : Z) (e : Avl.MapEntry) (d : SimpleString.t * LamportClock.t) : Prop :=
  Avl.e_type e = Avl.DATA ∧
  (∃ m, stores n !! pid = Some m ∧ Map.datas m !! Avl.e_data e = Some (Avl.DataAVLNode d.1 d.2)) ∧
  log_op_ok (set_operation (Avl.e_key e) d.1 d.2) [Avl.e_key e; d.1].

(** The operation the receiver executes for it: the node that wrote the value is lost. *)
Definition moved_operation (e : Avl.MapEntry) (d : SimpleString.t * LamportClock.t) : OperationBody.t :=
  OperationBody.mk (Some [Avl.e_key e; d.1]) (LamportClock.counter d.2) 1 OperatorNumbers.SET false false.

Definition moved_records (es : list Avl.MapEntry) (ds : list (SimpleString.t * LamportClock.t)) :
    list (OperationBody.t * list SimpleString.t) :=
  zip_with (λ e d, (set_operation (Avl.e_key e) d.1 d.2, [Avl.e_key e; d.1])) es ds.

Lemma convert_ok n pid e d :
  movable n pid e d →
  convertMapEntryIntoOperation pid e n = Ret (n, set_operation (Avl.e_key e) d.1 d.2).
Proof.
  intros (Ht & (m & Hm & Hd) & _). unfold convertMapEntryIntoOperation. rewrite Ht.
  rewrite (stM_bind_Ret _ _ n n d); [done|]. unfold Operators.toData.
  rewrite (stM_bind_Ret _ _ n n (Avl.DataAVLNode d.1 d.2)); [by destruct d|].
  unfold Operators.payload_of, reads, MemDbStores.getByPartitionId. rewrite Hm. cbn [of_option obind]. by rewrite Hd.
Qed.

Lemma createOperations_ok n pid es ds :
  Forall2 (movable n pid) es ds → createOperations pid es n = Ret (n, (moved_records es ds).*1).
Proof.
  induction 1 as [|e d es ds He _ IH]; cbn [createOperations]; [done|].
  erewrite stM_bind_Ret by (by apply convert_ok). cbn beta. by erewrite stM_bind_Ret by exact IH.
Qed.

Lemma moved_records_ok n pid es ds :
  Forall2 (movable n pid) es ds →
  Forall (λ q, log_op_ok q.1 q.2) (moved_records es ds) ∧
  (λ q, op_read q.1 q.2 false) <$> moved_records es ds = zip_with moved_operation es ds.
Proof.
  unfold moved_records. induction 1 as [|e d es ds (_ & _ & He) _ [IH1 IH2]]; [by split|]. cbn [zip_with fmap list_fmap].
  split; [by constructor|]. by rewrite IH2.
Qed.

Lemma toVector_fromVector b : Z.of_nat (length b) < 2 ^ 32 → SimpleString.toVector (SimpleString.fromVector b) = Ret b.
Proof.
  intros Hb. destruct b as [|x b]; [done|]. unfold SimpleString.toVector, SimpleString.fromVector, SimpleString.of_bytes.
  cbn [SimpleString.size SimpleString.data]. rewrite wrap_small by (split; lia).
  destruct (Z.ltb_spec 0 (Z.of_nat (length (x :: b)))); [|simpl in *; lia]. rewrite Nat2Z.id.
  pose proof (slice_app [] (x :: b) []) as E. rewrite app_nil_r in E. exact E.
Qed.

(** The arguments of the request, as the receiver reads them. *)
Lemma move_request_args creator es apply clear old new b :
  let operation := Request.operation (move_request creator (params es apply clear old new) b) in
  OperationBody.getArg operation 0 = Ret (SimpleString.fromNumber 4 new) ∧
  OperationBody.getArg operation 1 = Ret (SimpleString.fromNumber 4 old) ∧
  (∀ other, OperationBody.getArgOr operation 2 other = Ret (SimpleString.fromVector b)) ∧
  OperationBody.flag1 operation = apply ∧ OperationBody.flag2 operation = clear ∧
  OperationBody.operatorNumber operation = OperatorNumbers.MOVE_OPLOG.
Proof. repeat split. Qed.

(** C31: Operations a node moves to another arrive.  The request made from entries of plain
    data whose records stay under 256 bytes (counters are moved otherwise) changes nothing on
    the sender; the receiver, for which the log is one of its own, executes exactly one SET per
    entry, in order, with the entry's key, value and timestamp but under node 1 (the node that
    wrote the value is not sent), then clears the old log if it is told to, logs the operations
    under the new number and is running.  It executes them whether or not the sender asked it to
    apply the log: asked not to, it looks for a log of that number, and none is ever found. *)
Theorem moved_operations_arrive creator n pid es ds apply clear old new :
  Forall2 (movable n pid) es ds → Z.of_nat (length (log_bytes (moved_records es ds))) < 2 ^ 31 →
  ufits 32 old → ufits 32 new →
  ∃ request, create creator pid (params es apply clear old new) n = Ret (n, request) ∧
    OperatorRegistry.get (OperationBody.operatorNumber (Request.operation request)) = Some MovePartitionOplogOperator ∧
    ∀ execute options r part,
      Cluster.partitions (cluster r) = Some part → new < Partitions.nodesPerPartition part →
      (apply = false → ∃ l, operationLog r = OperationLog.multiple l ∧ new ≤ Z.of_nat (length l)) →
      Operators.moveOplog_operate execute (Request.operation request) options r =
      (_ ← Operators.executeAll execute (zip_with moved_operation es ds)
             (OperationOptions.mk true true false false false LamportClock.NONE new 0);
       _ ← (if clear then Operators.clearOperationLog old else mret ());
       _ ← on_log (OperationLog.addAll (Z.to_nat new) (zip_with moved_operation es ds));
       _ ← modify (λ n, set_cluster (Cluster.setRunning (cluster n)) (network n) n);
       mret (Response.success zero_clock)) r.
Proof.
  intros Hes Hb Ho Hn. destruct (moved_records_ok n pid es ds Hes) as [Hok Hread].
  set (b := log_bytes (moved_records es ds)) in *.
  exists (move_request creator (params es apply clear old new) b). split; [|split; [reflexivity|]].
  { unfold create. erewrite stM_bind_Ret by (by apply createOperations_ok). cbn beta.
    erewrite stM_bind_Ret; [reflexivity|]. unfold lift. by rewrite serializeAll_layout. }
  intros execute options r part Hp Hnew Hlog.
  destruct (move_request_args creator es apply clear old new b) as (E0 & E1 & E2 & E3 & E4 & _).
  set (operation := Request.operation _) in *. unfold Operators.moveOplog_operate. rewrite E3, E4.
  assert (∀ i v, OperationBody.getArg operation i = Ret (SimpleString.fromNumber 4 v) → ufits 32 v →
    Operators.number_arg operation 4 i r = Ret (r, v)) as Harg.
  { intros i v E Hv. unfold Operators.number_arg. erewrite stM_bind_Ret by (by apply arg_ok). unfold lift.
    rewrite to_fromNumber by (done || lia). done. }
  erewrite stM_bind_Ret by (by apply Harg). cbn beta. erewrite stM_bind_Ret by (by apply Harg). cbn beta.
  rewrite (stM_bind_Ret _ _ r r part) by (unfold reads, Cluster.getPartitionObject; by rewrite Hp).
  unfold Partitions.getNodesPerPartition. destruct (Z.leb_spec (Partitions.nodesPerPartition part) new); [lia|].
  erewrite stM_bind_Ret by (unfold lift; rewrite E2; reflexivity). cbn beta.
  rewrite (stM_bind_Ret _ _ r r b) by (unfold lift; rewrite toVector_fromVector by lia; reflexivity).
  rewrite (stM_bind_Ret _ _ r r (zip_with moved_operation es ds)).
  2:{ unfold lift. unfold b. rewrite deserializeAll_ok by done. by rewrite Hread. }
  rewrite (stM_bind_Ret _ _ r r false); [by rewrite orb_true_r|].
  destruct apply; [done|]. destruct (Hlog eq_refl) as (l & El & Hl). unfold reads. rewrite El.
  cbn [OperationLog.hasOplogFile]. unfold MultipleOperationLog.hasOplogFile.
  rewrite decide_False by (destruct Hn; lia). reflexivity.
Qed.

(** A counter is moved as a SET without arguments, which no receiver can execute. *)
Lemma moved_counter_throws `{Zlib} {Env : Environment} {Wt : Waiting} {N : Network W} {CH : ChangeHandlers W}
    fuel n (r : node W) pid e m options :
  Avl.e_type e = Avl.COUNTER → stores r !! OperationOptions.partitionId options = Some m →
  convertMapEntryIntoOperation pid e n = Ret (n, counter_operation) ∧
  OperatorDispatcher.executeOperation (S fuel) SetOperator (op_read counter_operation [] false) options r
    = Throw out_of_range.
Proof.
  intros Ht Hm. split; [unfold convertMapEntryIntoOperation; by rewrite Ht|].
  cbn [OperatorDispatcher.executeOperation Operators.operate]. unfold Operators.set_operate.
  unfold mbind at 1, stM_bind at 1. erewrite stM_bind_Ret by (by eapply store_exists_ok). reflexivity.
Qed.

End moving.

Definition moved_entry : Avl.MapEntry := Avl.mk_entry aa 3104 Avl.DATA 1%positive.

(** The receiver is asked not to apply the log, and does. *)
Lemma moved_operations_arrive_witness :
  let creator := MoveOpLogRequestCreator.mk [52; 53; 54] 1 in
  let log := SingleOperationLog.mk (mk_fs ∅ ∅) 0 [] false false in
  let r := set_log (OperationLog.multiple [log; log])
             (set_cluster (Cluster.mk sample_config None (Some sample_partitions) RUNNING) () stored_node) in
  ∃ request, MoveOpLogRequestCreator.create creator 0 (MoveOpLogRequestCreator.params [moved_entry] false false 0 1) stored_node
      = Ret (stored_node, request) ∧
    Operators.moveOplog_operate (H := masking_target) (λ _ _, mret (Response.success zero_clock))
      (Request.operation request) maintenance r =
    (_ ← Operators.executeAll (λ _ _, mret (Response.success zero_clock))
           [OperationBody.mk (Some [aa; SimpleString.fromChar 7]) 1 1 OperatorNumbers.SET false false]
           (OperationOptions.mk true true false false false LamportClock.NONE 1 0);
     _ ← mret ();
     _ ← on_log (OperationLog.addAll 1 [OperationBody.mk (Some [aa; SimpleString.fromChar 7]) 1 1 OperatorNumbers.SET false false]);
     _ ← modify (λ n, set_cluster (Cluster.setRunning (cluster n)) (network n) n);
     mret (Response.success zero_clock)) r.
Proof.
  intros creator log r.
  destruct (moved_operations_arrive (H := masking_target) creator stored_node 0 [moved_entry]
    [(SimpleString.fromChar 7, LamportClock.mk 1 1)] false false 0 1) as (request & E1 & _ & E2).
  - constructor; [|constructor]. split; [reflexivity|]. split.
    + destruct ((stores stored_node : gmap Z Map.t) !! 0) as [m|] eqn:Em; [|by vm_compute in Em]. exists m. split; [exact Em|].
      assert ((m' ← (stores stored_node : gmap Z Map.t) !! 0; Map.datas m' !! 1%positive)
              = Some (Avl.DataAVLNode (SimpleString.fromChar 7) (LamportClock.mk 1 1))) as Ed by (vm_compute; reflexivity).
      rewrite Em in Ed. exact Ed.
    + split; [split|apply Nat.ltb_lt; vm_compute; reflexivity]; [reflexivity| |split; [discriminate|reflexivity]|split; [discriminate|reflexivity]|split; [discriminate|reflexivity]].
      repeat constructor; simpl; try (vm_compute; reflexivity); unfold byte_ok; lia.
  - vm_compute. reflexivity.
  - split; lia.
  - split; lia.
  - exists request. split; [exact E1|]. apply (E2 _ _ r sample_partitions); [done..|].
    intros _. exists [log; log]. split; [reflexivity|simpl; lia].
Defined.

(** ** A new node further along the ring *)

Section overrun.
Context `{Platform} {Env : Environment} {W : Type} {N : Network W}.

Lemma shift_overruns creator keys neighbors distance k : ∀ i (n n' : node W),
  0 ≤ distance → 0 ≤ i → distance + i + Z.of_nat k < 2 ^ 32 - 1 → Z.of_nat (length neighbors) ≤ distance + i + Z.of_nat (S k) →
  NewNodePartitionChangeHandler.shift_loop creator (S k) i distance neighbors keys n ≠ Ret (n', ()).
Proof.
  induction k as [|k IH]; intros i n n' Hd Hi Hf Hl E; cbn [NewNodePartitionChangeHandler.shift_loop] in E.
  all: apply stM_bind_inv in E as (n1 & e & E1 & E).
  - unfold lift, at_throw in E1. rewrite wrap_small in E1 by (unfold ufits; lia).
    by rewrite lookup_ge_None_2 in E1 by lia.
  - apply stM_bind_inv in E as (n2 & d & _ & E). apply stM_bind_inv in E as (n3 & req & _ & E).
    apply stM_bind_inv in E as (n4 & u & _ & E). apply (IH (i + 1)) in E; [done|lia..].
Qed.

(** [NewNodePartitionChangeHandler::sendSelfOplogToNodes] cannot return once the store holds a
    key: its loop over the neighbours runs to index [nodesPerPartition + 1] of at most
    [nodesPerPartition] entries, where [at] throws, and the node stays BOOTING. *)
Lemma new_neighbor_throws creator keys neighbors distance npp (n n' : node W) :
  1 ≤ distance ≤ npp → npp < 2 ^ 32 - 2 → Z.of_nat (length neighbors) ≤ npp →
  NewNodePartitionChangeHandler.shift_loop creator (Z.to_nat (u32 (u32 (npp - distance) + 1))) 0 distance neighbors keys n
  ≠ Ret (n', ()).
Proof.
  intros Hd Hn Hl. rewrite !wrap_small by (unfold ufits; rewrite ?wrap_small by (unfold ufits; lia); lia).
  replace (Z.to_nat (npp - distance + 1)) with (S (Z.to_nat (npp - distance))) by lia.
  apply shift_overruns; lia.
Qed.

End overrun.

(** The first node of a partitioned cluster: its ring has one entry, whose next entry was never
    set. *)
Definition lone_seed_config : Configuration.t :=
  Configuration.mk (<[ConfigurationKeys.USE_PARTITIONS := "true"%string]>
    (<[ConfigurationKeys.NODES_PER_PARTITION := "2"%string]>
      (<[ConfigurationKeys.SEED_NODES := "localhost:10000"%string]>
        (<[ConfigurationKeys.USE_REPLICATION := "true"%string]> (<[ConfigurationKeys.DATA_PATH := "/d"%string]>
          (<[ConfigurationKeys.NUMBER_BUCKETS := "4"%string]> DefaultConfig_get)))))) (λ _, None).
Lemma lone_seed_undefined :
  MemDbCreator.create (H := masking_target) (Env := sample_env) (N := only_node_3) no_answer lone_seed_config ()
    (mk_fs ∅ {["/d"%string]}) = Undef.
Proof. vm_compute. reflexivity. Qed.
