(* ===== verification/Recovery.v ===== *)
(** * Restarting from the log

    What [MemDb::restoreOplogFromDisk] rebuilds from the files of a node's log.  The
    specification is a map from hashes to values with timestamps in which the last writer
    wins; replaying a SET is one step of it, and a restart replays the intermediate log and
    then every segment.  Together with the dispatcher and the flusher this gives the life of a
    write across a crash. *)

From S2P Require Import Prelude.
From S2P Require Import Utils.
From S2P Require Import Compaction.
From S2P Require Import Clock.
From S2P Require Import Avl.
From S2P Require Import AvlTrees.
From S2P Require Import AvlOps.
From S2P Require Import MapStore.
From S2P Require Import Messages.
From S2P Require Import Codec.
From S2P Require Import Config.
From S2P Require Import Files.
From S2P Require Import Segments.
From S2P Require Import Oplog.
From S2P Require Import Cluster.
From S2P Require Import ClusterFacade.
From S2P Require Import OperatorTypes.
From S2P Require Import Operators.
From S2P Require Import Dispatcher.
From S2P Require Import Membership.
From S2P Require Import Start.

(** ** The specification: the last writer wins *)

Abbreviation versions := (Z → option (SimpleString.t * LamportClock.t)).

(** A write of [x] over what is stored: refused only if that is newer. *)
Definition lww (stored : option (SimpleString.t * LamportClock.t)) (x : SimpleString.t * LamportClock.t) :
    option (SimpleString.t * LamportClock.t) :=
  match stored with
  | Some y => if LamportClock.op_gt y.2 x.2 then stored else Some x
  | None => Some x
  end.

(** The hash of the key a SET of the log writes, and what it writes. *)
Record writes `{Platform} (op : OperationBody.t) (h : Z) (x : SimpleString.t * LamportClock.t) : Prop := {
  wr_number : OperationBody.operatorNumber op = OperatorNumbers.SET;
  wr_key : ∃ key, OperationBody.args op = Some [key; x.1] ∧ Map.calculateHash key = Ret h;
  wr_time : x.2 = LamportClock.mk (OperationBody.timestamp op) (OperationBody.nodeId op);
}.

(** The writes replayed in order. *)
Definition replay (V : versions) (l : list (Z * (SimpleString.t * LamportClock.t))) : versions :=
  foldl (λ V w h, if decide (h = w.1) then lww (V h) w.2 else V h) V l.

Lemma replay_cons V w l h :
  replay V (w :: l) h = replay (λ h, if decide (h = w.1) then lww (V h) w.2 else V h) l h.
Proof. done. Qed.

Lemma not_newer_trans (a b c : LamportClock.t) :
  LamportClock.op_gt a b = false → LamportClock.op_gt b c = false → LamportClock.op_gt a c = false.
Proof. unfold LamportClock.op_gt. destruct a, b, c. simpl. lia. Qed.
Lemma newer_not_newer (a b : LamportClock.t) : LamportClock.op_gt a b = true → LamportClock.op_gt b a = false.
Proof. unfold LamportClock.op_gt. destruct a, b. simpl. lia. Qed.
Lemma not_newer_refl (a : LamportClock.t) : LamportClock.op_gt a a = false.
Proof. unfold LamportClock.op_gt. destruct a. simpl. lia. Qed.

(** Whatever the order of the writes, what is kept is one of them, or what was there before,
    and nothing replayed is newer. *)
Lemma replay_newest l : ∀ V h,
  (∀ w, w ∈ l → w.1 = h → ∃ y, replay V l h = Some y ∧ LamportClock.op_gt w.2.2 y.2 = false) ∧
  (∀ y, V h = Some y → ∃ y', replay V l h = Some y' ∧ LamportClock.op_gt y.2 y'.2 = false) ∧
  (∀ y, replay V l h = Some y → V h = Some y ∨ (h, y) ∈ l).
Proof.
  induction l as [|w l IH]; intros V h.
  - split; [intros w Hw; by apply not_elem_of_nil in Hw|]. split; [|by left].
    intros y Hy. exists y. split; [done|apply not_newer_refl].
  - setoid_rewrite replay_cons. set (V' := λ h, if decide (h = w.1) then lww (V h) w.2 else V h).
    destruct (IH V' h) as (H1 & H2 & H3).
    assert (h = w.1 → ∃ y, V' h = Some y ∧ LamportClock.op_gt w.2.2 y.2 = false ∧
      ∀ z, V h = Some z → LamportClock.op_gt z.2 y.2 = false) as Hw.
    { intros E. unfold V'. rewrite decide_True by done. unfold lww.
      destruct (V h) as [z|]; [|exists w.2; split; [done|split; [apply not_newer_refl|done]]].
      destruct (LamportClock.op_gt z.2 w.2.2) eqn:G.
      - exists z. split; [done|]. split; [by apply newer_not_newer|]. intros z' [= <-]. apply not_newer_refl.
      - exists w.2. split; [done|]. split; [apply not_newer_refl|]. by intros z' [= <-]. }
    split; [|split].
    + intros w' [->|Hin]%elem_of_cons E; [|by apply H1]. destruct (Hw (eq_sym E)) as (y & Hy & G & _).
      destruct (H2 y Hy) as (y' & Hy' & G'). exists y'. split; [done|]. by eapply not_newer_trans.
    + intros y Hy. destruct (decide (h = w.1)) as [E|E].
      * destruct (Hw E) as (y1 & Hy1 & _ & G). destruct (H2 y1 Hy1) as (y' & Hy' & G').
        exists y'. split; [done|]. eapply not_newer_trans; [by apply G|done].
      * apply H2. unfold V'. by rewrite decide_False.
    + intros y Hy. destruct (H3 y Hy) as [E|Hin]; [|right; by right]. unfold V' in E.
      destruct (decide (h = w.1)) as [->|]; [|by left]. unfold lww in E.
      destruct (V w.1) as [z|]; [destruct (LamportClock.op_gt z.2 w.2.2)|]; injection E as <-; auto;
        right; apply elem_of_cons; left; symmetry; apply surjective_pairing.
Qed.

(** ** A node that implements it *)

Section recovery.
Context `{Platform} `{ZL : Zlib} {ZS : ZlibSpec} {Env : Environment} {Wt : Waiting} {W : Type} {N : Network W}
  {CH : ChangeHandlers W}.
Implicit Types (n : node W) (o : SingleOperationLog.t) (V : versions) (op : OperationBody.t).

(** The map of partition 0 holds exactly the versions [V]. *)
Definition holds (m : Map.t) V : Prop :=
  ∃ ts, map_ok m ts ∧ unlocked m ∧
    ∀ h, snd <$> mview m ts h = (λ x, Avl.DataAVLNode x.1 x.2) <$> V h.

(** A node without replication, with its log under [base], whose store holds [V]; the clock is
    not behind any version. *)
Record serving n (id : Z) o (base : string) V : Prop := {
  se_standalone : standalone n id o;
  se_path : Configuration.get (Cluster.configuration (cluster n)) ConfigurationKeys.DATA_PATH = Ret base;
  se_store : ∃ m, stores n !! 0 = Some m ∧ holds m V;
  se_clock : ∀ h x, V h = Some x → LamportClock.counter x.2 ≤ LamportClock.counter (clock n);
}.

(** The store's clock is the node's, as any use of the store leaves it. *)
Definition synced n : Prop :=
  ∃ m, stores n !! 0 = Some m ∧ Map.clock m = Some (LamportClock.counter (clock n)).

Lemma lookup_view m ts key h p :
  map_ok m ts → unlocked m → Map.calculateHash key = Ret h →
  (∃ e, Map.get key m = Ret (m, Some e) ∧ Map.datas m !! Avl.e_data e = Some p) → snd <$> mview m ts h = Some p.
Proof.
  intros O U Eh (e & Eg & Hd). destruct (map_get_ok m ts key h O U Eh) as (m2 & e2 & Eg2 & -> & He).
  rewrite Eg in Eg2. injection Eg2 as <-. destruct He as (p' & _ & Hd' & -> & _). simpl. congruence.
Qed.

Lemma op_gt_counter a b : LamportClock.op_gt a b = true → LamportClock.counter b ≤ LamportClock.counter a.
Proof. unfold LamportClock.op_gt. lia. Qed.

(** [Map::putData] as a log is replayed: one step of the specification, and the clock reaches
    the write's timestamp. *)
Lemma putData_lww m V c key value t h :
  holds m V → Map.calculateHash key = Ret h → (∀ x, V h = Some x → LamportClock.counter x.2 ≤ c) →
  ∃ m' r c', Map.putData key value t LamportClock.SET_MAX true (with_clock c m) = Ret (m', r) ∧
    holds m' (λ h', if decide (h' = h) then lww (V h') (value, t) else V h') ∧
    Map.clock m' = Some c' ∧ c ≤ c' ∧ LamportClock.counter t ≤ c'.
Proof.
  intros (ts & O & U & Hv) Eh Hle.
  destruct (putData_cases (with_clock c m) ts key value h t LamportClock.SET_MAX true c) as
    (m' & ts' & r & Ep & O' & U' & Hother & Hr); [by apply map_ok_with_clock|done..|].
  exists m', r. change (∀ h', h' ≠ h → mview m' ts' h' = mview m ts h') in Hother.
  change (mview (with_clock c m) ts h) with (mview m ts h) in Hr.
  cbn [clock_after with_clock Map.clock LamportClock.update LamportClock.setMax written] in Hr.
  assert (∀ p k, (∀ key2, Map.calculateHash key2 = Ret h → ∃ e, Map.get key2 m' = Ret (m', Some e) ∧
    Avl.e_key e = k ∧ Map.datas m' !! Avl.e_data e = Some p) → snd <$> mview m' ts' h = Some p) as Hget.
  { intros p k Hg. apply (lookup_view m' ts' key); [done..|]. destruct (Hg key Eh) as (e & ? & _ & ?). eauto. }
  assert (snd <$> mview m' ts' h = (λ x, Avl.DataAVLNode x.1 x.2) <$> lww (V h) (value, t) ∧
    ∃ c', Map.clock m' = Some c' ∧ c ≤ c' ∧ LamportClock.counter t ≤ c') as (Hh & c' & Ec & H1 & H2).
  { specialize (Hv h). destruct (mview m ts h) as [[k0 p0]|], (V h) as [y|]; try discriminate Hv; cbn [lww]; cbn in Hv.
    - injection Hv as ->. cbn [refused ignores negb andb] in Hr. cbn [snd].
      destruct (LamportClock.op_gt y.2 t) eqn:G; destruct Hr as (Hr & Ec & Hg).
      + rewrite Hr. split; [done|]. exists c. split; [exact Ec|]. split; [lia|].
        apply op_gt_counter in G. specialize (Hle y eq_refl). lia.
      + rewrite (Hget _ _ Hg). split; [done|]. eexists. split; [exact Ec|]. case_match; lia.
    - destruct Hr as (_ & Ec & Hg). rewrite (Hget _ _ Hg). split; [done|]. eexists. split; [exact Ec|]. case_match; lia. }
  exists c'. split; [exact Ep|]. split; [|done]. exists ts'. split; [done|]. split; [done|]. intros h'.
  case_decide as E; [by subst h'|]. rewrite Hother by done. apply Hv.
Qed.

(** A SET of the log executed as [MemDb::applyOplog] does. *)
Lemma set_replayed fuel n id o base V op h x :
  serving n id o base V → writes op h x →
  ∃ n' r, OperatorDispatcher.executeOperation (S fuel) SetOperator op (MemDb.replay_options false 0) n = Ret (n', r) ∧
    serving n' id o base (replay V [(h, x)]) ∧ synced n'.
Proof.
  intros [S Hp (m & Hm & Hh) Hc] [_ (key & Ea & Eh) Et]. destruct x as [v t]. cbn [fst snd] in *.
  assert (∀ i a, [key; v] !! i = Some a → OperationBody.getArg op i = Ret a) as Hargs.
  { intros i a Hi. unfold OperationBody.getArg, OperationBody.the_args. rewrite Ea. cbn [obind]. by apply at_throw_Some. }
  destruct (putData_lww m V (LamportClock.counter (clock n)) key v t h Hh Eh (Hc h)) as
    (m' & r & c' & Ep & Hh' & Ec & H1 & H2).
  exists (set_store 0 m' n). eexists. split; [|split].
  - cbn [OperatorDispatcher.executeOperation]. erewrite stM_bind_Ret.
    2:{ cbn [Operators.operate]. unfold Operators.set_operate.
        erewrite stM_bind_Ret by (by eapply store_exists_ok). cbn beta.
        erewrite stM_bind_Ret by (apply arg_ok, (Hargs 0%nat key); done). cbn beta.
        erewrite stM_bind_Ret by (apply arg_ok, (Hargs 1%nat v); done). cbn beta.
        erewrite stM_bind_Ret by reflexivity. cbn beta. rewrite <- Et.
        erewrite stM_bind_Ret by (eapply on_store_ok; [exact Hm|exact Ep]). reflexivity. }
    cbn beta. unfold OperatorDispatcher.after_operate, OperatorDispatcher.isInReplicationMode.
    change (hasProperty SetOperator BROADCAST) with true. cbv iota.
    erewrite stM_bind_Ret.
    2:{ erewrite stM_bind_Ret by (apply configured_ok, (st_modes _ _ _ S)). reflexivity. }
    cbn beta. cbn [andb]. rewrite andb_false_r. reflexivity.
  - split.
    + destruct S as [[] ? ? ?]. by split; [split|..].
    + exact Hp.
    + exists m'. split; [apply lookup_set_store|exact Hh'].
    + cbn. rewrite Ec. cbn. intros h' y. case_decide as E; [|intros Hy; specialize (Hc h' y Hy); lia].
      subst h'. specialize (Hc h). unfold lww. destruct (V h) as [z|]; [|by intros [= <-]].
      specialize (Hc z eq_refl). destruct (LamportClock.op_gt _ _); intros [= <-]; cbn; lia.
  - exists m'. split; [apply lookup_set_store|]. cbn. by rewrite Ec.
Qed.

Lemma replay_app V l l' : replay V (l ++ l') = replay (replay V l) l'.
Proof. apply foldl_app. Qed.

(** The writes of a list of operations, and the timestamp of the last. *)
Definition all_write (ops : list OperationBody.t) (ws : list (Z * (SimpleString.t * LamportClock.t))) : Prop :=
  Forall2 (λ op w, writes op w.1 w.2) ops ws.
Definition last_timestamp (from : Z) (ops : list OperationBody.t) : Z :=
  foldl (λ _ op, OperationBody.timestamp op) from ops.

(** The inner loop of [MemDb::applyOplog]. *)
Lemma operations_replayed ops ws : ∀ n id o base V last,
  serving n id o base V → all_write ops ws → loop_fuel ≠ 0%nat →
  ∃ n', MemDb.apply_operations ops (MemDb.replay_options false 0) last n = Ret (n', last_timestamp last ops) ∧
    serving n' id o base (replay V ws) ∧ (synced n ∨ ops ≠ [] → synced n').
Proof.
  intros n id o base V last S Hw Hf. revert n V last S.
  induction Hw as [|op [h x] ops ws Hop Hw IH]; intros n V last S; [exists n; naive_solver|].
  destruct loop_fuel as [|fuel] eqn:Ef; [done|].
  destruct (set_replayed fuel n id o base V op h x S Hop) as (n1 & r & E & S1 & Y1).
  destruct (IH n1 _ (OperationBody.timestamp op) S1) as (n' & E' & S' & Y'). exists n'.
  split; [|split; [exact S'|intros _; apply Y'; by left]]. cbn [MemDb.apply_operations].
  erewrite stM_bind_Ret by (rewrite (wr_number _ _ _ Hop); reflexivity). cbn beta.
  rewrite Ef. by erewrite stM_bind_Ret by exact E.
Qed.

(** The outer loop once the intermediate log was read: every segment the index lists. *)
Lemma segments_replayed (ps : list (list (OperationBody.t * list SimpleString.t))) : ∀ fuel i n id o base V last ws,
  serving n id o base V → loop_fuel ≠ 0%nat → (length ps < fuel)%nat →
  OplogIterator.intermediateIterated i = true → OplogIterator.compressed i = false →
  Forall2 (λ d p, (∃ c, SingleOperationLog.readBytesByIndexSegmentDescriptor (OperationLog.partitionPath base 0) o d
      = Ret (Some c) ∧ Compressor.uncompressBytes c (Z.to_nat (OplogIndexSegmentDescriptor.uncompressedSize d))
      = Some (log_bytes p)) ∧ OperationLogCodec.deserializeAll (log_bytes p) = Ret (read_ops p))
    (drop (OplogIterator.actualIndexDescriptor i) (OplogIterator.descriptors i)) ps →
  all_write (concat (read_ops <$> ps)) ws →
  ∃ n', MemDb.apply_segments fuel (MemDb.on_disk (oplog i)) (MemDb.replay_options false 0) MemDb.LOCAL last n
      = Ret (n', last_timestamp last (concat (read_ops <$> ps))) ∧
    serving n' id o base (replay V ws) ∧ (synced n → synced n').
Proof.
  induction ps as [|p ps IH]; intros fuel i n id o base V last ws S Hf Hl Hi Hc HF Hw.
  all: destruct fuel as [|fuel]; [simpl in Hl; lia|]; cbn [MemDb.apply_segments].
  all: unfold MemDb.hasNext, hasNext, OplogIterator.hasNext; rewrite Hi; cbn [andb orb negb].
  - apply Forall2_nil_inv_r in HF. apply Forall2_nil_inv_l in Hw as ->.
    rewrite bool_decide_false; [by exists n|].
    assert (length (drop (OplogIterator.actualIndexDescriptor i) (OplogIterator.descriptors i)) = 0%nat) as E by (by rewrite HF).
    rewrite length_drop in E. lia.
  - apply Forall2_cons_inv_r in HF as (d & ds & ((c & Hfe & Hu) & Hd) & HF & Ed).
    assert (OplogIterator.descriptors i !! OplogIterator.actualIndexDescriptor i = Some d) as Hlk.
    { rewrite <- (Nat.add_0_r (OplogIterator.actualIndexDescriptor i)), <- lookup_drop. by rewrite Ed. }
    rewrite bool_decide_true by (by eapply lookup_lt_Some). cbn [orb].
    cbn [fmap list_fmap concat] in Hw. apply Forall2_app_inv_l in Hw as (ws1 & ws2 & Hw1 & Hw2 & ->).
    destruct (operations_replayed _ _ n id o base V last S Hw1 Hf) as (n1 & E1 & S1 & Y1).
    rewrite (drop_S _ _ _ Hlk) in Ed. injection Ed as Ed.
    edestruct (IH fuel (OplogIterator.mk (OplogIterator.descriptors i) (OplogIterator.segmentOplogDescriptorInitDiskPtr i)
      (OplogIterator.intermediate i) true (OplogIterator.compressed i) (OplogIterator.oplogId i)
      (Some (u32 (OplogIndexSegmentDescriptor.max d))) (Datatypes.S (OplogIterator.actualIndexDescriptor i))) n1)
      as (n' & E' & S' & Y'); [exact S1|done|simpl in Hl; lia|done|done|cbn; by rewrite Ed|exact Hw2|].
    exists n'. rewrite replay_app. split; [|split; [exact S'|auto]].
    erewrite stM_bind_Ret.
    2:{ unfold MemDb.getNextOplogOrTryFix, MemDb.next. erewrite stM_bind_Ret.
        2:{ erewrite stM_bind_Ret by (unfold Operators.data_path, reads; rewrite (se_path _ _ _ _ _ S); reflexivity).
            cbn beta. erewrite stM_bind_Ret.
            2:{ unfold reads, OplogIterator.next, OperationLog.fetch. rewrite (st_log _ _ _ (se_standalone _ _ _ _ _ S)), Hi.
                cbn [negb]. rewrite (at_throw_Some _ _ _ Hlk). cbn [obind]. rewrite Hfe. cbn. rewrite Hc, Hu. cbn. reflexivity. }
            reflexivity. }
        cbn [fst snd]. reflexivity. }
    cbn [fst snd]. erewrite stM_bind_Ret by (unfold lift; rewrite Hd; reflexivity). cbn beta.
    erewrite stM_bind_Ret by exact E1. cbn beta. rewrite Hc in E'. cbn [concat fmap list_fmap].
    unfold last_timestamp. rewrite foldl_app. exact E'.
Qed.

(** A client's request. *)
Record asks (request : Request.t) (number : Z) (args : list SimpleString.t) : Prop := {
  as_user : Request.authenticationType request = USER;
  as_number : OperationBody.operatorNumber (Request.operation request) = number;
  as_args : OperationBody.args (Request.operation request) = Some args;
}.

(** What a client's GET is answered with. *)
Definition answer (x : option (SimpleString.t * LamportClock.t)) : Response.t :=
  match x with
  | Some x => Response.mk true 0 x.2 0 x.1
  | None => Response.mk false ErrorCode.UNKNOWN_KEY zero_clock 0 (SimpleString.fromString [])
  end.

(** A client's GET reads the specification's version. *)
Lemma get_served k fuel n id o base V key h read :
  serving n id o base V → synced n → Map.calculateHash key = Ret h → asks read OperatorNumbers.GET [key] →
  OperatorDispatcher.dispatch (S k) (S fuel) read n = Ret (n, answer (V h)).
Proof.
  intros [S Hp (m & Hm & ts & O & U & Hv) _] (m2 & Hm2 & Hc) Eh [Hr Or Ar]. rewrite Hm in Hm2. injection Hm2 as <-.
  assert (OperationBody.getArg (Request.operation read) 0 = Ret key) as Harg
    by (unfold OperationBody.getArg, OperationBody.the_args; by rewrite Ar).
  rewrite (standalone_dispatch k _ n id _ read GetOperator S) by (rewrite ?Or, ?Hr; done || left).
  rewrite (run_client _ n id _ read GetOperator key S) by done. cbn [OperatorDispatcher.executeOperation].
  specialize (Hv h). destruct (map_get_ok m ts key h O U Eh) as (m' & e & Eg & -> & He). destruct e as [e|].
  - destruct He as (p & _ & Hd & Ev & _). rewrite Ev in Hv. destruct (V h) as [[v t]|]; [|done].
    injection Hv as ->. erewrite stM_bind_Ret by (by eapply (get_operate_ok _ n m ts)). reflexivity.
  - rewrite He in Hv. destruct (V h); [done|]. erewrite stM_bind_Ret.
    2:{ cbn [Operators.operate]. unfold Operators.get_operate.
        erewrite stM_bind_Ret by (by eapply store_exists_ok). cbn beta.
        erewrite stM_bind_Ret by (by apply arg_ok). cbn beta.
        erewrite stM_bind_Ret by (eapply on_store_ok; [exact Hm|]; rewrite with_clock_same by done; exact Eg).
        rewrite set_store_same by done. reflexivity. }
    reflexivity.
Qed.

(** The files of a log: the operations of the intermediate file and of the segments. *)
Record logged_in (dir : string) (s : fs) (p : list (OperationBody.t * list SimpleString.t))
    (l : list (descriptor * list (OperationBody.t * list SimpleString.t))) : Prop := {
  li_segments : ∃ D, Segments.stores dir s D l;
  li_intermediate : SingleOperationLog.getAllBytes dir s = log_bytes p;
  li_logged : Forall (λ q, log_op_ok q.1 q.2) p;
  li_length : Z.of_nat (length (log_bytes p)) < 2 ^ 31;
}.

(** The operations in the order a restart reads them. *)
Definition replayed_ops (p : list (OperationBody.t * list SimpleString.t))
    (l : list (descriptor * list (OperationBody.t * list SimpleString.t))) : list OperationBody.t :=
  read_ops p ++ concat (read_ops <$> l.*2).

(** The first step over a log's iterator yields the intermediate file. *)
Lemma intermediate_read n id o base V ds b :
  serving n id o base V →
  MemDb.getNextOplogOrTryFix (MemDb.on_disk (oplog (OplogIterator.make ds 0 b false false 0))) MemDb.LOCAL n
  = Ret (n, (MemDb.on_disk (oplog (OplogIterator.mk ds 0 b true false 0 None 0)), b)).
Proof.
  intros S. unfold MemDb.getNextOplogOrTryFix, MemDb.next. erewrite stM_bind_Ret.
  2:{ erewrite stM_bind_Ret by (unfold Operators.data_path, reads; rewrite (se_path _ _ _ _ _ S); reflexivity).
      cbn beta. erewrite stM_bind_Ret by reflexivity. reflexivity. }
  reflexivity.
Qed.

(** [MemDb::applyOplog] of the log's iterator. *)
Lemma log_replayed fuel n id o base V p l ws :
  serving n id o base V → logged_in (OperationLog.partitionPath base 0) (SingleOperationLog.disk o) p l →
  p ≠ [] → all_write (replayed_ops p l) ws → loop_fuel ≠ 0%nat → (length l + 1 < fuel)%nat →
  ∃ n', MemDb.applyOplog fuel (MemDb.on_disk (oplog (OplogIterator.make l.*1 0 (log_bytes p) false false 0))) false 0
          MemDb.LOCAL n = Ret (n', last_timestamp 0 (replayed_ops p l)) ∧
    serving n' id o base (replay V ws) ∧ synced n'.
Proof.
  intros S [(D & St) Eb Hp Hlen] Hne Hw Hf Hfuel. apply Forall2_app_inv_l in Hw as (ws1 & ws2 & Hw1 & Hw2 & ->).
  destruct (operations_replayed _ _ n id o base V 0 S Hw1 Hf) as (n1 & E1 & S1 & Y1).
  assert (read_ops p ≠ []) as Hr by (by destruct p). specialize (Y1 (or_intror Hr)).
  destruct fuel as [|fuel]; [lia|].
  edestruct (segments_replayed l.*2 fuel (OplogIterator.mk l.*1 0 (log_bytes p) true false 0 None 0) n1 id o base
    (replay V ws1)) as (n2 & E2 & S2 & Y2); [exact S1|done|rewrite length_fmap; lia|done|done| |exact Hw2|].
  { cbn. rewrite drop_0, Forall2_fmap_l, Forall2_fmap_r. apply Forall_Forall2_diag, Forall_forall. intros seg Hin.
    split; [by eapply fetch_segment_ok|]. pose proof (st_segments _ _ _ _ St) as Hall. rewrite Forall_forall in Hall.
    destruct (Hall _ Hin). by apply deserializeAll_ok. }
  exists n2. rewrite replay_app. split; [|split; [exact S2|by apply Y2]].
  unfold MemDb.applyOplog. erewrite stM_bind_Ret.
  2:{ cbn [MemDb.apply_segments]. unfold MemDb.hasNext, hasNext, OplogIterator.hasNext.
      cbn [OplogIterator.make OplogIterator.intermediateIterated OplogIterator.intermediate andb orb negb].
      rewrite bool_decide_true.
      2:{ destruct p as [|q p]; [done|]. cbn [log_bytes fmap list_fmap concat]. rewrite !length_app. simpl. lia. }
      erewrite stM_bind_Ret by (by eapply intermediate_read). cbn [fst snd].
      erewrite stM_bind_Ret by (unfold lift; rewrite deserializeAll_ok by done; reflexivity). cbn beta.
      erewrite stM_bind_Ret by exact E1. cbn beta. exact E2. }
  cbn beta. destruct loop_fuel as [|f] eqn:Ef; [done|]. cbn [OperatorDispatcher.applyDelayedOperationsBuffer].
  erewrite stM_bind_Ret.
  2:{ erewrite stM_bind_Ret by (unfold reads; rewrite (st_delayed _ _ _ (se_standalone _ _ _ _ _ S2)); reflexivity).
      reflexivity. }
  cbn beta. unfold replayed_ops, last_timestamp. rewrite foldl_app. reflexivity.
Qed.

(** [MemDb::restoreOplogFromDisk] is the specification's replay. *)
Lemma restore_replays fuel n id o base V p l ws :
  serving n id o base V → logged_in (OperationLog.partitionPath base 0) (SingleOperationLog.disk o) p l →
  p ≠ [] → all_write (replayed_ops p l) ws → loop_fuel ≠ 0%nat → (length l + 1 < fuel)%nat →
  ∃ n', MemDb.restoreOplogFromDisk fuel n = Ret (n', [last_timestamp 0 (replayed_ops p l)]) ∧
    serving n' id o base (replay V ws) ∧ synced n'.
Proof.
  intros S L Hne Hw Hf Hfuel. destruct (log_replayed fuel n id o base V p l ws S L Hne Hw Hf Hfuel) as (n' & E & S' & Y').
  exists n'. split; [|done]. destruct L as [(D & St) Eb _ _].
  pose proof (st_log _ _ _ (se_standalone _ _ _ _ _ S)) as Elog.
  unfold MemDb.restoreOplogFromDisk. erewrite stM_bind_Ret by (unfold reads; rewrite Elog; reflexivity). cbn beta.
  change (Z.to_nat (OperationLog.getNumberOplogFiles (OperationLog.single o))) with 1%nat. cbn [MemDb.restore_from].
  erewrite stM_bind_Ret by (unfold Operators.data_path, reads; rewrite (se_path _ _ _ _ _ S); reflexivity). cbn beta.
  erewrite stM_bind_Ret.
  2:{ unfold reads, OperationLog.getAll. rewrite Elog. unfold SingleOperationLog.getAll, OplogIndexSegment.getAll.
      rewrite (readAllIndex_ok _ _ _ (st_index _ _ _ _ St)). cbn [obind]. rewrite Eb. reflexivity. }
  cbn beta. by erewrite stM_bind_Ret by exact E.
Qed.

(** [MemDb::run] on a node without replication. *)
Lemma run_replays unwound fuel n id o base V p l ws :
  serving n id o base V → logged_in (OperationLog.partitionPath base 0) (SingleOperationLog.disk o) p l →
  p ≠ [] → all_write (replayed_ops p l) ws → loop_fuel ≠ 0%nat → (length l + 1 < fuel)%nat →
  ∃ n', MemDb.run unwound fuel n = Ret (n', ()) ∧ serving n' id o base (replay V ws) ∧ synced n'.
Proof.
  intros S L Hne Hw Hf Hfuel. destruct (restore_replays fuel n id o base _ p l ws S L Hne Hw Hf Hfuel) as (n' & E & S' & Y').
  exists n'. split; [|done]. unfold MemDb.run. erewrite stM_bind_Ret by exact E. cbn beta.
  by erewrite stM_bind_Ret by (apply configured_ok, (st_modes _ _ _ (se_standalone _ _ _ _ _ S'))).
Qed.

(** *** Starting on the files of an earlier run *)

(** The configuration of a node without replication. *)
Record standalone_conf (conf : Configuration.t) (id : Z) (base : string) : Prop := {
  sc_replication : Configuration.getBoolean conf ConfigurationKeys.USE_REPLICATION = Ret false;
  sc_partitions : Configuration.getBoolean conf ConfigurationKeys.USE_PARTITIONS = Ret false;
  sc_id : Configuration.getUint 16 conf ConfigurationKeys.NODE_ID = Ret id;
  sc_buckets : ∃ b, Configuration.getUint 32 conf ConfigurationKeys.NUMBER_BUCKETS = Ret b ∧ 1 ≤ b < 2 ^ 31;
  sc_server : ∃ port threads, Configuration.getUint 16 conf ConfigurationKeys.SERVER_PORT = Ret port ∧
    Configuration.getUint 32 conf ConfigurationKeys.SERVER_THREADS = Ret threads;
  sc_path : Configuration.get conf ConfigurationKeys.DATA_PATH = Ret base;
}.

(** The directories and files exist, and no request is pending. *)
Record ready (base : string) (s : fs) : Prop := {
  rd_base : FileUtils.exists_ base s = true;
  rd_dir : FileUtils.exists_ (OperationLog.partitionPath base 0) s = true;
  rd_index : FileUtils.exists_ (OplogIndexSegment.fullPathIndex (OperationLog.partitionPath base 0)) s = true;
  rd_data : FileUtils.exists_ (OplogIndexSegment.fullPathData (OperationLog.partitionPath base 0)) s = true;
  rd_log : FileUtils.exists_ (SingleOperationLog.fullPath (OperationLog.partitionPath base 0)) s = true;
  rd_pending : FileUtils.exists_ (path base "pending-requests-to-handle") s = true;
  rd_none : FileUtils.size base "pending-requests-to-handle" s ≤ 4;
}.

Lemma empty_holds c b : 1 ≤ b ≤ 2 ^ 31 → holds (Map.make c b) (λ _, None).
Proof.
  intros Hb. destruct (map_ok_make c b) as [O U]; [done|]. eexists. split; [exact O|]. split; [exact U|].
  intros h. unfold mview. destruct (_ !! _) as [tr|] eqn:El; [|done]. by apply lookup_replicate_1 in El as [-> _].
Qed.

(** [MemDbCreator::create] leaves such files as they are and builds a node with an empty store. *)
Lemma created_serving exchange conf id base w s :
  standalone_conf conf id base → ready base s →
  ∃ n o, MemDbCreator.create (W := W) exchange conf w s = Ret (n, None) ∧ serving n id o base (λ _, None) ∧
    SingleOperationLog.disk o = s.
Proof.
  intros [Hr Hp Hid (b & Hb & Rb) (port & threads & Hport & Hth) Hpath] [R1 R2 R3 R4 R5 R6 R7].
  unfold MemDbCreator.create, MemDbCreator.createClusterObject. rewrite Hid. cbn [obind]. rewrite Hr. cbn [obind].
  unfold Cluster.getNodesPerPartition. cbn [Cluster.make Cluster.configuration]. rewrite Hp. cbn [obind].
  rewrite Hb. cbn [obind]. rewrite Hport. cbn [obind]. rewrite Hth. cbn [obind]. rewrite Hpath. cbn [obind].
  unfold BackedDiskRequestBuffer.make. cbn [BackedDiskRequestBuffer.fullPath]. rewrite R6. cbn [obind].
  unfold MemDbCreator.initializeOplog. rewrite Hpath. cbn [obind]. rewrite Hp. cbn [obind].
  unfold SingleOperationLog.initialize, OplogIndexSegment.initializeFiles. rewrite R1, R2, R3. cbn [obind]. rewrite R4.
  cbn [obind]. unfold SingleOperationLog.initializeIntermediateFiles. rewrite R1, R2, R5. cbn [obind].
  unfold SingleOperationLog.initializeFiles. rewrite R1, R2. cbn [obind].
  eexists _, (SingleOperationLog.mk s (FileUtils.size (OperationLog.partitionPath base 0)
    SingleOperationLog.INTERMEDIATE_FILE_NAME s) [] false false). split; [reflexivity|]. split; [|reflexivity]. split; [split; [by split|done| |done]|done| |done].
  - unfold DelayedOperationsBuffer.hasNext, BackedDiskRequestBuffer.hasNext. cbn. apply Z.ltb_ge. exact R7.
  - exists (Map.make None (u32 (i32 b))). split; [done|].
    assert (u32 (i32 b) = b) as -> by (rewrite wrap_sext by lia; apply wrap_small; unfold ufits; lia).
    apply empty_holds. lia.
Qed.

(** C5: Recovery.  A node without replication started on the files of an earlier run
    ([MemDbCreator::create] and then [MemDb::run]) replays the log on disk, the intermediate
    file (not empty) and all segments, every logged operation being a SET.  A client's GET is
    then answered with a value the log wrote for that key's hash and that no other logged
    write of that hash is newer than, whatever the order the log holds them in; a key the log
    never wrote is unknown; and the clock has reached every logged timestamp, so later writes
    are newer. *)
Theorem restart_serves_newest exchange unwound k fuel conf id base w s p l ws :
  standalone_conf conf id base → ready base s → logged_in (OperationLog.partitionPath base 0) s p l →
  p ≠ [] → all_write (replayed_ops p l) ws → loop_fuel ≠ 0%nat → (length l + 1 < fuel)%nat →
  ∃ n n', MemDbCreator.create (W := W) exchange conf w s = Ret (n, None) ∧ MemDb.run unwound fuel n = Ret (n', ()) ∧
    (∀ w, w ∈ ws → LamportClock.counter w.2.2 ≤ LamportClock.counter (clock n')) ∧
    ∀ key h read, Map.calculateHash key = Ret h → asks read OperatorNumbers.GET [key] →
      ∃ x, OperatorDispatcher.dispatch (S k) (S fuel) read n' = Ret (n', answer x) ∧
        match x with
        | Some y => (h, y) ∈ ws ∧ ∀ w, w ∈ ws → w.1 = h → LamportClock.op_gt w.2.2 y.2 = false
        | None => ∀ w, w ∈ ws → w.1 ≠ h
        end.
Proof.
  intros C R L Hne Hw Hf Hfuel. destruct (created_serving exchange conf id base w s C R) as (n & o & Ec & S & <-).
  destruct (run_replays unwound fuel n id o base _ p l ws S L Hne Hw Hf Hfuel) as (n' & E & S' & Y').
  exists n, n'. split; [exact Ec|]. split; [exact E|]. split.
  { intros x Hin. destruct (replay_newest ws (λ _, None) x.1) as (Hn & _). destruct (Hn x Hin eq_refl) as (y & Ey & G).
    pose proof (se_clock _ _ _ _ _ S' _ _ Ey). unfold LamportClock.op_gt in G. lia. }
  intros key h read Eh Hr. exists (replay (λ _, None) ws h). split; [by eapply get_served|].
  destruct (replay_newest ws (λ _, None) h) as (H1 & _ & H3). destruct (replay _ ws h) as [y|].
  - split; [by destruct (H3 y eq_refl)|]. intros x Hin Hh. by destruct (H1 x Hin Hh) as (y' & [= ->] & G).
  - intros x Hin Hh. by destruct (H1 x Hin Hh) as (y' & ? & _).
Qed.

(** *** A write and a crash *)

Lemma append_inj (d a b : string) : d +:+ a = d +:+ b → a = b.
Proof. induction d as [|c d IH]; [done|]. intros E. apply IH. by injection E. Qed.

(** Appending to the intermediate file leaves the segments. *)
Lemma stores_append dir s D l b :
  Segments.stores dir s D l → Segments.stores dir (FileUtils.appendBytes (SingleOperationLog.fullPath dir) b s) D l.
Proof.
  intros [(Hi & Hd) Hf Hs Hw]. split; [split; [|exact Hd]| |done|by rewrite !appendBytes_writable].
  - rewrite appendBytes_lookup_ne; [exact Hi|]. intros E%append_inj. discriminate.
  - rewrite appendBytes_lookup_ne; [exact Hf|]. intros E%append_inj. discriminate.
Qed.

Lemma append_assoc (a b c : string) : (a +:+ b) +:+ c = a +:+ (b +:+ c).
Proof. induction a as [|x a IH]; [done|]. change (String x ((a +:+ b) +:+ c) = String x (a +:+ (b +:+ c))). by rewrite IH. Qed.

Lemma exists_append q s f b : FileUtils.exists_ q s = true → FileUtils.exists_ q (FileUtils.appendBytes f b s) = true.
Proof.
  unfold FileUtils.exists_. rewrite appendBytes_dirs. intros [->|E]%orb_true_iff; [done|].
  apply orb_true_iff. right. apply bool_decide_eq_true in E. apply bool_decide_eq_true.
  unfold FileUtils.appendBytes. destruct (writable f s); [|done]. cbn. destruct (decide (f = q)) as [->|].
  - by rewrite lookup_insert_eq.
  - by rewrite lookup_insert_ne.
Qed.

Lemma ready_append base s b :
  ready base s → ready base (FileUtils.appendBytes (SingleOperationLog.fullPath (OperationLog.partitionPath base 0)) b s).
Proof.
  intros []. split; try by apply exists_append. unfold FileUtils.size. rewrite appendBytes_lookup_ne; [done|].
  unfold SingleOperationLog.fullPath, OperationLog.partitionPath, path. rewrite append_assoc. intros E%append_inj.
  discriminate.
Qed.

Lemma log_bytes_app p q : log_bytes (p ++ q) = log_bytes p ++ log_bytes q.
Proof. unfold log_bytes. by rewrite fmap_app, concat_app. Qed.

(** The flusher thread runs and the intermediate file can be written. *)
Record flushing (dir : string) o : Prop := {
  fl_stop : SingleOperationLog.stopFlushingFlag o = false;
  fl_exited : SingleOperationLog.flusherExited o = false;
  fl_writable : writable (SingleOperationLog.fullPath dir) (SingleOperationLog.disk o) = true;
}.

(** A round of the flusher that does not fill the segment puts the queued operations at the end
    of the intermediate file. *)
Lemma flushed conf threads dequeue limit dir o p l q :
  flushing dir o → logged_in dir (SingleOperationLog.disk o) p l →
  dequeue (SingleOperationLog.buffer o) = q.*1 → Forall (λ r, log_op_ok r.1 r.2) q →
  Z.of_nat (length (log_bytes (p ++ q))) < 2 ^ 31 → SingleOperationLog.segmentSize conf = Ret limit →
  u64 (SingleOperationLog.bytesWritten o + Z.of_nat (length (log_bytes q))) ≤ limit →
  ∃ o', SingleOperationLog.flusher_step conf dir threads dequeue o = Ret (o', ()) ∧
    SingleOperationLog.disk o'
      = FileUtils.appendBytes (SingleOperationLog.fullPath dir) (log_bytes q) (SingleOperationLog.disk o) ∧
    logged_in dir (SingleOperationLog.disk o') (p ++ q) l.
Proof.
  intros [F1 F2 Hw] [(D & St) Eb Hp Hl] Hd Hq Hlen Hs Hlim. unfold SingleOperationLog.flusher_step. rewrite F1, F2.
  unfold SingleOperationLog.intermediate_addAll. rewrite Hd, serializeAll_layout by done. cbn [obind]. rewrite Hs. cbn [obind].
  change (SingleOperationLog.bytesWritten (SingleOperationLog.mk ?a ?b ?c ?d ?e)) with b.
  destruct (Z.ltb_spec limit (u64 (SingleOperationLog.bytesWritten o + Z.of_nat (length (log_bytes q))))); [lia|].
  eexists. split; [reflexivity|]. split; [done|]. split; [| |by apply Forall_app|done].
  - exists D. by apply stores_append.
  - cbn. unfold SingleOperationLog.getAllBytes, FileUtils.readBytes in *. rewrite appendBytes_lookup by done.
    cbn [default]. by rewrite Eb, log_bytes_app.
Qed.

(** A restart after the queue was flushed serves a write whose timestamp is above the log's. *)
Lemma newest_write_served unwound k fuel n id o base p l ws op key value h read :
  serving n id o base (λ _, None) →
  logged_in (OperationLog.partitionPath base 0) (SingleOperationLog.disk o) (p ++ [(op, [key; value])]) l →
  all_write (replayed_ops p l) ws → loop_fuel ≠ 0%nat → (length l + 1 < fuel)%nat →
  OperationBody.operatorNumber op = OperatorNumbers.SET → Map.calculateHash key = Ret h →
  (∀ w, w ∈ ws → LamportClock.counter w.2.2 < OperationBody.timestamp op) → asks read OperatorNumbers.GET [key] →
  ∃ n', MemDb.run unwound fuel n = Ret (n', ()) ∧
    OperatorDispatcher.dispatch (S k) (S fuel) read n'
    = Ret (n', Response.mk true 0 (LamportClock.mk (OperationBody.timestamp op) 1) 0 value).
Proof.
  intros S L Hw Hf Hfuel Ho Eh Hnew Hr.
  apply Forall2_app_inv_l in Hw as (ws1 & ws2 & Hw1 & Hw2 & ->).
  set (x := (value, LamportClock.mk (OperationBody.timestamp op) 1)).
  destruct (run_replays unwound fuel n id o base (λ _, None) (p ++ [(op, [key; value])]) l (ws1 ++ [(h, x)] ++ ws2))
    as (n' & E & S' & Y'); [done|done|by destruct p| |done|done|].
  { unfold replayed_ops, read_ops. rewrite fmap_app, <- app_assoc. apply Forall2_app; [exact Hw1|].
    constructor; [|exact Hw2]. split; [exact Ho|by exists key|done]. }
  exists n'. split; [exact E|]. erewrite get_served by done. do 2 f_equal.
  destruct (replay_newest (ws1 ++ [(h, x)] ++ ws2) (λ _, None) h) as (H1 & _ & H3).
  destruct (H1 (h, x)) as (y & Ey & G); [set_solver|done|]. rewrite Ey.
  destruct (H3 y Ey) as [?|Hin]; [done|]. assert ((h, y) ∈ ws1 ++ ws2 ∨ y = x) as [Hin'| Ex]; [set_solver| |by rewrite Ex].
  specialize (Hnew _ Hin'). unfold LamportClock.op_gt in G. cbn in G, Hnew. lia.
Qed.

(** C8: Durability across a crash, from [OperatorDispatcher::dispatch] through the flusher and
    the files to [MemDb::run].  On a node without replication whose clock has reached every
    timestamp of its log (which holds SETs, and whose queue is empty) a client's SET is
    answered with success and the clock's next value; once a round of the flusher has run,
    without filling a segment, a node created and run on those files serves the value written,
    with that timestamp. *)
Theorem write_survives_restart exchange unwound k fuel n id o base V p l ws conf threads dequeue limit key value h write read :
  standalone_conf conf id base → ready base (SingleOperationLog.disk o) → serving n id o base V → logged_in (OperationLog.partitionPath base 0) (SingleOperationLog.disk o) p l →
  all_write (replayed_ops p l) ws → (∀ w, w ∈ ws → LamportClock.counter w.2.2 ≤ LamportClock.counter (clock n)) →
  SingleOperationLog.buffer o = [] → flushing (OperationLog.partitionPath base 0) o →
  (∀ queued, dequeue queued ≡ₚ queued) → SingleOperationLog.segmentSize conf = Ret limit →
  loop_fuel ≠ 0%nat → (length l + 1 < fuel)%nat → Map.calculateHash key = Ret h →
  asks write OperatorNumbers.SET [key; value] → asks read OperatorNumbers.GET [key] →
  let now := Z.max (LamportClock.counter (clock n)) (OperationBody.timestamp (Request.operation write)) + 1 in
  let record := [(OperatorDispatcher.set_timestamp now (Request.operation write), [key; value])] in
  0 ≤ now < 2 ^ 31 → Forall (λ r, log_op_ok r.1 r.2) record → Z.of_nat (length (log_bytes (p ++ record))) < 2 ^ 31 →
  u64 (SingleOperationLog.bytesWritten o + Z.of_nat (length (log_bytes record))) ≤ limit →
  ∃ n1 o1 o2,
    OperatorDispatcher.dispatch (S k) (S fuel) write n
      = Ret (n1, Response.mk true 0 (LamportClock.mk now 0) 0 (SimpleString.fromNumber 4 0)) ∧
    operationLog n1 = OperationLog.single o1 ∧
    SingleOperationLog.flusher_step conf (OperationLog.partitionPath base 0) threads dequeue o1 = Ret (o2, ()) ∧
    ∀ w, ∃ started n2, MemDbCreator.create (W := W) exchange conf w (SingleOperationLog.disk o2) = Ret (started, None) ∧
        MemDb.run unwound fuel started = Ret (n2, ()) ∧
        OperatorDispatcher.dispatch (S k) (S fuel) read n2
        = Ret (n2, Response.mk true 0 (LamportClock.mk now 1) 0 value).
Proof.
  intros C R S L Hw Hclk Hb Fl Hdq Hs Hf Hfuel Eh [Wu Wo Wa] Hr now record Hnow Hrec Hlen Hlim.
  destruct (se_store _ _ _ _ _ S) as (m & Hm & ts & O & U & Hv).
  destruct (set_dispatched k fuel n id o m ts key value h write (se_standalone _ _ _ _ _ S) Hm O U Eh) as
    (m' & ts' & Ew & _); [|done..|].
  { intros k0 c E. specialize (Hv h). rewrite E in Hv. by destruct (V h). }
  rewrite wrap_small in Ew by (unfold ufits; fold now; lia). fold now in Ew.
  edestruct (flushed conf threads dequeue limit (OperationLog.partitionPath base 0)
    (SingleOperationLog.add (OperatorDispatcher.set_timestamp now (Request.operation write)) o) p l record)
    as (o2 & Ef & Ed & L2); [by destruct Fl|exact L| |done|done|done|done|].
  { cbn [SingleOperationLog.add SingleOperationLog.buffer]. rewrite Hb. by apply Permutation_singleton_r. }
  do 2 eexists. exists o2. split; [exact Ew|]. split; [reflexivity|]. split; [exact Ef|].
  intros w. destruct (created_serving exchange conf id base w (SingleOperationLog.disk o2) C) as (started & o3 & Ec & S3 & E3);
    [rewrite Ed; by apply ready_append|]. rewrite <- E3 in L2. exists started.
  edestruct (newest_write_served unwound k fuel started id o3 base p l ws
    (OperatorDispatcher.set_timestamp now (Request.operation write)) key value h read) as (n2 & E2 & Er); [done..| |done|by exists n2].
  intros x Hin. specialize (Hclk x Hin). cbn. lia.
Qed.

End recovery.

(** ** A log with an older write in the intermediate file *)

Definition disk_config : Configuration.t :=
  Configuration.mk (<[ConfigurationKeys.DATA_PATH := "/d"%string]> (<[ConfigurationKeys.NODE_ID := "1"%string]> DefaultConfig_get))
    (λ _, None).

Lemma disk_config_standalone : standalone_conf disk_config 1 "/d".
Proof.
  split; [reflexivity..| | |reflexivity].
  - eexists. split; [vm_compute; reflexivity|]. split; [discriminate|reflexivity].
  - eexists _, _. split; vm_compute; reflexivity.
Qed.

(** The files of an earlier run: a segment, an intermediate file and no pending request. *)
Definition earlier_fs (intermediate : bytes) : fs :=
  set_files (<["/d/pending-requests-to-handle"%string := []]> (files (one_segment_fs intermediate))) (one_segment_fs intermediate).

Lemma earlier_ready b : ready "/d" (earlier_fs b).
Proof. split; vm_compute; (reflexivity || discriminate). Qed.

Lemma earlier_logged p :
  Forall (λ q, log_op_ok q.1 q.2) p → Z.of_nat (length (log_bytes p)) < 2 ^ 31 →
  logged_in (OperationLog.partitionPath "/d" 0) (earlier_fs (log_bytes p)) p [one_segment].
Proof.
  intros Hp Hl. split; [|vm_compute; reflexivity|done|done]. exists (log_bytes one_segment.2).
  destruct (one_segment_stores (log_bytes p)) as [(_ & Hd) _ Hs Hw].
  split; [split; [vm_compute; reflexivity|exact Hd]|vm_compute; reflexivity|exact Hs|vm_compute; done].
Qed.

(** The write of [set_k t]. *)
Definition k_write (t : Z) : Z * (SimpleString.t * LamportClock.t) :=
  (107, (SimpleString.of_bytes [t], LamportClock.mk t 1)).

Lemma k_writes t : writes (H := masking_target) (set_k t) (k_write t).1 (k_write t).2.
Proof. split; [reflexivity| |reflexivity]. eexists. split; [reflexivity|vm_compute; reflexivity]. Qed.

Lemma k_logged : Forall (λ q, log_op_ok q.1 q.2) (records [set_k 1]).
Proof. repeat constructor; simpl; try (vm_compute; reflexivity); unfold byte_ok; try lia. Qed.

Lemma restart_serves_newest_witness :
  ∃ n n',
    MemDbCreator.create (H := masking_target) (Env := sample_env) (N := only_node_3) (λ _ _ _, Ret None) disk_config ()
      (earlier_fs (log_bytes (records [set_k 1]))) = Ret (n, None) ∧
    MemDb.run (H := masking_target) (H0 := plain_zlib) (Env := sample_env) (Wt := sample_waiting) (N := only_node_3)
      (CH := sample_handlers) (λ _ n, n) 3 n = Ret (n', ()) ∧
    OperatorDispatcher.dispatch (H := masking_target) (H0 := plain_zlib) (Env := sample_env) (Wt := sample_waiting)
      (N := only_node_3) (CH := sample_handlers) 1 4 (sample_user_request OperatorNumbers.GET [SimpleString.of_bytes [107; 0]]) n'
      = Ret (n', Response.mk true 0 (LamportClock.mk 2 1) 0 (SimpleString.of_bytes [2])).
Proof.
  destruct (restart_serves_newest (H := masking_target) (ZL := plain_zlib) (Env := sample_env) (Wt := sample_waiting)
    (N := only_node_3) (CH := sample_handlers) (λ _ _ _, Ret None) (λ _ n, n) 0 3 disk_config 1 "/d" ()
    (earlier_fs (log_bytes (records [set_k 1]))) (records [set_k 1]) [one_segment] [k_write 1; k_write 2])
    as (n & n' & E1 & E2 & _ & Hget).
  - exact disk_config_standalone.
  - apply earlier_ready.
  - apply earlier_logged; [exact k_logged|vm_compute; reflexivity].
  - discriminate.
  - repeat constructor; apply k_writes.
  - discriminate.
  - simpl. lia.
  - exists n, n'. split; [exact E1|]. split; [exact E2|].
    edestruct (Hget (SimpleString.of_bytes [107; 0]) 107
      (sample_user_request OperatorNumbers.GET [SimpleString.of_bytes [107; 0]])) as ([y|] & Ex & Hy);
      [vm_compute; reflexivity|by split| |exfalso; apply (Hy (k_write 1)); [left|reflexivity]].
    destruct Hy as [Hin Hnew]. specialize (Hnew (k_write 2)). rewrite Ex.
    assert (y = (k_write 1).2 ∨ y = (k_write 2).2) as [->| ->]; [|by specialize (Hnew ltac:(right; left) eq_refl)|reflexivity].
    apply elem_of_cons in Hin as [Hin|[Hin|Hin]%elem_of_cons]; [injection Hin as ->; by left|injection Hin as ->; by right|].
    by apply not_elem_of_nil in Hin.
Defined.

(** A node that runs on those files, and a write it is sent. *)
Definition earlier_log : SingleOperationLog.t :=
  SingleOperationLog.mk (earlier_fs (log_bytes (records [set_k 1]))) (Z.of_nat (length (log_bytes (records [set_k 1])))) [] false false.
Definition earlier_node : node () :=
  mk_node {[0 := Map.make None 3]} (LamportClock.mk 2 1) (OperationLog.single earlier_log) (Cluster.make disk_config)
    (OnGoingSyncOplogsStore.make 1) OnGoingPaxosRounds.empty
    (BackedDiskRequestBuffer.mk "/d" "p" "/d/p", mk_fs {["/d/p"%string := []]} {["/d"%string]}) [] ().
Definition new_k : Request.t :=
  sample_user_request OperatorNumbers.SET [SimpleString.of_bytes [107; 0]; SimpleString.of_bytes [9]].

Lemma earlier_serving : serving earlier_node 1 earlier_log "/d" (λ _, None).
Proof.
  split; [by split; [split|..]|done| |done]. exists (Map.make None 3). split; [done|].
  apply empty_holds. lia.
Qed.

Lemma write_survives_restart_witness :
  ∃ n1 o1 o2,
    OperatorDispatcher.dispatch (H := masking_target) (H0 := plain_zlib) (Env := sample_env) (Wt := sample_waiting)
      (N := only_node_3) (CH := sample_handlers) 1 4 new_k earlier_node
      = Ret (n1, Response.mk true 0 (LamportClock.mk 3 0) 0 (SimpleString.fromNumber 4 0)) ∧
    operationLog n1 = OperationLog.single o1 ∧
    SingleOperationLog.flusher_step (H := masking_target) (H0 := plain_zlib) disk_config (OperationLog.partitionPath "/d" 0)
      1 (λ q, q) o1 = Ret (o2, ()) ∧
    ∃ started n2,
      MemDbCreator.create (H := masking_target) (Env := sample_env) (N := only_node_3) (λ _ _ _, Ret None) disk_config ()
        (SingleOperationLog.disk o2) = Ret (started, None) ∧
      MemDb.run (H := masking_target) (H0 := plain_zlib) (Env := sample_env) (Wt := sample_waiting) (N := only_node_3)
        (CH := sample_handlers) (λ _ n, n) 3 started = Ret (n2, ()) ∧
      OperatorDispatcher.dispatch (H := masking_target) (H0 := plain_zlib) (Env := sample_env) (Wt := sample_waiting)
        (N := only_node_3) (CH := sample_handlers) 1 4 (sample_user_request OperatorNumbers.GET [SimpleString.of_bytes [107; 0]]) n2
        = Ret (n2, Response.mk true 0 (LamportClock.mk 3 1) 0 (SimpleString.of_bytes [9])).
Proof.
  edestruct (write_survives_restart (H := masking_target) (ZL := plain_zlib) (Env := sample_env) (Wt := sample_waiting)
    (N := only_node_3) (CH := sample_handlers) (λ _ _ _, Ret None) (λ _ n, n) 0 3 earlier_node 1 earlier_log "/d" (λ _, None)
    (records [set_k 1]) [one_segment] [k_write 1; k_write 2] disk_config 1 (λ q, q) (100 * 1024 * 1024)
    (SimpleString.of_bytes [107; 0]) (SimpleString.of_bytes [9]) 107 new_k
    (sample_user_request OperatorNumbers.GET [SimpleString.of_bytes [107; 0]])) as (n1 & o1 & o2 & E1 & E2 & E3 & E4).
  - exact disk_config_standalone.
  - apply earlier_ready.
  - exact earlier_serving.
  - apply earlier_logged; [exact k_logged|vm_compute; reflexivity].
  - repeat constructor; apply k_writes.
  - apply Forall_forall. repeat constructor; vm_compute; discriminate.
  - reflexivity.
  - split; vm_compute; reflexivity.
  - done.
  - vm_compute. reflexivity.
  - discriminate.
  - simpl. lia.
  - vm_compute. reflexivity.
  - by split.
  - by split.
  - split; [discriminate|reflexivity].
  - repeat constructor; simpl; try (vm_compute; reflexivity); unfold byte_ok; try lia. discriminate.
  - vm_compute. reflexivity.
  - vm_compute. discriminate.
  - exists n1, o1, o2. split; [exact E1|]. split; [exact E2|]. split; [exact E3|]. exact (E4 ()).
Defined.

(** Deletions leave nothing behind in the store, and the intermediate file, which holds the
    youngest operations, is replayed before the segments: a deletion that is still in it finds
    no key, the segment's SET then writes it, and the deleted key is served again. *)
Definition del_k (t : Z) : OperationBody.t :=
  OperationBody.mk (Some [SimpleString.of_bytes [107; 0]]) t 1 OperatorNumbers.DEL false false.
Lemma deleted_key_returns :
  (let! created := MemDbCreator.create (H := masking_target) (Env := sample_env) (N := only_node_3) (λ _ _ _, Ret None)
     disk_config () (earlier_fs (log_bytes (records [del_k 5]))) in
   let! started := MemDb.run (H := masking_target) (H0 := plain_zlib) (Env := sample_env) (Wt := sample_waiting)
     (N := only_node_3) (CH := sample_handlers) (λ _ n, n) 3 created.1 in
   let! answered := OperatorDispatcher.dispatch (H := masking_target) (H0 := plain_zlib) (Env := sample_env)
     (Wt := sample_waiting) (N := only_node_3) (CH := sample_handlers) 1 4
     (sample_user_request OperatorNumbers.GET [SimpleString.of_bytes [107; 0]]) started.1 in
   Ret answered.2) = Ret (Response.mk true 0 (LamportClock.mk 2 1) 0 (SimpleString.of_bytes [2])).
Proof. vm_compute. reflexivity. Qed.
