(* ===== verification/UnitTests.v ===== *)
(** * The repository's unit tests

    The tests of [core/tst] on the definitions of this development, each with the inputs and the
    assertions of its source: a test is the outcome of its assertions, and the lemmas evaluate it.
    Some tests no longer describe the code, and say so here: they ask for the response format
    without the node of the timestamp, they read a buffer past its end, or they compare keys
    that have no terminator.  Tests of [AVLTree], [Map] and the operators call the operations by
    earlier names; the section that holds them gives the present operation for each. *)

From Stdlib Require Import Ascii.
From S2P Require Import Prelude.
From S2P Require Import Utils.
From S2P Require Import Clock.
From S2P Require Import Counters.
From S2P Require Import Avl.
From S2P Require Import MapStore.
From S2P Require Import Messages.
From S2P Require Import Codec.
From S2P Require Import Config.
From S2P Require Import SharedLocks.
From S2P Require Import Queues.
From S2P Require Import Ring.
From S2P Require Import Partitions.
From S2P Require Import Compaction.
From S2P Require Import Segments.
From S2P Require Import Oplog.
From S2P Require Import Cluster.
From S2P Require Import ClusterFacade.
From S2P Require Import OperatorTypes.
From S2P Require Import Operators.
From S2P Require Import Dispatcher.

(** ** Assertions *)

Module Assertions.

(** A test: whether its assertions hold, or what else happens. *)
Abbreviation test := (outcome bool).

(** [ASSERT_TRUE] and [ASSERT_EQ]. *)
Definition assert_true (b : bool) : test := Ret b.
Definition eq {A} `{EqDecision A} (a b : A) : test := Ret (bool_decide (a = b)).
Definition returns_eq {A} `{EqDecision A} (c : outcome A) (b : A) : test := let! a := c in eq a b.

(** The assertions of a test, which ends at the first that does not hold. *)
Fixpoint all_of (l : list test) : test :=
  match l with [] => Ret true | c :: l => let! b := c in if (b : bool) then all_of l else Ret false end.

(** [Assertions::assertAnyMatch]. *)
Fixpoint assertAnyMatch {A} (toTest : list A) (predicate : A → outcome bool) : test :=
  match toTest with
  | [] => Ret false
  | a :: l => let! b := predicate a in if (b : bool) then Ret true else assertAnyMatch l predicate
  end.

(** [Assertions::assertPointerValues]. *)
Definition assertPointerValues (expected actual : bytes) (until : nat) : test :=
  all_of (map (λ i, let! a := at_undef expected i in let! b := at_undef actual i in eq a b) (seq 0 until)).

(** [Assertions::assertFirstItemsVectorsEqual]. *)
Definition assertFirstItemsVectorsEqual (expected toAssert : bytes) : test :=
  assertPointerValues expected toAssert (length expected).

End Assertions.

Import Assertions.

#[local] Open Scope char_scope.
#[local] Open Scope Z_scope.

Definition char (c : Ascii.ascii) : SimpleString.t := SimpleString.fromChar (Z.of_N (Ascii.N_of_ascii c)).
Definition text (s : string) : SimpleString.t := SimpleString.fromString (bytes_of_string s).

(** The byte a pointer refers to. *)
Definition first_byte (s : SimpleString.t) : outcome Z := at_undef (SimpleString.data s) 0.
Definition code (c : Ascii.ascii) : Z := Z.of_N (Ascii.N_of_ascii c).

(** ** [UtilsTest] and [StringUtilsTest] *)

Module UtilsTest.

Definition parse : test := returns_eq (Utils.parse 4 false [0x00; 0x00; 0x01; 0xFF]) 511.

(** The second buffer of the test is declared but the first is read, from its second byte. *)
Definition parseFromBuffer : test :=
  let toParse := [0x00; 0x00; 0x01; 0xFF] in
  let! parsed := Utils.parseFromBuffer 4 toParse 0 in
  let! first := eq parsed 511 in
  if negb first then Ret false
  else let! _ := Utils.parseFromBuffer 4 toParse 1 in eq parsed 511.

Definition appendToBufferValue : test :=
  let buffertoAppend := Utils.appendToBuffer 4 12 [0x00] in
  all_of [eq (length buffertoAppend) 5%nat; eq buffertoAppend [0x00; 0x00; 0x00; 0x00; 12]].

Definition appendToBufferPointer : test :=
  let! vectorToBeAppended := Utils.appendPtrToBuffer [0x01; 0x02; 0x03; 0x04] 3 [0x00] in
  all_of [eq (length vectorToBeAppended) 4%nat; eq vectorToBeAppended [0x00; 0x01; 0x02; 0x03]].

Definition copyFromBuffer : test :=
  let! copyResult := Utils.copyFromBuffer [0x00; 0x00; 0x01; 0xFF] 2 3 in
  all_of [returns_eq (at_undef copyResult 0) 0x01; returns_eq (at_undef copyResult 1) 0xFF].

Definition Split : test :=
  let splited := StringUtils.split "A B C D" " "%char in
  all_of [eq (length splited) 4%nat; returns_eq (at_throw splited 0) "A"%string; returns_eq (at_throw splited 1) "B"%string;
          returns_eq (at_throw splited 2) "C"%string; returns_eq (at_throw splited 3) "D"%string].

End UtilsTest.

Lemma utils_tests :
  UtilsTest.parse = Ret true ∧ UtilsTest.appendToBufferValue = Ret true ∧ UtilsTest.appendToBufferPointer = Ret true ∧
  UtilsTest.copyFromBuffer = Ret true ∧ UtilsTest.Split = Ret true.
Proof. by vm_compute. Qed.

(** The test of [parseFromBuffer] reads past the end of its buffer. *)
Lemma parseFromBuffer_test_undefined : UtilsTest.parseFromBuffer = Undef.
Proof. by vm_compute. Qed.

(** ** [LamportClockTest] *)

Module LamportClockTest.

(** [LamportClock(nodeId, counter)]. *)
Definition clock (nodeId counter : Z) : LamportClock.t := LamportClock.mk counter nodeId.

Definition Comparation : test :=
  let a := clock 2 2 in let b := clock 2 1 in
  let c := clock 1 1 in let d := clock 2 1 in
  all_of [assert_true (LamportClock.op_gt a b); assert_true (negb (LamportClock.op_gt b a));
          assert_true (LamportClock.op_gt d c); assert_true (negb (LamportClock.op_gt c d))].

Definition Tick : test :=
  let c := LamportClock.counter (LamportClock.init 2) in
  let '(c, a1) := LamportClock.tick 2 c in
  let '(c, a2) := LamportClock.tick 1 c in
  let '(c, a3) := LamportClock.tick 5 c in
  all_of [eq a1 3; eq a2 4; eq a3 6].

Definition Initialization : test :=
  let clock := LamportClock.init 2 in
  all_of [eq (LamportClock.nodeId clock) 2; eq (LamportClock.counter clock) 0].

End LamportClockTest.

Lemma clock_tests :
  LamportClockTest.Comparation = Ret true ∧ LamportClockTest.Tick = Ret true ∧ LamportClockTest.Initialization = Ret true.
Proof. by vm_compute. Qed.

(** ** [BlockingQueueTest] *)

Module BlockingQueueTest.

(** The dequeuing thread comes first, blocks, and goes on when the other has enqueued. *)
Definition ShouldBlockAndDequeue : test :=
  let queue := BlockingQueue.empty in
  let blocked := match BlockingQueue.dequeue queue with Blocked => true | _ => false end in
  let! (queue, _) := BlockingQueue.enqueue 10 queue in
  let! (queue, toDequeue) := BlockingQueue.dequeue queue in
  all_of [assert_true blocked; eq toDequeue 10; eq (BlockingQueue.getSize queue) 0].

Definition ShouldEnqueueAndDequeue : test :=
  let! (q1, _) := BlockingQueue.enqueue 1 BlockingQueue.empty in
  let! (q2, _) := BlockingQueue.enqueue 2 q1 in
  let! (q3, _) := BlockingQueue.enqueue 3 q2 in
  let! (q4, a) := BlockingQueue.dequeue q3 in
  let! (q5, b) := BlockingQueue.dequeue q4 in
  let! (q6, c) := BlockingQueue.dequeue q5 in
  all_of [eq (BlockingQueue.getSize q1) 1; eq (BlockingQueue.getSize q2) 2; eq (BlockingQueue.getSize q3) 3;
          eq a 1; eq (BlockingQueue.getSize q4) 2; eq b 2; eq (BlockingQueue.getSize q5) 1;
          eq c 3; eq (BlockingQueue.getSize q6) 0].

Definition SizeShouldBeZero : test := eq (BlockingQueue.getSize (A := Z) BlockingQueue.empty) 0.

End BlockingQueueTest.

Lemma queue_tests :
  BlockingQueueTest.ShouldBlockAndDequeue = Ret true ∧ BlockingQueueTest.ShouldEnqueueAndDequeue = Ret true ∧
  BlockingQueueTest.SizeShouldBeZero = Ret true.
Proof. by vm_compute. Qed.

(** ** [ReadWriteLockTest] *)

Module ReadWriteLockTest.

(** One thread calls a method of the lock and runs until it returns, or as far as it gets. *)
Fixpoint finish (fuel : nat) (s : SharedLock.state) : SharedLock.state :=
  match fuel with
  | O => s
  | S fuel => match exec s (0%nat, None) with Some s' => finish fuel s' | None => s end
  end.
Definition call (entry : SharedLock.pc) (s : SharedLock.state) : SharedLock.state := finish 5 (SharedLock.goto 0 entry s).

Definition returned_to (p : SharedLock.pc) (s : SharedLock.state) : test :=
  assert_true (bool_decide (SharedLock.threads s !! 0%nat = Some p)).

Definition ShouldntBlock : test :=
  let s1 := call SharedLock.LS_count (SharedLock.initial 1) in
  let s2 := call SharedLock.LS_count s1 in
  let s3 := call SharedLock.US_count s2 in
  let s4 := call SharedLock.US_count s3 in
  let s5 := call SharedLock.LE_lock s4 in
  let s6 := call SharedLock.UE_dec s5 in
  let s7 := call SharedLock.LS_count s6 in
  all_of [returned_to SharedLock.Shared s1; returned_to SharedLock.Shared s2; returned_to SharedLock.Idle s3;
          returned_to SharedLock.Idle s4; returned_to SharedLock.Exclusive s5; returned_to SharedLock.Idle s6;
          returned_to SharedLock.Shared s7].

End ReadWriteLockTest.

Lemma lock_test : ReadWriteLockTest.ShouldntBlock = Ret true.
Proof. by vm_compute. Qed.

(** ** [RequestDeserializerTest] and [RequestSerializerTest] *)

Module RequestTest.

(** A string argument: its [size] and its bytes. *)
Definition arg_is (o : OperationBody.t) (i : nat) (expected : string) : test :=
  let! a := OperationBody.getArg o i in
  let! b := SimpleString.toString a in
  all_of [eq (SimpleString.size a) (Z.of_nat (String.length expected)); eq b (bytes_of_string expected)].

Definition number_of_args (o : OperationBody.t) : outcome nat :=
  let! l := OperationBody.the_args o in Ret (length l).

Definition WithArgsAndNodeId : test :=
  let buffer := [0x00; 0x00; 0x01; 0xFF;
                 0x0E; 0x4C; 0x4F; 0x4C;
                 0x09;
                 0x00; 0x00; 0x00; 0x00; 0x00; 0x00; 0x00; 0xFF;
                 0x02; 0xFF;
                 0x00; 0x00; 0x00; 0x01; 0x41;
                 0x00; 0x00; 0x00; 0x02; 0x42; 0x43] in
  let! r := RequestDeserializer.deserialize buffer in
  let a := Request.authentication r in let o := Request.operation r in
  all_of [eq (Request.requestNumber r) 511;
          assert_true (AuthenticationBody.flag1 a); assert_true (negb (AuthenticationBody.flag2 a));
          eq (AuthenticationBody.authKey a) (bytes_of_string "LOL");
          eq (OperationBody.operatorNumber o) 0x02; assert_true (negb (OperationBody.flag1 o));
          assert_true (OperationBody.flag2 o); eq (OperationBody.timestamp o) 255; eq (OperationBody.nodeId o) 767;
          returns_eq (number_of_args o) 2%nat; arg_is o 0 "A"; arg_is o 1 "BC"].

Definition WithArgsNoNodeId : test :=
  let buffer := [0x00; 0x00; 0x01; 0xFF;
                 0x0C; 0x4C; 0x4F; 0x4C;
                 0x09;
                 0x00; 0x00; 0x00; 0x00; 0x00; 0x00; 0x00; 0xFF;
                 0x00; 0x00; 0x00; 0x01; 0x41;
                 0x00; 0x00; 0x00; 0x02; 0x42; 0x43] in
  let! r := RequestDeserializer.deserialize buffer in
  let a := Request.authentication r in let o := Request.operation r in
  all_of [eq (Request.requestNumber r) 511;
          assert_true (negb (AuthenticationBody.flag1 a)); assert_true (negb (AuthenticationBody.flag2 a));
          eq (AuthenticationBody.authKey a) (bytes_of_string "LOL");
          eq (OperationBody.operatorNumber o) 0x02; assert_true (negb (OperationBody.flag1 o));
          assert_true (OperationBody.flag2 o); eq (OperationBody.timestamp o) 255;
          returns_eq (number_of_args o) 2%nat; arg_is o 0 "A"; arg_is o 1 "BC"].

Definition EmptyArgsNodeId : test :=
  let buffer := [0x00; 0x00; 0x00; 0x01;
                 0x0E; 0x4C; 0x4F; 0x4C;
                 0x09;
                 0x00; 0x00; 0x00; 0x00; 0x00; 0x00; 0x00; 0xFF;
                 0x02; 0xFF] in
  let! r := RequestDeserializer.deserialize buffer in
  let a := Request.authentication r in let o := Request.operation r in
  all_of [eq (Request.requestNumber r) 1;
          assert_true (AuthenticationBody.flag1 a); assert_true (negb (AuthenticationBody.flag2 a));
          eq (AuthenticationBody.authKey a) (bytes_of_string "LOL");
          eq (OperationBody.operatorNumber o) 0x02; assert_true (negb (OperationBody.flag1 o));
          assert_true (OperationBody.flag2 o); eq (OperationBody.timestamp o) 255; eq (OperationBody.nodeId o) 767;
          returns_eq (number_of_args o) 0%nat].

(** [createRequestNodeId]. *)
Definition createRequestNodeId (args : list SimpleString.t) (authKey : string) (nodeId opNumber timestamp reqNumber : Z)
    (flag1Auth flag2Auth flag1Op flag2Op : bool) : Request.t :=
  Request.mk (AuthenticationBody.mk (bytes_of_string authKey) flag1Auth flag2Auth)
    (OperationBody.mk (Some args) timestamp nodeId opNumber flag1Op flag2Op) reqNumber USER.

(** [skipped] bytes of the expected vector are left out; the test leaves out none. *)
Definition serialize_WithArgsAndNodeId (skipped : nat) : test :=
  let args := [SimpleString.fromChar 0x01; SimpleString.fromChar 0x01] in
  let request := createRequestNodeId args "123" 1 5 0x1FF 2 true false false false in
  let! actual := RequestSerializer.serialize request in
  assertFirstItemsVectorsEqual (drop skipped
    [0x00; 0x00; 0x00; 0x1D;
     0x00; 0x00; 0x00; 0x02;
     0x0E; 0x31; 0x32; 0x33;
     0x14;
     0x00; 0x00; 0x00; 0x00; 0x00; 0x00; 0x01; 0xFF;
     0x00; 0x01;
     0x00; 0x00; 0x00; 0x01; 0x01;
     0x00; 0x00; 0x00; 0x01; 0x01]) actual.

Definition serialize_WithoutArgsAndFlags (skipped : nat) : test :=
  let request := createRequestNodeId [] "123" 0 5 0x1FF 2 false true true false in
  let! actual := RequestSerializer.serialize request in
  assertFirstItemsVectorsEqual (drop skipped
    [0x00; 0x00; 0x00; 0x11;
     0x00; 0x00; 0x00; 0x02;
     0x0D; 0x31; 0x32; 0x33;
     0x16;
     0x00; 0x00; 0x00; 0x00; 0x00; 0x00; 0x01; 0xFF]) actual.

End RequestTest.

Lemma request_deserializer_tests :
  RequestTest.WithArgsAndNodeId = Ret true ∧ RequestTest.WithArgsNoNodeId = Ret true ∧ RequestTest.EmptyArgsNodeId = Ret true.
Proof. by vm_compute. Qed.

(** The tests of the serializer expect the length of the packet first, which the connection
    writes; without its four bytes they hold. *)
Lemma request_serializer_tests :
  RequestTest.serialize_WithArgsAndNodeId 0 = Ret false ∧ RequestTest.serialize_WithoutArgsAndFlags 0 = Ret false ∧
  RequestTest.serialize_WithArgsAndNodeId 4 = Ret true ∧ RequestTest.serialize_WithoutArgsAndFlags 4 = Ret true.
Proof. by vm_compute. Qed.

(** ** [ResponseSerializerTest] and [ResponseDeserializerTest] *)

Module ResponseTest.

(** The tests set and compare [timestamp] as a number: its counter. *)
Definition with_numbers (r : Response.t) (requestNumber timestamp : Z) : Response.t :=
  Response.mk (Response.isSuccessful r) (Response.errorCode r) (LamportClock.mk timestamp 0) requestNumber
    (Response.responseValue r).

Definition hello : bytes := [0x68; 0x65; 0x6C; 0x6C; 0x6F].

Definition ShouldSerializeSuccessWithData : test :=
  let response := with_numbers (Response.success_value (SimpleString.of_bytes hello) (LamportClock.mk 0 0)) 0x02 0x01 in
  let! serialized := ResponseCodec.serialize response in
  assertFirstItemsVectorsEqual
    ([0x00; 0x00; 0x00; 0x02;
      0x00; 0x00; 0x00; 0x00; 0x00; 0x00; 0x00; 0x01;
      0x01;
      0x00; 0x00; 0x00; 0x05] ++ hello) serialized.

Definition ShouldSerializeSuccessNoData : test :=
  let response := with_numbers (Response.success (LamportClock.mk 0 0)) 0x02 0x01 in
  let! serialized := ResponseCodec.serialize response in
  assertFirstItemsVectorsEqual
    [0x00; 0x00; 0x00; 0x02;
     0x00; 0x00; 0x00; 0x00; 0x00; 0x00; 0x00; 0x01;
     0x01;
     0x00; 0x00; 0x00; 0x00] serialized.

Definition ShouldSerializeErrorNoData : test :=
  let response := with_numbers (Response.error ErrorCode.UNKNOWN_KEY) 0x02 0x01 in
  let! serialized := ResponseCodec.serialize response in
  assertFirstItemsVectorsEqual
    [0x00; 0x00; 0x00; 0x02;
     0x00; 0x00; 0x00; 0x00; 0x00; 0x00; 0x00; 0x01;
     0x02;
     0x00; 0x00; 0x00; 0x00] serialized.

Definition ResponseWithArgSuccess : test :=
  let! responseDeserialized := ResponseCodec.deserialize
    ([0x00; 0x00; 0x00; 0x02;
      0x00; 0x00; 0x00; 0x00; 0x00; 0x00; 0x00; 0x01;
      0x01;
      0x00; 0x00; 0x00; 0x05] ++ hello) in
  match responseDeserialized with
  | None => Ret false
  | Some r =>
      all_of [eq (Response.requestNumber r) 2; eq (LamportClock.counter (Response.timestamp r)) 1;
              assert_true (Response.isSuccessful r); eq (SimpleString.size (Response.responseValue r)) 5;
              assertPointerValues hello (SimpleString.data (Response.responseValue r))
                (Z.to_nat (SimpleString.size (Response.responseValue r)))]
  end.

Definition ResponseWithoutArgsError : test :=
  let! responseDeserialized := ResponseCodec.deserialize
    [0x00; 0x00; 0x00; 0x02;
     0x00; 0x00; 0x00; 0x00; 0x00; 0x00; 0x00; 0x01;
     0x02;
     0x00; 0x00; 0x00; 0x00] in
  match responseDeserialized with
  | None => Ret false
  | Some r =>
      all_of [eq (Response.requestNumber r) 2; eq (LamportClock.counter (Response.timestamp r)) 1;
              assert_true (negb (Response.isSuccessful r)); eq (Response.errorCode r) 1;
              eq (SimpleString.size (Response.responseValue r)) 0]
  end.

End ResponseTest.

(** The tests of responses predate the node of the timestamp: none of them holds, and an error
    without a value is read past the end of the packet. *)
Lemma response_tests :
  ResponseTest.ShouldSerializeSuccessWithData = Ret false ∧ ResponseTest.ShouldSerializeSuccessNoData = Ret false ∧
  ResponseTest.ShouldSerializeErrorNoData = Ret false ∧ ResponseTest.ResponseWithArgSuccess = Ret false ∧
  ResponseTest.ResponseWithoutArgsError = Undef.
Proof. by vm_compute. Qed.

(** ** [OperationLogSerializerTest] and [OperationLogDeserializerTest] *)

Module OperationLogTest.

Definition ShouldSerializeWithArgs : test :=
  let! serialized := OperationLogCodec.serialize [] (OperationBody.mk None 0x02 1 0x01 false false) in
  assertFirstItemsVectorsEqual
    [0x04;
     0x00; 0x00; 0x00; 0x00; 0x00; 0x00; 0x00; 0x02;
     0x00; 0x00; 0x00; 0x00] serialized.

Definition ShouldSerializeNoArgs : test :=
  let args := [char "A"; char "B"] in
  let! serialized := OperationLogCodec.serialize [] (OperationBody.mk (Some args) 0x02 1 0x01 false false) in
  assertFirstItemsVectorsEqual
    [0x04;
     0x00; 0x00; 0x00; 0x00; 0x00; 0x00; 0x00; 0x02;
     0x00; 0x00; 0x00; 0x01; 0x41;
     0x00; 0x00; 0x00; 0x01; 0x42;
     0x00; 0x00; 0x00; 0x00] serialized.

Definition first_bytes_are (o : OperationBody.t) (timestamp : Z) : test :=
  let arg_byte i := let! a := OperationBody.getArg o i in first_byte a in
  all_of [eq (OperationBody.timestamp o) timestamp; eq (OperationBody.operatorNumber o) 1;
          returns_eq (RequestTest.number_of_args o) 2%nat; returns_eq (arg_byte 0%nat) 0x41; returns_eq (arg_byte 1%nat) 0x42].

Definition ShouldDeserialize : test :=
  let toDesrialize :=
    [0x04;
     0x00; 0x00; 0x00; 0x00; 0x00; 0x00; 0x00; 0xFF;
     0x00; 0x00; 0x00; 0x01; 0x41;
     0x00; 0x00; 0x00; 0x01; 0x42;
     0x00; 0x00; 0x00; 0x00;

     0x04;
     0x00; 0x00; 0x00; 0x00; 0x00; 0x00; 0x01; 0x00;
     0x00; 0x00; 0x00; 0x01; 0x41;
     0x00; 0x00; 0x00; 0x01; 0x42;
     0x00; 0x00; 0x00; 0x00] in
  let! deserialized := OperationLogCodec.deserializeAll toDesrialize in
  all_of [eq (length deserialized) 2%nat;
          (let! firstOperation := at_throw deserialized 0 in first_bytes_are firstOperation 255);
          (let! secondOperation := at_throw deserialized 1 in first_bytes_are secondOperation 256)].

End OperationLogTest.

Lemma operation_log_tests :
  OperationLogTest.ShouldSerializeWithArgs = Ret true ∧ OperationLogTest.ShouldSerializeNoArgs = Ret true ∧
  OperationLogTest.ShouldDeserialize = Ret true.
Proof. by vm_compute. Qed.

(** ** Compaction *)

Module CompactionTest.

(** [CompactionTestUtils::set] and [CompactionTestUtils::del]; [terminator] is what follows the
    character in its buffer, nothing in the tests. *)
Section compaction.
Context (terminator : bytes).

Definition key_of (c : ascii) : SimpleString.t := SimpleString.mk (code c :: terminator) 1.
Definition set (key value : ascii) : OperationBody.t := OperationBody.mk (Some [key_of key; key_of value]) 0 0 1 false false.
Definition del (key : ascii) : OperationBody.t := OperationBody.mk (Some [key_of key]) 0 0 2 false false.

(** An operation with this number, key and value. *)
Definition matches (number : Z) (key : ascii) (value : option ascii) (op : OperationBody.t) : outcome bool :=
  let arg_is i c := let! a := OperationBody.getArg op i in let! b := first_byte a in Ret (b =? code c) in
  let! k := arg_is 0%nat key in
  if negb (k && (OperationBody.operatorNumber op =? number)) then Ret false
  else match value with Some c => arg_is 1%nat c | None => Ret true end.

Definition SingleThreaded_ShouldCompact : test :=
  let! (compacted, _) := SingleThreadedLogCompacter.compact
    [set "A" "1"; set "B" "2"; del "A"; set "B" "3"; del "C"; set "A" "0"] [] [] in
  all_of [eq (length compacted) 3%nat;
          assertAnyMatch compacted (matches 2 "C" None);
          assertAnyMatch compacted (matches 1 "B" (Some "3"));
          assertAnyMatch compacted (matches 1 "A" (Some "0"))].

(** The test is on a machine with eight hardware threads. *)
Definition MultiThreaded_ShouldCompact : test :=
  let uncompacted :=
    [set "A" "1"; set "B" "2"; set "A" "3"; del "C"; set "D" "1"; set "A" "4"; set "E" "1"; del "F"; set "C" "2";
     set "A" "3"; set "E" "4"; set "B" "1"; del "B"; set "A" "6"; set "B" "9"; del "A"; set "A" "3"; del "A";
     set "A" "2"; set "B" "4"; del "A"; set "A" "1"; del "A"; del "H"; set "H" "1"] in
  let! compacted := MultiThreadedLogCompactor.compact 8 uncompacted in
  all_of [eq (length compacted) 7%nat;
          assertAnyMatch compacted (matches 1 "H" (Some "1"));
          assertAnyMatch compacted (matches 2 "A" None);
          assertAnyMatch compacted (matches 1 "H" (Some "1"));
          assertAnyMatch compacted (matches 1 "E" (Some "4"));
          assertAnyMatch compacted (matches 1 "C" (Some "2"));
          assertAnyMatch compacted (matches 2 "F" None);
          assertAnyMatch compacted (matches 1 "D" (Some "1"))].

End compaction.
End CompactionTest.

(** A character's buffer has no terminator, and the keys are compared with [strcmp]: the tests
    run past the end of the keys.  With a zero byte after each character they hold. *)
Lemma compaction_tests :
  CompactionTest.SingleThreaded_ShouldCompact [] = Undef ∧ CompactionTest.MultiThreaded_ShouldCompact [] = Undef ∧
  CompactionTest.SingleThreaded_ShouldCompact [0] = Ret true ∧ CompactionTest.MultiThreaded_ShouldCompact [0] = Ret true.
Proof. by vm_compute. Qed.

(** ** [PartitionsTest] *)

Module PartitionsTest.

(** The digests of the two keys of the tests. *)
Definition MD5 (input : bytes) : bytes :=
  if decide (input = bytes_of_string "hola")
  then [77; 24; 99; 33; 193; 167; 240; 243; 84; 178; 151; 232; 145; 74; 178; 64]
  else if decide (input = bytes_of_string "test")
  then [9; 143; 107; 205; 70; 33; 211; 115; 202; 222; 78; 131; 38; 39; 180; 246]
  else replicate 16 0.

Definition HASH_HOLA : Z := 5555299136995586291.
Definition RING_POSITION_KEY_HOLA : Z := 51.

Definition setup : outcome Partitions.t :=
  let configuration := Configuration.mk {[ConfigurationKeys.NODE_ID := "1"%string]} (λ _, None) in
  Partitions.make [mk_entry 1 2; mk_entry 4 29; mk_entry 2 35; mk_entry 3 62] 2 64 configuration.

Definition ids (c : outcome (list RingEntry)) : outcome (list Z) := let! l := c in Ret (nodeId <$> l).

Definition add : test :=
  let! partitions := setup in
  let! (partitions, _) := Partitions.add (mk_entry 5 3) partitions in
  all_of [returns_eq (Partitions.getDistanceClockwise partitions 5) 1;
          returns_eq (Partitions.getDistanceClockwise partitions 4) 2;
          returns_eq (Partitions.getDistanceClockwise partitions 3) 4;
          returns_eq (Partitions.isNeighbor partitions 5) true;
          returns_eq (Partitions.isNeighbor partitions 4) false;
          returns_eq (Partitions.isNeighbor partitions 3) true;
          returns_eq (ids (Partitions.getNeighborsClockwise partitions 3)) [5; 4; 2]].

Definition deleteByNodeId : test :=
  let! partitions := setup in
  let! (partitions, _) := Partitions.deleteByNodeId 2 partitions in
  all_of [returns_eq (Partitions.getDistanceClockwise partitions 4) 1;
          returns_eq (Partitions.getDistanceClockwise partitions 3) 2;
          returns_eq (Partitions.isNeighbor partitions 3) true;
          returns_eq (Partitions.isNeighbor partitions 4) true;
          returns_eq (ids (Partitions.getNeighborsClockwise partitions 3)) [4; 3]].

Definition isNeighbor : test :=
  let! partitions := setup in
  all_of [returns_eq (Partitions.isNeighbor partitions 4) true;
          returns_eq (Partitions.isNeighbor partitions 2) false;
          returns_eq (Partitions.isNeighbor partitions 3) true].

Definition getDistanceClockwise : test :=
  let! partitions := setup in
  all_of [returns_eq (Partitions.getDistanceClockwise partitions 4) 1;
          returns_eq (Partitions.getDistanceClockwise partitions 2) 2;
          returns_eq (Partitions.getDistanceClockwise partitions 3) 3].

Definition getDistanceCounterClockwise : test :=
  let! partitions := setup in
  all_of [returns_eq (Partitions.getDistanceCounterClockwise partitions 4) 3;
          returns_eq (Partitions.getDistanceCounterClockwise partitions 2) 2;
          returns_eq (Partitions.getDistanceCounterClockwise partitions 3) 1].

Definition getDistance : test :=
  let! partitions := setup in
  all_of [returns_eq (Partitions.getDistance partitions 4) 1;
          returns_eq (Partitions.getDistance partitions 2) 2;
          returns_eq (Partitions.getDistance partitions 3) (-1)].

Definition canHoldKey : test :=
  let! partitions := setup in returns_eq (Partitions.canHoldKey MD5 partitions (text "hola")) false.

Definition getDistanceOfKey : test :=
  let! partitions := setup in returns_eq (Partitions.getDistanceOfKey MD5 partitions (text "hola")) 2.

Definition getNeighborCounterClockwiseByNodeId : test :=
  let! partitions := setup in
  let! neighbor := Partitions.getNeighborCounterClockwiseByNodeId partitions 2 in
  eq (nodeId <$> neighbor) (Some 4).

Definition getNeighborsClockwiseByNodeId : test :=
  let! partitions := setup in returns_eq (ids (Partitions.getNeighborsClockwiseByNodeId partitions 2)) [3].

Definition getNeighborsClockwise : test :=
  let! partitions := setup in returns_eq (ids (Partitions.getNeighborsClockwise partitions (-1))) [4].

Definition isClockwiseNeighbor : test :=
  let! partitions := setup in
  all_of [returns_eq (Partitions.isClockwiseNeighbor partitions 4) true;
          returns_eq (Partitions.isClockwiseNeighbor partitions 2) false;
          returns_eq (Partitions.isClockwiseNeighbor partitions 3) false].

Definition getRingPositionByKey : test :=
  let! partitions := setup in
  returns_eq (Partitions.getRingPositionByKey MD5 partitions (text "test")) RING_POSITION_KEY_HOLA.

(** The tests of the file, in its order. *)
Definition all : list test :=
  [add; deleteByNodeId; isNeighbor; getDistanceClockwise; getDistanceCounterClockwise; getDistance; canHoldKey;
   getDistanceOfKey; getNeighborCounterClockwiseByNodeId; getNeighborsClockwiseByNodeId; getNeighborsClockwise;
   isClockwiseNeighbor; getRingPositionByKey].

End PartitionsTest.

Lemma partitions_tests : Forall (λ t, t = Ret true) PartitionsTest.all.
Proof. by repeat constructor; vm_compute. Qed.

Lemma hash_of_hola :
  HashCalculator.calculateMD5 PartitionsTest.MD5 (bytes_of_string "hola") = PartitionsTest.HASH_HOLA.
Proof. by vm_compute. Qed.

(** ** [OperatorRegistryTest] *)

Module OperatorRegistryTest.

Definition GetOperatorFound : test :=
  match OperatorRegistry.get OperatorNumbers.SET with
  | None => Ret false
  | Some operatorFound =>
      all_of [assert_true (bool_decide (type (desc operatorFound) = DB_STORE_WRITE));
              assert_true (bool_decide (operatorFound = SetOperator));
              assert_true (negb (bool_decide (operatorFound = GetOperator)))]
  end.

Definition GetOperatorNotFound : test := assert_true (bool_decide (OperatorRegistry.get 0x99 = None)).

End OperatorRegistryTest.

Lemma registry_tests : OperatorRegistryTest.GetOperatorFound = Ret true ∧ OperatorRegistryTest.GetOperatorNotFound = Ret true.
Proof. by vm_compute. Qed.

(** ** [AVLTreeTest]

    The tests call [add(key, keyHash, value, ignoreTimestamp, counter, nodeId)] and
    [remove(keyHash, ignoreTimestamp, counter, nodeId)].  The present operations that store the
    timestamp they are given are [addData] and [removeData] for a request of another node: they
    refuse an older timestamp, and with the strategy [NONE] any timestamp is taken. *)

Module AVLTreeTest.

Definition strategy (ignoreTimestamp : bool) : LamportClock.UpdateClockStrategy :=
  if ignoreTimestamp then LamportClock.NONE else LamportClock.SET_MAX.
Definition IGNORE_TIMESTAMP : bool := true.
Definition NOT_IGNORE_TIMESTAMP : bool := false.

Definition add (key : SimpleString.t) (keyHash : Z) (value : SimpleString.t) (ignoreTimestamp : bool)
    (counter nodeId : Z) : Avl.M bool :=
  r ← Avl.addData key keyHash value (LamportClock.mk counter nodeId) (strategy ignoreTimestamp) true;
  mret (bool_decide (is_Some r)).
Definition remove (keyHash : Z) (ignoreTimestamp : bool) (counter nodeId : Z) : Avl.M bool :=
  r ← Avl.removeData keyHash (LamportClock.mk counter nodeId) (strategy ignoreTimestamp) true;
  mret (bool_decide (is_Some r)).

(** A tree with a clock, and a test on it. *)
Definition run (body : Avl.M bool) : test :=
  let! (_, b) := body (Avl.mk_state ∅ ∅ None (Some 0)) in Ret b.

(** The node of a hash: its hash, the first byte of its key and its timestamp. *)
Definition node_is (p : option positive) (keyHash : Z) (key : ascii) : Avl.M bool :=
  n ← Avl.deref p;
  b ← lift (first_byte (Avl.key n));
  mret ((Avl.keyHash n =? keyHash) && (b =? code key)).
Definition timestamp_is (p : option positive) (nodeId counter : Z) : Avl.M bool :=
  n ← Avl.deref p;
  d ← Avl.get_data (Avl.data n);
  mret ((LamportClock.nodeId d.2 =? nodeId) && (LamportClock.counter d.2 =? counter)).
Definition hash_of (p : option positive) : Avl.M Z := n ← Avl.deref p; mret (Avl.keyHash n).
Definition left_of (p : option positive) : Avl.M (option positive) := n ← Avl.deref p; mret (Avl.left n).
Definition right_of (p : option positive) : Avl.M (option positive) := n ← Avl.deref p; mret (Avl.right n).

Definition ShouldAddNewKeys : test := run (
  addedA ← add (char "A") 1 (char "A") NOT_IGNORE_TIMESTAMP 1 1;
  c1 ← Avl.contains 1;
  addedNodeA ← Avl.get 1;
  a ← node_is addedNodeA 1 "A";
  addedB ← add (char "B") 2 (char "B") NOT_IGNORE_TIMESTAMP 1 1;
  c2 ← Avl.contains 2;
  addedNodeB ← Avl.get 2;
  b ← node_is addedNodeB 2 "B";
  mret (addedA && c1 && a && addedB && c2 && b)).

(** [keys] says whether the key of the replaced node is compared, as the test does. *)
Definition ShouldReplaceKeys (keys : bool) : test := run (
  _ ← add (char "A") 1 (char "A") NOT_IGNORE_TIMESTAMP 1 1;
  replaced ← add (char "B") 1 (char "B") NOT_IGNORE_TIMESTAMP 2 1;
  c ← Avl.contains 1;
  replacedNode ← Avl.get 1;
  k ← node_is replacedNode 1 "B";
  t ← timestamp_is replacedNode 1 2;
  mret (replaced && c && (negb keys || k) && t)).

Definition ShouldReplaceKeysEventDifferentTimestampCounter (keys : bool) : test := run (
  _ ← add (char "A") 1 (char "A") IGNORE_TIMESTAMP 2 1;
  addedNode ← Avl.get 1;
  replaced ← add (char "B") 1 (char "B") IGNORE_TIMESTAMP 1 1;
  k ← node_is addedNode 1 "B";
  t ← timestamp_is addedNode 1 1;
  mret (replaced && (negb keys || k) && t)).

Definition ShouldntReplaceKeysDifferentTimestampCounter : test := run (
  _ ← add (char "A") 1 (char "A") NOT_IGNORE_TIMESTAMP 2 1;
  addedNode ← Avl.get 1;
  replaced ← add (char "B") 1 (char "B") NOT_IGNORE_TIMESTAMP 1 1;
  k ← node_is addedNode 1 "A";
  t ← timestamp_is addedNode 1 2;
  mret (negb replaced && k && t)).

Definition ShouldntReplaceKeysDifferentTimestampNodeId : test := run (
  _ ← add (char "A") 1 (char "A") NOT_IGNORE_TIMESTAMP 1 2;
  replaced ← add (char "B") 1 (char "B") NOT_IGNORE_TIMESTAMP 1 1;
  addedNode ← Avl.get 1;
  k ← node_is addedNode 1 "A";
  t ← timestamp_is addedNode 2 1;
  mret (negb replaced && k && t)).

(** Adding the hashes of a list, as node [nodeId] at counter 1. *)
Fixpoint add_all (hashes : list Z) (nodeId : Z) : Avl.M () :=
  match hashes with
  | [] => mret ()
  | h :: hashes => _ ← add (char "A") h (char "A") NOT_IGNORE_TIMESTAMP 1 nodeId; add_all hashes nodeId
  end.

Definition ShouldGetAll : test := run (
  _ ← add_all [1; 2; 3; 4; 5] 2;
  allNodes ← Avl.getOrderedByHash;
  mret (bool_decide (length allNodes = 5%nat))).

Definition ShouldntGetAllEmpty : test := run (
  allNodes ← Avl.getOrderedByHash;
  mret (bool_decide (length allNodes = 0%nat))).

Definition RemoveBiggerTree : test := run (
  _ ← add_all [1; 2; 3; 4; 5; 6; 7; 8] 1;
  _ ← remove 6 NOT_IGNORE_TIMESTAMP 2 1;
  rootNode ← Avl.get 4;
  leftToRootNode ← left_of rootNode;
  rightToRootNode ← right_of rootNode;
  h4 ← hash_of rootNode; h2 ← hash_of leftToRootNode; h7 ← hash_of rightToRootNode;
  h1 ← (p ← left_of leftToRootNode; hash_of p);
  h3 ← (p ← right_of leftToRootNode; hash_of p);
  h5 ← (p ← left_of rightToRootNode; hash_of p);
  h8 ← (p ← right_of rightToRootNode; hash_of p);
  mret (bool_decide ([h4; h2; h7; h1; h3; h5; h8] = [4; 2; 7; 1; 3; 5; 8]))).

Definition RemoveRoot : test := run (
  _ ← add_all [1; 2; 3] 1;
  _ ← remove 2 NOT_IGNORE_TIMESTAMP 2 1;
  a1 ← Avl.contains 2; a2 ← Avl.contains 1; a3 ← Avl.contains 3;
  _ ← remove 1 NOT_IGNORE_TIMESTAMP 0 0;
  b1 ← Avl.contains 1; b2 ← Avl.contains 3;
  _ ← remove 1 NOT_IGNORE_TIMESTAMP 2 0;
  c1 ← Avl.contains 3; c2 ← Avl.contains 1;
  mret (negb a1 && a2 && a3 && b1 && b2 && c1 && negb c2)).

(** The assertions of the test up to the first, second and third removal. *)
Definition RemoveLeaf (removals : nat) : test := run (
  _ ← add_all [1; 2; 3] 1;
  _ ← remove 1 NOT_IGNORE_TIMESTAMP 2 1;
  a1 ← Avl.contains 1; a2 ← Avl.contains 2; a3 ← Avl.contains 3;
  let first := negb a1 && a2 && a3 in
  if bool_decide (removals = 1%nat) then mret first else
  _ ← remove 3 NOT_IGNORE_TIMESTAMP 0 0;
  b1 ← Avl.contains 2; b2 ← Avl.contains 3;
  let second := b1 && b2 in
  if bool_decide (removals = 2%nat) then mret (first && second) else
  _ ← remove 3 NOT_IGNORE_TIMESTAMP 2 1;
  c1 ← Avl.contains 3; c2 ← Avl.contains 2;
  mret (first && second && negb c1 && c2)).

End AVLTreeTest.

(** The removal of a hash to the right of the root loses the subtree, so the three tests of
    [remove] fail; [RemoveLeaf] fails at a removal that should be refused.  A replaced node keeps
    its first key, which two tests do not expect. *)
Lemma avl_tests :
  AVLTreeTest.ShouldAddNewKeys = Ret true ∧
  AVLTreeTest.ShouldReplaceKeys true = Ret false ∧ AVLTreeTest.ShouldReplaceKeys false = Ret true ∧
  AVLTreeTest.ShouldReplaceKeysEventDifferentTimestampCounter true = Ret false ∧
  AVLTreeTest.ShouldReplaceKeysEventDifferentTimestampCounter false = Ret true ∧
  AVLTreeTest.ShouldntReplaceKeysDifferentTimestampCounter = Ret true ∧
  AVLTreeTest.ShouldntReplaceKeysDifferentTimestampNodeId = Ret true ∧
  AVLTreeTest.ShouldGetAll = Ret true ∧ AVLTreeTest.ShouldntGetAllEmpty = Ret true.
Proof. by vm_compute. Qed.

Lemma avl_removal_tests_fail :
  AVLTreeTest.RemoveBiggerTree = Ret false ∧ AVLTreeTest.RemoveRoot = Ret false ∧
  AVLTreeTest.RemoveLeaf 1 = Ret true ∧ AVLTreeTest.RemoveLeaf 2 = Ret false ∧ AVLTreeTest.RemoveLeaf 3 = Ret false.
Proof. by vm_compute. Qed.

(** ** [MapTest]

    [put] and [remove] name [putData] and [remove] for a request of another node, [all] what the
    iterator over the buckets returns. *)

Module MapTest.
Import AVLTreeTest.

Definition put (key value : SimpleString.t) (ignoreTimestamp : bool) (counter nodeId : Z) : Map.M bool :=
  r ← Map.putData key value (LamportClock.mk counter nodeId) (AVLTreeTest.strategy ignoreTimestamp) true;
  mret (bool_decide (is_Some r)).
Definition remove (key : SimpleString.t) (ignoreTimestamp : bool) (counter nodeId : Z) : Map.M bool :=
  r ← Map.remove key (LamportClock.mk counter nodeId) (AVLTreeTest.strategy ignoreTimestamp) true;
  mret (bool_decide (is_Some r)).
Definition getSize : Map.M Z := λ m, Ret (m, Map.getSize m).

Fixpoint all_from (n : nat) (bucket : Z) : Map.M nat :=
  match n with
  | O => mret 0%nat
  | S n => p ← Map.iterator_next bucket; k ← all_from n p.1; mret (length p.2 + k)%nat
  end.
Definition all_size : Map.M nat := λ m, all_from (Z.to_nat (Map.iterator_totalSize m)) 0 m.

(** The value of an entry. *)
Definition value_is (e : option Avl.MapEntry) (expected : bytes) : Map.M bool := λ m,
  match e with
  | Some e =>
      match Map.datas m !! Avl.e_data e with
      | Some (Avl.DataAVLNode v _) => Ret (m, bool_decide (SimpleString.data v = expected))
      | _ => Undef
      end
  | None => Ret (m, false)
  end.

Definition run (numberBuckets : Z) (body : Map.M bool) : test :=
  let! (_, b) := body (Map.make (Some 0) numberBuckets) in Ret b.

(** [sizes] says whether [getSize] is compared, as the tests do. *)
Definition ShouldPut (sizes : bool) : test := run 64 (
  placed ← put (text "nombre") (text "jaime") NOT_IGNORE_TIMESTAMP 1 1;
  s1 ← getSize;
  placed2 ← put (text "nombre") (text "pedro") NOT_IGNORE_TIMESTAMP 2 1;
  s2 ← getSize;
  c ← Map.contains (text "nombre");
  mapEntryNombre ← Map.get (text "nombre");
  v ← value_is mapEntryNombre (bytes_of_string "pedro");
  mret (placed && (negb sizes || (s1 =? 1)) && placed2 && (negb sizes || (s2 =? 1)) && c && v)).

Definition ShouldntPut : test := run 64 (
  _ ← put (text "nombre") (text "jaime") NOT_IGNORE_TIMESTAMP 2 1;
  put2 ← put (text "nombre") (text "jaime") NOT_IGNORE_TIMESTAMP 1 1;
  mret (negb put2)).

Definition ShoudntGetEmpty : test := run 64 (
  result ← Map.get (text "a");
  mret (negb (bool_decide (is_Some result)))).

Definition GetAll : test := run 2 (
  _ ← put (text "A") (text "jaime") IGNORE_TIMESTAMP 2 1;
  _ ← put (text "B") (text "jaime") IGNORE_TIMESTAMP 2 1;
  _ ← put (text "C") (text "jaime") IGNORE_TIMESTAMP 2 1;
  _ ← put (text "D") (text "jaime") IGNORE_TIMESTAMP 2 1;
  all ← all_size;
  mret (bool_decide (all = 4%nat))).

Definition ShouldntGetAllEmpty : test := run 2 (all ← all_size; mret (bool_decide (all = 0%nat))).

(** The end of the tests of [remove]: the key is there or not. *)
Definition key_there (sizes expected : bool) : Map.M bool :=
  s ← getSize;
  c ← Map.contains (text "A");
  e ← Map.get (text "A");
  mret ((negb sizes || (s =? Z.b2z expected)) && bool_decide (c = expected) && bool_decide (is_Some e ↔ expected = true)).

Definition ShouldRemoveEvenOldTimestamp (sizes : bool) : test := run 64 (
  _ ← put (text "A") (text "jaime") IGNORE_TIMESTAMP 2 1;
  removed ← remove (text "A") IGNORE_TIMESTAMP 1 1;
  k ← key_there sizes false;
  mret (removed && k)).

Definition ShouldntRemoveOldTimestamp (sizes : bool) : test := run 64 (
  _ ← put (text "A") (text "jaime") NOT_IGNORE_TIMESTAMP 2 1;
  removed ← remove (text "A") NOT_IGNORE_TIMESTAMP 1 1;
  k ← key_there sizes true;
  mret (negb removed && k)).

Definition ShouldntRemoveNotFound : test := run 64 (
  removed ← remove (text "A") NOT_IGNORE_TIMESTAMP 3 1;
  mret (negb removed)).

Definition ShouldRemoe (sizes : bool) : test := run 64 (
  _ ← put (text "A") (text "jaime") NOT_IGNORE_TIMESTAMP 2 1;
  removed ← remove (text "A") NOT_IGNORE_TIMESTAMP 3 1;
  k ← key_there sizes false;
  mret (removed && k)).

End MapTest.

(** [getSize] returns a number nothing updates, so the tests that expect it to be 1 fail. *)
Lemma map_tests :
  MapTest.ShouldPut true = Ret false ∧ MapTest.ShouldPut false = Ret true ∧ MapTest.ShouldntPut = Ret true ∧
  MapTest.ShoudntGetEmpty = Ret true ∧ MapTest.GetAll = Ret true ∧ MapTest.ShouldntGetAllEmpty = Ret true ∧
  MapTest.ShouldRemoveEvenOldTimestamp true = Ret true ∧
  MapTest.ShouldntRemoveOldTimestamp true = Ret false ∧ MapTest.ShouldntRemoveOldTimestamp false = Ret true ∧
  MapTest.ShouldntRemoveNotFound = Ret true ∧ MapTest.ShouldRemoe true = Ret true.
Proof. by vm_compute. Qed.

(** ** [SetOperatorTest], [GetOperatorTest] and [DeleteOperatorTest]

    The store of the tests is partition 0 of a node.  [OperationOptions] gives no first value to
    the clock strategy; the tests run with each of them. *)

Module UserOperatorTest.

Abbreviation M := (stM (node ())).

Section strategy.
Context (strategy : LamportClock.UpdateClockStrategy).

Definition options (checkTimestamps : bool) : OperationOptions.t :=
  OperationOptions.mk checkTimestamps false false false false strategy 0 0.

Definition put (key value : SimpleString.t) (ignoreTimestamp : bool) (counter nodeId : Z) : M bool :=
  on_store 0 (MapTest.put key value ignoreTimestamp counter nodeId).
Definition operation (number : Z) (args : list SimpleString.t) (timestamp nodeId : Z) : OperationBody.t :=
  OperationBody.mk (Some args) timestamp nodeId number false false.

(** [createOperationSet], [createOperationGet] and [createOperationDelete]. *)
Definition createOperationSet (keyValue valueValue timestamp nodeId : Z) : OperationBody.t :=
  operation OperatorNumbers.SET [SimpleString.fromChar keyValue; SimpleString.fromChar valueValue] timestamp nodeId.
Definition createOperationGet (keyValue timestamp nodeId : Z) : OperationBody.t :=
  operation OperatorNumbers.GET [SimpleString.fromChar keyValue] timestamp nodeId.
Definition createOperationDelete (keyValue timestamp nodeId : Z) : OperationBody.t :=
  operation OperatorNumbers.DEL [SimpleString.fromChar keyValue] timestamp nodeId.

Definition value_is (key : SimpleString.t) (expected : bytes) : M bool :=
  on_store 0 (e ← Map.get key; MapTest.value_is e expected).
Definition contains (key : SimpleString.t) : M bool := on_store 0 (Map.contains key).

Definition run (body : M bool) : test :=
  let! (_, b) := body (set_store 0 (Map.make None 64) (sample_node node_1_config)) in Ret b.

Definition CorrectConfig : test :=
  all_of [assert_true (bool_decide (type (desc SetOperator) = DB_STORE_WRITE)); eq (number (desc SetOperator)) OperatorNumbers.SET;
          assert_true (bool_decide (type (desc GetOperator) = DB_STORE_READ)); eq (number (desc GetOperator)) OperatorNumbers.GET;
          assert_true (bool_decide (type (desc DeleteOperator) = DB_STORE_WRITE)); eq (number (desc DeleteOperator)) OperatorNumbers.DEL].

Definition ShouldtReplaceEvenNewerKeyTimestamp : test := run (
  _ ← put (SimpleString.fromChar 0x41) (SimpleString.fromChar 0x01) true 3 1;
  result ← Operators.set_operate (createOperationSet 0x41 0x02 2 1) (options false);
  v ← value_is (char "A") [0x02];
  mret (Response.isSuccessful result && v)).

Definition ShouldntReplaceNewerKeyTimestamp : test := run (
  _ ← put (SimpleString.fromChar 0x41) (SimpleString.fromChar 0x01) true 3 1;
  result ← Operators.set_operate (createOperationSet 0x41 0x02 2 1) (options true);
  v ← value_is (char "A") [0x01];
  mret (negb (Response.isSuccessful result) && v && (Response.errorCode result =? ErrorCode.ALREADY_REPLICATED))).

Definition ShouldReplaceOldKeyTimestamp : test := run (
  _ ← put (SimpleString.fromChar 0x41) (SimpleString.fromChar 0x01) false 1 1;
  result ← Operators.set_operate (createOperationSet 0x41 0x02 2 1) (options true);
  v ← value_is (char "A") [0x02];
  mret (Response.isSuccessful result && v)).

Definition ShouldSetNewKey : test := run (
  response ← Operators.set_operate (createOperationSet 0x41 0x01 1 1) (options true);
  c ← contains (char "A");
  v ← value_is (char "A") [0x01];
  mret (Response.isSuccessful response && c && v)).

Definition get_KeyNotFound : test := run (
  response ← Operators.get_operate (createOperationGet 0x41 1 1) (options false);
  mret (negb (Response.isSuccessful response) && (Response.errorCode response =? 0x01)
        && (SimpleString.size (Response.responseValue response) =? 0))).

Definition get_KeyFound : test := run (
  _ ← put (char "A") (SimpleString.of_bytes [0x4C; 0x4F; 0x4C]) true 1 0;
  response ← Operators.get_operate (createOperationGet 0x41 1 1) (options false);
  mret (Response.isSuccessful response && (Response.errorCode response =? 0)
        && bool_decide (Response.responseValue response = SimpleString.mk [0x4C; 0x4F; 0x4C] 3))).

Definition ShouldntDeleteNewerKeyTimestamp : test := run (
  _ ← put (SimpleString.fromChar 0x41) (SimpleString.fromChar 0x01) false 2 1;
  response ← Operators.delete_operate (createOperationDelete 0x41 1 1) (options true);
  c ← contains (SimpleString.fromChar 0x41);
  mret (negb (Response.isSuccessful response) && c)).

Definition ShouldtDeleteEventNewerKeyTimestamp : test := run (
  _ ← put (SimpleString.fromChar 0x41) (SimpleString.fromChar 0x01) false 2 1;
  response ← Operators.delete_operate (createOperationDelete 0x41 1 1) (options false);
  c ← contains (SimpleString.fromChar 0x41);
  mret (Response.isSuccessful response && negb c)).

Definition ShouldDeleteOlderKeyTimestamp : test := run (
  _ ← put (SimpleString.fromChar 0x41) (SimpleString.fromChar 0x01) false 1 1;
  response ← Operators.delete_operate (createOperationDelete 0x41 2 1) (options true);
  c ← contains (SimpleString.fromChar 0x41);
  mret (Response.isSuccessful response && negb c)).

Definition delete_KeyNotFound : test := run (
  response ← Operators.delete_operate (createOperationDelete 0x41 1 2) (options true);
  mret (negb (Response.isSuccessful response) && (Response.errorCode response =? ErrorCode.UNKNOWN_KEY))).

(** The tests that hold whatever the strategy, and those that ask for timestamps to be checked. *)
Definition plain : list test :=
  [CorrectConfig; ShouldtReplaceEvenNewerKeyTimestamp; ShouldReplaceOldKeyTimestamp; ShouldSetNewKey; get_KeyNotFound;
   get_KeyFound; ShouldtDeleteEventNewerKeyTimestamp; ShouldDeleteOlderKeyTimestamp; delete_KeyNotFound].
Definition checking : list test := [ShouldntReplaceNewerKeyTimestamp; ShouldntDeleteNewerKeyTimestamp].

End strategy.
End UserOperatorTest.

(** The strategy [NONE], which the tests' options contain, ignores timestamps; with the
    strategies the dispatcher passes every test holds. *)
Lemma user_operator_tests strategy : Forall (λ t, t = Ret true) (UserOperatorTest.plain strategy).
Proof. by destruct strategy; repeat constructor; vm_compute. Qed.

Lemma user_operator_timestamp_tests :
  UserOperatorTest.checking LamportClock.NONE = [Ret false; Ret false] ∧
  UserOperatorTest.checking LamportClock.SET_MAX = [Ret true; Ret true] ∧
  UserOperatorTest.checking LamportClock.TICK = [Ret true; Ret true].
Proof. by vm_compute. Qed.
